(** * ZhiMo document-ingestion backend: the processing pipeline, verified

    A shallow embedding of the document pipeline of the repository
    (Document / Summary / Concept models, DocumentService,
    FileExtractService, DocumentController, AIService) together with the
    properties of its natural-language specification.

    Conventions.
    - A JavaScript string is the list of its UTF-16 code units, so that
      [length] is [String.prototype.length].
    - A Mongoose collection whose rows are found by [_id] only is a finite
      map from ids; a collection guarded by a compound unique index is the
      list of its rows, the index being checked on insertion.
    - Asynchronous code is written in a state-and-error monad over a
      [World]; every database write, external call and console message is
      appended to the world's event log, and a promise that is not awaited
      is recorded as a detached job. *)

From Stdlib Require Import List String Ascii NArith ZArith QArith Bool Lia DecimalString.
From stdpp Require Import base option gmap.
Import ListNotations.

Open Scope N_scope.

(** ** JavaScript strings *)

Module JS.

Definition jsstring := list N.

(** Decoder from the UTF-8 bytes of a Rocq literal to UTF-16 code units;
    it is only used to write the string constants of the source legibly. *)
Fixpoint utf16_of_utf8 (bs : list N) : jsstring :=
  match bs with
  | [] => []
  | b :: r1 =>
    if b <? 128 then b :: utf16_of_utf8 r1
    else
      match r1 with
      | [] => [b]
      | b2 :: r2 =>
        if b <? 224 then
          (N.lor (N.shiftl (N.land b 31) 6) (N.land b2 63)) :: utf16_of_utf8 r2
        else
          match r2 with
          | [] => [b; b2]
          | b3 :: r3 =>
            if b <? 240 then
              (N.lor (N.shiftl (N.land b 15) 12)
                 (N.lor (N.shiftl (N.land b2 63) 6) (N.land b3 63)))
              :: utf16_of_utf8 r3
            else
              match r3 with
              | [] => [b; b2; b3]
              | b4 :: r4 =>
                let cp :=
                  N.lor (N.shiftl (N.land b 7) 18)
                    (N.lor (N.shiftl (N.land b2 63) 12)
                       (N.lor (N.shiftl (N.land b3 63) 6) (N.land b4 63))) in
                let v := cp - 65536 in
                (55296 + N.shiftr v 10) :: (56320 + N.land v 1023)
                :: utf16_of_utf8 r4
              end
          end
      end
  end.

Definition utf16 (s : string) : jsstring :=
  utf16_of_utf8 (List.map N_of_ascii (list_ascii_of_string s)).

(** [\s] of a JavaScript regular expression, which is also the set that
    [String.prototype.trim] strips. *)
Definition is_ws (c : N) : bool :=
  ((9 <=? c) && (c <=? 13)) || (c =? 32) || (c =? 160) || (c =? 5760)
  || ((8192 <=? c) && (c <=? 8202)) || (c =? 8232) || (c =? 8233)
  || (c =? 8239) || (c =? 8287) || (c =? 12288) || (c =? 65279).

(** [\d] *)
Definition is_digit (c : N) : bool := (48 <=? c) && (c <=? 57).

(** [[A-Z]] *)
Definition is_AZ (c : N) : bool := (65 <=? c) && (c <=? 90).

Fixpoint trimStart (s : jsstring) : jsstring :=
  match s with
  | [] => []
  | c :: r => if is_ws c then trimStart r else s
  end.

Definition trimEnd (s : jsstring) : jsstring := rev (trimStart (rev s)).

Definition trim (s : jsstring) : jsstring := trimEnd (trimStart s).

(** Truthiness of a string value: the empty string is the only falsy one. *)
Definition truthy (s : jsstring) : bool :=
  match s with [] => false | _ :: _ => true end.

Fixpoint eqb (s t : jsstring) : bool :=
  match s, t with
  | [], [] => true
  | a :: s', b :: t' => (a =? b) && eqb s' t'
  | _, _ => false
  end.

(** [s.startsWith(p)] *)
Fixpoint startsWith (s p : jsstring) : bool :=
  match p, s with
  | [], _ => true
  | a :: p', b :: s' => (a =? b) && startsWith s' p'
  | _ :: _, [] => false
  end.

(** [s.includes(sub)] *)
Fixpoint includes (s sub : jsstring) : bool :=
  startsWith s sub ||
  match s with
  | [] => false
  | _ :: r => includes r sub
  end.

(** [s.split(sep)] for a one-unit separator; the result is never empty. *)
Fixpoint split (sep : N) (s : jsstring) : list jsstring :=
  match s with
  | [] => [[]]
  | c :: r =>
    if c =? sep then [] :: split sep r
    else
      match split sep r with
      | [] => [[c]]
      | h :: t => (c :: h) :: t
      end
  end.

(** [parts.join(sep)] *)
Fixpoint join (sep : jsstring) (parts : list jsstring) : jsstring :=
  match parts with
  | [] => []
  | [p] => p
  | p :: rest => p ++ sep ++ join sep rest
  end.

(** [parseInt] on a run of decimal digits. *)
Definition parseDigits (ds : jsstring) : N :=
  fold_left (fun acc d => 10 * acc + (d - 48)) ds 0.

(** The longest prefix of digits, and what follows it. *)
Fixpoint spanDigits (s : jsstring) : jsstring * jsstring :=
  match s with
  | [] => ([], [])
  | c :: r =>
    if is_digit c then let '(ds, rest) := spanDigits r in (c :: ds, rest)
    else ([], s)
  end.

(** [toUpperCase] and [toLowerCase] restricted to ASCII letters.  The
    engine's full Unicode case tables are a parameter of the functions
    that use them; on strings of ASCII code units they agree with these. *)
Definition asciiUpper (s : jsstring) : jsstring :=
  List.map (fun c => if (97 <=? c) && (c <=? 122) then c - 32 else c) s.

Definition asciiLower (s : jsstring) : jsstring :=
  List.map (fun c => if (65 <=? c) && (c <=? 90) then c + 32 else c) s.

Definition LF : N := 10.

End JS.

Import JS.

(** ** AIService: the Mermaid syntax check *)

Module AIService.

Definition validTypes : list jsstring :=
  Eval cbv in
    List.map utf16
      ["mindmap"; "graph"; "flowchart"; "gitgraph"; "journey"; "gantt"; "pie";
       "quadrantChart"]%string.

Definition mindmap : jsstring := Eval cbv in utf16 "mindmap".

(** ['<', '>', '{', '}', '[', ']', '(', ')', '|'] *)
Definition invalidChars : list N := [60; 62; 123; 125; 91; 93; 40; 41; 124].

(** [isValidMindmapNode(line)]: the indentation is measured and then not
    used, as in the source. *)
Definition isValidMindmapNode (line : jsstring) : bool :=
  let indent := (length line - length (trimStart line))%nat in
  let content := trim line in
  if negb (truthy content) || (length content =? 0)%nat then false
  else negb (existsb (fun char => includes content [char]) invalidChars).

(** [validateMermaidSyntax(mermaidCode)].  On a string argument nothing
    in the body throws, so the [catch] branch is not reachable. *)
Definition validateMermaidSyntax (mermaidCode : jsstring) : bool :=
  let lines := List.filter (fun line => truthy (trim line)) (split LF mermaidCode) in
  match lines with
  | [] => false
  | l0 :: rest =>
    let firstLine := trim l0 in
    let hasValidType := existsb (fun type => startsWith firstLine type) validTypes in
    if negb hasValidType then false
    else if startsWith firstLine mindmap
            && existsb (fun l => let line := trim l in
                                 truthy line && negb (isValidMindmapNode line)) rest
    then false
    else if (length lines <? 2)%nat then false
    else true
  end.

End AIService.

(** ** DocumentService (synchronous variant): PDF text to Markdown

    The text heuristics of [convertPdfTextToMarkdown] and its helpers. *)

Module PdfText.

(** What [pdf-parse] returns, as far as the service reads it. *)
Record PdfInfo := {
  Title : jsstring;
  Author : jsstring;
  Subject : jsstring;
  Creator : jsstring;
  CreationDate : jsstring
}.

Record PdfData := {
  text : jsstring;
  numpages : N;
  info : option PdfInfo
}.

Definition lit (s : string) : jsstring := utf16 s.
Arguments lit s%_string.

Definition decimal (n : N) : jsstring :=
  utf16 (DecimalString.NilZero.string_of_uint (N.to_uint n)).

(** ['章', '节', '部分', 'Chapter', 'Section', 'Part', '第', '概述', '介绍', '总结'] *)
Definition titleKeywords : list jsstring :=
  Eval cbv in
    List.map utf16
      ["章"; "节"; "部分"; "Chapter"; "Section"; "Part"; "第"; "概述"; "介绍";
       "总结"]%string.

Definition zhang : jsstring := Eval cbv in utf16 "章".
Definition jie : jsstring := Eval cbv in utf16 "节".
Definition di : jsstring := Eval cbv in utf16 "第".
Definition chapter : jsstring := Eval cbv in utf16 "chapter".
Definition section : jsstring := Eval cbv in utf16 "section".

Definition DOT : N := 46.
Definition HASH : N := 35.

(** [/^\d+[\.\s]/.test(line)] *)
Definition startsWithNumber (line : jsstring) : bool :=
  let '(ds, rest) := spanDigits line in
  truthy ds &&
  match rest with
  | c :: _ => (c =? DOT) || is_ws c
  | [] => false
  end.

(** [line.match(/^(\d+)\.(\d+)/)] succeeds *)
Definition subNumberMatch (line : jsstring) : bool :=
  let '(ds, rest) := spanDigits line in
  truthy ds &&
  match rest with
  | c :: d :: _ => (c =? DOT) && is_digit d
  | _ => false
  end.

(** [line.match(/^(\d+)[\.\s]/)]: the first group when it matches *)
Definition numberMatch (line : jsstring) : option jsstring :=
  if startsWithNumber line then Some (fst (spanDigits line)) else None.

(** [!lines[k].trim()]; reading past the array yields [undefined], on
    which [.trim()] raises a TypeError: [None]. *)
Definition lineEmptyAt (lines : list jsstring) (k : nat) : option bool :=
  match nth_error lines k with
  | Some l => Some (negb (truthy (trim l)))
  | None => None
  end.

Section CaseTables.

Variable toUpperCase : jsstring -> jsstring.
Variable toLowerCase : jsstring -> jsstring.

(** [isPotentialTitle(line, lines, index)]; [None] is the TypeError of an
    index outside [lines]. *)
Definition isPotentialTitle (line : jsstring) (lines : list jsstring)
    (index : nat) : option bool :=
  if negb (truthy (trim line)) then Some false
  else if (100 <? length line)%nat then Some false
  else
    let hasUpperCase := existsb is_AZ line in
    let isAllUpperCase := JS.eqb line (toUpperCase line) && hasUpperCase in
    let startsWithNumber := startsWithNumber line in
    match (match index with
           | O => Some true
           | S k => lineEmptyAt lines k
           end) with
    | None => None
    | Some prevLineEmpty =>
      match (if (S index =? length lines)%nat then Some true
             else lineEmptyAt lines (S index)) with
      | None => None
      | Some nextLineEmpty =>
        let containsTitleKeyword :=
          existsb (fun keyword => includes line keyword) titleKeywords in
        Some ((isAllUpperCase && prevLineEmpty)
              || startsWithNumber
              || (containsTitleKeyword && (length line <? 50)%nat)
              || (prevLineEmpty && nextLineEmpty && (length line <? 80)%nat))
      end
    end.

(** [determineTitleLevel(line, lines, index)].  The comparison
    [index < lines.length * 0.1] is written [10 * index < lines.length]:
    for an integer [index] and a length below 2^50 the two agree, the
    rounding of [lines.length * 0.1] never crossing an integer. *)
Definition determineTitleLevel (line : jsstring) (lines : list jsstring)
    (index : nat) : nat :=
  if subNumberMatch line then 2%nat
  else
    match numberMatch line with
    | Some digits => if parseDigits digits <=? 10 then 1%nat else 2%nat
    | None =>
      if includes line di && (includes line zhang || includes line jie) then
        (if includes line zhang then 1%nat else 2%nat)
      else if includes (toLowerCase line) chapter then 1%nat
      else if includes (toLowerCase line) section then 2%nat
      else if (10 * index <? length lines)%nat then 1%nat
      else if (length line <? 30)%nat then 2%nat
      else 3%nat
    end.

(** [generateDocumentInfo(pdfData)] *)
Definition generateDocumentInfo (pdfData : PdfData) : jsstring :=
  let field (label v : jsstring) : list jsstring :=
    if truthy v then [label ++ v] else [] in
  let info :=
    [lit "---"; lit "**文档信息**"; []; lit "- **页数**: " ++ decimal (numpages pdfData)]
    ++ match info pdfData with
       | Some i =>
         field (lit "- **标题**: ") (Title i) ++ field (lit "- **作者**: ") (Author i)
         ++ field (lit "- **主题**: ") (Subject i) ++ field (lit "- **创建工具**: ") (Creator i)
         ++ field (lit "- **创建日期**: ") (CreationDate i)
       | None => []
       end
    ++ [lit "---"] in
  join [LF] info.

(** [.replace(/\r\n/g, '\n')] *)
Fixpoint replaceCRLF (s : jsstring) : jsstring :=
  match s with
  | [] => []
  | c :: r =>
    if c =? 13 then
      match r with
      | d :: r' => if d =? LF then LF :: replaceCRLF r' else c :: replaceCRLF r
      | [] => [c]
      end
    else c :: replaceCRLF r
  end.

(** [.replace(/\r/g, '\n')] *)
Definition replaceCR (s : jsstring) : jsstring :=
  List.map (fun c => if c =? 13 then LF else c) s.

(** The part of a whitespace run that follows its last line feed. *)
Fixpoint afterLastLF (run : jsstring) : jsstring :=
  match run with
  | [] => []
  | c :: r =>
    if existsb (N.eqb LF) r then afterLastLF r
    else if c =? LF then r else c :: r
  end.

(** What a line feed followed by the maximal whitespace run [run] becomes
    under [.replace(/\n\s*\n\s*\n/g, '\n\n')]: the pattern matches there
    exactly when the run holds two more line feeds, and then it extends to
    the last of them. *)
Definition flushRun (run : jsstring) : jsstring :=
  if (2 <=? length (List.filter (N.eqb LF) run))%nat
  then LF :: LF :: afterLastLF run
  else LF :: run.

(** [.replace(/\n\s*\n\s*\n/g, '\n\n')]; [pending] is the whitespace run
    read since the last unmatched line feed, most recent unit first. *)
Fixpoint collapseBlankLines (pending : option jsstring) (s : jsstring)
    : jsstring :=
  match s with
  | [] =>
    match pending with
    | None => []
    | Some run => flushRun (rev run)
    end
  | c :: r =>
    match pending with
    | None =>
      if c =? LF then collapseBlankLines (Some []) r
      else c :: collapseBlankLines None r
    | Some run =>
      if is_ws c then collapseBlankLines (Some (c :: run)) r
      else flushRun (rev run) ++ c :: collapseBlankLines None r
    end
  end.

(** The body of the [for] loop of [convertPdfTextToMarkdown], from index
    [i] on; [rest] is [lines] from [i]. *)
Fixpoint processLines (lines rest : list jsstring) (i : nat)
    : option (list jsstring) :=
  match rest with
  | [] => Some []
  | line :: rest' =>
    match
      (if negb (truthy line) then Some []
       else
         match isPotentialTitle line lines i with
         | None => None
         | Some true =>
           let level := determineTitleLevel line lines i in
           Some (List.repeat HASH level ++ [32] ++ line)
         | Some false => Some line
         end)
    with
    | None => None
    | Some out =>
      match processLines lines rest' (S i) with
      | None => None
      | Some outs => Some (out :: outs)
      end
    end
  end.

(** [convertPdfTextToMarkdown(pdfData)]; [None] would be an exception
    escaping [isPotentialTitle]. *)
Definition convertPdfTextToMarkdown (pdfData : PdfData) : option jsstring :=
  let text := text pdfData in
  let docInfo := generateDocumentInfo pdfData in
  if negb (truthy text) || (length (trim text) =? 0)%nat then
    Some (docInfo
          ++ lit "

# 文档内容

无法提取文本内容，可能是扫描版PDF或包含大量图片的文档。")
  else
    let text :=
      join [LF]
        (List.map trim
           (split LF (collapseBlankLines None (replaceCR (replaceCRLF text))))) in
    let lines := split LF text in
    match processLines lines lines 0 with
    | None => None
    | Some processedLines =>
      let markdownContent := join [LF] processedLines in
      let markdownContent :=
        if negb (includes markdownContent [HASH])
        then lit "# 文档内容

" ++ markdownContent
        else markdownContent in
      Some (docInfo ++ [LF; LF] ++ markdownContent)
    end.

End CaseTables.

End PdfText.

(** ** Errors *)

Inductive ErrorName :=
| GenericError        (* [new Error(message)] *)
| ValidationError     (* Mongoose schema validation *)
| MongoServerError    (* E11000 duplicate key on a unique index *)
| TypeError.

Record Error := mkError { name : ErrorName; message : jsstring }.

Definition newError (msg : jsstring) : Error := mkError GenericError msg.

Inductive Result (A : Type) :=
| Ok (a : A)
| Throw (e : Error).
Arguments Ok {A} a.
Arguments Throw {A} e.

(** ** Mongoose schemas *)

Module DocumentSchema.

Inductive Status := pending | processing | completed | failed.

(** The fields of [documentSchema] that the pipeline reads or writes; of
    [metadata] only [mimeType] and [url] are kept. *)
Record t := mk {
  _id : N;
  userId : N;
  title : jsstring;
  originalFormat : jsstring;
  filePath : option jsstring;
  markdownContent : jsstring;
  restructuredContent : option jsstring;
  mimeType : jsstring;
  url : option jsstring;
  processingStatus : Status;
  processingError : option jsstring;
  tags : list jsstring;
  isDeleted : bool
}.

Definition set_markdownContent (v : jsstring) (d : t) : t :=
  mk (_id d) (userId d) (title d) (originalFormat d) (filePath d) v
     (restructuredContent d) (mimeType d) (url d) (processingStatus d)
     (processingError d) (tags d) (isDeleted d).

Definition set_restructuredContent (v : option jsstring) (d : t) : t :=
  mk (_id d) (userId d) (title d) (originalFormat d) (filePath d)
     (markdownContent d) v (mimeType d) (url d) (processingStatus d)
     (processingError d) (tags d) (isDeleted d).

Definition set_processingStatus (v : Status) (d : t) : t :=
  mk (_id d) (userId d) (title d) (originalFormat d) (filePath d)
     (markdownContent d) (restructuredContent d) (mimeType d) (url d) v
     (processingError d) (tags d) (isDeleted d).

Definition set_processingError (v : option jsstring) (d : t) : t :=
  mk (_id d) (userId d) (title d) (originalFormat d) (filePath d)
     (markdownContent d) (restructuredContent d) (mimeType d) (url d)
     (processingStatus d) v (tags d) (isDeleted d).

Definition set_isDeleted (v : bool) (d : t) : t :=
  mk (_id d) (userId d) (title d) (originalFormat d) (filePath d)
     (markdownContent d) (restructuredContent d) (mimeType d) (url d)
     (processingStatus d) (processingError d) (tags d) v.

Definition fmt_url : jsstring := Eval cbv in utf16 "url".
Definition fmt_pdf : jsstring := Eval cbv in utf16 "pdf".

(** [enum: ['pdf', 'docx', 'pptx', 'image', 'url']] *)
Definition originalFormatEnum : list jsstring :=
  Eval cbv in List.map utf16 ["pdf"; "docx"; "pptx"; "image"; "url"]%string.

Definition inEnum (v : jsstring) (enum : list jsstring) : bool :=
  existsb (JS.eqb v) enum.

Definition someTruthy (v : option jsstring) : bool :=
  match v with Some s => truthy s | None => false end.

(** The validators of the schema, run by [save()] on a new document. *)
Definition validate (d : t) : bool :=
  truthy (title d) && (length (title d) <=? 200)%nat
  && truthy (originalFormat d) && inEnum (originalFormat d) originalFormatEnum
  && (JS.eqb (originalFormat d) fmt_url || someTruthy (filePath d))
  && (negb (JS.eqb (originalFormat d) fmt_url) || someTruthy (url d))
  && match restructuredContent d with
     | Some r => N.of_nat (length r) <=? 50000
     | None => true
     end
  && forallb (fun tag => (length tag <=? 50)%nat) (tags d).

(** [documentSchema.methods.updateProcessingStatus(status, error = null)],
    the assignments before [this.save()]. *)
Definition updateProcessingStatus (status : Status) (error : option jsstring)
    (this : t) : t :=
  let this := set_processingStatus status this in
  if someTruthy error then set_processingError error this
  else set_processingError None this.

(** [documentSchema.methods.softDelete], before [this.save()]. *)
Definition softDelete (this : t) : t := set_isDeleted true this.

End DocumentSchema.

Module SummarySchema.

Record t := mk {
  _id : N;
  documentId : N;
  userId : N;
  type : jsstring;
  content : jsstring;
  version : N;
  isDeleted : bool
}.

Definition ai_generated : jsstring := Eval cbv in utf16 "ai_generated".

(** [enum: ['ai_generated', 'manual', 'oneline', 'detailed', 'keypoints']] *)
Definition typeEnum : list jsstring :=
  Eval cbv in
    List.map utf16
      ["ai_generated"; "manual"; "oneline"; "detailed"; "keypoints"]%string.

Definition validate (s : t) : bool :=
  DocumentSchema.inEnum (type s) typeEnum
  && truthy (content s) && (N.of_nat (length (content s)) <=? 10000).

(** The key of [summarySchema.index({ documentId: 1, type: 1 }, { unique: true })] *)
Definition key (s : t) : N * jsstring := (documentId s, type s).

End SummarySchema.

Module ConceptSchema.

Record Occurrence := mkOcc {
  position : Z;
  context : jsstring;
  confidence : Q
}.

Record t := mk {
  _id : N;
  term : jsstring;
  definition : jsstring;
  documentId : N;
  userId : N;
  occurrences : list Occurrence;
  category : jsstring;
  importance : Z;
  isDeleted : bool
}.

(** [enum: ['person', 'place', 'concept', 'term', 'formula', 'theory', 'other']] *)
Definition categoryEnum : list jsstring :=
  Eval cbv in
    List.map utf16
      ["person"; "place"; "concept"; "term"; "formula"; "theory"; "other"]%string.

Definition validOccurrence (o : Occurrence) : bool :=
  (0 <=? position o)%Z
  && truthy (context o) && (length (context o) <=? 500)%nat
  && Qle_bool 0 (confidence o) && Qle_bool (confidence o) 1.

Definition validate (c : t) : bool :=
  truthy (term c) && (length (term c) <=? 200)%nat
  && truthy (definition c) && (length (definition c) <=? 2000)%nat
  && forallb validOccurrence (occurrences c)
  && DocumentSchema.inEnum (category c) categoryEnum
  && (1 <=? importance c)%Z && (importance c <=? 5)%Z.

(** The key of [conceptSchema.index({ documentId: 1, term: 1 }, { unique: true })] *)
Definition key (c : t) : N * jsstring := (documentId c, term c).

Definition set_occurrences (v : list Occurrence) (c : t) : t :=
  mk (_id c) (term c) (definition c) (documentId c) (userId c) v
     (category c) (importance c) (isDeleted c).

(** [existingConcept.definition = ...; .category = ...; .importance = ...] *)
Definition assign (definition' category' : jsstring) (importance' : Z) (c : t) : t :=
  mk (_id c) (term c) definition' (documentId c) (userId c) (occurrences c)
     category' importance' (isDeleted c).

(** The array update of [conceptSchema.methods.addOccurrence]: the first
    occurrence at the same position is overwritten, else one is pushed. *)
Fixpoint putOccurrence (o : Occurrence) (occs : list Occurrence)
    : list Occurrence :=
  match occs with
  | [] => [o]
  | occ :: rest =>
    if (position occ =? position o)%Z then o :: rest
    else occ :: putOccurrence o rest
  end.

(** [conceptSchema.methods.addOccurrence(position, context, confidence)],
    before [this.save()]. *)
Definition addOccurrence (position : Z) (context : jsstring) (confidence : Q)
    (this : t) : t :=
  set_occurrences (putOccurrence (mkOcc position context confidence) (occurrences this)) this.

End ConceptSchema.

(** ** The world: collections, event log, detached promises *)

Definition Buffer := list N.

(** A promise that was created and not awaited.  Its body runs after the
    code that created it has returned. *)
Inductive Job :=
| JobExtract (documentId : N) (fileBuffer : Buffer) (mimeType : jsstring)
| JobAI (documentId : N) (markdownContent : jsstring).

Inductive AICall := Restructure | Summarize | Concepts.

Inductive Event :=
| DocumentWrite (before : option DocumentSchema.t) (after : DocumentSchema.t)
| SummaryInsert (s : SummarySchema.t)
| ConceptWrite (before : option ConceptSchema.t) (after : ConceptSchema.t)
| S3Put (key : jsstring)
| S3Get (key : option jsstring)
| S3Delete (key : jsstring)
| ParseAttempt (documentId : N)
| AIRequest (call : AICall)
| ConsoleError (label : jsstring) (e : Error).

Record World := mkWorld {
  documents : gmap N DocumentSchema.t;
  summaries : list SummarySchema.t;
  concepts : list ConceptSchema.t;
  nextDocumentId : N;
  nextSummaryId : N;
  nextConceptId : N;
  log : list Event;
  detached : list Job
}.

Definition emptyWorld : World := mkWorld ∅ [] [] 1 1 1 [] [].

Definition set_documents (v : gmap N DocumentSchema.t) (w : World) : World :=
  mkWorld v (summaries w) (concepts w) (nextDocumentId w) (nextSummaryId w)
    (nextConceptId w) (log w) (detached w).

Definition set_summaries (v : list SummarySchema.t) (w : World) : World :=
  mkWorld (documents w) v (concepts w) (nextDocumentId w) (nextSummaryId w)
    (nextConceptId w) (log w) (detached w).

Definition set_concepts (v : list ConceptSchema.t) (w : World) : World :=
  mkWorld (documents w) (summaries w) v (nextDocumentId w) (nextSummaryId w)
    (nextConceptId w) (log w) (detached w).

Definition set_nextDocumentId (v : N) (w : World) : World :=
  mkWorld (documents w) (summaries w) (concepts w) v (nextSummaryId w)
    (nextConceptId w) (log w) (detached w).

Definition set_nextSummaryId (v : N) (w : World) : World :=
  mkWorld (documents w) (summaries w) (concepts w) (nextDocumentId w) v
    (nextConceptId w) (log w) (detached w).

Definition set_nextConceptId (v : N) (w : World) : World :=
  mkWorld (documents w) (summaries w) (concepts w) (nextDocumentId w)
    (nextSummaryId w) v (log w) (detached w).

Definition set_log (v : list Event) (w : World) : World :=
  mkWorld (documents w) (summaries w) (concepts w) (nextDocumentId w)
    (nextSummaryId w) (nextConceptId w) v (detached w).

Definition set_detached (v : list Job) (w : World) : World :=
  mkWorld (documents w) (summaries w) (concepts w) (nextDocumentId w)
    (nextSummaryId w) (nextConceptId w) (log w) v.

(** ** The monad of asynchronous code

    [await] is sequencing; a rejected promise is [Throw]; writes made
    before a rejection stay in the world. *)

Definition M (A : Type) : Type := World -> Result A * World.

Definition ret {A} (a : A) : M A := fun w => (Ok a, w).

Definition throw {A} (e : Error) : M A := fun w => (Throw e, w).

Definition bind {A B} (m : M A) (k : A -> M B) : M B :=
  fun w =>
    match m w with
    | (Ok a, w') => k a w'
    | (Throw e, w') => (Throw e, w')
    end.

Definition tryCatch {A} (m : M A) (handler : Error -> M A) : M A :=
  fun w =>
    match m w with
    | (Ok a, w') => (Ok a, w')
    | (Throw e, w') => handler e w'
    end.

(** [Promise.allSettled] on one promise: its outcome as a value. *)
Definition settle {A} (m : M A) : M (Result A) :=
  fun w => let '(r, w') := m w in (Ok r, w').

Definition lift {A} (r : Result A) : M A := fun w => (r, w).

Declare Scope monad_scope.
Delimit Scope monad_scope with monad.
Notation "x <- m ;; k" := (bind m (fun x => k))
  (at level 100, m at next level, right associativity) : monad_scope.
Notation "m ;;; k" := (bind m (fun _ => k))
  (at level 100, right associativity) : monad_scope.
Open Scope monad_scope.

Definition emit (ev : Event) : M unit :=
  fun w => (Ok tt, set_log (log w ++ [ev]) w).

(** [console.error(label, error)] *)
Definition consoleError (label : string) (e : Error) : M unit :=
  emit (ConsoleError (utf16 label) e).
Arguments consoleError label%_string e.

(** Calling an async function without awaiting it. *)
Definition spawn (j : Job) : M unit :=
  fun w => (Ok tt, set_detached (detached w ++ [j]) w).

(** ** Mongoose models over the world *)

Module Document.

Import DocumentSchema.

Definition findById (id : N) : M (option t) :=
  fun w => (Ok (documents w !! id), w).

(** An update of stored paths: [findByIdAndUpdate(id, update)], and
    [doc.save()] on a loaded document, which writes the modified paths.
    A missing document is left missing. *)
Definition update (id : N) (paths : t -> t) : M unit :=
  fun w =>
    match documents w !! id with
    | None => (Ok tt, w)
    | Some d =>
      (Ok tt,
       set_log (log w ++ [DocumentWrite (Some d) (paths d)])
         (set_documents (<[id := paths d]> (documents w)) w))
    end.

Definition findByIdAndUpdate := update.

(** [new Document(fields)] draws a fresh [_id]; the schema's [trim]
    setters and defaults are applied. *)
Definition new (userId : N) (title originalFormat : jsstring)
    (filePath : option jsstring) (mimeType : jsstring) (url : option jsstring)
    (processingStatus : Status) (tags : list jsstring) : M t :=
  fun w =>
    (Ok (mk (nextDocumentId w) userId (trim title) originalFormat filePath []
           None (trim mimeType) (option_map trim url) processingStatus None
           (List.map trim tags) false),
     set_nextDocumentId (nextDocumentId w + 1) w).

(** [document.save()] on a new document: validation, then insertion. *)
Definition save (d : t) : M t :=
  fun w =>
    if validate d then
      (Ok d,
       set_log (log w ++ [DocumentWrite None d])
         (set_documents (<[_id d := d]> (documents w)) w))
    else
      (Throw (mkError ValidationError (utf16 "Document validation failed")), w).

End Document.

Module Summary.

Import SummarySchema.

Definition new (documentId userId : N) (content type : jsstring) : M t :=
  fun w =>
    (Ok (mk (nextSummaryId w) documentId userId type content 1 false),
     set_nextSummaryId (nextSummaryId w + 1) w).

Definition key_eqb (k1 k2 : N * jsstring) : bool :=
  (fst k1 =? fst k2) && JS.eqb (snd k1) (snd k2).

(** [summary.save()] on a new row: validation, then an insert that the
    unique index on (documentId, type) rejects when the key is taken. *)
Definition save (s : t) : M t :=
  fun w =>
    if negb (validate s) then
      (Throw (mkError ValidationError (utf16 "Summary validation failed")), w)
    else if existsb (fun r => key_eqb (key r) (key s)) (summaries w) then
      (Throw (mkError MongoServerError (utf16 "E11000 duplicate key error")), w)
    else
      (Ok s, set_log (log w ++ [SummaryInsert s]) (set_summaries (summaries w ++ [s]) w)).

(** [Summary.findByDocument(documentId, { type })] *)
Definition findByDocument (documentId : N) (type : option jsstring) : M (list t) :=
  fun w =>
    (Ok (List.filter
           (fun r => (SummarySchema.documentId r =? documentId)
                     && negb (isDeleted r)
                     && match type with
                        | Some ty => if truthy ty then JS.eqb (SummarySchema.type r) ty else true
                        | None => true
                        end)
           (summaries w)), w).

(** [Summary.find({ documentId: { $in: documentIds }, isDeleted: false })
      .distinct('documentId')] *)
Definition distinctDocumentId (documentIds : list N) : M (list N) :=
  fun w =>
    (Ok (nodup N.eq_dec
           (List.map documentId
              (List.filter
                 (fun r => existsb (N.eqb (documentId r)) documentIds
                           && negb (isDeleted r))
                 (summaries w)))), w).

End Summary.

Module Concept.

Import ConceptSchema.

(** [Concept.findOne({ documentId, term })]; the schema's [trim] setter
    applies to the queried term as it does to the stored one. *)
Definition findOne (documentId : N) (term : jsstring) : M (option t) :=
  fun w =>
    (Ok (List.find
           (fun r => Summary.key_eqb (key r) (documentId, trim term))
           (concepts w)), w).

Definition new (term definition : jsstring) (documentId userId : N)
    (category : jsstring) (importance : Z) (occurrences : list Occurrence) : M t :=
  fun w =>
    (Ok (mk (nextConceptId w) (trim term) definition documentId userId
           occurrences category importance false),
     set_nextConceptId (nextConceptId w + 1) w).

(** Replacing the stored row that has the [_id] of [c]. *)
Fixpoint replaceById (c : t) (rows : list t) : list t :=
  match rows with
  | [] => []
  | r :: rest =>
    if _id r =? _id c then c :: rest else r :: replaceById c rest
  end.

(** [concept.save()] on a new row. *)
Definition save (c : t) : M t :=
  fun w =>
    if negb (validate c) then
      (Throw (mkError ValidationError (utf16 "Concept validation failed")), w)
    else if existsb (fun r => Summary.key_eqb (key r) (key c)) (concepts w) then
      (Throw (mkError MongoServerError (utf16 "E11000 duplicate key error")), w)
    else
      (Ok c, set_log (log w ++ [ConceptWrite None c]) (set_concepts (concepts w ++ [c]) w)).

(** [existingConcept.save()] on a row obtained from [findOne]: validation,
    then the row is rewritten in place. *)
Definition saveExisting (c : t) : M t :=
  fun w =>
    if negb (validate c) then
      (Throw (mkError ValidationError (utf16 "Concept validation failed")), w)
    else
      (Ok c,
       set_log (log w ++ [ConceptWrite (List.find (fun r => _id r =? _id c) (concepts w)) c])
         (set_concepts (replaceById c (concepts w)) w)).

(** [Concept.find({ documentId: { $in: documentIds }, isDeleted: false })
      .distinct('documentId')] *)
Definition distinctDocumentId (documentIds : list N) : M (list N) :=
  fun w =>
    (Ok (nodup N.eq_dec
           (List.map documentId
              (List.filter
                 (fun r => existsb (N.eqb (documentId r)) documentIds
                           && negb (isDeleted r))
                 (concepts w)))), w).

End Concept.

(** ** The environment: external services and library functions

    Object storage, [pdf-parse], the hosted language model and the Node
    library functions the services call are parameters.  An external call
    answers with a value or with the error it throws. *)

Record OccurrenceData := {
  occ_position : Z;
  occ_context : jsstring;
  occ_confidence : option Q
}.

(** One entry of the array returned by [AIService.extractConcepts]. *)
Record ConceptData := {
  cd_term : jsstring;
  cd_definition : jsstring;
  cd_category : jsstring;
  cd_importance : Z;
  cd_occurrences : option (list OccurrenceData)
}.

(** A readable stream, by what reading it to the end yields. *)
Definition Stream := Result Buffer.

(** The search of a listing query: [$regex] (with [$options: 'i']) on the
    title and on the original file name, or [$text]. *)
Inductive Search :=
| regexSearch (pattern : jsstring)
| textSearch (text : jsstring).

Record Env := {
  s3Enabled : bool;                      (* the three AWS variables are set *)
  nodeEnvTest : bool;                    (* [process.env.NODE_ENV === 'test'] *)
  maxFileSize : N;
  formatFileSize : N -> jsstring;        (* [formatFileSize(bytes)], in floating point *)
  megabytes : N -> jsstring;             (* the text of [bytes / (1024 * 1024)] *)
  (* what MongoDB answers to a listing query, given the rows that match
     its conditions other than the search: the rows that also match the
     search, sorted by [createdAt], after [skip(offset)] and
     [limit(limit)]; or the error of the server *)
  findPage : option Search -> Z -> Z -> list DocumentSchema.t
             -> Result (list DocumentSchema.t);
  s3Upload : jsstring -> Buffer -> Result jsstring;   (* [upload.done()], its Location *)
  s3GetObject : option jsstring -> Result Stream;
  s3DeleteObject : jsstring -> Result unit;
  pdfParse : Buffer -> Result PdfText.PdfData;
  utf8Decode : Buffer -> jsstring;       (* [buffer.toString('utf-8')] *)
  restructureDocument : jsstring -> Result jsstring;
  generateSummary : jsstring -> Result jsstring;
  extractConcepts : jsstring -> Result (list ConceptData);
  generateFileKey : jsstring -> jsstring;             (* timestamp and random bytes *)
  generateS3Key : N -> jsstring -> jsstring -> jsstring;
  extractTitle : jsstring -> jsstring;   (* [path.basename(name, path.extname(name))] *)
  mimeLookup : jsstring -> jsstring;     (* [mime.lookup(name)] *)
  validUrl : jsstring -> bool;           (* [new URL(url)] does not throw *)
  extractTitleFromUrl : jsstring -> jsstring;
  toUpperCase : jsstring -> jsstring;
  toLowerCase : jsstring -> jsstring
}.

Record File := {
  originalname : jsstring;
  mimetype : jsstring;
  size : N;
  buffer : Buffer
}.

Record Metadata := {
  meta_title : option jsstring;
  meta_tags : list jsstring
}.

Definition application_pdf : jsstring := Eval cbv in utf16 "application/pdf".
Definition application_docx : jsstring :=
  Eval cbv in utf16 "application/vnd.openxmlformats-officedocument.wordprocessingml.document".
Definition application_msword : jsstring := Eval cbv in utf16 "application/msword".
Definition application_pptx : jsstring :=
  Eval cbv in utf16 "application/vnd.openxmlformats-officedocument.presentationml.presentation".
Definition application_ppt : jsstring := Eval cbv in utf16 "application/vnd.ms-powerpoint".
Definition text_plain : jsstring := Eval cbv in utf16 "text/plain".
Definition image_jpeg : jsstring := Eval cbv in utf16 "image/jpeg".
Definition image_jpg : jsstring := Eval cbv in utf16 "image/jpg".
Definition image_png : jsstring := Eval cbv in utf16 "image/png".
Definition image_gif : jsstring := Eval cbv in utf16 "image/gif".
Definition image_bmp : jsstring := Eval cbv in utf16 "image/bmp".
Definition image_webp : jsstring := Eval cbv in utf16 "image/webp".

(** The names that every object literal inherits from [Object.prototype];
    under each of them [table[key]] finds a function or, for [__proto__],
    the prototype: a truthy value that is no string. *)
Definition objectPrototypeKeys : list jsstring :=
  Eval cbv in
    List.map utf16
      ["constructor"; "__defineGetter__"; "__defineSetter__"; "hasOwnProperty";
       "__lookupGetter__"; "__lookupSetter__"; "isPrototypeOf";
       "propertyIsEnumerable"; "toString"; "valueOf"; "__proto__";
       "toLocaleString"]%string.

Definition inheritedKey (k : jsstring) : bool :=
  existsb (fun name => JS.eqb name k) objectPrototypeKeys.

(** A lookup [table[key]] among the own properties of an object literal
    used as a map.  It is what [table[key]] answers for every [key] that is
    not an [inheritedKey]. *)
Fixpoint lookup {V} (table : list (jsstring * V)) (k : jsstring) : option V :=
  match table with
  | [] => None
  | (k', v) :: rest => if JS.eqb k' k then Some v else lookup rest k
  end.

Definition lit := PdfText.lit.

(** The [filters] of [listUserDocuments]. *)
Record Filters := {
  f_format : option jsstring;
  f_status : option DocumentSchema.Status;
  f_search : option jsstring;
  f_limit : option Z;
  f_offset : option Z
}.

(** The conditions of the listing query on [userId], [isDeleted],
    [originalFormat] and [processingStatus]; a condition is set for a
    filter that is truthy. *)
Definition matching (userId : N) (filters : Filters) (d : DocumentSchema.t) : bool :=
  (DocumentSchema.userId d =? userId) && negb (DocumentSchema.isDeleted d)
  && match f_format filters with
     | Some f => if truthy f then JS.eqb (DocumentSchema.originalFormat d) f else true
     | None => true
     end
  && match f_status filters with
     | Some st =>
       match st, DocumentSchema.processingStatus d with
       | DocumentSchema.pending, DocumentSchema.pending
       | DocumentSchema.processing, DocumentSchema.processing
       | DocumentSchema.completed, DocumentSchema.completed
       | DocumentSchema.failed, DocumentSchema.failed => true
       | _, _ => false
       end
     | None => true
     end.

(** [if (search) ...]: the search of the query, if one is given. *)
Definition searchOf (kind : jsstring -> Search) (filters : Filters) : option Search :=
  match f_search filters with
  | Some s => if truthy s then Some (kind s) else None
  | None => None
  end.

(** ** FileExtractService *)

Module FileExtractService.

Import DocumentSchema.

Section WithEnv.

Variable env : Env.

(** [extractPdfToMarkdown(fileBuffer)] *)
Definition extractPdfToMarkdown (fileBuffer : Buffer) : M jsstring :=
  tryCatch
    (data <- lift (pdfParse env fileBuffer);;
     let text := PdfText.text data in
     let lines := split LF text in
     ret (fold_left
            (fun markdown line =>
               let trimmedLine := trim line in
               if truthy trimmedLine then
                 if JS.eqb trimmedLine (toUpperCase env trimmedLine)
                    && (length trimmedLine <? 100)%nat
                 then markdown ++ lit "## " ++ trimmedLine ++ [LF; LF]
                 else markdown ++ trimmedLine ++ [LF; LF]
               else markdown)
            lines []))
    (fun error => throw (newError (lit "PDF解析失败: " ++ message error))).

(** [extractWordToMarkdown(fileBuffer)] *)
Definition extractWordToMarkdown (fileBuffer : Buffer) : M jsstring :=
  throw (newError (lit "Word文档解析功能待实现")).

(** [generateAndSaveSummary(documentId, userId, markdownContent)] *)
Definition generateAndSaveSummary (documentId userId : N)
    (markdownContent : jsstring) : M SummarySchema.t :=
  tryCatch
    (emit (AIRequest Summarize);;;
     summaryContent <- lift (generateSummary env markdownContent);;
     summary <- Summary.new documentId userId summaryContent SummarySchema.ai_generated;;
     Summary.save summary)
    (fun error => throw (newError (lit "摘要生成失败: " ++ message error))).

Definition defaultConfidence (c : option Q) : Q :=
  match c with Some q => q | None => 1%Q end.

(** The inner loop over [conceptData.occurrences]: each turn awaits
    [existingConcept.addOccurrence(...)], which saves. *)
Fixpoint addOccurrences (occs : list OccurrenceData) (existingConcept : ConceptSchema.t)
    : M ConceptSchema.t :=
  match occs with
  | [] => ret existingConcept
  | occurrence :: rest =>
    existingConcept <-
      Concept.saveExisting
        (ConceptSchema.addOccurrence (occ_position occurrence) (occ_context occurrence)
           (defaultConfidence (occ_confidence occurrence)) existingConcept);;
    addOccurrences rest existingConcept
  end.

Definition toOccurrence (o : OccurrenceData) : ConceptSchema.Occurrence :=
  ConceptSchema.mkOcc (occ_position o) (occ_context o)
    (defaultConfidence (occ_confidence o)).

(** The loop [for (const conceptData of concepts)] of
    [extractAndSaveConcepts]. *)
Fixpoint saveConcepts (documentId userId : N) (concepts : list ConceptData)
    (savedConcepts : list ConceptSchema.t) : M (list ConceptSchema.t) :=
  match concepts with
  | [] => ret savedConcepts
  | conceptData :: rest =>
    existingConcept <- Concept.findOne documentId (cd_term conceptData);;
    saved <-
      match existingConcept with
      | Some existingConcept =>
        let existingConcept :=
          ConceptSchema.assign (cd_definition conceptData) (cd_category conceptData)
            (cd_importance conceptData) existingConcept in
        existingConcept <-
          match cd_occurrences conceptData with
          | Some occs => addOccurrences occs existingConcept
          | None => ret existingConcept
          end;;
        Concept.saveExisting existingConcept
      | None =>
        concept <-
          Concept.new (cd_term conceptData) (cd_definition conceptData) documentId
            userId (cd_category conceptData) (cd_importance conceptData)
            (match cd_occurrences conceptData with
             | Some occs => List.map toOccurrence occs
             | None => []
             end);;
        Concept.save concept
      end;;
    saveConcepts documentId userId rest (savedConcepts ++ [saved])
  end.

(** [extractAndSaveConcepts(documentId, userId, markdownContent)] *)
Definition extractAndSaveConcepts (documentId userId : N)
    (markdownContent : jsstring) : M (list ConceptSchema.t) :=
  tryCatch
    (emit (AIRequest Concepts);;;
     concepts <- lift (extractConcepts env markdownContent);;
     saveConcepts documentId userId concepts [])
    (fun error => throw (newError (lit "概念提取失败: " ++ message error))).

(** [processAIFeatures(documentId, markdownContent)].  The two promises
    given to [Promise.allSettled] write to different collections; they are
    run here one after the other. *)
Definition processAIFeatures (documentId : N) (markdownContent : jsstring)
    : M unit :=
  tryCatch
    (document <- Document.findById documentId;;
     match document with
     | None => throw (newError (lit "文档不存在"))
     | Some document =>
       emit (AIRequest Restructure);;;
       restructuredContent <- lift (restructureDocument env markdownContent);;
       Document.findByIdAndUpdate documentId
         (set_restructuredContent (Some restructuredContent));;;
       summaryResult <-
         settle (generateAndSaveSummary documentId (userId document) markdownContent);;
       conceptsResult <-
         settle (extractAndSaveConcepts documentId (userId document) markdownContent);;
       match summaryResult with
       | Throw reason => consoleError "摘要生成失败:" reason
       | Ok _ => ret tt
       end;;;
       match conceptsResult with
       | Throw reason => consoleError "概念提取失败:" reason
       | Ok _ => ret tt
       end
     end)
    (fun error => consoleError "AI功能处理失败:" error;;; throw error).

(** [extractToMarkdown(documentId, fileBuffer, mimeType)]; the
    [ParseAttempt] event marks the start of an extraction attempt. *)
Definition extractToMarkdown (documentId : N) (fileBuffer : Buffer)
    (mimeType : jsstring) : M jsstring :=
  tryCatch
    (emit (ParseAttempt documentId);;;
     markdownContent <-
       (if JS.eqb mimeType application_pdf then extractPdfToMarkdown fileBuffer
        else if JS.eqb mimeType application_docx || JS.eqb mimeType application_msword
        then extractWordToMarkdown fileBuffer
        else if JS.eqb mimeType text_plain then ret (utf8Decode env fileBuffer)
        else throw (newError (lit "不支持的文件类型: " ++ mimeType)));;
     Document.findByIdAndUpdate documentId
       (fun d => set_processingStatus completed (set_markdownContent markdownContent d));;;
     spawn (JobAI documentId markdownContent);;;
     ret markdownContent)
    (fun error =>
       Document.findByIdAndUpdate documentId
         (fun d => set_processingError (Some (message error))
                     (set_processingStatus failed d));;;
       throw error).

End WithEnv.

End FileExtractService.

(** ** DocumentService, the variant that delegates to FileExtractService *)

Module DocumentService.

Import DocumentSchema.

Record UploadResult := {
  document : DocumentSchema.t;
  uploadInfo : jsstring
}.

(** The keys of [this.supportedFormats] *)
Definition supportedFormats : list (jsstring * unit) :=
  [(application_pdf, tt); (application_docx, tt); (application_msword, tt);
   (text_plain, tt); (image_jpeg, tt); (image_png, tt)].

(** [_getFormatFromMimeType(mimeType)], for a [mimeType] that is no
    [inheritedKey] *)
Definition _getFormatFromMimeType (mimeType : jsstring) : jsstring :=
  let formatMap :=
    [(application_pdf, lit "pdf"); (application_docx, lit "docx");
     (application_msword, lit "doc"); (text_plain, lit "txt");
     (image_jpeg, lit "jpg"); (image_png, lit "png")] in
  match lookup formatMap mimeType with
  | Some format => format
  | None => lit "unknown"
  end.

Section WithEnv.

Variable env : Env.

(** [_validateFile(file)]; the type of the file is looked up among the own
    properties of [supportedFormats], see [inheritedKey]. *)
Definition _validateFile (file : option File) : M unit :=
  match file with
  | None => throw (newError (lit "文件不能为空"))
  | Some file =>
    if maxFileSize env <? size file then
      throw (newError (lit "文件大小超过限制 (" ++ formatFileSize env (maxFileSize env)
                       ++ lit ")"))
    else
      match lookup supportedFormats (mimetype file) with
      | None => throw (newError (lit "不支持的文件类型: " ++ mimetype file))
      | Some _ => ret tt
      end
  end.

(** [_uploadToS3(buffer, key, contentType)] *)
Definition _uploadToS3 (buffer : Buffer) (key : jsstring) : M jsstring :=
  if negb (s3Enabled env) then throw (newError (lit "S3未配置"))
  else
    tryCatch
      (emit (S3Put key);;; lift (s3Upload env key buffer))
      (fun error => throw (newError (lit "S3上传失败: " ++ message error))).

(** [processFileExtraction(documentId, fileBuffer, mimeType)] *)
Definition processFileExtraction (documentId : N) (fileBuffer : Buffer)
    (mimeType : jsstring) : M unit :=
  tryCatch
    (Document.findByIdAndUpdate documentId (set_processingStatus processing);;;
     FileExtractService.extractToMarkdown env documentId fileBuffer mimeType;;;
     ret tt)
    (fun error =>
       consoleError "文件提取失败:" error;;;
       Document.findByIdAndUpdate documentId
         (fun d => set_processingError (Some (message error))
                     (set_processingStatus failed d))).

(** [uploadDocument(file, userId, metadata)] *)
Definition uploadDocument (file : File) (userId : N) (metadata : Metadata)
    : M UploadResult :=
  tryCatch
    (_validateFile (Some file);;;
     let fileKey := generateFileKey env (originalname file) in
     s3Result <- _uploadToS3 (buffer file) fileKey;;
     document <-
       Document.new userId
         (match meta_title metadata with
          | Some t => if truthy t then t else extractTitle env (originalname file)
          | None => extractTitle env (originalname file)
          end)
         (_getFormatFromMimeType (mimetype file))
         (Some fileKey) (mimetype file) None pending (meta_tags metadata);;
     savedDocument <- Document.save document;;
     spawn (JobExtract (_id savedDocument) (buffer file) (mimetype file));;;
     ret {| document := savedDocument; uploadInfo := s3Result |})
    (fun error => throw (newError (lit "文档上传失败: " ++ message error))).

(** [getDocument(documentId, userId)] *)
Definition getDocument (documentId userId : N) : M DocumentSchema.t :=
  tryCatch
    (document <- Document.findById documentId;;
     match document with
     | Some d =>
       if (DocumentSchema.userId d =? userId) && negb (isDeleted d) then ret d
       else throw (newError (lit "文档不存在或无权访问"))
     | None => throw (newError (lit "文档不存在或无权访问"))
     end)
    (fun error => throw (newError (lit "获取文档失败: " ++ message error))).

(** [listUserDocuments(userId, filters)], its [documents]: the handlers
    of the controller read nothing of its [pagination].  [sortBy] and
    [sortOrder] are left to their defaults by every caller. *)
Definition listUserDocuments (userId : N) (filters : Filters)
    : M (list DocumentSchema.t) :=
  tryCatch
    (let limit := match f_limit filters with Some limit => limit | None => 50%Z end in
     let offset := match f_offset filters with Some offset => offset | None => 0%Z end in
     fun w =>
       (findPage env (searchOf regexSearch filters) offset limit
          (List.filter (matching userId filters)
             (List.map snd (map_to_list (documents w)))), w))
    (fun error => throw (newError (lit "获取文档列表失败: " ++ message error))).

(** [deleteDocument(documentId, userId)]: a [findOneAndUpdate] on
    [{ _id, userId, isDeleted: false }]. *)
Definition deleteDocument (documentId userId : N) : M unit :=
  tryCatch
    (document <- Document.findById documentId;;
     match document with
     | Some d =>
       if (DocumentSchema.userId d =? userId) && negb (isDeleted d) then
         Document.findByIdAndUpdate documentId (set_isDeleted true)
       else throw (newError (lit "文档不存在或无权访问"))
     | None => throw (newError (lit "文档不存在或无权访问"))
     end)
    (fun error => throw (newError (lit "删除文档失败: " ++ message error))).

(** [getFileStream(filePath)] *)
Definition getFileStream (filePath : option jsstring) : M Stream :=
  tryCatch
    (if negb (s3Enabled env) then throw (newError (lit "S3未配置"))
     else emit (S3Get filePath);;; lift (s3GetObject env filePath))
    (fun error => throw (newError (lit "获取文件流失败: " ++ message error))).

End WithEnv.

End DocumentService.

(** The bodies of the detached promises, each with the [.catch] that its
    creator attached. *)
Definition runJob (env : Env) (j : Job) : M unit :=
  match j with
  | JobExtract documentId fileBuffer mimeType =>
    tryCatch (DocumentService.processFileExtraction env documentId fileBuffer mimeType)
      (fun error => consoleError "文件提取处理失败:" error)
  | JobAI documentId markdownContent =>
    tryCatch (FileExtractService.processAIFeatures env documentId markdownContent)
      (fun error => consoleError "AI处理失败:" error)
  end.

(** ** DocumentService, the variant that parses during the upload *)

Module DocumentServiceSync.

Import DocumentSchema.

Record UploadResult := {
  document : DocumentSchema.t;
  location : jsstring
}.

(** [this.supportedFormats] *)
Definition supportedFormats : list (jsstring * jsstring) :=
  [(application_pdf, lit "pdf"); (application_docx, lit "docx");
   (application_msword, lit "docx"); (application_pptx, lit "pptx");
   (application_ppt, lit "pptx"); (image_jpeg, lit "image");
   (image_jpg, lit "image"); (image_png, lit "image"); (image_gif, lit "image");
   (image_bmp, lit "image"); (image_webp, lit "image")].

Record Validation := {
  isValid : bool;
  errors : list jsstring;
  format : option jsstring;
  v_mimeType : jsstring
}.

Section WithEnv.

Variable env : Env.

Definition mockS3 : bool := nodeEnvTest env || negb (s3Enabled env).

(** [validateFile(file)]; the type of the file is looked up among the own
    properties of [supportedFormats], see [inheritedKey]. *)
Definition validateFile (file : File) : Validation :=
  let errors1 :=
    if maxFileSize env <? size file then
      [lit "文件大小超过限制 (" ++ megabytes env (maxFileSize env) ++ lit "MB)"]
    else [] in
  let mimeType :=
    if truthy (mimetype file) then mimetype file
    else mimeLookup env (originalname file) in
  let errors2 :=
    match lookup supportedFormats mimeType with
    | None => [lit "不支持的文件类型: " ++ mimeType]
    | Some _ => []
    end in
  let errors3 :=
    if negb (truthy (originalname file))
       || (length (trim (originalname file)) =? 0)%nat
    then [lit "文件名不能为空"] else [] in
  let errors := errors1 ++ errors2 ++ errors3 in
  {| isValid := (length errors =? 0)%nat;
     errors := errors;
     format := lookup supportedFormats mimeType;
     v_mimeType := mimeType |}.

(** [uploadToS3(file, s3Key)], its [location] *)
Definition uploadToS3 (file : File) (s3Key : jsstring) : M jsstring :=
  if mockS3 then ret (lit "mock://test-bucket/" ++ s3Key)
  else
    tryCatch
      (emit (S3Put s3Key);;; lift (s3Upload env s3Key (buffer file)))
      (fun error =>
         consoleError "S3 upload error:" error;;;
         throw (newError (lit "文件上传失败: " ++ message error))).

(** [deleteFromS3(s3Key)] *)
Definition deleteFromS3 (s3Key : jsstring) : M unit :=
  if mockS3 then ret tt
  else
    tryCatch
      (emit (S3Delete s3Key);;; lift (s3DeleteObject env s3Key))
      (fun error =>
         consoleError "S3 delete error:" error;;;
         throw (newError (lit "文件删除失败: " ++ message error))).

(** [getFileStream(s3Key)] *)
Definition getFileStream (s3Key : option jsstring) : M Stream :=
  if mockS3 then ret (Ok (lit "Mock file content"))
  else
    tryCatch
      (emit (S3Get s3Key);;; lift (s3GetObject env s3Key))
      (fun error =>
         consoleError "Get file stream error:" error;;;
         throw (newError (lit "获取文件失败: " ++ message error))).

(** [streamToBuffer(stream)] *)
Definition streamToBuffer (stream : Stream) : M Buffer := lift stream.

(** [getDocument(documentId, userId)] *)
Definition getDocument (documentId userId : N) : M DocumentSchema.t :=
  tryCatch
    (document <- Document.findById documentId;;
     match document with
     | Some d =>
       if (DocumentSchema.userId d =? userId) && negb (isDeleted d) then ret d
       else throw (newError (lit "文档不存在或无权访问"))
     | None => throw (newError (lit "文档不存在或无权访问"))
     end)
    (fun error => consoleError "Get document error:" error;;; throw error).

(** [${document.metadata.url}] *)
Definition renderUrl (u : option jsstring) : jsstring :=
  match u with Some u => u | None => lit "undefined" end.

(** [parseAndConvertDocument(documentId, fileBuffer = null)]; the
    [ParseAttempt] event marks the start of an extraction attempt. *)
Definition parseAndConvertDocument (documentId : N) (fileBuffer : option File)
    : M DocumentSchema.t :=
  tryCatch
    (emit (ParseAttempt documentId);;;
     document <- Document.findById documentId;;
     match document with
     | None => throw (newError (lit "文档不存在"))
     | Some document =>
       Document.update documentId (updateProcessingStatus processing None);;;
       let document := updateProcessingStatus processing None document in
       buffer <-
         match fileBuffer with
         | Some fileBuffer => ret (buffer fileBuffer)
         | None =>
           fileStream <- getFileStream (filePath document);;
           streamToBuffer fileStream
         end;;
       markdownContent <-
         (if JS.eqb (originalFormat document) (lit "pdf") then
            pdfData <- lift (pdfParse env buffer);;
            match PdfText.convertPdfTextToMarkdown (toUpperCase env) (toLowerCase env) pdfData with
            | Some markdownContent => ret markdownContent
            | None => throw (mkError TypeError (lit "Cannot read properties of undefined"))
            end
          else if JS.eqb (originalFormat document) (lit "url") then
            ret (lit "# " ++ title document ++ lit "

**URL**: " ++ renderUrl (url document) ++ lit "

*此文档为网页链接，内容解析功能将在后续版本中提供。*")
          else
            throw (newError (lit "暂不支持 " ++ originalFormat document ++ lit " 格式的解析")));;
       let paths d :=
         updateProcessingStatus completed None (set_markdownContent markdownContent d) in
       Document.update documentId paths;;;
       ret (paths document)
     end)
    (fun error =>
       consoleError "Parse and convert document error:" error;;;
       document <- Document.findById documentId;;
       match document with
       | Some _ =>
         Document.update documentId (updateProcessingStatus failed (Some (message error)))
       | None => ret tt
       end;;;
       throw error).

(** [uploadDocument(file, userId, metadata)] *)
Definition uploadDocument (file : File) (userId : N) (metadata : Metadata)
    : M UploadResult :=
  tryCatch
    (let validation := validateFile file in
     if negb (isValid validation) then
       throw (newError (join (lit ", ") (errors validation)))
     else
       let format := match format validation with Some f => f | None => [] end in
       let s3Key := generateS3Key env userId (originalname file) format in
       location <- uploadToS3 file s3Key;;
       document <-
         Document.new userId
           (match meta_title metadata with
            | Some t => if truthy t then t else extractTitle env (originalname file)
            | None => extractTitle env (originalname file)
            end)
           format (Some s3Key) (v_mimeType validation) None processing [];;
       document <- Document.save document;;
       tryCatch
         (parseAndConvertDocument (_id document) (Some file);;; ret tt)
         (fun parseError =>
            consoleError "Document parsing error during upload:" parseError;;;
            Document.update (_id document)
              (updateProcessingStatus failed (Some (message parseError))));;;
       updatedDocument <- Document.findById (_id document);;
       match updatedDocument with
       | Some updatedDocument =>
         ret {| document := updatedDocument; location := location |}
       | None => throw (mkError TypeError (lit "Cannot read properties of null"))
       end)
    (fun error => consoleError "Document upload error:" error;;; throw error).

(** [addUrlDocument(url, userId, metadata)] *)
Definition addUrlDocument (url : jsstring) (userId : N) (metadata : Metadata)
    : M DocumentSchema.t :=
  tryCatch
    (if negb (validUrl env url) then throw (newError (lit "无效的URL格式"))
     else
       document <-
         Document.new userId
           (match meta_title metadata with
            | Some t => if truthy t then t else extractTitleFromUrl env url
            | None => extractTitleFromUrl env url
            end)
           (lit "url") None [] (Some url) processing [];;
       document <- Document.save document;;
       tryCatch
         (parseAndConvertDocument (_id document) None;;; ret tt)
         (fun parseError =>
            consoleError "URL document processing error:" parseError;;;
            Document.update (_id document)
              (updateProcessingStatus failed (Some (message parseError))));;;
       updatedDocument <- Document.findById (_id document);;
       match updatedDocument with
       | Some updatedDocument => ret updatedDocument
       | None => throw (mkError TypeError (lit "Cannot read properties of null"))
       end)
    (fun error => consoleError "Add URL document error:" error;;; throw error).

(** [listUserDocuments(userId, filters)], its [documents]: the handlers
    of the controller read nothing of its [pagination]. *)
Definition listUserDocuments (userId : N) (filters : Filters)
    : M (list DocumentSchema.t) :=
  tryCatch
    (let limit :=
       match f_limit filters with
       | Some limit => if (limit =? 0)%Z then 50%Z else limit
       | None => 50%Z
       end in
     let offset := match f_offset filters with Some offset => offset | None => 0%Z end in
     fun w =>
       (findPage env (searchOf textSearch filters) offset limit
          (List.filter (matching userId filters)
             (List.map snd (map_to_list (documents w)))), w))
    (fun error => consoleError "List documents error:" error;;; throw error).

(** [deleteDocument(documentId, userId)] *)
Definition deleteDocument (documentId userId : N) : M unit :=
  tryCatch
    (document <- Document.findById documentId;;
     match document with
     | Some d =>
       if (DocumentSchema.userId d =? userId) && negb (isDeleted d) then
         match filePath d with
         | Some key => if truthy key then deleteFromS3 key else ret tt
         | None => ret tt
         end;;;
         Document.update documentId softDelete
       else throw (newError (lit "文档不存在或无权访问"))
     | None => throw (newError (lit "文档不存在或无权访问"))
     end)
    (fun error => consoleError "Delete document error:" error;;; throw error).

End WithEnv.

End DocumentServiceSync.

(** ** DocumentController *)

Module DocumentController.

Import DocumentSchema.

(** The methods of [this.documentService] that the controller calls.  A
    method that the service class does not define is [None]; calling it
    raises a TypeError. *)
Record Service := {
  svc_uploadDocument : File -> N -> Metadata -> M DocumentSchema.t;
  svc_getDocument : N -> N -> M DocumentSchema.t;
  svc_listUserDocuments : N -> Filters -> M (list DocumentSchema.t);
  svc_deleteDocument : N -> N -> M unit;
  svc_getFileStream : option jsstring -> M Stream;
  svc_addUrlDocument : option (jsstring -> N -> Metadata -> M DocumentSchema.t);
  svc_parseAndConvertDocument : option (N -> option File -> M DocumentSchema.t)
}.

(** An entry of the answer of [listDocuments].  Its [createdAt],
    [fileSize] and [readableFileSize] are read from paths of the document
    that [DocumentSchema.t] does not keep. *)
Record ListItem := mkItem {
  hasBothSummaryAndConcept : bool;
  item_id : N;
  item_title : jsstring
}.

Inductive Data :=
| NoData
| UploadData (document : DocumentSchema.t) (processingStatus : Status)
| DocumentData (document : DocumentSchema.t)
| ListData (documents : list ListItem)
| MarkdownData (markdownContent : jsstring) (processingStatus : Status)
| StreamData (fileStream : Stream)
| StatsData (total : nat).

Record Response := mkResponse {
  statusCode : N;
  success : bool;
  res_message : jsstring;
  data : Data
}.

(** [req] as the handlers read it, after [authenticateToken], [multer] and
    the [express-validator] middleware.  The [limit] and [offset] of a
    listing are what [parseInt] makes of the query strings, [None] for
    [NaN]. *)
Inductive Request :=
| UploadDocument (validationErrors : bool) (file : option File) (user : N)
    (title tags : option jsstring)
| GetDocument (documentId user : N)
| ListDocuments (user : N) (format : option jsstring) (status : option Status)
    (search : option jsstring) (limit offset : option Z)
| DeleteDocument (documentId user : N)
| DownloadDocument (documentId user : N)
| GetDocumentStats (user : N)
| AddUrlDocument (validationErrors : bool) (user : N) (url : jsstring)
    (title tags : option jsstring)
| GetMarkdownContent (documentId user : N)
| ReprocessDocument (documentId user : N).

(** [error.message.includes('不存在') || error.message.includes('无权访问') ? 404 : 500] *)
Definition notFoundOr500 (error : Error) : N :=
  if includes (message error) (lit "不存在") || includes (message error) (lit "无权访问")
  then 404 else 500.

(** [error.message || fallback] *)
Definition messageOr (error : Error) (fallback : jsstring) : jsstring :=
  if truthy (message error) then message error else fallback.

(** [tags ? tags.split(',').map(tag => tag.trim()) : []] *)
Definition parseTags (tags : option jsstring) : list jsstring :=
  match tags with
  | Some tags => if truthy tags then List.map trim (split 44 tags) else []
  | None => []
  end.

Definition notAFunction {A} : M A :=
  throw (mkError TypeError (lit "is not a function")).

Section WithService.

Variable svc : Service.

(** [uploadDocument(req, res)] *)
Definition uploadDocument (validationErrors : bool) (file : option File)
    (user : N) (title tags : option jsstring) : M Response :=
  tryCatch
    (if validationErrors then
       ret (mkResponse 400 false (lit "请求参数验证失败") NoData)
     else
       match file with
       | None => ret (mkResponse 400 false (lit "请选择要上传的文件") NoData)
       | Some file =>
         let metadata := {| meta_title := title; meta_tags := parseTags tags |} in
         document <- svc_uploadDocument svc file user metadata;;
         ret (mkResponse 201 true (lit "文档上传成功，正在处理中")
                (UploadData document pending))
       end)
    (fun error =>
       consoleError "Upload document error:" error;;;
       ret (mkResponse 500 false (messageOr error (lit "文档上传失败")) NoData)).

(** [getDocument(req, res)] *)
Definition getDocument (documentId user : N) : M Response :=
  tryCatch
    (document <- svc_getDocument svc documentId user;;
     ret (mkResponse 200 true [] (DocumentData document)))
    (fun error =>
       consoleError "Get document error:" error;;;
       ret (mkResponse (notFoundOr500 error) false
              (messageOr error (lit "获取文档失败")) NoData)).

(** [value || fallback] for what [parseInt] answers *)
Definition numberOr (value : option Z) (fallback : Z) : Z :=
  match value with
  | Some value => if (value =? 0)%Z then fallback else value
  | None => fallback
  end.

(** A filter unless it is [undefined], [null] or the empty string. *)
Definition given (value : option jsstring) : option jsstring :=
  match value with
  | Some value => if truthy value then Some value else None
  | None => None
  end.

(** [listDocuments(req, res)] *)
Definition listDocuments (user : N) (format : option jsstring)
    (status : option Status) (search : option jsstring) (limit offset : option Z)
    : M Response :=
  tryCatch
    (let filters :=
       {| f_format := given format;
          f_status := status;
          f_search := given search;
          f_limit := Some (numberOr limit 50);
          f_offset := Some (numberOr offset 0) |} in
     documents <- svc_listUserDocuments svc user filters;;
     let documentIds := List.map _id documents in
     summaryDocs <- Summary.distinctDocumentId documentIds;;
     conceptDocs <- Concept.distinctDocumentId documentIds;;
     ret (mkResponse 200 true []
            (ListData
               (List.map
                  (fun doc =>
                     {| hasBothSummaryAndConcept :=
                          existsb (N.eqb (_id doc)) summaryDocs
                          && existsb (N.eqb (_id doc)) conceptDocs;
                        item_id := _id doc;
                        item_title := title doc |})
                  documents))))
    (fun error =>
       consoleError "List documents error:" error;;;
       ret (mkResponse 500 false (messageOr error (lit "获取文档列表失败")) NoData)).

(** [deleteDocument(req, res)] *)
Definition deleteDocument (documentId user : N) : M Response :=
  tryCatch
    (svc_deleteDocument svc documentId user;;;
     ret (mkResponse 200 true (lit "文档删除成功") NoData))
    (fun error =>
       consoleError "Delete document error:" error;;;
       ret (mkResponse (notFoundOr500 error) false
              (messageOr error (lit "删除文档失败")) NoData)).

(** [downloadDocument(req, res)] *)
Definition downloadDocument (documentId user : N) : M Response :=
  tryCatch
    (document <- svc_getDocument svc documentId user;;
     if negb (someTruthy (filePath document)) then
       ret (mkResponse 404 false (lit "文件不存在") NoData)
     else
       fileStream <- svc_getFileStream svc (filePath document);;
       ret (mkResponse 200 true [] (StreamData fileStream)))
    (fun error =>
       consoleError "Download document error:" error;;;
       ret (mkResponse (notFoundOr500 error) false
              (messageOr error (lit "下载文档失败")) NoData)).

(** [getDocumentStats(req, res)]; of the statistics that it answers,
    [total]. *)
Definition getDocumentStats (user : N) : M Response :=
  tryCatch
    (documents <-
       svc_listUserDocuments svc user
         {| f_format := None; f_status := None; f_search := None;
            f_limit := Some 1000%Z; f_offset := None |};;
     ret (mkResponse 200 true [] (StatsData (length documents))))
    (fun error =>
       consoleError "Get document stats error:" error;;;
       ret (mkResponse 500 false (messageOr error (lit "获取统计信息失败")) NoData)).

(** [addUrlDocument(req, res)] *)
Definition addUrlDocument (validationErrors : bool) (user : N) (url : jsstring)
    (title tags : option jsstring) : M Response :=
  tryCatch
    (if validationErrors then
       ret (mkResponse 400 false (lit "请求参数验证失败") NoData)
     else
       let metadata := {| meta_title := title; meta_tags := parseTags tags |} in
       document <-
         match svc_addUrlDocument svc with
         | Some addUrlDocument => addUrlDocument url user metadata
         | None => notAFunction
         end;;
       ret (mkResponse 201 true (lit "URL文档添加成功") (DocumentData document)))
    (fun error =>
       consoleError "Add URL document error:" error;;;
       ret (mkResponse 500 false (messageOr error (lit "URL文档添加失败")) NoData)).

(** [getMarkdownContent(req, res)] *)
Definition getMarkdownContent (documentId user : N) : M Response :=
  tryCatch
    (document <- svc_getDocument svc documentId user;;
     if negb (truthy (markdownContent document)) then
       ret (mkResponse 404 false (lit "文档尚未处理完成或处理失败") NoData)
     else
       ret (mkResponse 200 true []
              (MarkdownData (markdownContent document) (processingStatus document))))
    (fun error =>
       consoleError "Get markdown content error:" error;;;
       ret (mkResponse (notFoundOr500 error) false
              (messageOr error (lit "获取Markdown内容失败")) NoData)).

(** [reprocessDocument(req, res)] *)
Definition reprocessDocument (documentId user : N) : M Response :=
  tryCatch
    (document <- svc_getDocument svc documentId user;;
     match processingStatus document with
     | processing =>
       ret (mkResponse 400 false (lit "文档正在处理中，请稍后再试") NoData)
     | _ =>
       result <-
         match svc_parseAndConvertDocument svc with
         | Some parseAndConvertDocument => parseAndConvertDocument documentId None
         | None => notAFunction
         end;;
       ret (mkResponse 200 true (lit "文档重新处理成功") (DocumentData result))
     end)
    (fun error =>
       consoleError "Reprocess document error:" error;;;
       ret (mkResponse (notFoundOr500 error) false
              (messageOr error (lit "文档重新处理失败")) NoData)).

(** The routes of the documents router. *)
Definition handle (req : Request) : M Response :=
  match req with
  | UploadDocument validationErrors file user title tags =>
    uploadDocument validationErrors file user title tags
  | GetDocument documentId user => getDocument documentId user
  | ListDocuments user format status search limit offset =>
    listDocuments user format status search limit offset
  | DeleteDocument documentId user => deleteDocument documentId user
  | DownloadDocument documentId user => downloadDocument documentId user
  | GetDocumentStats user => getDocumentStats user
  | AddUrlDocument validationErrors user url title tags =>
    addUrlDocument validationErrors user url title tags
  | GetMarkdownContent documentId user => getMarkdownContent documentId user
  | ReprocessDocument documentId user => reprocessDocument documentId user
  end.

End WithService.

End DocumentController.

(** ** The two assemblies of the application *)

Definition fmapM {A B} (f : A -> B) (m : M A) : M B := a <- m;; ret (f a).

(** DocumentService delegating to FileExtractService: the upload returns
    at once and extraction runs as a detached promise.  This class has
    neither [addUrlDocument] nor [parseAndConvertDocument]. *)
Definition serviceAsync (env : Env) : DocumentController.Service :=
  {| DocumentController.svc_uploadDocument file userId metadata :=
       fmapM DocumentService.document
         (DocumentService.uploadDocument env file userId metadata);
     DocumentController.svc_getDocument := DocumentService.getDocument;
     DocumentController.svc_listUserDocuments := DocumentService.listUserDocuments env;
     DocumentController.svc_deleteDocument := DocumentService.deleteDocument;
     DocumentController.svc_getFileStream := DocumentService.getFileStream env;
     DocumentController.svc_addUrlDocument := None;
     DocumentController.svc_parseAndConvertDocument := None |}.

(** DocumentService parsing during the upload. *)
Definition serviceSync (env : Env) : DocumentController.Service :=
  {| DocumentController.svc_uploadDocument file userId metadata :=
       fmapM DocumentServiceSync.document
         (DocumentServiceSync.uploadDocument env file userId metadata);
     DocumentController.svc_getDocument := DocumentServiceSync.getDocument;
     DocumentController.svc_listUserDocuments := DocumentServiceSync.listUserDocuments env;
     DocumentController.svc_deleteDocument := DocumentServiceSync.deleteDocument env;
     DocumentController.svc_getFileStream := DocumentServiceSync.getFileStream env;
     DocumentController.svc_addUrlDocument :=
       Some (DocumentServiceSync.addUrlDocument env);
     DocumentController.svc_parseAndConvertDocument :=
       Some (DocumentServiceSync.parseAndConvertDocument env) |}.

(** A step of the asynchronous assembly: a request is served, or one of
    the detached promises runs. *)
Inductive stepAsync : World -> World -> Prop :=
| stepAsync_request env req w :
    stepAsync w (snd (DocumentController.handle (serviceAsync env) req w))
| stepAsync_job env j before after w :
    detached w = before ++ j :: after ->
    stepAsync w (snd (runJob env j (set_detached (before ++ after) w))).

(** A step of the synchronous assembly: a request is served. *)
Inductive stepSync : World -> World -> Prop :=
| stepSync_request env req w :
    stepSync w (snd (DocumentController.handle (serviceSync env) req w)).

Inductive reachable (step : World -> World -> Prop) : World -> Prop :=
| reachable_init : reachable step emptyWorld
| reachable_step w w' : reachable step w -> step w w' -> reachable step w'.

(** The route's [fileFilter] of multer (documents router). *)
Definition allowedMimeTypes : list jsstring :=
  [application_pdf; application_docx; application_msword; application_pptx;
   application_ppt; image_jpeg; image_jpg; image_png; image_gif; image_bmp;
   image_webp; text_plain].

Definition fileFilter (mimetype : jsstring) : bool :=
  existsb (JS.eqb mimetype) allowedMimeTypes.

(** ** Declarative readings used in the statements *)

(** A line that [trim()] empties. *)
Definition blank (l : jsstring) : Prop := Forall (fun c => is_ws c = true) l.

(** [s] begins with [p]. *)
Definition beginsWith (s p : jsstring) : Prop := exists rest, s = p ++ rest.

(** [sub] occurs in [s]. *)
Definition occursIn (sub s : jsstring) : Prop :=
  exists pre post, s = pre ++ sub ++ post.

Module DiagramSpec.

Import AIService.

Definition nonBlankLines (code : jsstring) : list jsstring :=
  List.filter (fun line => truthy (trim line)) (split LF code).

(** The first non-blank line, trimmed, begins with one of the type names. *)
Definition declaresType (code : jsstring) : Prop :=
  exists first rest,
    nonBlankLines code = first :: rest /\
    exists type, In type validTypes /\ beginsWith (trim first) type.

Definition declaresMindmap (code : jsstring) : Prop :=
  exists first rest,
    nonBlankLines code = first :: rest /\ beginsWith (trim first) mindmap.

Definition hasInvalidChar (l : jsstring) : Prop :=
  exists c, In c invalidChars /\ In c l.

(** The number of white-space units in front of a line. *)
Definition indentOf (l : jsstring) : nat := (length l - length (trimStart l))%nat.

(** The levels that stay open when a line of indentation [i] arrives:
    those that are not deeper than [i]. *)
Fixpoint closeTo (i : nat) (open : list nat) : list nat :=
  match open with
  | [] => []
  | top :: below => if (i <? top)%nat then closeTo i below else open
  end.

(** Leading white space denotes the nesting depth consistently: every
    line is indented deeper than the line before it, as its child, or
    exactly as one of the earlier lines that are still open, as a sibling
    of that line.  [open] holds the indentations of the open lines, the
    deepest first. *)
Fixpoint consistentFrom (open : list nat) (indents : list nat) : bool :=
  match indents with
  | [] => true
  | i :: rest =>
    match open with
    | [] => consistentFrom [i] rest
    | top :: _ =>
      if (top <? i)%nat then consistentFrom (i :: open) rest
      else
        match closeTo i open with
        | level :: below => (level =? i)%nat && consistentFrom (level :: below) rest
        | [] => false
        end
    end
  end.

Definition consistentIndentation (lines : list jsstring) : bool :=
  consistentFrom [] (List.map indentOf lines).

(** The conditions of the validator, which are on the number of lines, on
    the declared type and on the characters of the nodes. *)
Definition accepted (code : jsstring) : Prop :=
  exists first rest,
    nonBlankLines code = first :: rest /\
    rest <> [] /\
    (exists type, In type validTypes /\ beginsWith (trim first) type) /\
    (beginsWith (trim first) mindmap ->
     Forall (fun l => ~ hasInvalidChar (trim l)) rest).

End DiagramSpec.

Module HeadingSpec.

Import PdfText.

(** The line before [index] is blank, or there is none. *)
Definition prevBlank (lines : list jsstring) (index : nat) : Prop :=
  index = 0%nat \/ exists p, nth_error lines (index - 1) = Some p /\ blank p.

(** The line after [index] is blank, or [index] is the last line. *)
Definition nextBlank (lines : list jsstring) (index : nat) : Prop :=
  S index = length lines \/ exists n, nth_error lines (S index) = Some n /\ blank n.

Definition digits (ds : jsstring) : Prop :=
  ds <> [] /\ Forall (fun c => is_digit c = true) ds.

(** Digits, then a dot or a whitespace unit. *)
Definition numbered (line : jsstring) : Prop :=
  exists ds c rest,
    digits ds /\ (c = DOT \/ is_ws c = true) /\ line = ds ++ c :: rest.

(** Digits, a dot, a digit: [N.M]. *)
Definition subNumbered (line : jsstring) : Prop :=
  exists ds d rest, digits ds /\ is_digit d = true /\ line = ds ++ DOT :: d :: rest.

Definition hasKeyword (line : jsstring) : Prop :=
  exists keyword, In keyword titleKeywords /\ occursIn keyword line.

Definition hasAZ (line : jsstring) : Prop :=
  exists c, In c line /\ 65 <= c <= 90.

(** When [isPotentialTitle] promotes a line. *)
Definition promoted (toUpperCase : jsstring -> jsstring) (line : jsstring)
    (lines : list jsstring) (index : nat) : Prop :=
  ~ blank line /\ (length line <= 100)%nat /\
  ((line = toUpperCase line /\ hasAZ line /\ prevBlank lines index)
   \/ numbered line
   \/ (hasKeyword line /\ (length line < 50)%nat)
   \/ (prevBlank lines index /\ nextBlank lines index /\ (length line < 80)%nat)).

(** The numbering pattern of the specification, [N.] or [N.M]: digits and
    a dot. *)
Definition startsWithDecimalNumbering (line : jsstring) : Prop :=
  exists ds rest, digits ds /\ line = ds ++ DOT :: rest.

(** The level rules in the words of the specification: sub-numbering,
    top-level numbering, chapter or section keyword, first tenth of the
    document, and level 3 for every remaining heading. *)
Definition levelAsSpecified (toLowerCase : jsstring -> jsstring)
    (line : jsstring) (lines : list jsstring) (index : nat) : nat :=
  if subNumberMatch line then 2%nat
  else
    match numberMatch line with
    | Some digits => if parseDigits digits <=? 10 then 1%nat else 2%nat
    | None =>
      if (includes line di && includes line zhang)
         || includes (toLowerCase line) chapter then 1%nat
      else if (includes line di && includes line jie)
              || includes (toLowerCase line) section then 2%nat
      else if (10 * index <? length lines)%nat then 1%nat
      else 3%nat
    end.

End HeadingSpec.

Module ConceptSpec.

Import ConceptSchema.











End ConceptSpec.

(** ** Footprints of monadic code *)

(** [m] answers alike, and keeps [R], on worlds related by [R]. *)
Definition respects {A} (R : World -> World -> Prop) (m : M A) : Prop :=
  forall a b, R a b -> fst (m a) = fst (m b) /\ R (snd (m a)) (snd (m b)).

(** [m] leaves the component [f] of the world as it was. *)
Definition preserves {A X} (f : World -> X) (m : M A) : Prop :=
  forall w, f (snd (m w)) = f w.

Definition sameConcepts (a b : World) : Prop :=
  concepts a = concepts b /\ nextConceptId a = nextConceptId b.

Definition sameSummaries (a b : World) : Prop :=
  summaries a = summaries b /\ nextSummaryId a = nextSummaryId b.

(** Everything but the Concept collection, its id supply and the log. *)
Definition outsideConcepts (w : World) :=
  (documents w, summaries w, nextDocumentId w, nextSummaryId w, detached w).

(** Everything but the Summary collection, its id supply and the log. *)
Definition outsideSummaries (w : World) :=
  (documents w, concepts w, nextDocumentId w, nextConceptId w, detached w).

(** ** Events and invariants of the pipeline *)

Module PipelineSpec.

Import DocumentSchema.

Definition isParseAttempt (ev : Event) : bool :=
  match ev with ParseAttempt _ => true | _ => false end.

Definition isDocumentWrite (ev : Event) : bool :=
  match ev with DocumentWrite _ _ => true | _ => false end.

(** How many extraction attempts a run of events holds. *)
Definition parseAttempts (evs : list Event) : nat :=
  length (List.filter isParseAttempt evs).

(** Neither a write to a document nor the start of an extraction. *)
Definition quiet (ev : Event) : Prop :=
  isParseAttempt ev = false /\ isDocumentWrite ev = false.

(** A write that does not take a record from [failed] to [processing]. *)
Definition plainWrite (ev : Event) : Prop :=
  match ev with
  | DocumentWrite (Some before) after =>
    ~ (processingStatus before = failed /\ processingStatus after = processing)
  | _ => True
  end.

(** [m] appends to the log, and what it appends satisfies [P]. *)
Definition emitsOnly {A} (P : Event -> Prop) (m : M A) : Prop :=
  forall w, exists evs, log (snd (m w)) = log w ++ evs /\ Forall P evs.

(** The same of the run of [m] from the world [w]. *)
Definition emitsAt {A} (P : Event -> Prop) (m : M A) (w : World) : Prop :=
  exists evs, log (snd (m w)) = log w ++ evs /\ Forall P evs.

(** [m] keeps the property [I] of worlds. *)
Definition maintains {A} (I : World -> Prop) (m : M A) : Prop :=
  forall w, I w -> I (snd (m w)).

(** Everything but the Document collection and the log. *)
Definition outsideDocuments (w : World) :=
  (summaries w, concepts w, nextDocumentId w, nextSummaryId w, nextConceptId w,
   detached w).

(** Everything but the log. *)
Definition outsideLog (w : World) := (documents w, outsideDocuments w).

(** The middle of [parseAndConvertDocument]: from the loaded document to
    its Markdown text. *)
Definition convert (env : Env) (document : DocumentSchema.t)
    (fileBuffer : option File) : M jsstring :=
  buffer <-
    match fileBuffer with
    | Some fileBuffer => ret (buffer fileBuffer)
    | None =>
      fileStream <- DocumentServiceSync.getFileStream env (filePath document);;
      DocumentServiceSync.streamToBuffer fileStream
    end;;
  (if JS.eqb (originalFormat document) (lit "pdf") then
     pdfData <- lift (pdfParse env buffer);;
     match PdfText.convertPdfTextToMarkdown (toUpperCase env) (toLowerCase env) pdfData with
     | Some markdownContent => ret markdownContent
     | None => throw (mkError TypeError (lit "Cannot read properties of undefined"))
     end
   else if JS.eqb (originalFormat document) (lit "url") then
     ret (lit "# " ++ title document ++ lit "

**URL**: " ++ DocumentServiceSync.renderUrl (url document) ++ lit "

*此文档为网页链接，内容解析功能将在后续版本中提供。*")
   else
     throw (newError (lit "暂不支持 " ++ originalFormat document ++ lit " 格式的解析"))).

(** The record invariant of the synchronous assembly. *)
Definition soundSync (d : DocumentSchema.t) : Prop :=
  (processingError d <> None -> processingStatus d = failed) /\
  (processingStatus d = completed -> markdownContent d <> []).

(** The record invariant of the asynchronous assembly. *)
Definition soundAsync (d : DocumentSchema.t) : Prop :=
  (processingError d <> None <-> processingStatus d = failed) /\
  (markdownContent d <> [] -> processingStatus d = completed).

(** A record as the upload creates it. *)
Definition fresh (d : DocumentSchema.t) : Prop :=
  processingStatus d = pending /\ processingError d = None /\ markdownContent d = [].

(** Every stored record, and every record ever written, satisfies [P]. *)
Definition everyRecord (P : DocumentSchema.t -> Prop) (w : World) : Prop :=
  (forall id d, documents w !! id = Some d -> P d) /\
  (forall before after, In (DocumentWrite before after) (log w) -> P after).

(** The document ids of the detached extraction promises. *)
Definition extractionIds (jobs : list Job) : list N :=
  flat_map (fun j => match j with
                     | JobExtract id _ _ => [id]
                     | JobAI _ _ => []
                     end) jobs.

(** The writes to documents among the events of the log. *)
Definition writes (w : World) : list Event := List.filter isDocumentWrite (log w).

(** What the invariant of the asynchronous assembly reads of a world. *)
Definition documentView (w : World) :=
  (documents w, nextDocumentId w, extractionIds (detached w), writes w).

(** A write, if it is one, leaves the record sound. *)
Definition soundWrite (ev : Event) : Prop :=
  match ev with
  | DocumentWrite _ after => soundAsync after
  | _ => True
  end.

(** The invariant of the asynchronous assembly: records are sound, ids
    come from the supply, and every pending extraction has its own record,
    still fresh. *)
Definition invAsync (w : World) : Prop :=
  everyRecord soundAsync w /\
  (forall id d, documents w !! id = Some d -> id < nextDocumentId w) /\
  List.NoDup (extractionIds (detached w)) /\
  (forall id, In id (extractionIds (detached w)) ->
     id < nextDocumentId w /\
     forall d, documents w !! id = Some d -> fresh d).

End PipelineSpec.

(** ** Concrete inputs for the examples *)

Module Demo.

Definition pdfOf (text : jsstring) : PdfText.PdfData :=
  {| PdfText.text := text; PdfText.numpages := 1; PdfText.info := None |}.

(** An environment with S3 configured, parameterised by what [pdf-parse]
    and the three model calls answer. *)
Definition env (pdf : Result PdfText.PdfData) (restructure summary : Result jsstring)
    (concepts : jsstring -> Result (list ConceptData)) : Env :=
  {| s3Enabled := true;
     nodeEnvTest := false;
     maxFileSize := 52428800;
     formatFileSize := fun _ => lit "50 MB";
     megabytes := fun _ => lit "50";
     findPage := fun _ _ _ rows => Ok rows;
     s3Upload := fun key _ => Ok key;
     s3GetObject := fun _ => Ok (Ok []);
     s3DeleteObject := fun _ => Ok tt;
     pdfParse := fun _ => pdf;
     utf8Decode := utf16_of_utf8;
     restructureDocument := fun _ => restructure;
     generateSummary := fun _ => summary;
     extractConcepts := concepts;
     generateFileKey := fun name => lit "documents/" ++ name;
     generateS3Key := fun _ name _ => lit "documents/" ++ name;
     extractTitle := fun name => name;
     mimeLookup := fun _ => [];
     validUrl := fun _ => true;
     extractTitleFromUrl := fun url => url;
     toUpperCase := asciiUpper;
     toLowerCase := asciiLower |}.

Definition plainEnv : Env :=
  env (Ok (pdfOf (lit "Hello"))) (Ok (lit "restructured")) (Ok (lit "summary"))
    (fun _ => Ok []).

Definition entropy1 : ConceptData :=
  {| cd_term := lit "entropy";
     cd_definition := lit "a measure of disorder";
     cd_category := lit "concept";
     cd_importance := 3;
     cd_occurrences :=
       Some [{| occ_position := 10; occ_context := lit "the entropy of";
                occ_confidence := Some (9 # 10) |}] |}.



(** The restructuring call fails; the other two calls would succeed. *)
Definition restructureDown : Env :=
  env (Ok (pdfOf (lit "Hello"))) (Throw (newError (lit "文档重构失败: timeout")))
    (Ok (lit "summary")) (fun _ => Ok [entropy1]).

(** The summary call fails; the other two calls succeed. *)
Definition summaryDown : Env :=
  env (Ok (pdfOf (lit "Hello"))) (Ok (lit "restructured"))
    (Throw (newError (lit "摘要生成失败: timeout"))) (fun _ => Ok [entropy1]).

(** [pdf-parse] finds no text, as for a scanned document. *)
Definition scannedEnv : Env :=
  env (Ok (pdfOf [])) (Ok (lit "restructured")) (Ok (lit "summary")) (fun _ => Ok []).

(** [pdf-parse] rejects the bytes. *)
Definition corruptEnv : Env :=
  env (Throw (newError (lit "Invalid PDF structure"))) (Ok (lit "restructured"))
    (Ok (lit "summary")) (fun _ => Ok []).

Definition pdfFile : File :=
  {| originalname := lit "notes.pdf"; mimetype := application_pdf; size := 16;
     buffer := lit "%PDF-1.4 content" |}.

Definition txtFile : File :=
  {| originalname := lit "notes.txt"; mimetype := text_plain; size := 5;
     buffer := lit "hello" |}.

Definition noMetadata : Metadata := {| meta_title := None; meta_tags := [] |}.

(** Document 1 of user 7, extracted. *)
Definition doc1 : DocumentSchema.t :=
  DocumentSchema.mk 1 7 (lit "notes") (lit "pdf") (Some (lit "documents/notes.pdf"))
    (lit "Hello") None application_pdf None DocumentSchema.completed None [] false.

Definition world1 : World :=
  mkWorld {[ 1 := doc1 ]} [] [] 2 1 1 [] [].

(** Document 1 of user 7 after a failed extraction. *)
Definition failedDoc : DocumentSchema.t :=
  DocumentSchema.mk 1 7 (lit "notes") (lit "pdf") (Some (lit "documents/notes.pdf"))
    [] None application_pdf None DocumentSchema.failed
    (Some (lit "Invalid PDF structure")) [] false.

Definition failedWorld : World :=
  mkWorld {[ 1 := failedDoc ]} [] [] 2 1 1 [] [].

Definition uploadPdf : DocumentController.Request :=
  DocumentController.UploadDocument false (Some pdfFile) 7 None None.

(** A scanned PDF is uploaded to the asynchronous assembly, and then its
    extraction runs. *)
Definition scannedUploaded : World :=
  snd (DocumentController.handle (serviceAsync scannedEnv) uploadPdf emptyWorld).

Definition scannedWorld : World :=
  snd (runJob scannedEnv (JobExtract 1 (buffer pdfFile) application_pdf)
         (set_detached ([] ++ []) scannedUploaded)).

(** A PDF is uploaded to the synchronous assembly and parsed; at the
    reprocess request [pdf-parse] rejects the bytes. *)
Definition parsedWorld : World :=
  snd (DocumentController.handle (serviceSync plainEnv) uploadPdf emptyWorld).

Definition reprocessedWorld : World :=
  snd (DocumentController.handle (serviceSync corruptEnv)
         (DocumentController.ReprocessDocument 1 7) parsedWorld).

End Demo.

(** ** Further methods of the DocumentService that delegates to
    FileExtractService *)

Module DocumentServiceExtra.

Import DocumentSchema.

(** [Document.findByIdAndDelete(documentId)] *)
Definition findByIdAndDelete (id : N) : M unit :=
  fun w => (Ok tt, set_documents (delete id (documents w)) w).

Section WithEnv.

Variable env : Env.

(** [_deleteFromS3(key)]: an error of S3 is logged and not thrown. *)
Definition _deleteFromS3 (key : jsstring) : M unit :=
  if negb (s3Enabled env) then ret tt
  else
    tryCatch
      (emit (S3Delete key);;; lift (s3DeleteObject env key))
      (fun error => consoleError "S3删除失败:" error).

(** [permanentDeleteDocument(documentId, userId)]: the query is
    [{ _id, userId }], without [isDeleted]. *)
Definition permanentDeleteDocument (documentId userId : N) : M (jsstring * N) :=
  tryCatch
    (document <- Document.findById documentId;;
     match document with
     | Some d =>
       if DocumentSchema.userId d =? userId then
         (if someTruthy (filePath d) && s3Enabled env then
            _deleteFromS3 (match filePath d with Some key => key | None => [] end)
          else ret tt);;;
         findByIdAndDelete documentId;;;
         ret (lit "文档永久删除成功", documentId)
       else throw (newError (lit "文档不存在或无权访问"))
     | None => throw (newError (lit "文档不存在或无权访问"))
     end)
    (fun error => throw (newError (lit "永久删除文档失败: " ++ message error))).

End WithEnv.

End DocumentServiceExtra.

(** ** Readings used for the further properties *)

Module AccessSpec.

Import DocumentSchema DocumentController.

(** The document and the caller of a request on one document. *)
Definition target (req : Request) : option (N * N) :=
  match req with
  | GetDocument documentId user
  | DeleteDocument documentId user
  | DownloadDocument documentId user
  | GetMarkdownContent documentId user
  | ReprocessDocument documentId user => Some (documentId, user)
  | _ => None
  end.

(** The caller owns a stored document that is not soft-deleted. *)
Definition accessible (w : World) (documentId user : N) : Prop :=
  exists d, documents w !! documentId = Some d /\ userId d = user /\ isDeleted d = false.

Definition isConsoleError (ev : Event) : bool :=
  match ev with ConsoleError _ _ => true | _ => false end.

(** A call to object storage. *)
Definition isS3 (ev : Event) : bool :=
  match ev with S3Put _ | S3Get _ | S3Delete _ => true | _ => false end.

(** The error of both services for a document that is missing, deleted
    or of another user. *)
Definition denied : Error := newError (lit "文档不存在或无权访问").



End AccessSpec.

Module TextSpec.

(** The code units of [s] that are not white space, in order. *)
Definition visible (s : jsstring) : jsstring :=
  List.filter (fun c => negb (is_ws c)) s.

(** The three [replace] calls, the [split], the [trim] of every line and
    the [join] that open [convertPdfTextToMarkdown]. *)
Definition cleaned (text : jsstring) : jsstring :=
  join [LF]
    (List.map trim
       (split LF (PdfText.collapseBlankLines None
                    (PdfText.replaceCR (PdfText.replaceCRLF text))))).

(** How a line comes out of the loop of [convertPdfTextToMarkdown]: as it
    is, or behind one to three [#] and a space. *)
Definition rendered (line out : jsstring) : Prop :=
  out = line \/
  exists level,
    (1 <= level <= 3)%nat /\ out = List.repeat PdfText.HASH level ++ 32 :: line.

(** What the loop of [extractPdfToMarkdown] appends for one line. *)
Definition renderLine (toUpperCase : jsstring -> jsstring) (line : jsstring)
    : jsstring :=
  let trimmedLine := trim line in
  if truthy trimmedLine then
    if JS.eqb trimmedLine (toUpperCase trimmedLine) && (length trimmedLine <? 100)%nat
    then lit "## " ++ trimmedLine ++ [LF; LF]
    else trimmedLine ++ [LF; LF]
  else [].

(** The [switch] of [extractToMarkdown]. *)
Definition content (env : Env) (fileBuffer : Buffer) (mimeType : jsstring)
    : M jsstring :=
  if JS.eqb mimeType application_pdf
  then FileExtractService.extractPdfToMarkdown env fileBuffer
  else if JS.eqb mimeType application_docx || JS.eqb mimeType application_msword
  then FileExtractService.extractWordToMarkdown fileBuffer
  else if JS.eqb mimeType text_plain then ret (utf8Decode env fileBuffer)
  else throw (newError (lit "不支持的文件类型: " ++ mimeType)).

(** What [extractPdfToMarkdown] answers. *)
Definition pdfResult (env : Env) (fileBuffer : Buffer) : Result jsstring :=
  match pdfParse env fileBuffer with
  | Ok data =>
    Ok (List.concat (List.map (renderLine (toUpperCase env))
                       (split LF (PdfText.text data))))
  | Throw e => Throw (newError (lit "PDF解析失败: " ++ message e))
  end.

(** What the [switch] of [extractToMarkdown] yields for each MIME type. *)
Definition contentResult (env : Env) (fileBuffer : Buffer) (mimeType : jsstring)
    : Result jsstring :=
  if JS.eqb mimeType application_pdf then pdfResult env fileBuffer
  else if JS.eqb mimeType application_docx || JS.eqb mimeType application_msword
  then Throw (newError (lit "Word文档解析功能待实现"))
  else if JS.eqb mimeType text_plain then Ok (utf8Decode env fileBuffer)
  else Throw (newError (lit "不支持的文件类型: " ++ mimeType)).

End TextSpec.

Module SyncSpec.

Import DocumentSchema.

(** The world in which [parseAndConvertDocument] turns to the content of
    the document [d] stored at [id]: the attempt is logged and the record
    is in [processing]. *)
Definition started (id : N) (d : t) (w : World) : World :=
  let dp := updateProcessingStatus processing None d in
  set_log ((log w ++ [ParseAttempt id]) ++ [DocumentWrite (Some d) dp])
    (set_documents (<[id := dp]> (documents w))
       (set_log (log w ++ [ParseAttempt id]) w)).

(** The Markdown written for a URL document. *)
Definition urlStub (d : t) : jsstring :=
  lit "# " ++ title d ++ lit "

**URL**: " ++ DocumentServiceSync.renderUrl (url d) ++ lit "

*此文档为网页链接，内容解析功能将在后续版本中提供。*".

(** What the [switch] of [parseAndConvertDocument] yields from the bytes. *)
Definition formatResult (env : Env) (d : t) (bytes : Buffer) : Result jsstring :=
  if JS.eqb (originalFormat d) (lit "pdf") then
    match pdfParse env bytes with
    | Ok pdfData =>
      match PdfText.convertPdfTextToMarkdown (toUpperCase env) (toLowerCase env) pdfData with
      | Some markdownContent => Ok markdownContent
      | None => Throw (mkError TypeError (lit "Cannot read properties of undefined"))
      end
    | Throw e => Throw e
    end
  else if JS.eqb (originalFormat d) (lit "url") then Ok (urlStub d)
  else Throw (newError (lit "暂不支持 " ++ originalFormat d ++ lit " 格式的解析")).

(** What [getFileStream] and [streamToBuffer] yield for a key. *)
Definition fetchResult (env : Env) (key : option jsstring) : Result Buffer :=
  if DocumentServiceSync.mockS3 env then Ok (lit "Mock file content")
  else
    match s3GetObject env key with
    | Ok stream => stream
    | Throw e => Throw (newError (lit "获取文件失败: " ++ message e))
    end.

(** What [getFileStream] sends and logs for a key. *)
Definition fetchEvents (env : Env) (key : option jsstring) : list Event :=
  if DocumentServiceSync.mockS3 env then []
  else
    S3Get key ::
    match s3GetObject env key with
    | Ok _ => []
    | Throw e => [ConsoleError (utf16 "Get file stream error:") e]
    end.

(** What the conversion of a stored document yields, the bytes being read
    from object storage. *)
Definition storedResult (env : Env) (d : t) : Result jsstring :=
  match fetchResult env (filePath d) with
  | Ok bytes => formatResult env d bytes
  | Throw e => Throw e
  end.

(** The record after an extraction with the outcome [r]. *)
Definition settled (d : t) (r : Result jsstring) : t :=
  let dp := updateProcessingStatus processing None d in
  match r with
  | Ok md => updateProcessingStatus completed None (set_markdownContent md dp)
  | Throw e => updateProcessingStatus failed (Some (message e)) dp
  end.

End SyncSpec.

Module InvariantSpec.

Import DocumentSchema.

(** The two halves of the record invariant. *)
Definition textIffCompleted (d : t) : Prop :=
  markdownContent d <> [] <-> processingStatus d = completed.

Definition errorIffFailed (d : t) : Prop :=
  processingError d <> None <-> processingStatus d = failed.

Definition completedHasText (d : t) : Prop :=
  processingStatus d = completed -> markdownContent d <> [].

Definition failedHasError (d : t) : Prop :=
  processingStatus d = failed -> processingError d <> None.

(** The text of the record [d], if it has one, is the text that an
    extraction of this record was completed with. *)
Definition textOfCompleted (w : World) (d : t) : Prop :=
  markdownContent d <> [] ->
  exists before after,
    In (DocumentWrite before after) (log w) /\
    _id after = _id d /\
    processingStatus after = completed /\
    markdownContent after = markdownContent d.

Definition everyText (w : World) : Prop :=
  forall id d, documents w !! id = Some d -> textOfCompleted w d.

(** The error carries a message. *)
Definition told (e : Error) : Prop := truthy (message e) = true.

(** The errors of [pdf-parse] and of the streams of object storage carry
    a message. *)
Definition saysWhy (env : Env) : Prop :=
  (forall bytes e, pdfParse env bytes = Throw e -> told e) /\
  (forall key e, s3GetObject env key = Ok (Throw e) -> told e).

(** The extraction of the job, when it yields a text, yields one that is
    not empty. *)
Definition yieldsText (env : Env) (j : Job) : Prop :=
  match j with
  | JobExtract _ fileBuffer mimeType =>
    forall md, TextSpec.contentResult env fileBuffer mimeType = Ok md -> md <> []
  | JobAI _ _ => True
  end.

(** The steps of the asynchronous assembly whose jobs satisfy [ok]. *)
Inductive stepAsyncWhere (ok : Env -> Job -> Prop) : World -> World -> Prop :=
| stepAsyncWhere_request env req w :
    stepAsyncWhere ok w (snd (DocumentController.handle (serviceAsync env) req w))
| stepAsyncWhere_job env j before after w :
    detached w = before ++ j :: after ->
    ok env j ->
    stepAsyncWhere ok w (snd (runJob env j (set_detached (before ++ after) w))).

(** The steps of the synchronous assembly in environments that satisfy
    [ok]. *)
Inductive stepSyncWhere (ok : Env -> Prop) : World -> World -> Prop :=
| stepSyncWhere_request env req w :
    ok env ->
    stepSyncWhere ok w (snd (DocumentController.handle (serviceSync env) req w)).

(** [m] throws only errors that satisfy [E]. *)
Definition throwsOnly {A} (E : Error -> Prop) (m : M A) : Prop :=
  forall w e w', m w = (Throw e, w') -> E e.

End InvariantSpec.

Module Sample.

(** A Word file and a file over the size limit of [Demo.plainEnv]. *)
Definition docxFile : File :=
  {| originalname := lit "notes.docx"; mimetype := application_docx; size := 16;
     buffer := lit "PK docx content" |}.

(** A concept with one occurrence, at position 10. *)
Definition concept1 : ConceptSchema.t :=
  ConceptSchema.mk 1 (lit "entropy") (lit "a measure of disorder") 1 7
    [ConceptSchema.mkOcc 10 (lit "the entropy of") (9 # 10)] (lit "concept") 3 false.

Definition hugeFile : File :=
  {| originalname := lit "big.pdf"; mimetype := application_pdf; size := 60000000;
     buffer := lit "%PDF-1.4 content" |}.

(** A PDF with text is uploaded to the asynchronous assembly, and then
    its extraction runs. *)
Definition extractedWorld : World :=
  snd (runJob Demo.plainEnv (JobExtract 1 (buffer Demo.pdfFile) application_pdf)
         (set_detached ([] ++ []) Demo.scannedUploaded)).

(** [pdf-parse] rejects the bytes with an error that has no message. *)
Definition silentEnv : Env :=
  Demo.env (Throw (newError [])) (Ok (lit "restructured")) (Ok (lit "summary"))
    (fun _ => Ok []).

(** A PDF is uploaded to the synchronous assembly under [silentEnv]. *)
Definition silentWorld : World :=
  snd (DocumentController.handle (serviceSync silentEnv) Demo.uploadPdf emptyWorld).

End Sample.

Module RecordSpec.

Import DocumentSchema.

(** [d'] is [d] up to the fields that processing and deletion write. *)
Definition sameIdentity (d d' : t) : Prop :=
  _id d' = _id d /\ userId d' = userId d /\ title d' = title d /\
  originalFormat d' = originalFormat d /\ filePath d' = filePath d /\
  mimeType d' = mimeType d /\ url d' = url d /\ tags d' = tags d.

Definition keepsIdentity (paths : t -> t) : Prop := forall d, sameIdentity d (paths d).

(** Every record is stored under its own [_id], and ids come from the
    supply. *)
Definition ownKey (w : World) : Prop :=
  forall id d, documents w !! id = Some d -> _id d = id /\ id < nextDocumentId w.

(** The record [d0] that was stored at [id0] is still there, up to the
    fields that processing and deletion write. *)
Definition kept (id0 : N) (d0 : t) (w : World) : Prop :=
  id0 < nextDocumentId w /\
  exists d', documents w !! id0 = Some d' /\ sameIdentity d0 d'.

(** A property of the Document collection and its id supply that the
    three ways of changing them keep: drawing ids, rewriting a record
    without touching its identity, inserting a record under a fresh id. *)
Record stable (I : World -> Prop) : Prop := {
  stable_frame : forall w w',
    documents w' = documents w -> nextDocumentId w <= nextDocumentId w' -> I w -> I w';
  stable_update : forall w w' id d d',
    documents w !! id = Some d -> sameIdentity d d' ->
    documents w' = <[id := d']> (documents w) ->
    nextDocumentId w' = nextDocumentId w -> I w -> I w';
  stable_create : forall w w' d,
    _id d = nextDocumentId w ->
    documents w' = <[_id d := d]> (documents w) ->
    nextDocumentId w' = nextDocumentId w + 1 -> I w -> I w'
}.

End RecordSpec.

(** ** ExerciseRecord: the statistics computed before a save *)

Module ExerciseRecord.

Inductive QuestionType := multiple_choice | true_false | short_answer.

(** The paths of an answer that the breakdowns read.  [difficulty] is
    not required by the schema: an absent one compares false with every
    bound. *)
Record Answer := mkAnswer {
  isCorrect : bool;
  difficulty : option Q;
  questionType : QuestionType
}.

(** The two counters of an entry of a breakdown; its [accuracy] is their
    floating-point quotient and is not modelled. *)
Record Tally := mkTally { attempted : N; correct : N }.

Definition zero : Tally := {| attempted := 0; correct := 0 |}.

(** [breakdown[category].attempted++; if (answer.isCorrect) breakdown[category].correct++] *)
Definition count (answer : Answer) (t : Tally) : Tally :=
  {| attempted := attempted t + 1;
     correct := if isCorrect answer then correct t + 1 else correct t |}.

Record DifficultyBreakdown := mkDifficulty { easy : Tally; medium : Tally; hard : Tally }.

Record TypeBreakdown := mkType {
  of_multiple_choice : Tally;
  of_true_false : Tally;
  of_short_answer : Tally
}.

(** [answer.difficulty <= bound] *)
Definition atMost (d : option Q) (bound : Q) : bool :=
  match d with
  | Some d => Qle_bool d bound
  | None => false
  end.

(** [exerciseRecordSchema.methods.calculateDifficultyBreakdown()], the
    counters *)
Definition calculateDifficultyBreakdown (answers : list Answer) : DifficultyBreakdown :=
  fold_left
    (fun breakdown answer =>
       if atMost (difficulty answer) 2 then
         {| easy := count answer (easy breakdown);
            medium := medium breakdown; hard := hard breakdown |}
       else if atMost (difficulty answer) 3 then
         {| easy := easy breakdown;
            medium := count answer (medium breakdown); hard := hard breakdown |}
       else
         {| easy := easy breakdown; medium := medium breakdown;
            hard := count answer (hard breakdown) |})
    answers {| easy := zero; medium := zero; hard := zero |}.

(** [exerciseRecordSchema.methods.calculateTypeBreakdown()], the counters *)
Definition calculateTypeBreakdown (answers : list Answer) : TypeBreakdown :=
  fold_left
    (fun breakdown answer =>
       match questionType answer with
       | multiple_choice =>
         {| of_multiple_choice := count answer (of_multiple_choice breakdown);
            of_true_false := of_true_false breakdown;
            of_short_answer := of_short_answer breakdown |}
       | true_false =>
         {| of_multiple_choice := of_multiple_choice breakdown;
            of_true_false := count answer (of_true_false breakdown);
            of_short_answer := of_short_answer breakdown |}
       | short_answer =>
         {| of_multiple_choice := of_multiple_choice breakdown;
            of_true_false := of_true_false breakdown;
            of_short_answer := count answer (of_short_answer breakdown) |}
       end)
    answers
    {| of_multiple_choice := zero; of_true_false := zero; of_short_answer := zero |}.

(** [this.performance.totalQuestions] and [this.performance.correctAnswers]
    of the [pre('save')] hook *)
Definition totalQuestions (answers : list Answer) : N := N.of_nat (length answers).

Definition correctAnswers (answers : list Answer) : N :=
  N.of_nat (length (List.filter isCorrect answers)).

(** [exerciseRecordSchema.methods.calculateGrade(percentage)], for a
    finite [percentage] *)
Definition calculateGrade (percentage : Q) : string :=
  if Qle_bool 97 percentage then "A+"
  else if Qle_bool 93 percentage then "A"
  else if Qle_bool 90 percentage then "A-"
  else if Qle_bool 87 percentage then "B+"
  else if Qle_bool 83 percentage then "B"
  else if Qle_bool 80 percentage then "B-"
  else if Qle_bool 77 percentage then "C+"
  else if Qle_bool 73 percentage then "C"
  else if Qle_bool 70 percentage then "C-"
  else if Qle_bool 60 percentage then "D"
  else "F".

(** The order of the grades, from ["F"] up. *)
Definition gradeRank (grade : string) : nat :=
  if String.eqb grade "A+" then 10
  else if String.eqb grade "A" then 9
  else if String.eqb grade "A-" then 8
  else if String.eqb grade "B+" then 7
  else if String.eqb grade "B" then 6
  else if String.eqb grade "B-" then 5
  else if String.eqb grade "C+" then 4
  else if String.eqb grade "C" then 3
  else if String.eqb grade "C-" then 2
  else if String.eqb grade "D" then 1
  else 0.

End ExerciseRecord.

(* ================================================================= *)
(** * Properties *)

(** ** Reading a component of an updated world *)

Lemma documents_set_documents v w : documents (set_documents v w) = v.
Proof. reflexivity. Qed.

Lemma documents_set_summaries v w : documents (set_summaries v w) = documents w.
Proof. reflexivity. Qed.

Lemma documents_set_concepts v w : documents (set_concepts v w) = documents w.
Proof. reflexivity. Qed.

Lemma documents_set_nextDocumentId v w : documents (set_nextDocumentId v w) = documents w.
Proof. reflexivity. Qed.

Lemma documents_set_nextSummaryId v w : documents (set_nextSummaryId v w) = documents w.
Proof. reflexivity. Qed.

Lemma documents_set_nextConceptId v w : documents (set_nextConceptId v w) = documents w.
Proof. reflexivity. Qed.

Lemma documents_set_log v w : documents (set_log v w) = documents w.
Proof. reflexivity. Qed.

Lemma documents_set_detached v w : documents (set_detached v w) = documents w.
Proof. reflexivity. Qed.

Lemma summaries_set_documents v w : summaries (set_documents v w) = summaries w.
Proof. reflexivity. Qed.

Lemma summaries_set_summaries v w : summaries (set_summaries v w) = v.
Proof. reflexivity. Qed.

Lemma summaries_set_concepts v w : summaries (set_concepts v w) = summaries w.
Proof. reflexivity. Qed.

Lemma summaries_set_nextDocumentId v w : summaries (set_nextDocumentId v w) = summaries w.
Proof. reflexivity. Qed.

Lemma summaries_set_nextSummaryId v w : summaries (set_nextSummaryId v w) = summaries w.
Proof. reflexivity. Qed.

Lemma summaries_set_nextConceptId v w : summaries (set_nextConceptId v w) = summaries w.
Proof. reflexivity. Qed.

Lemma summaries_set_log v w : summaries (set_log v w) = summaries w.
Proof. reflexivity. Qed.

Lemma summaries_set_detached v w : summaries (set_detached v w) = summaries w.
Proof. reflexivity. Qed.

Lemma concepts_set_documents v w : concepts (set_documents v w) = concepts w.
Proof. reflexivity. Qed.

Lemma concepts_set_summaries v w : concepts (set_summaries v w) = concepts w.
Proof. reflexivity. Qed.

Lemma concepts_set_concepts v w : concepts (set_concepts v w) = v.
Proof. reflexivity. Qed.

Lemma concepts_set_nextDocumentId v w : concepts (set_nextDocumentId v w) = concepts w.
Proof. reflexivity. Qed.

Lemma concepts_set_nextSummaryId v w : concepts (set_nextSummaryId v w) = concepts w.
Proof. reflexivity. Qed.

Lemma concepts_set_nextConceptId v w : concepts (set_nextConceptId v w) = concepts w.
Proof. reflexivity. Qed.

Lemma concepts_set_log v w : concepts (set_log v w) = concepts w.
Proof. reflexivity. Qed.

Lemma concepts_set_detached v w : concepts (set_detached v w) = concepts w.
Proof. reflexivity. Qed.

Lemma nextDocumentId_set_documents v w : nextDocumentId (set_documents v w) = nextDocumentId w.
Proof. reflexivity. Qed.

Lemma nextDocumentId_set_summaries v w : nextDocumentId (set_summaries v w) = nextDocumentId w.
Proof. reflexivity. Qed.

Lemma nextDocumentId_set_concepts v w : nextDocumentId (set_concepts v w) = nextDocumentId w.
Proof. reflexivity. Qed.

Lemma nextDocumentId_set_nextDocumentId v w : nextDocumentId (set_nextDocumentId v w) = v.
Proof. reflexivity. Qed.

Lemma nextDocumentId_set_nextSummaryId v w : nextDocumentId (set_nextSummaryId v w) = nextDocumentId w.
Proof. reflexivity. Qed.

Lemma nextDocumentId_set_nextConceptId v w : nextDocumentId (set_nextConceptId v w) = nextDocumentId w.
Proof. reflexivity. Qed.

Lemma nextDocumentId_set_log v w : nextDocumentId (set_log v w) = nextDocumentId w.
Proof. reflexivity. Qed.

Lemma nextDocumentId_set_detached v w : nextDocumentId (set_detached v w) = nextDocumentId w.
Proof. reflexivity. Qed.

Lemma nextSummaryId_set_documents v w : nextSummaryId (set_documents v w) = nextSummaryId w.
Proof. reflexivity. Qed.

Lemma nextSummaryId_set_summaries v w : nextSummaryId (set_summaries v w) = nextSummaryId w.
Proof. reflexivity. Qed.

Lemma nextSummaryId_set_concepts v w : nextSummaryId (set_concepts v w) = nextSummaryId w.
Proof. reflexivity. Qed.

Lemma nextSummaryId_set_nextDocumentId v w : nextSummaryId (set_nextDocumentId v w) = nextSummaryId w.
Proof. reflexivity. Qed.

Lemma nextSummaryId_set_nextSummaryId v w : nextSummaryId (set_nextSummaryId v w) = v.
Proof. reflexivity. Qed.

Lemma nextSummaryId_set_nextConceptId v w : nextSummaryId (set_nextConceptId v w) = nextSummaryId w.
Proof. reflexivity. Qed.

Lemma nextSummaryId_set_log v w : nextSummaryId (set_log v w) = nextSummaryId w.
Proof. reflexivity. Qed.

Lemma nextSummaryId_set_detached v w : nextSummaryId (set_detached v w) = nextSummaryId w.
Proof. reflexivity. Qed.

Lemma nextConceptId_set_documents v w : nextConceptId (set_documents v w) = nextConceptId w.
Proof. reflexivity. Qed.

Lemma nextConceptId_set_summaries v w : nextConceptId (set_summaries v w) = nextConceptId w.
Proof. reflexivity. Qed.

Lemma nextConceptId_set_concepts v w : nextConceptId (set_concepts v w) = nextConceptId w.
Proof. reflexivity. Qed.

Lemma nextConceptId_set_nextDocumentId v w : nextConceptId (set_nextDocumentId v w) = nextConceptId w.
Proof. reflexivity. Qed.

Lemma nextConceptId_set_nextSummaryId v w : nextConceptId (set_nextSummaryId v w) = nextConceptId w.
Proof. reflexivity. Qed.

Lemma nextConceptId_set_nextConceptId v w : nextConceptId (set_nextConceptId v w) = v.
Proof. reflexivity. Qed.

Lemma nextConceptId_set_log v w : nextConceptId (set_log v w) = nextConceptId w.
Proof. reflexivity. Qed.

Lemma nextConceptId_set_detached v w : nextConceptId (set_detached v w) = nextConceptId w.
Proof. reflexivity. Qed.

Lemma log_set_documents v w : log (set_documents v w) = log w.
Proof. reflexivity. Qed.

Lemma log_set_summaries v w : log (set_summaries v w) = log w.
Proof. reflexivity. Qed.

Lemma log_set_concepts v w : log (set_concepts v w) = log w.
Proof. reflexivity. Qed.

Lemma log_set_nextDocumentId v w : log (set_nextDocumentId v w) = log w.
Proof. reflexivity. Qed.

Lemma log_set_nextSummaryId v w : log (set_nextSummaryId v w) = log w.
Proof. reflexivity. Qed.

Lemma log_set_nextConceptId v w : log (set_nextConceptId v w) = log w.
Proof. reflexivity. Qed.

Lemma log_set_log v w : log (set_log v w) = v.
Proof. reflexivity. Qed.

Lemma log_set_detached v w : log (set_detached v w) = log w.
Proof. reflexivity. Qed.

Lemma detached_set_documents v w : detached (set_documents v w) = detached w.
Proof. reflexivity. Qed.

Lemma detached_set_summaries v w : detached (set_summaries v w) = detached w.
Proof. reflexivity. Qed.

Lemma detached_set_concepts v w : detached (set_concepts v w) = detached w.
Proof. reflexivity. Qed.

Lemma detached_set_nextDocumentId v w : detached (set_nextDocumentId v w) = detached w.
Proof. reflexivity. Qed.

Lemma detached_set_nextSummaryId v w : detached (set_nextSummaryId v w) = detached w.
Proof. reflexivity. Qed.

Lemma detached_set_nextConceptId v w : detached (set_nextConceptId v w) = detached w.
Proof. reflexivity. Qed.

Lemma detached_set_log v w : detached (set_log v w) = detached w.
Proof. reflexivity. Qed.

Lemma detached_set_detached v w : detached (set_detached v w) = v.
Proof. reflexivity. Qed.

Create Rewrite HintDb world.

#[global] Hint Rewrite
  documents_set_documents documents_set_summaries documents_set_concepts
  documents_set_nextDocumentId documents_set_nextSummaryId documents_set_nextConceptId
  documents_set_log documents_set_detached summaries_set_documents
  summaries_set_summaries summaries_set_concepts summaries_set_nextDocumentId
  summaries_set_nextSummaryId summaries_set_nextConceptId summaries_set_log
  summaries_set_detached concepts_set_documents concepts_set_summaries
  concepts_set_concepts concepts_set_nextDocumentId concepts_set_nextSummaryId
  concepts_set_nextConceptId concepts_set_log concepts_set_detached
  nextDocumentId_set_documents nextDocumentId_set_summaries nextDocumentId_set_concepts
  nextDocumentId_set_nextDocumentId nextDocumentId_set_nextSummaryId
  nextDocumentId_set_nextConceptId nextDocumentId_set_log nextDocumentId_set_detached
  nextSummaryId_set_documents nextSummaryId_set_summaries nextSummaryId_set_concepts
  nextSummaryId_set_nextDocumentId nextSummaryId_set_nextSummaryId
  nextSummaryId_set_nextConceptId nextSummaryId_set_log nextSummaryId_set_detached
  nextConceptId_set_documents nextConceptId_set_summaries nextConceptId_set_concepts
  nextConceptId_set_nextDocumentId nextConceptId_set_nextSummaryId
  nextConceptId_set_nextConceptId nextConceptId_set_log nextConceptId_set_detached
  log_set_documents log_set_summaries log_set_concepts log_set_nextDocumentId
  log_set_nextSummaryId log_set_nextConceptId log_set_log log_set_detached
  detached_set_documents detached_set_summaries detached_set_concepts
  detached_set_nextDocumentId detached_set_nextSummaryId detached_set_nextConceptId
  detached_set_log detached_set_detached
  : world.

(** ** JavaScript strings *)

Lemma eqb_eq (s t : jsstring) : JS.eqb s t = true <-> s = t.
Proof.
  revert t; induction s as [|a s IH]; intros [|b t]; simpl; split;
    try congruence; try discriminate.
  - rewrite andb_true_iff, N.eqb_eq, IH. intros [-> ->]; reflexivity.
  - intros [= -> ->]. rewrite N.eqb_refl. simpl. apply IH; reflexivity.
Qed.

Lemma eqb_refl (s : jsstring) : JS.eqb s s = true.
Proof. apply eqb_eq; reflexivity. Qed.

Lemma startsWith_iff (s p : jsstring) : startsWith s p = true <-> beginsWith s p.
Proof.
  unfold beginsWith. revert s; induction p as [|a p IH]; intros s.
  - simpl. destruct s; split; eauto.
  - destruct s as [|b s]; simpl.
    + split; [discriminate | intros [r Hr]; discriminate].
    + rewrite andb_true_iff, N.eqb_eq, IH. split.
      * intros [-> [r ->]]. exists r; reflexivity.
      * intros [r [= -> ->]]. split; eauto.
Qed.

Lemma includes_iff (s sub : jsstring) : includes s sub = true <-> occursIn sub s.
Proof.
  unfold occursIn. induction s as [|c s IH]; cbn [includes].
  - rewrite orb_false_r, startsWith_iff. split.
    + intros [r Hr]. exists [], r. exact Hr.
    + intros [pre [post H]]. destruct pre as [|x pre]; [|discriminate].
      exists post; exact H.
  - rewrite orb_true_iff, IH, startsWith_iff. split.
    + intros [[r Hr] | [pre [post H]]].
      * exists [], r. exact Hr.
      * exists (c :: pre), post. simpl. rewrite H. reflexivity.
    + intros [[|x pre] [post H]].
      * left. exists post. exact H.
      * right. injection H as -> H. exists pre, post. exact H.
Qed.

Lemma includes_unit (s : jsstring) (c : N) : includes s [c] = true <-> In c s.
Proof.
  rewrite includes_iff. unfold occursIn. split.
  - intros [pre [post ->]]. apply in_or_app. right. left. reflexivity.
  - intros H. apply in_split in H as [pre [post ->]]. exists pre, post. reflexivity.
Qed.

Lemma trimStart_blank (s : jsstring) : trimStart s = [] <-> blank s.
Proof.
  unfold blank. induction s as [|c s IH]; simpl.
  - split; [constructor | reflexivity].
  - destruct (is_ws c) eqn:E.
    + rewrite IH. split; [intros; constructor; assumption | intros H; inversion H; assumption].
    + split; [discriminate | intros H; inversion H; congruence].
Qed.

Lemma trimStart_head (s : jsstring) :
  match trimStart s with [] => True | c :: _ => is_ws c = false end.
Proof.
  induction s as [|c s IH]; simpl; [exact I|].
  destruct (is_ws c) eqn:E; [exact IH | exact E].
Qed.

Lemma trimStart_fixed (s : jsstring) :
  match s with [] => True | c :: _ => is_ws c = false end -> trimStart s = s.
Proof. destruct s as [|c s]; simpl; [reflexivity|]. intros ->. reflexivity. Qed.

Lemma trimStart_snoc (s : jsstring) (c : N) :
  is_ws c = false -> trimStart (s ++ [c]) = trimStart s ++ [c].
Proof.
  intros Hc. induction s as [|a s IH]; simpl.
  - rewrite Hc. reflexivity.
  - destruct (is_ws a); [exact IH | reflexivity].
Qed.

Lemma trimStart_idem (s : jsstring) : trimStart (trimStart s) = trimStart s.
Proof. apply trimStart_fixed, trimStart_head. Qed.

Lemma blank_rev (s : jsstring) : blank (rev s) <-> blank s.
Proof.
  unfold blank. rewrite !List.Forall_forall. split; intros H x Hx; apply H.
  - apply in_rev. rewrite rev_involutive. exact Hx.
  - apply in_rev. exact Hx.
Qed.

Lemma trim_blank (s : jsstring) : trim s = [] <-> blank s.
Proof.
  unfold trim, trimEnd. split.
  - intros H. apply (f_equal (@rev N)) in H. rewrite rev_involutive in H. simpl in H.
    apply trimStart_blank in H. apply -> blank_rev in H.
    destruct (trimStart s) as [|c r] eqn:E.
    + apply trimStart_blank. exact E.
    + pose proof (trimStart_head s) as Hh. rewrite E in Hh.
      apply List.Forall_inv in H. simpl in H. congruence.
  - intros H. apply trimStart_blank in H. rewrite H. reflexivity.
Qed.

Lemma truthy_trim (s : jsstring) : truthy (trim s) = false <-> blank s.
Proof.
  rewrite <- trim_blank. destruct (trim s); simpl; split; congruence.
Qed.

Lemma truthy_false (s : jsstring) : truthy s = false <-> s = [].
Proof. destruct s; simpl; split; congruence. Qed.

Lemma trim_head (s : jsstring) :
  match trim s with [] => True | c :: _ => is_ws c = false end.
Proof.
  unfold trim, trimEnd.
  pose proof (trimStart_head s) as Hh.
  destruct (trimStart s) as [|c r]; simpl; [exact I|].
  rewrite trimStart_snoc by exact Hh.
  rewrite rev_app_distr. simpl. exact Hh.
Qed.

Lemma trim_idem (s : jsstring) : trim (trim s) = trim s.
Proof.
  unfold trim at 1. rewrite (trimStart_fixed (trim s)) by apply trim_head.
  unfold trim, trimEnd. rewrite rev_involutive, trimStart_idem. reflexivity.
Qed.

(** ** C9: the diagram validator *)

Section Diagram.

Import AIService DiagramSpec.

Lemma nonBlankLines_nonblank (code l : jsstring) :
  In l (nonBlankLines code) -> truthy (trim l) = true.
Proof. unfold nonBlankLines. intros H. apply List.filter_In in H. apply H. Qed.

Lemma isValidMindmapNode_trim (l : jsstring) :
  truthy (trim l) = true ->
  (isValidMindmapNode (trim l) = true <-> ~ hasInvalidChar (trim l)).
Proof.
  intros Ht. unfold isValidMindmapNode, hasInvalidChar. cbv zeta.
  rewrite trim_idem, Ht.
  assert ((length (trim l) =? 0)%nat = false) as ->
    by (destruct (trim l); [discriminate | reflexivity]).
  cbn [negb orb]. rewrite negb_true_iff. split.
  - intros Hn [x [Hx Hin]].
    assert (existsb (fun char => includes (trim l) [char]) invalidChars = true) as Hy.
    { apply List.existsb_exists. exists x. split; [exact Hx|]. apply includes_unit. exact Hin. }
    congruence.
  - intros Hn. destruct (existsb _ invalidChars) eqn:Hy; [|reflexivity].
    apply List.existsb_exists in Hy as [x [Hx Hin]]. exfalso. apply Hn.
    exists x. split; [exact Hx|]. apply includes_unit. exact Hin.
Qed.

Lemma hasValidType_iff (firstLine : jsstring) :
  existsb (fun type => startsWith firstLine type) validTypes = true <->
  exists type, In type validTypes /\ beginsWith firstLine type.
Proof.
  rewrite List.existsb_exists. split; intros [t [Ht Hs]]; exists t; split;
    try exact Ht; apply startsWith_iff; exact Hs.
Qed.

Lemma validateMermaidSyntax_accepted (code : jsstring) :
  validateMermaidSyntax code = true <-> accepted code.
Proof.
  unfold validateMermaidSyntax, accepted.
  change (List.filter (fun line => truthy (trim line)) (split LF code))
    with (nonBlankLines code).
  pose proof (nonBlankLines_nonblank code) as Hnb.
  destruct (nonBlankLines code) as [|first rest].
  { split; [discriminate | intros [f [r [H _]]]; discriminate]. }
  cbv zeta.
  destruct (existsb (fun type => startsWith (trim first) type) validTypes) eqn:Ht;
    simpl negb; cbv iota.
  2:{ split; [discriminate|]. intros [f [r [[= <- <-] [_ [Hty _]]]]].
      apply hasValidType_iff in Hty. congruence. }
  apply hasValidType_iff in Ht.
  destruct (startsWith (trim first) mindmap
            && existsb (fun l => let line := trim l in
                                 truthy line && negb (isValidMindmapNode line)) rest) eqn:Hm.
  - split; [discriminate|]. intros [f [r [[= <- <-] [_ [_ Hall]]]]].
    apply andb_true_iff in Hm as [Hs Hex].
    apply startsWith_iff in Hs. specialize (Hall Hs).
    apply List.existsb_exists in Hex as [l [Hl Hbad]]. cbv zeta in Hbad.
    apply andb_true_iff in Hbad as [Hl1 Hl2]. apply negb_true_iff in Hl2.
    rewrite List.Forall_forall in Hall. specialize (Hall l Hl).
    apply isValidMindmapNode_trim in Hall; [congruence | exact Hl1].
  - destruct rest as [|second rest].
    + split; [discriminate|]. intros [f [r [[= <- <-] [Hne _]]]]. congruence.
    + split; [|reflexivity]. intros _. exists first, (second :: rest).
      split; [reflexivity|]. split; [discriminate|]. split; [exact Ht|].
      intros Hs. apply startsWith_iff in Hs. rewrite Hs in Hm. cbn [andb] in Hm.
      apply List.Forall_forall. intros l Hl.
      apply isValidMindmapNode_trim; [apply Hnb; right; exact Hl|].
      destruct (isValidMindmapNode (trim l)) eqn:Hv; [reflexivity|].
      apply not_true_iff_false in Hm. exfalso. apply Hm.
      apply List.existsb_exists. exists l. split; [exact Hl|]. cbv zeta.
      rewrite Hv, (Hnb l (or_intror Hl)). reflexivity.
Qed.

(** C9 (as amended).  The validator accepts a diagram only when it has
    at least two non-blank lines, the first of them, trimmed, begins with
    one of the eight type names and, if it begins with [mindmap], no later
    non-blank line holds one of [< > { } [ ] ( ) |] once trimmed.  It
    accepts every such diagram that is no mindmap, and every such mindmap
    whose later non-blank lines are indented consistently.  Hence a
    diagram whose first non-blank line declares no type is rejected, a
    mindmap with such a character in a node is rejected, and a [mindmap]
    line followed by one plain node is accepted. *)
Theorem C9_validateMermaidSyntax_spec :
  (forall code, validateMermaidSyntax code = true -> accepted code) /\
  (forall code,
     accepted code ->
     (declaresMindmap code -> consistentIndentation (tl (nonBlankLines code)) = true) ->
     validateMermaidSyntax code = true) /\
  (forall code, ~ declaresType code -> validateMermaidSyntax code = false) /\
  (forall code,
     declaresMindmap code ->
     (exists l, In l (tl (nonBlankLines code)) /\ hasInvalidChar (trim l)) ->
     validateMermaidSyntax code = false) /\
  validateMermaidSyntax (utf16 "mindmap
  root") = true.
Proof.
  split; [intros code; apply validateMermaidSyntax_accepted|].
  split; [intros code H _; apply validateMermaidSyntax_accepted; exact H|].
  split; [|split; [|reflexivity]].
  - intros code Hn. destruct (validateMermaidSyntax code) eqn:E; [|reflexivity].
    apply validateMermaidSyntax_accepted in E as [f [r [E [_ [Hty _]]]]].
    exfalso. apply Hn. exists f, r. split; assumption.
  - intros code [f [r [E Hm]]] [l [Hl Hbad]].
    destruct (validateMermaidSyntax code) eqn:V; [|reflexivity].
    apply validateMermaidSyntax_accepted in V as [f' [r' [E' [_ [_ Hall]]]]].
    rewrite E in E'. injection E' as <- <-. rewrite E in Hl. simpl in Hl.
    specialize (Hall Hm). rewrite List.Forall_forall in Hall.
    exfalso. exact (Hall l Hl Hbad).
Qed.

(** C9, a witness of the two rejections and of the acceptances: a
    mindmap of three nodes on two levels is accepted. *)
Lemma C9_validateMermaidSyntax_witness :
  validateMermaidSyntax (utf16 "hello
  world") = false /\
  validateMermaidSyntax (utf16 "mindmap
  root[a]") = false /\
  validateMermaidSyntax (utf16 "mindmap
  root") = true /\
  consistentIndentation (tl (nonBlankLines (utf16 "mindmap
  root
    first
    second"))) = true /\
  validateMermaidSyntax (utf16 "mindmap
  root
    first
    second") = true.
Proof.
  destruct C9_validateMermaidSyntax_spec as [_ [H1 [H2 [H3 H4]]]].
  split; [|split; [|split; [exact H4|split; [reflexivity|]]]].
  - apply H2. intros [f [r [E [t [Ht [x Hx]]]]]].
    vm_compute in E. injection E as <- <-.
    vm_compute in Ht. vm_compute in Hx.
    repeat (destruct Ht as [<- | Ht]; [discriminate|]). exact Ht.
  - apply H3.
    + eexists _, _. split; [vm_compute; reflexivity|]. exists (utf16 "").
      vm_compute. reflexivity.
    + eexists. split; [vm_compute; left; reflexivity|].
      exists 91. split; vm_compute; tauto.
  - apply H1; [|intros _; reflexivity].
    eexists _, _. split; [vm_compute; reflexivity|]. split; [discriminate|].
    split.
    + exists mindmap. split; [left; reflexivity|]. exists (utf16 ""). reflexivity.
    + intros _. repeat constructor; intros [c [Hc Hin]]; vm_compute in Hc, Hin;
        repeat (destruct Hc as [<- | Hc];
                [repeat (destruct Hin as [Hin | Hin]; [discriminate Hin|]); exact Hin|]);
        exact Hc.
Defined.

(** C9 as stated fails: the single line [graph TD] declares a type of the
    fixed set, which is not the mindmap type, so that no condition on
    later lines applies; the validator rejects it for having no second
    line. *)
Lemma C9_counterexample :
  declaresType (utf16 "graph TD") /\
  ~ declaresMindmap (utf16 "graph TD") /\
  validateMermaidSyntax (utf16 "graph TD") = false.
Proof.
  split; [|split; [|reflexivity]].
  - exists (utf16 "graph TD"), []. split; [reflexivity|].
    exists (utf16 "graph"). split; [vm_compute; tauto|].
    exists (utf16 " TD"). reflexivity.
  - intros [f [r [E [x Hx]]]]. vm_compute in E. injection E as <- <-.
    vm_compute in Hx. discriminate.
Qed.

End Diagram.

(** ** C7 and C8: headings in the text of a PDF *)

Section Headings.

Import PdfText HeadingSpec.

Lemma ws_not_digit (c : N) : is_ws c = true -> is_digit c = false.
Proof.
  intros H. destruct (is_digit c) eqn:D; [|reflexivity].
  unfold is_digit in D. apply andb_true_iff in D as [D1 D2].
  apply N.leb_le in D1, D2. unfold is_ws in H.
  repeat rewrite orb_true_iff in H. repeat rewrite andb_true_iff in H.
  rewrite ?N.leb_le, ?N.eqb_eq in H. lia.
Qed.

Lemma sep_not_digit (c : N) : c = DOT \/ is_ws c = true -> is_digit c = false.
Proof. intros [-> | H]; [reflexivity | apply ws_not_digit; exact H]. Qed.

Lemma spanDigits_spec (s : jsstring) :
  s = fst (spanDigits s) ++ snd (spanDigits s) /\
  Forall (fun c => is_digit c = true) (fst (spanDigits s)) /\
  match snd (spanDigits s) with
  | [] => True
  | c :: _ => is_digit c = false
  end.
Proof.
  induction s as [|c s IH]; simpl.
  - repeat split; constructor.
  - destruct (is_digit c) eqn:D.
    + destruct (spanDigits s) as [ds rest]. simpl in *.
      destruct IH as [-> [Hd Hr]]. repeat split; [constructor; assumption | exact Hr].
    + simpl. repeat split; [constructor | exact D].
Qed.

Lemma spanDigits_app (ds : jsstring) (c : N) (rest : jsstring) :
  Forall (fun c => is_digit c = true) ds -> is_digit c = false ->
  spanDigits (ds ++ c :: rest) = (ds, c :: rest).
Proof.
  intros Hd Hc. induction Hd as [|d ds Hd _ IH]; simpl.
  - rewrite Hc. reflexivity.
  - rewrite Hd, IH. reflexivity.
Qed.

Lemma startsWithNumber_iff (line : jsstring) :
  startsWithNumber line = true <-> numbered line.
Proof.
  unfold startsWithNumber, numbered, digits. split.
  - pose proof (spanDigits_spec line) as [Hl [Hd _]].
    destruct (spanDigits line) as [ds rest]. simpl in *.
    intros H. apply andb_true_iff in H as [Ht Hc].
    destruct rest as [|c rest]; [discriminate|].
    exists ds, c, rest. split; [split; [destruct ds; [discriminate|discriminate] | exact Hd]|].
    split; [|exact Hl].
    apply orb_true_iff in Hc as [Hc | Hc]; [left; apply N.eqb_eq; exact Hc | right; exact Hc].
  - intros [ds [c [rest [[Hne Hd] [Hc ->]]]]].
    rewrite spanDigits_app by (try exact Hd; apply sep_not_digit; exact Hc).
    destruct ds as [|d ds]; [congruence|]. simpl.
    destruct Hc as [-> | Hc]; [reflexivity | rewrite Hc; apply orb_true_r].
Qed.

Lemma subNumberMatch_iff (line : jsstring) :
  subNumberMatch line = true <-> subNumbered line.
Proof.
  unfold subNumberMatch, subNumbered, digits. split.
  - pose proof (spanDigits_spec line) as [Hl [Hd _]].
    destruct (spanDigits line) as [ds rest]. simpl in *.
    intros H. apply andb_true_iff in H as [Ht Hc].
    destruct rest as [|c [|d rest]]; try discriminate.
    apply andb_true_iff in Hc as [Hc Hdd]. apply N.eqb_eq in Hc. subst c.
    exists ds, d, rest. split; [split; [destruct ds; discriminate | exact Hd]|].
    split; [exact Hdd | exact Hl].
  - intros [ds [d [rest [[Hne Hd] [Hdd ->]]]]].
    rewrite spanDigits_app by (try exact Hd; reflexivity).
    destruct ds as [|x ds]; [congruence|]. simpl. exact Hdd.
Qed.

Lemma numberMatch_numbered (line ds : jsstring) (c : N) (rest : jsstring) :
  digits ds -> c = DOT \/ is_ws c = true -> line = ds ++ c :: rest ->
  numberMatch line = Some ds.
Proof.
  intros Hds Hc ->. unfold numberMatch.
  assert (startsWithNumber (ds ++ c :: rest) = true) as ->.
  { apply startsWithNumber_iff. exists ds, c, rest. auto. }
  rewrite spanDigits_app; [reflexivity | apply Hds | apply sep_not_digit; exact Hc].
Qed.

Lemma numberMatch_None (line : jsstring) :
  numberMatch line = None <-> ~ numbered line.
Proof.
  unfold numberMatch. rewrite <- startsWithNumber_iff.
  destruct (startsWithNumber line); split; congruence.
Qed.

Lemma hasAZ_iff (line : jsstring) : existsb is_AZ line = true <-> hasAZ line.
Proof.
  unfold hasAZ. rewrite List.existsb_exists. unfold is_AZ.
  split; intros [c [Hc H]]; exists c; split; try exact Hc.
  - apply andb_true_iff in H as [H1 H2]. apply N.leb_le in H1, H2. lia.
  - apply andb_true_iff. rewrite !N.leb_le. lia.
Qed.

Lemma hasKeyword_iff (line : jsstring) :
  existsb (fun keyword => includes line keyword) titleKeywords = true <->
  hasKeyword line.
Proof.
  unfold hasKeyword. rewrite List.existsb_exists.
  split; intros [k [Hk H]]; exists k; split; try exact Hk; apply includes_iff; exact H.
Qed.

Lemma lineEmptyAt_Some (lines : list jsstring) (k : nat) (b : bool) :
  lineEmptyAt lines k = Some b ->
  (b = true <-> exists l, nth_error lines k = Some l /\ blank l).
Proof.
  unfold lineEmptyAt. destruct (nth_error lines k) as [l|]; [|discriminate].
  intros [= <-]. rewrite negb_true_iff, truthy_trim. split.
  - intros H. exists l. auto.
  - intros [l' [[= <-] H]]. exact H.
Qed.

Lemma lineEmptyAt_in_range (lines : list jsstring) (k : nat) :
  (k < length lines)%nat -> exists b, lineEmptyAt lines k = Some b.
Proof.
  intros H. unfold lineEmptyAt.
  destruct (nth_error lines k) eqn:E; [eauto|].
  apply List.nth_error_None in E. lia.
Qed.

Lemma prevLineEmpty_spec (lines : list jsstring) (index : nat) :
  (index < length lines)%nat ->
  exists b,
    match index with
    | O => Some true
    | S k => lineEmptyAt lines k
    end = Some b /\ (b = true <-> prevBlank lines index).
Proof.
  intros H. unfold prevBlank. destruct index as [|k].
  - exists true. split; [reflexivity|]. split; auto.
  - destruct (lineEmptyAt_in_range lines k) as [b Hb]; [lia|].
    exists b. split; [exact Hb|]. rewrite (lineEmptyAt_Some _ _ _ Hb).
    simpl. rewrite Nat.sub_0_r. split; [auto | intros [? | ?]; [discriminate | assumption]].
Qed.

Lemma nextLineEmpty_spec (lines : list jsstring) (index : nat) :
  (index < length lines)%nat ->
  exists b,
    (if (S index =? length lines)%nat then Some true
     else lineEmptyAt lines (S index)) = Some b /\
    (b = true <-> nextBlank lines index).
Proof.
  intros H. unfold nextBlank. destruct (Nat.eqb_spec (S index) (length lines)) as [E | E].
  - exists true. split; [reflexivity|]. split; auto.
  - destruct (lineEmptyAt_in_range lines (S index)) as [b Hb]; [lia|].
    exists b. split; [exact Hb|]. rewrite (lineEmptyAt_Some _ _ _ Hb).
    split; [auto | intros [? | ?]; [contradiction | assumption]].
Qed.

(** C7 (as amended).  At an index inside [lines], [isPotentialTitle]
    answers, and it promotes the line exactly when the line is not blank,
    has at most 100 code units, and one of these holds: it equals its
    upper-casing, contains a letter A-Z and the line before it is blank or
    absent; it starts with digits followed by a dot or a whitespace unit;
    it contains one of the ten keywords and is shorter than 50; the lines
    before and after it are blank or absent and it is shorter than 80. *)
Theorem C7_isPotentialTitle_spec (toUpperCase : jsstring -> jsstring)
    (line : jsstring) (lines : list jsstring) (index : nat) :
  (index < length lines)%nat ->
  exists b,
    isPotentialTitle toUpperCase line lines index = Some b /\
    (b = true <-> promoted toUpperCase line lines index).
Proof.
  intros Hidx. unfold isPotentialTitle, promoted.
  destruct (truthy (trim line)) eqn:Ht; simpl negb; cbv iota.
  2:{ exists false. split; [reflexivity|]. apply truthy_trim in Ht.
      split; [discriminate | intros [Hn _]; contradiction]. }
  assert (~ blank line) as Hnb.
  { intros Hb. apply truthy_trim in Hb. congruence. }
  destruct (Nat.ltb_spec 100 (length line)) as [Hlong | Hlen].
  { exists false. split; [reflexivity|]. split; [discriminate | intros [_ [Hl _]]; lia]. }
  cbv zeta.
  destruct (prevLineEmpty_spec lines index Hidx) as [pb [-> Hpb]].
  destruct (nextLineEmpty_spec lines index Hidx) as [nb [-> Hnx]].
  eexists. split; [reflexivity|].
  rewrite !orb_true_iff, !andb_true_iff, eqb_eq, hasAZ_iff, startsWithNumber_iff,
    hasKeyword_iff, !Nat.ltb_lt, Hpb, Hnx.
  tauto.
Qed.

(** C7, a witness: an upper-case line after a blank line is promoted. *)
Lemma C7_isPotentialTitle_witness :
  exists b,
    isPotentialTitle asciiUpper (utf16 "INTRODUCTION")
      [[]; utf16 "INTRODUCTION"; []; utf16 "This is content."] 1 = Some b /\
    (b = true <->
     promoted asciiUpper (utf16 "INTRODUCTION")
       [[]; utf16 "INTRODUCTION"; []; utf16 "This is content."] 1).
Proof.
  apply (C7_isPotentialTitle_spec asciiUpper (utf16 "INTRODUCTION")
           [[]; utf16 "INTRODUCTION"; []; utf16 "This is content."] 1).
  simpl. lia.
Defined.

(** C7 as stated fails: a line of 103 code units that starts with [1.]
    starts with a decimal numbering pattern and is not promoted. *)
Lemma C7_counterexample :
  let line := utf16 "1. " ++ List.repeat 97 100 in
  startsWithDecimalNumbering line /\
  isPotentialTitle asciiUpper line [line] 0 = Some false.
Proof.
  split; [|vm_compute; reflexivity].
  exists (utf16 "1"), (utf16 " " ++ List.repeat 97 100).
  split; [|reflexivity]. split; [discriminate|]. repeat constructor.
Qed.

(** The code also promotes lines outside the four classes of C7: a long
    sentence that starts with a year, between two non-blank lines. *)
Example promoted_year_sentence :
  let line := utf16 "2023 was a good year for the company and its many shareholders across the world" in
  isPotentialTitle asciiUpper line [utf16 "before"; line; utf16 "after"] 1 = Some true.
Proof. vm_compute. reflexivity. Qed.

Lemma numberMatch_Some (line ds : jsstring) :
  numberMatch line = Some ds -> numbered line.
Proof.
  unfold numberMatch. destruct (startsWithNumber line) eqn:E; [|discriminate].
  intros _. apply startsWithNumber_iff. exact E.
Qed.

(** C8 (as amended).  The level of a heading follows these rules in
    order: [N.M] gives 2; digits [N] followed by a dot or a whitespace
    unit give 1 when [N <= 10] and 2 otherwise; a line containing 第
    gives 1 when it also contains 章, and 2 when it contains 节 and not
    章; a line whose lower-casing contains [chapter] gives 1, one that
    contains [section] gives 2; a line in the first tenth of the lines
    gives 1; a remaining line shorter than 30 code units gives 2; every
    other line gives 3. *)
Theorem C8_determineTitleLevel_spec (toLowerCase : jsstring -> jsstring)
    (line : jsstring) (lines : list jsstring) (index : nat) :
  let level := determineTitleLevel toLowerCase line lines index in
  (subNumbered line -> level = 2%nat) /\
  (~ subNumbered line ->
   forall ds c rest,
     digits ds -> c = DOT \/ is_ws c = true -> line = ds ++ c :: rest ->
     level = if parseDigits ds <=? 10 then 1%nat else 2%nat) /\
  (~ subNumbered line -> ~ numbered line ->
   (occursIn di line /\ occursIn zhang line -> level = 1%nat) /\
   (occursIn di line /\ ~ occursIn zhang line /\ occursIn jie line ->
    level = 2%nat) /\
   (~ (occursIn di line /\ (occursIn zhang line \/ occursIn jie line)) ->
    (occursIn chapter (toLowerCase line) -> level = 1%nat) /\
    (~ occursIn chapter (toLowerCase line) ->
     occursIn section (toLowerCase line) -> level = 2%nat) /\
    (~ occursIn chapter (toLowerCase line) ->
     ~ occursIn section (toLowerCase line) ->
     ((10 * index < length lines)%nat -> level = 1%nat) /\
     (~ (10 * index < length lines)%nat ->
      ((length line < 30)%nat -> level = 2%nat) /\
      (~ (length line < 30)%nat -> level = 3%nat))))).
Proof.
  intros level. subst level. unfold determineTitleLevel.
  destruct (subNumberMatch line) eqn:E1.
  { apply subNumberMatch_iff in E1. split; [reflexivity|]. split; tauto. }
  apply not_true_iff_false in E1. rewrite subNumberMatch_iff in E1.
  split; [tauto|].
  destruct (numberMatch line) as [ds0|] eqn:E2.
  { split.
    - intros _ ds c rest Hd Hc Hl.
      rewrite (numberMatch_numbered _ _ _ _ Hd Hc Hl) in E2.
      injection E2 as <-. reflexivity.
    - intros _ Hn. exfalso. apply Hn. exact (numberMatch_Some _ _ E2). }
  apply numberMatch_None in E2.
  split.
  { intros _ ds c rest Hd Hc Hl. exfalso. apply E2. exists ds, c, rest. auto. }
  intros _ _.
  rewrite <- !includes_iff, <- !Nat.ltb_lt.
  destruct (includes line di), (includes line zhang), (includes line jie),
    (includes (toLowerCase line) chapter), (includes (toLowerCase line) section),
    (10 * index <? length lines)%nat, (length line <? 30)%nat;
    cbn [andb orb]; intuition congruence.
Qed.

(** C8, a witness: [1.1 Background] has level 2 and [3 Results] has
    level 1. *)
Lemma C8_determineTitleLevel_witness :
  determineTitleLevel asciiLower (utf16 "1.1 Background") [utf16 "1.1 Background"] 0 = 2%nat /\
  determineTitleLevel asciiLower (utf16 "3 Results") [utf16 "3 Results"] 0 = 1%nat.
Proof.
  split.
  - refine (proj1 (C8_determineTitleLevel_spec asciiLower (utf16 "1.1 Background")
             [utf16 "1.1 Background"] 0) _).
    exists (utf16 "1"), 49, (utf16 " Background").
    split; [split; [discriminate | repeat constructor]|]. split; reflexivity.
  - refine (proj1 (proj2 (C8_determineTitleLevel_spec asciiLower (utf16 "3 Results")
             [utf16 "3 Results"] 0)) _ (utf16 "3") 32 (utf16 "Results") _ _ _).
    + intros [ds [d [rest [[Hne Hd] [Hdd E]]]]].
      destruct ds as [|x [|y ds]]; vm_compute in E; [congruence | congruence | ].
      injection E as <- <- E. apply List.Forall_inv_tail, List.Forall_inv in Hd.
      vm_compute in Hd. discriminate.
    + split; [discriminate | repeat constructor].
    + right. reflexivity.
    + reflexivity.
Defined.

(** C8 as stated fails: the line [Results], alone between two blank
    lines in the middle of ten lines, is promoted; it has no numbering and
    no keyword and lies outside the first tenth, so that the specified
    rules give level 3, and the code gives level 2. *)
Lemma C8_counterexample :
  let line := utf16 "Results" in
  let lines := [utf16 "a"; utf16 "b"; utf16 "c"; utf16 "d"; []; line; [];
                utf16 "e"; utf16 "f"; utf16 "g"] in
  isPotentialTitle asciiUpper line lines 5 = Some true /\
  levelAsSpecified asciiLower line lines 5 = 3%nat /\
  determineTitleLevel asciiLower line lines 5 = 2%nat.
Proof. vm_compute. repeat split. Qed.

End Headings.

Lemma set_log_same (w : World) : set_log (log w ++ []) w = w.
Proof. destruct w. unfold set_log. cbn. rewrite List.app_nil_r. reflexivity. Qed.

Lemma truthy_app_l (a b : jsstring) : truthy a = true -> truthy (a ++ b) = true.
Proof. destruct a; [discriminate | reflexivity]. Qed.

(** ** Tactics for monadic code *)

Ltac munfold :=
  unfold fmapM, DocumentController.notAFunction, consoleError in *;
  unfold bind, tryCatch, ret, throw, lift, emit, spawn, settle in *.

(** Reduction of the matches that a rewriting step has decided. *)
Ltac wstep := repeat (progress (autorewrite with world; cbv beta iota)).
Ltac wstep_in H := repeat (progress (autorewrite with world in H; cbv beta iota in H)).

(** ** C10: uploads that the Document schema refuses *)

Section UnsupportedFormats.

Import DocumentSchema DocumentService.

Lemma validate_format (d : DocumentSchema.t) :
  inEnum (originalFormat d) originalFormatEnum = false -> validate d = false.
Proof.
  intros H. unfold validate. rewrite H.
  rewrite ?andb_false_r. reflexivity.
Qed.

Lemma save_invalid (d : DocumentSchema.t) (w : World) :
  validate d = false ->
  Document.save d w =
  (Throw (mkError ValidationError (utf16 "Document validation failed")), w).
Proof. intros H. unfold Document.save. rewrite H. reflexivity. Qed.

(** C10.  For a file whose MIME type is [text/plain],
    [application/msword], [image/jpeg] or [image/png]: the route's filter
    and [_validateFile] accept the type; [_getFormatFromMimeType] answers
    [txt], [doc], [jpg] or [png], which is outside the enum of
    [originalFormat]; saving any document with that format throws a
    validation error; so [uploadDocument] always throws and stores no
    document, and when the size check and the S3 upload pass, what it
    throws is the wrapped validation error. *)
Theorem C10_unsupported_formats (env : Env) (file : File) (userId : N)
    (metadata : Metadata) (w : World) :
  In (mimetype file) [text_plain; application_msword; image_jpeg; image_png] ->
  fileFilter (mimetype file) = true /\
  lookup supportedFormats (mimetype file) = Some tt /\
  In (_getFormatFromMimeType (mimetype file))
    [lit "txt"; lit "doc"; lit "jpg"; lit "png"] /\
  inEnum (_getFormatFromMimeType (mimetype file)) originalFormatEnum = false /\
  (forall d w0,
     originalFormat d = _getFormatFromMimeType (mimetype file) ->
     Document.save d w0 =
     (Throw (mkError ValidationError (utf16 "Document validation failed")), w0)) /\
  (exists e w',
     uploadDocument env file userId metadata w = (Throw e, w') /\
     documents w' = documents w /\ detached w' = detached w) /\
  (s3Enabled env = true ->
   size file <= maxFileSize env ->
   (exists location,
      s3Upload env (generateFileKey env (originalname file)) (buffer file)
      = Ok location) ->
   exists w',
     uploadDocument env file userId metadata w =
     (Throw (newError (lit "文档上传失败: " ++ utf16 "Document validation failed")), w')).
Proof.
  intros Hm.
  assert (fileFilter (mimetype file) = true /\
          lookup supportedFormats (mimetype file) = Some tt /\
          In (_getFormatFromMimeType (mimetype file))
            [lit "txt"; lit "doc"; lit "jpg"; lit "png"] /\
          inEnum (_getFormatFromMimeType (mimetype file)) originalFormatEnum = false)
    as [H1 [H2 [H3 H4]]].
  { simpl in Hm. destruct Hm as [<- | [<- | [<- | [<- | []]]]]; vm_compute; tauto. }
  assert (forall d w0,
     originalFormat d = _getFormatFromMimeType (mimetype file) ->
     Document.save d w0 =
     (Throw (mkError ValidationError (utf16 "Document validation failed")), w0)) as H5.
  { intros d w0 Hd. apply save_invalid, validate_format. rewrite Hd. exact H4. }
  repeat (split; [assumption|]).
  unfold uploadDocument, _validateFile, _uploadToS3. munfold.
  rewrite H2.
  destruct (maxFileSize env <? size file) eqn:Hsz.
  { split; [eauto 6|]. intros _ Hle. apply N.ltb_lt in Hsz. lia. }
  destruct (s3Enabled env) eqn:Hs3; simpl negb; cbv iota.
  2:{ split; [eauto 6 | discriminate]. }
  destruct (s3Upload env (generateFileKey env (originalname file)) (buffer file))
    as [location | e] eqn:Hup.
  2:{ split; [eexists _, _; split; [reflexivity | split; reflexivity]|].
      intros _ _ [location Hl]. discriminate. }
  unfold Document.new. cbn -[lit utf16 app Document.save].
  rewrite H5 by reflexivity. cbn -[lit utf16 app].
  split; [eexists _, _; split; [reflexivity | split; reflexivity]|].
  intros _ _ _. eexists. reflexivity.
Qed.

(** C10, a witness: a [text/plain] upload. *)
Lemma C10_unsupported_formats_witness :
  exists e w',
    uploadDocument Demo.plainEnv Demo.txtFile 7 Demo.noMetadata emptyWorld = (Throw e, w') /\
    documents w' = documents emptyWorld /\ detached w' = detached emptyWorld.
Proof.
  exact (proj1 (proj2 (proj2 (proj2 (proj2 (proj2
    (C10_unsupported_formats Demo.plainEnv Demo.txtFile 7 Demo.noMetadata emptyWorld
       (or_introl eq_refl)))))))).
Defined.

End UnsupportedFormats.

(** ** Keys of the unique indexes *)

Lemma key_eqb_eq (k1 k2 : N * jsstring) : Summary.key_eqb k1 k2 = true <-> k1 = k2.
Proof.
  destruct k1 as [a s], k2 as [b t]. unfold Summary.key_eqb. simpl.
  rewrite andb_true_iff, N.eqb_eq, eqb_eq. split; [intros [-> ->] | intros [= -> ->]]; auto.
Qed.

Lemma key_eqb_refl (k : N * jsstring) : Summary.key_eqb k k = true.
Proof. apply key_eqb_eq. reflexivity. Qed.

Lemma existsb_key_false {A} (key : A -> N * jsstring) (k : N * jsstring) (rows : list A) :
  existsb (fun r => Summary.key_eqb (key r) k) rows = false ->
  ~ In k (List.map key rows).
Proof.
  intros H Hin. apply List.in_map_iff in Hin as [r [Hk Hr]].
  apply not_true_iff_false in H. apply H. apply List.existsb_exists.
  exists r. split; [exact Hr|]. rewrite Hk. apply key_eqb_refl.
Qed.

Lemma NoDup_snoc {A} (l : list A) (x : A) :
  List.NoDup l -> ~ In x l -> List.NoDup (l ++ [x]).
Proof.
  intros Hl Hx. induction Hl as [|y l Hy Hl IH]; simpl.
  - constructor; [intros [] | constructor].
  - constructor.
    + intros Hin. apply in_app_or in Hin as [Hin | [-> | []]]; [contradiction|].
      apply Hx. left. reflexivity.
    + apply IH. intros Hin. apply Hx. right. exact Hin.
Qed.

(** ** C3: generating a summary twice *)

Section SummaryTwice.

Import SummarySchema FileExtractService.

(** C3.  After a first [generateAndSaveSummary] has stored the
    [ai_generated] summary of a document, the key (documentId, type) stays
    unique, and a second call for the same document throws and leaves the
    collection as it was; when the model answers and the new content is
    valid, what it throws is the duplicate-key error of the unique index.
    The stored row is not updated. *)
Theorem C3_summary_regeneration (env : Env) (documentId userId : N)
    (md1 md2 : jsstring) (w : World) (s1 : SummarySchema.t) (w1 : World) :
  generateAndSaveSummary env documentId userId md1 w = (Ok s1, w1) ->
  In s1 (summaries w1) /\
  (List.NoDup (List.map key (summaries w)) ->
   List.NoDup (List.map key (summaries w1))) /\
  exists e w2,
    generateAndSaveSummary env documentId userId md2 w1 = (Throw e, w2) /\
    summaries w2 = summaries w1 /\
    (forall content,
       generateSummary env md2 = Ok content ->
       validate (mk (nextSummaryId w1) documentId userId ai_generated content 1 false)
       = true ->
       e = newError (lit "摘要生成失败: " ++ utf16 "E11000 duplicate key error")).
Proof.
  unfold generateAndSaveSummary, Summary.new, Summary.save. munfold.
  destruct (generateSummary env md1) as [c1 | e1]; [|discriminate].
  cbn -[lit utf16 app validate].
  destruct (validate _) eqn:V1; cbn -[lit utf16 app validate]; [|discriminate].
  destruct (existsb _ (summaries w)) eqn:D1; cbn -[lit utf16 app validate]; [discriminate|].
  intros [= <- <-]. cbn -[lit utf16 app validate].
  split; [apply in_or_app; right; left; reflexivity|].
  split.
  { intros Hnd. rewrite List.map_app. apply NoDup_snoc; [exact Hnd|].
    apply existsb_key_false in D1. exact D1. }
  destruct (generateSummary env md2) as [c2 | e2]; cbn -[lit utf16 app validate].
  2:{ eexists _, _. split; [reflexivity|]. split; [reflexivity|]. discriminate. }
  destruct (validate (mk (nextSummaryId w + 1) documentId userId ai_generated c2 1 false))
    eqn:V2; cbn -[lit utf16 app validate].
  2:{ eexists _, _. split; [reflexivity|]. split; [reflexivity|].
      intros c [= <-] Hv. congruence. }
  rewrite List.existsb_app. cbn -[lit utf16 app validate].
  rewrite key_eqb_refl, orb_true_r. cbn -[lit utf16 app validate].
  eexists _, _. split; [reflexivity|]. split; [reflexivity|]. reflexivity.
Qed.

(** C3, a witness: two runs in the example environment. *)
Lemma C3_summary_regeneration_witness :
  exists s1 w1 e w2,
    generateAndSaveSummary Demo.plainEnv 1 7 (lit "text") emptyWorld = (Ok s1, w1) /\
    generateAndSaveSummary Demo.plainEnv 1 7 (lit "text") w1 = (Throw e, w2) /\
    summaries w2 = [s1] /\ content s1 = lit "summary".
Proof.
  pose proof (C3_summary_regeneration Demo.plainEnv 1 7 (lit "text") (lit "text")
                emptyWorld _ _ eq_refl) as [_ [_ [e [w2 [H2 [H3 _]]]]]].
  eexists _, _, e, w2. split; [reflexivity|]. split; [exact H2|].
  split; [exact H3 | reflexivity].
Defined.

End SummaryTwice.

(** ** The monad: inversion of a successful sequence *)

Lemma bind_Ok {A B} (m : M A) (k : A -> M B) (w w' : World) (b : B) :
  bind m k w = (Ok b, w') ->
  exists a w1, m w = (Ok a, w1) /\ k a w1 = (Ok b, w').
Proof.
  unfold bind. destruct (m w) as [[a | e] w1]; [eauto | discriminate].
Qed.

Lemma bind_eq_Ok {A B} (m : M A) (k : A -> M B) (w w1 : World) (a : A) :
  m w = (Ok a, w1) -> bind m k w = k a w1.
Proof. unfold bind. intros ->. reflexivity. Qed.

Lemma bind_eq_Throw {A B} (m : M A) (k : A -> M B) (w w1 : World) (e : Error) :
  m w = (Throw e, w1) -> bind m k w = (Throw e, w1).
Proof. unfold bind. intros ->. reflexivity. Qed.

(** ** C5: persisting a concept term twice *)

Section OccurrenceArray.

Import ConceptSchema ConceptSpec.

Lemma find_putOccurrence (o : Occurrence) (occs : list Occurrence) :
  List.find (fun x => (position x =? position o)%Z) (putOccurrence o occs) = Some o.
Proof.
  induction occs as [|x rest IH]; cbn [putOccurrence List.find].
  - rewrite Z.eqb_refl. reflexivity.
  - destruct (position x =? position o)%Z eqn:E; cbn [List.find].
    + rewrite Z.eqb_refl. reflexivity.
    + rewrite E. exact IH.
Qed.

Lemma find_putOccurrence_other (o : Occurrence) (occs : list Occurrence) (q : Z) :
  q <> position o ->
  List.find (fun x => (position x =? q)%Z) (putOccurrence o occs)
  = List.find (fun x => (position x =? q)%Z) occs.
Proof.
  intros Hq. induction occs as [|x rest IH]; cbn [putOccurrence List.find].
  - destruct (position o =? q)%Z eqn:E; [|reflexivity].
    apply Z.eqb_eq in E. congruence.
  - destruct (position x =? position o)%Z eqn:E; cbn [List.find].
    + apply Z.eqb_eq in E.
      destruct (position o =? q)%Z eqn:E1; [apply Z.eqb_eq in E1; congruence|].
      destruct (position x =? q)%Z eqn:E2; [apply Z.eqb_eq in E2; congruence|].
      reflexivity.
    + destruct (position x =? q)%Z; [reflexivity | exact IH].
Qed.

Lemma length_putOccurrence (o : Occurrence) (occs : list Occurrence) :
  length (putOccurrence o occs)
  = if existsb (fun x => (position x =? position o)%Z) occs
    then length occs else S (length occs).
Proof.
  induction occs as [|x rest IH]; cbn [putOccurrence existsb length]; [reflexivity|].
  destruct (position x =? position o)%Z; cbn [orb length]; [reflexivity|].
  rewrite IH. destruct (existsb _ rest); reflexivity.
Qed.

Lemma positions_putOccurrence (o : Occurrence) (occs : list Occurrence) (p : Z) :
  In p (List.map position (putOccurrence o occs)) ->
  p = position o \/ In p (List.map position occs).
Proof.
  induction occs as [|x rest IH]; cbn [putOccurrence List.map In].
  - intros [H | []]. left. congruence.
  - destruct (position x =? position o)%Z eqn:E; cbn [List.map In].
    + intros [H | H]; [left; congruence | right; right; exact H].
    + intros [H | H]; [right; left; exact H|].
      destruct (IH H) as [H' | H']; [left; exact H' | right; right; exact H'].
Qed.

Lemma NoDup_putOccurrence (o : Occurrence) (occs : list Occurrence) :
  List.NoDup (List.map position occs) ->
  List.NoDup (List.map position (putOccurrence o occs)).
Proof.
  induction occs as [|x rest IH]; cbn [putOccurrence List.map]; intros H.
  - constructor; [intros [] | constructor].
  - apply List.NoDup_cons_iff in H as [Hx Hrest].
    destruct (position x =? position o)%Z eqn:E; cbn [List.map].
    + apply Z.eqb_eq in E. constructor; [rewrite <- E; exact Hx | exact Hrest].
    + constructor; [|apply IH, Hrest].
      intros Hin. apply positions_putOccurrence in Hin as [Hin | Hin].
      * apply Z.eqb_neq in E. congruence.
      * exact (Hx Hin).
Qed.









End OccurrenceArray.

Section ConceptTwice.

Import ConceptSchema ConceptSpec FileExtractService.









(** [addOccurrence] keeps the id and the key of the row. *)
Lemma addOccurrence_id_key (p : Z) (ctx : jsstring) (q : Q) (c : t) :
  _id (addOccurrence p ctx q c) = _id c /\ key (addOccurrence p ctx q c) = key c.
Proof. split; reflexivity. Qed.
















End ConceptTwice.

(** ** Footprints *)

Section Footprints.

Context {A B : Type} (R : World -> World -> Prop).

Lemma respects_ret (a : A) : respects R (ret a).
Proof. intros x y H. auto. Qed.

Lemma respects_throw (e : Error) : respects R (@throw A e).
Proof. intros x y H. auto. Qed.

Lemma respects_lift (r : Result A) : respects R (lift r).
Proof. intros x y H. auto. Qed.

Lemma respects_bind (m : M A) (k : A -> M B) :
  respects R m -> (forall a, respects R (k a)) -> respects R (bind m k).
Proof.
  intros Hm Hk x y H. destruct (Hm x y H) as [Hf Hs]. unfold bind.
  destruct (m x) as [[a | e] x'], (m y) as [[b | e'] y']; simpl in *;
    try discriminate.
  - injection Hf as <-. apply Hk. exact Hs.
  - injection Hf as <-. auto.
Qed.

Lemma respects_tryCatch (m : M A) (h : Error -> M A) :
  respects R m -> (forall e, respects R (h e)) -> respects R (tryCatch m h).
Proof.
  intros Hm Hh x y H. destruct (Hm x y H) as [Hf Hs]. unfold tryCatch.
  destruct (m x) as [[a | e] x'], (m y) as [[b | e'] y']; simpl in *;
    try discriminate.
  - injection Hf as <-. auto.
  - injection Hf as <-. apply Hh. exact Hs.
Qed.

Context {X : Type} (f : World -> X).

Lemma preserves_ret (a : A) : preserves f (ret a).
Proof. intros w. reflexivity. Qed.

Lemma preserves_throw (e : Error) : preserves f (@throw A e).
Proof. intros w. reflexivity. Qed.

Lemma preserves_lift (r : Result A) : preserves f (lift r).
Proof. intros w. reflexivity. Qed.

Lemma preserves_bind (m : M A) (k : A -> M B) :
  preserves f m -> (forall a, preserves f (k a)) -> preserves f (bind m k).
Proof.
  intros Hm Hk w. specialize (Hm w). unfold bind.
  destruct (m w) as [[a | e] w']; simpl in *; [rewrite Hk|]; exact Hm.
Qed.

Lemma preserves_tryCatch (m : M A) (h : Error -> M A) :
  preserves f m -> (forall e, preserves f (h e)) -> preserves f (tryCatch m h).
Proof.
  intros Hm Hh w. specialize (Hm w). unfold tryCatch.
  destruct (m w) as [[a | e] w']; simpl in *; [|rewrite Hh]; exact Hm.
Qed.

End Footprints.

Section ConceptFootprint.

Import ConceptSchema FileExtractService.

Lemma sameConcepts_emit (ev : Event) : respects sameConcepts (emit ev).
Proof. intros [] [] [H1 H2]. simpl in *. split; [reflexivity | split; assumption]. Qed.

Lemma outsideConcepts_emit (ev : Event) : preserves outsideConcepts (emit ev).
Proof. intros []. reflexivity. Qed.

Lemma sameConcepts_findOne (d : N) (term : jsstring) :
  respects sameConcepts (Concept.findOne d term).
Proof.
  intros x y [H1 H2]. unfold Concept.findOne. simpl. rewrite H1.
  split; [reflexivity | split; assumption].
Qed.

Lemma sameConcepts_new term definition d u category importance occs :
  respects sameConcepts (Concept.new term definition d u category importance occs).
Proof.
  intros [] [] [H1 H2]. unfold Concept.new. simpl in *. subst.
  split; [reflexivity | split; reflexivity].
Qed.

Lemma sameConcepts_save (c : t) : respects sameConcepts (Concept.save c).
Proof.
  intros [] [] [H1 H2]. unfold Concept.save. simpl in *. subst.
  destruct (validate c); simpl; [|split; [reflexivity | split; reflexivity]].
  match goal with |- context [existsb ?g ?l] => destruct (existsb g l) end; simpl;
    split; try reflexivity; split; reflexivity.
Qed.

Lemma sameConcepts_saveExisting (c : t) : respects sameConcepts (Concept.saveExisting c).
Proof.
  intros [] [] [H1 H2]. unfold Concept.saveExisting. simpl in *. subst.
  destruct (validate c); simpl; split; try reflexivity; split; reflexivity.
Qed.

Lemma outsideConcepts_findOne (d : N) (term : jsstring) :
  preserves outsideConcepts (Concept.findOne d term).
Proof. intros w. reflexivity. Qed.

Lemma outsideConcepts_new term definition d u category importance occs :
  preserves outsideConcepts (Concept.new term definition d u category importance occs).
Proof. intros []. reflexivity. Qed.

Lemma outsideConcepts_save (c : t) : preserves outsideConcepts (Concept.save c).
Proof.
  intros []. unfold Concept.save. simpl.
  destruct (validate c); simpl; [|reflexivity].
  match goal with |- context [existsb ?g ?l] => destruct (existsb g l) end; reflexivity.
Qed.

Lemma outsideConcepts_saveExisting (c : t) :
  preserves outsideConcepts (Concept.saveExisting c).
Proof.
  intros []. unfold Concept.saveExisting. simpl. destruct (validate c); reflexivity.
Qed.

Lemma sameConcepts_addOccurrences (occs : list OccurrenceData) (c : t) :
  respects sameConcepts (addOccurrences occs c).
Proof.
  revert c. induction occs as [|o occs IH]; intros c; simpl.
  - apply respects_ret.
  - apply respects_bind; [apply sameConcepts_saveExisting | intros; apply IH].
Qed.

Lemma outsideConcepts_addOccurrences (occs : list OccurrenceData) (c : t) :
  preserves outsideConcepts (addOccurrences occs c).
Proof.
  revert c. induction occs as [|o occs IH]; intros c; simpl.
  - apply preserves_ret.
  - apply preserves_bind; [apply outsideConcepts_saveExisting | intros; apply IH].
Qed.

Lemma sameConcepts_saveConcepts (d u : N) (cds : list ConceptData) (saved : list t) :
  respects sameConcepts (saveConcepts d u cds saved).
Proof.
  revert saved. induction cds as [|cd cds IH]; intros saved; simpl.
  - apply respects_ret.
  - apply respects_bind; [apply sameConcepts_findOne|]. intros [r|].
    + apply respects_bind; [|intros; apply IH].
      apply respects_bind; [|intros; apply sameConcepts_saveExisting].
      destruct (cd_occurrences cd); [apply sameConcepts_addOccurrences | apply respects_ret].
    + apply respects_bind; [|intros; apply IH].
      apply respects_bind; [apply sameConcepts_new | intros; apply sameConcepts_save].
Qed.

Lemma outsideConcepts_saveConcepts (d u : N) (cds : list ConceptData) (saved : list t) :
  preserves outsideConcepts (saveConcepts d u cds saved).
Proof.
  revert saved. induction cds as [|cd cds IH]; intros saved; simpl.
  - apply preserves_ret.
  - apply preserves_bind; [apply outsideConcepts_findOne|]. intros [r|].
    + apply preserves_bind; [|intros; apply IH].
      apply preserves_bind; [|intros; apply outsideConcepts_saveExisting].
      destruct (cd_occurrences cd); [apply outsideConcepts_addOccurrences | apply preserves_ret].
    + apply preserves_bind; [|intros; apply IH].
      apply preserves_bind; [apply outsideConcepts_new | intros; apply outsideConcepts_save].
Qed.

Lemma sameConcepts_extractAndSaveConcepts (env : Env) (d u : N) (md : jsstring) :
  respects sameConcepts (extractAndSaveConcepts env d u md).
Proof.
  unfold extractAndSaveConcepts.
  apply respects_tryCatch; [|intros; apply respects_throw].
  apply respects_bind; [apply sameConcepts_emit|]. intros _.
  apply respects_bind; [apply respects_lift | intros; apply sameConcepts_saveConcepts].
Qed.

Lemma outsideConcepts_extractAndSaveConcepts (env : Env) (d u : N) (md : jsstring) :
  preserves outsideConcepts (extractAndSaveConcepts env d u md).
Proof.
  unfold extractAndSaveConcepts.
  apply preserves_tryCatch; [|intros; apply preserves_throw].
  apply preserves_bind; [apply outsideConcepts_emit|]. intros _.
  apply preserves_bind; [apply preserves_lift | intros; apply outsideConcepts_saveConcepts].
Qed.

Lemma sameSummaries_generateAndSaveSummary (env : Env) (d u : N) (md : jsstring) :
  respects sameSummaries (generateAndSaveSummary env d u md).
Proof.
  unfold generateAndSaveSummary.
  apply respects_tryCatch; [|intros; apply respects_throw].
  apply respects_bind.
  { intros [] [] [H1 H2]. simpl in *. split; [reflexivity | split; assumption]. }
  intros _. apply respects_bind; [apply respects_lift|]. intros content.
  apply respects_bind.
  { intros [] [] [H1 H2]. unfold Summary.new. simpl in *. subst.
    split; [reflexivity | split; reflexivity]. }
  intros s0 [] [] [H1 H2]. unfold Summary.save. simpl in *. subst.
  destruct (negb (SummarySchema.validate s0)); simpl; [split; [reflexivity | split; reflexivity]|].
  match goal with |- context [existsb ?g ?l] => destruct (existsb g l) end; simpl;
    split; try reflexivity; split; reflexivity.
Qed.

Lemma outsideSummaries_generateAndSaveSummary (env : Env) (d u : N) (md : jsstring) :
  preserves outsideSummaries (generateAndSaveSummary env d u md).
Proof.
  unfold generateAndSaveSummary.
  apply preserves_tryCatch; [|intros; apply preserves_throw].
  apply preserves_bind; [intros []; reflexivity|]. intros _.
  apply preserves_bind; [apply preserves_lift|]. intros content.
  apply preserves_bind; [intros []; reflexivity|].
  intros s0 []. unfold Summary.save. simpl.
  destruct (negb (SummarySchema.validate s0)); simpl; [reflexivity|].
  match goal with |- context [existsb ?g ?l] => destruct (existsb g l) end; reflexivity.
Qed.

End ConceptFootprint.

(** ** C4: annotation of a completed document *)

Section Annotation.

Import DocumentSchema FileExtractService.

(** C4 (as amended).  The annotation job never rejects, and creates no
    further job.  It awaits the restructuring call first: when the
    document is missing or that call fails, nothing is written, neither
    summary nor concepts are attempted, and the failure is logged.  When
    the restructuring call succeeds its text is stored, and then summary
    and concepts are isolated from each other: the Summary collection
    ends as [generateAndSaveSummary] alone would leave it, the Concept
    collection as [extractAndSaveConcepts] alone would leave it, whatever
    the other one does, and a failure of either is logged. *)
Theorem C4_annotation_isolation (env : Env) (documentId : N) (md : jsstring)
    (w : World) :
  let w' := snd (runJob env (JobAI documentId md) w) in
  fst (runJob env (JobAI documentId md) w) = Ok tt /\
  detached w' = detached w /\
  match documents w !! documentId with
  | None =>
    documents w' = documents w /\ summaries w' = summaries w /\
    concepts w' = concepts w /\
    In (ConsoleError (utf16 "AI功能处理失败:") (newError (lit "文档不存在"))) (log w')
  | Some d =>
    match restructureDocument env md with
    | Throw e =>
      documents w' = documents w /\ summaries w' = summaries w /\
      concepts w' = concepts w /\
      In (ConsoleError (utf16 "AI功能处理失败:") e) (log w')
    | Ok restructured =>
      let summary := generateAndSaveSummary env documentId (userId d) md w in
      let extracted := extractAndSaveConcepts env documentId (userId d) md w in
      documents w' =
        <[documentId := set_restructuredContent (Some restructured) d]> (documents w) /\
      summaries w' = summaries (snd summary) /\
      concepts w' = concepts (snd extracted) /\
      (forall e, fst summary = Throw e ->
                 In (ConsoleError (utf16 "摘要生成失败:") e) (log w')) /\
      (forall e, fst extracted = Throw e ->
                 In (ConsoleError (utf16 "概念提取失败:") e) (log w'))
    end
  end.
Proof.
  unfold runJob, processAIFeatures. munfold.
  unfold Document.findById, Document.findByIdAndUpdate, Document.update.
  cbv zeta.
  destruct (documents w !! documentId) as [d|] eqn:Ed.
  2:{ cbn -[utf16 lit]. repeat split. apply in_or_app. left. apply in_or_app. right.
      left. reflexivity. }
  destruct (restructureDocument env md) as [restructured | e].
  2:{ cbn -[utf16]. repeat split. apply in_or_app. left. apply in_or_app. right.
      left. reflexivity. }
  cbn [fst snd documents set_log]. rewrite Ed.
  match goal with
  | |- context [generateAndSaveSummary env documentId (userId d) md ?W] =>
    set (w1 := W)
  end.
  pose proof (sameSummaries_generateAndSaveSummary env documentId (userId d) md w1 w
                (conj eq_refl eq_refl)) as [Hsf [Hss _]].
  pose proof (outsideSummaries_generateAndSaveSummary env documentId (userId d) md w1)
    as Hso.
  destruct (generateAndSaveSummary env documentId (userId d) md w1) as [sr w2].
  cbn [fst snd] in Hsf, Hss, Hso.
  unfold outsideSummaries in Hso. injection Hso as Hd2 Hc2 _ Hn2 Ht2.
  pose proof (sameConcepts_extractAndSaveConcepts env documentId (userId d) md w2 w
                (conj Hc2 Hn2)) as [Hcf [Hcc _]].
  pose proof (outsideConcepts_extractAndSaveConcepts env documentId (userId d) md w2)
    as Hco.
  destruct (extractAndSaveConcepts env documentId (userId d) md w2) as [cr w3].
  cbn [fst snd] in Hcf, Hcc, Hco.
  unfold outsideConcepts in Hco. injection Hco as Hd3 Hs3 _ _ Ht3.
  rewrite <- Hsf, <- Hcf, <- Hss, <- Hcc.
  destruct sr as [s0 | se], cr as [c0 | ce]; cbn -[utf16];
    (split; [reflexivity|]); (split; [congruence|]);
    (split; [rewrite Hd3, Hd2; reflexivity|]);
    (split; [congruence|]); (split; [congruence|]);
    split; intros e0 He0; try discriminate; injection He0 as <-.
  - apply in_or_app. right. left. reflexivity.
  - apply in_or_app. right. left. reflexivity.
  - apply in_or_app. left. apply in_or_app. right. left. reflexivity.
  - apply in_or_app. right. left. reflexivity.
Qed.

(** C4, a witness: the summary call fails, the concepts are stored and
    the failure is logged. *)
Lemma C4_annotation_isolation_witness :
  let w' := snd (runJob Demo.summaryDown (JobAI 1 (lit "Hello")) Demo.world1) in
  In (ConsoleError (utf16 "摘要生成失败:")
        (newError (lit "摘要生成失败: " ++ lit "摘要生成失败: timeout"))) (log w') /\
  concepts w' =
  concepts (snd (extractAndSaveConcepts Demo.summaryDown 1 7 (lit "Hello") Demo.world1)).
Proof.
  intros w'.
  pose proof (C4_annotation_isolation Demo.summaryDown 1 (lit "Hello") Demo.world1)
    as [_ [_ H]].
  assert (documents Demo.world1 !! 1 = Some Demo.doc1) as E by (vm_compute; reflexivity).
  rewrite E in H. cbn [restructureDocument Demo.summaryDown Demo.env] in H.
  destruct H as [_ [_ [Hc [Hs _]]]].
  split; [apply Hs; vm_compute; reflexivity | exact Hc].
Defined.

(** C4 as stated fails: when the restructuring call fails, the summary
    and the concepts, whose own calls would succeed, are never attempted. *)
Lemma C4_counterexample :
  let w' := snd (runJob Demo.restructureDown (JobAI 1 (lit "Hello")) Demo.world1) in
  (exists s,
     fst (generateAndSaveSummary Demo.restructureDown 1 7 (lit "Hello") Demo.world1)
     = Ok s) /\
  (exists c,
     fst (extractAndSaveConcepts Demo.restructureDown 1 7 (lit "Hello") Demo.world1)
     = Ok [c]) /\
  summaries w' = [] /\ concepts w' = [] /\
  ~ In (AIRequest Summarize) (log w') /\ ~ In (AIRequest Concepts) (log w').
Proof.
  split; [eexists; vm_compute; reflexivity|].
  split; [eexists; vm_compute; reflexivity|].
  vm_compute. repeat split; intros H; repeat (destruct H as [H | H]; try discriminate H); exact H.
Qed.

End Annotation.

(** ** C2: what an upload answers *)

Section Upload.

Import DocumentSchema DocumentController.

(** C2 (as amended), for the DocumentService that delegates to
    FileExtractService.  When the upload handler answers 201, the body
    carries the new record, which is in status [pending] with no text and
    no error; up to the answer the handler has uploaded the blob and
    inserted the record, and nothing else: no extraction attempt has
    started, and the extraction is the one detached promise it leaves
    behind. *)
Theorem C2_upload_returns_pending (env : Env) (file : File) (user : N)
    (title tags : option jsstring) (w : World) (res : Response) :
  fst (handle (serviceAsync env) (UploadDocument false (Some file) user title tags) w)
  = Ok res ->
  statusCode res = 201 ->
  let w' :=
    snd (handle (serviceAsync env) (UploadDocument false (Some file) user title tags) w) in
  exists d,
    data res = UploadData d pending /\
    processingStatus d = pending /\
    markdownContent d = [] /\
    processingError d = None /\
    _id d = nextDocumentId w /\
    documents w' = <[_id d := d]> (documents w) /\
    log w' = log w ++ [S3Put (generateFileKey env (originalname file)); DocumentWrite None d] /\
    detached w' = detached w ++ [JobExtract (_id d) (buffer file) (mimetype file)].
Proof.
  unfold handle, uploadDocument, serviceAsync, svc_uploadDocument.
  unfold DocumentService.uploadDocument, DocumentService._validateFile,
    DocumentService._uploadToS3, Document.new, Document.save.
  munfold.
  destruct (maxFileSize env <? size file);
    [cbn -[lit utf16 app]; intros [= <-]; discriminate|].
  destruct (lookup DocumentService.supportedFormats (mimetype file));
    [|cbn -[lit utf16 app]; intros [= <-]; discriminate].
  destruct (s3Enabled env); cbn -[lit utf16 app validate];
    [|intros [= <-]; discriminate].
  destruct (s3Upload env (generateFileKey env (originalname file)) (buffer file))
    as [location | e]; cbn -[lit utf16 app validate];
    [|intros [= <-]; discriminate].
  match goal with |- context [validate ?d] => destruct (validate d) eqn:V end;
    cbn -[lit utf16 app validate]; [|intros [= <-]; discriminate].
  intros [= <-] _. eexists. repeat split.
  rewrite <- List.app_assoc. reflexivity.
Qed.

(** C2, a witness: a PDF upload in the example environment. *)
Lemma C2_upload_returns_pending_witness :
  let run :=
    handle (serviceAsync Demo.plainEnv)
      (UploadDocument false (Some Demo.pdfFile) 7 None None) emptyWorld in
  exists res d,
    fst run = Ok res /\ statusCode res = 201 /\
    data res = UploadData d pending /\
    log (snd run) = [S3Put (lit "documents/notes.pdf"); DocumentWrite None d] /\
    detached (snd run) = [JobExtract 1 (buffer Demo.pdfFile) application_pdf].
Proof.
  intros run.
  assert (exists res, fst run = Ok res /\ statusCode res = 201) as [res [H1 H2]]
    by (eexists; split; vm_compute; reflexivity).
  destruct (C2_upload_returns_pending Demo.plainEnv Demo.pdfFile 7 None None emptyWorld
              res H1 H2) as [d [Hd [_ [_ [_ [Hid [_ [Hl Ht]]]]]]]].
  exists res, d. rewrite Hid in Ht.
  exact (conj H1 (conj H2 (conj Hd (conj Hl Ht)))).
Defined.

(** C2 as stated fails for the DocumentService with
    [parseAndConvertDocument]: its upload awaits the extraction, so that
    the answer comes after an extraction attempt, carries the record as
    [completed], and leaves no detached promise. *)
Lemma C2_counterexample :
  let run :=
    handle (serviceSync Demo.plainEnv)
      (UploadDocument false (Some Demo.pdfFile) 7 None None) emptyWorld in
  exists res d,
    fst run = Ok res /\ statusCode res = 201 /\
    data res = UploadData d pending /\
    processingStatus d = completed /\
    In (ParseAttempt 1) (log (snd run)) /\
    detached (snd run) = [].
Proof.
  eexists _, _. split; [vm_compute; reflexivity|].
  split; [reflexivity|]. split; [reflexivity|]. split; [reflexivity|].
  split; [vm_compute; tauto | vm_compute; reflexivity].
Qed.

End Upload.

(** ** Events and invariants: composition *)

Section Composition.

Import PipelineSpec.

Context {A B : Type}.

Lemma emitsOnly_ret P (a : A) : emitsOnly P (ret a).
Proof. intros w. exists []. rewrite List.app_nil_r. auto. Qed.

Lemma emitsOnly_throw P (e : Error) : emitsOnly P (@throw A e).
Proof. intros w. exists []. rewrite List.app_nil_r. auto. Qed.

Lemma emitsOnly_lift P (r : Result A) : emitsOnly P (lift r).
Proof. intros w. exists []. rewrite List.app_nil_r. auto. Qed.

Lemma emitsOnly_bind P (m : M A) (k : A -> M B) :
  emitsOnly P m -> (forall a, emitsOnly P (k a)) -> emitsOnly P (bind m k).
Proof.
  intros Hm Hk w. destruct (Hm w) as [evs [E H]]. unfold bind.
  destruct (m w) as [[a | e] w1]; simpl in *.
  - destruct (Hk a w1) as [evs' [E' H']]. exists (evs ++ evs').
    rewrite E', E, List.app_assoc. split; [reflexivity|].
    apply List.Forall_app. auto.
  - exists evs. auto.
Qed.

Lemma emitsOnly_tryCatch P (m : M A) (h : Error -> M A) :
  emitsOnly P m -> (forall e, emitsOnly P (h e)) -> emitsOnly P (tryCatch m h).
Proof.
  intros Hm Hh w. destruct (Hm w) as [evs [E H]]. unfold tryCatch.
  destruct (m w) as [[a | e] w1]; simpl in *.
  - exists evs. auto.
  - destruct (Hh e w1) as [evs' [E' H']]. exists (evs ++ evs').
    rewrite E', E, List.app_assoc. split; [reflexivity|].
    apply List.Forall_app. auto.
Qed.

Lemma emitsOnly_weaken (P Q : Event -> Prop) (m : M A) :
  (forall ev, P ev -> Q ev) -> emitsOnly P m -> emitsOnly Q m.
Proof.
  intros HPQ Hm w. destruct (Hm w) as [evs [E H]]. exists evs.
  split; [exact E|]. eapply List.Forall_impl; eauto.
Qed.

Lemma emitsAt_bind P (m : M A) (k : A -> M B) (w : World) :
  emitsAt P m w ->
  (forall a w1, m w = (Ok a, w1) -> emitsAt P (k a) w1) ->
  emitsAt P (bind m k) w.
Proof.
  intros [evs [E H]] Hk. unfold emitsAt, bind.
  destruct (m w) as [[a | e] w1]; simpl in *.
  - destruct (Hk a w1 eq_refl) as [evs' [E' H']]. exists (evs ++ evs').
    rewrite E', E, List.app_assoc. split; [reflexivity|].
    apply List.Forall_app. auto.
  - exists evs. auto.
Qed.

Lemma emitsAt_tryCatch P (m : M A) (h : Error -> M A) (w : World) :
  emitsAt P m w ->
  (forall e w1, m w = (Throw e, w1) -> emitsAt P (h e) w1) ->
  emitsAt P (tryCatch m h) w.
Proof.
  intros [evs [E H]] Hh. unfold emitsAt, tryCatch.
  destruct (m w) as [[a | e] w1]; simpl in *.
  - exists evs. auto.
  - destruct (Hh e w1 eq_refl) as [evs' [E' H']]. exists (evs ++ evs').
    rewrite E', E, List.app_assoc. split; [reflexivity|].
    apply List.Forall_app. auto.
Qed.

Lemma maintains_ret I (a : A) : maintains I (ret a).
Proof. intros w H. exact H. Qed.

Lemma maintains_throw I (e : Error) : maintains I (@throw A e).
Proof. intros w H. exact H. Qed.

Lemma maintains_lift I (r : Result A) : maintains I (lift r).
Proof. intros w H. exact H. Qed.

Lemma maintains_bind I (m : M A) (k : A -> M B) :
  maintains I m -> (forall a, maintains I (k a)) -> maintains I (bind m k).
Proof.
  intros Hm Hk w H. specialize (Hm w H). unfold bind.
  destruct (m w) as [[a | e] w1]; simpl in *; [apply Hk|]; exact Hm.
Qed.

(** The continuation may rely on a property of the value. *)
Lemma maintains_bind_post I (Q : A -> Prop) (m : M A) (k : A -> M B) :
  maintains I m ->
  (forall w a w1, m w = (Ok a, w1) -> Q a) ->
  (forall a, Q a -> maintains I (k a)) ->
  maintains I (bind m k).
Proof.
  intros Hm HQ Hk w H. specialize (Hm w H). specialize (HQ w). unfold bind.
  destruct (m w) as [[a | e] w1]; simpl in *; [|exact Hm].
  apply Hk; [eapply HQ; reflexivity | exact Hm].
Qed.

Lemma maintains_tryCatch I (m : M A) (h : Error -> M A) :
  maintains I m -> (forall e, maintains I (h e)) -> maintains I (tryCatch m h).
Proof.
  intros Hm Hh w H. specialize (Hm w H). unfold tryCatch.
  destruct (m w) as [[a | e] w1]; simpl in *; [|apply Hh]; exact Hm.
Qed.

End Composition.

Section Primitives.

Import PipelineSpec DocumentSchema.

Lemma emitsOnly_emit (P : Event -> Prop) (ev : Event) : P ev -> emitsOnly P (emit ev).
Proof. intros H w. exists [ev]. simpl. auto. Qed.

Lemma emitsOnly_consoleError (P : Event -> Prop) (label : string) (e : Error) :
  P (ConsoleError (utf16 label) e) -> emitsOnly P (consoleError label e).
Proof. apply emitsOnly_emit. Qed.

Lemma maintains_emit (I : World -> Prop) (ev : Event) :
  (forall w, I w -> I (set_log (log w ++ [ev]) w)) -> maintains I (emit ev).
Proof. intros H w Hw. apply H. exact Hw. Qed.

Lemma everyRecord_log (P : DocumentSchema.t -> Prop) (w : World) (ev : Event) :
  isDocumentWrite ev = false ->
  everyRecord P w -> everyRecord P (set_log (log w ++ [ev]) w).
Proof.
  intros Hq [H1 H2]. split; [exact H1|]. simpl. intros b a Hin.
  apply in_app_or in Hin as [Hin | [Hev | []]]; [eauto|].
  subst ev. discriminate Hq.
Qed.

Lemma everyRecord_emit (P : DocumentSchema.t -> Prop) (ev : Event) :
  isDocumentWrite ev = false -> maintains (everyRecord P) (emit ev).
Proof. intros H. apply maintains_emit. intros w. apply everyRecord_log. exact H. Qed.

Lemma everyRecord_consoleError (P : DocumentSchema.t -> Prop) (label : string) (e : Error) :
  maintains (everyRecord P) (consoleError label e).
Proof. apply everyRecord_emit. reflexivity. Qed.

Lemma everyRecord_findById (P : DocumentSchema.t -> Prop) (id : N) :
  maintains (everyRecord P) (Document.findById id).
Proof. intros w H. exact H. Qed.

Lemma everyRecord_update (P : DocumentSchema.t -> Prop) (id : N)
    (paths : DocumentSchema.t -> DocumentSchema.t) :
  (forall d, P d -> P (paths d)) -> maintains (everyRecord P) (Document.update id paths).
Proof.
  intros Hp w [H1 H2]. unfold Document.update.
  destruct (documents w !! id) as [d|] eqn:E; simpl; [|split; assumption].
  split; simpl.
  - intros id' d' Hl. destruct (decide (id = id')) as [<- | Hne].
    + rewrite lookup_insert_eq in Hl. injection Hl as <-. apply Hp. eauto.
    + rewrite lookup_insert_ne in Hl by exact Hne. eauto.
  - intros b a Hin. apply in_app_or in Hin as [Hin | [Hin | []]]; [eauto|].
    injection Hin as _ <-. apply Hp. eauto.
Qed.

Lemma everyRecord_save (P : DocumentSchema.t -> Prop) (d : DocumentSchema.t) :
  P d -> maintains (everyRecord P) (Document.save d).
Proof.
  intros Hd w [H1 H2]. unfold Document.save.
  destruct (validate d); simpl; [|split; assumption].
  split; simpl.
  - intros id' d' Hl. destruct (decide (_id d = id')) as [<- | Hne].
    + rewrite lookup_insert_eq in Hl. injection Hl as <-. exact Hd.
    + rewrite lookup_insert_ne in Hl by exact Hne. eauto.
  - intros b a Hin. apply in_app_or in Hin as [Hin | [Hin | []]]; [eauto|].
    injection Hin as _ <-. exact Hd.
Qed.

Lemma everyRecord_new (P : DocumentSchema.t -> Prop) userId title format filePath
    mimeType url status tags :
  maintains (everyRecord P)
    (Document.new userId title format filePath mimeType url status tags).
Proof. intros w H. exact H. Qed.

End Primitives.

(** ** The synchronous DocumentService *)

Section SyncService.

Import PipelineSpec DocumentSchema DocumentServiceSync.

Lemma generateDocumentInfo_head (pdfData : PdfText.PdfData) :
  exists rest, PdfText.generateDocumentInfo pdfData = 45 :: rest.
Proof.
  unfold PdfText.generateDocumentInfo. cbv zeta. cbn [join app].
  change (PdfText.lit "---") with [45; 45; 45]. cbn [app].
  eexists. reflexivity.
Qed.

Lemma convertPdfTextToMarkdown_nonempty up low (pdfData : PdfText.PdfData)
    (md : jsstring) :
  PdfText.convertPdfTextToMarkdown up low pdfData = Some md -> md <> [].
Proof.
  unfold PdfText.convertPdfTextToMarkdown. cbv zeta.
  destruct (generateDocumentInfo_head pdfData) as [rest ->].
  destruct (negb (truthy (PdfText.text pdfData)) || _).
  - intros [= <-]. discriminate.
  - destruct (PdfText.processLines _ _ _ _ _); [|discriminate].
    intros [= <-]. discriminate.
Qed.

Lemma outsideLog_emit (ev : Event) : preserves outsideLog (emit ev).
Proof. intros []. reflexivity. Qed.

Lemma getFileStream_quiet (env : Env) (key : option jsstring) :
  emitsOnly quiet (getFileStream env key).
Proof.
  unfold getFileStream. destruct (mockS3 env); [apply emitsOnly_ret|].
  apply emitsOnly_tryCatch.
  - apply emitsOnly_bind; [apply emitsOnly_emit; split; reflexivity|].
    intros _. apply emitsOnly_lift.
  - intros e. apply emitsOnly_bind; [apply emitsOnly_consoleError; split; reflexivity|].
    intros _. apply emitsOnly_throw.
Qed.

Lemma getFileStream_outsideLog (env : Env) (key : option jsstring) :
  preserves outsideLog (getFileStream env key).
Proof.
  unfold getFileStream. destruct (mockS3 env); [apply preserves_ret|].
  apply preserves_tryCatch.
  - apply preserves_bind; [apply outsideLog_emit|]. intros _. apply preserves_lift.
  - intros e. apply preserves_bind; [apply outsideLog_emit|].
    intros _. apply preserves_throw.
Qed.

Lemma convert_quiet (env : Env) (d : DocumentSchema.t) (fb : option File) :
  emitsOnly quiet (convert env d fb).
Proof.
  unfold convert. apply emitsOnly_bind.
  - destruct fb; [apply emitsOnly_ret|].
    apply emitsOnly_bind; [apply getFileStream_quiet|]. intros st. apply emitsOnly_lift.
  - intros buf. destruct (JS.eqb (originalFormat d) (lit "pdf")).
    + apply emitsOnly_bind; [apply emitsOnly_lift|]. intros pdf.
      destruct (PdfText.convertPdfTextToMarkdown _ _ pdf);
        [apply emitsOnly_ret | apply emitsOnly_throw].
    + destruct (JS.eqb (originalFormat d) (lit "url"));
        [apply emitsOnly_ret | apply emitsOnly_throw].
Qed.

Lemma convert_outsideLog (env : Env) (d : DocumentSchema.t) (fb : option File) :
  preserves outsideLog (convert env d fb).
Proof.
  unfold convert. apply preserves_bind.
  - destruct fb; [apply preserves_ret|].
    apply preserves_bind; [apply getFileStream_outsideLog|]. intros st.
    apply preserves_lift.
  - intros buf. destruct (JS.eqb (originalFormat d) (lit "pdf")).
    + apply preserves_bind; [apply preserves_lift|]. intros pdf.
      destruct (PdfText.convertPdfTextToMarkdown _ _ pdf);
        [apply preserves_ret | apply preserves_throw].
    + destruct (JS.eqb (originalFormat d) (lit "url"));
        [apply preserves_ret | apply preserves_throw].
Qed.

Lemma convert_nonempty (env : Env) (d : DocumentSchema.t) (fb : option File)
    (w w' : World) (md : jsstring) :
  convert env d fb w = (Ok md, w') -> md <> [].
Proof.
  unfold convert. intros H. apply bind_Ok in H as [buf [w1 [_ H]]].
  destruct (JS.eqb (originalFormat d) (lit "pdf")).
  - apply bind_Ok in H as [pdf [w2 [_ H]]].
    destruct (PdfText.convertPdfTextToMarkdown _ _ pdf) as [md'|] eqn:E;
      [|discriminate].
    injection H as <- _. exact (convertPdfTextToMarkdown_nonempty _ _ _ _ E).
  - destruct (JS.eqb (originalFormat d) (lit "url")); [|discriminate].
    injection H as <- _. discriminate.
Qed.

Lemma parseAndConvertDocument_unfold (env : Env) (documentId : N)
    (fileBuffer : option File) (w : World) :
  parseAndConvertDocument env documentId fileBuffer w =
  tryCatch
    (emit (ParseAttempt documentId);;;
     document <- Document.findById documentId;;
     match document with
     | None => throw (newError (lit "文档不存在"))
     | Some document =>
       Document.update documentId (updateProcessingStatus processing None);;;
       let document := updateProcessingStatus processing None document in
       markdownContent <- convert env document fileBuffer;;
       let paths d :=
         updateProcessingStatus completed None (set_markdownContent markdownContent d) in
       Document.update documentId paths;;;
       ret (paths document)
     end)
    (fun error =>
       consoleError "Parse and convert document error:" error;;;
       document <- Document.findById documentId;;
       match document with
       | Some _ =>
         Document.update documentId (updateProcessingStatus failed (Some (message error)))
       | None => ret tt
       end;;;
       throw error) w.
Proof.
  unfold parseAndConvertDocument, convert, tryCatch, bind.
  destruct (emit (ParseAttempt documentId) w) as [[[] | e0] w0]; [|reflexivity].
  destruct (Document.findById documentId w0) as [[[d|] | e1] w1]; try reflexivity.
  destruct (Document.update documentId (updateProcessingStatus processing None) w1)
    as [[[] | e2] w2]; [|reflexivity].
  cbv zeta.
  destruct fileBuffer as [file|].
  - reflexivity.
  - destruct (getFileStream env (filePath (updateProcessingStatus processing None d)) w2)
      as [[st | e3] w3]; [|reflexivity].
    destruct (streamToBuffer st w3) as [[buf | e4] w4]; reflexivity.
Qed.

Lemma parseAndConvertDocument_found (env : Env) (id : N) (fb : option File)
    (w : World) (d : DocumentSchema.t) :
  documents w !! id = Some d ->
  let dp := updateProcessingStatus processing None d in
  let run := parseAndConvertDocument env id fb w in
  exists mid dfin,
    Forall quiet mid /\
    log (snd run) =
      log w ++ [ParseAttempt id; DocumentWrite (Some d) dp] ++ mid
      ++ [DocumentWrite (Some dp) dfin] /\
    documents (snd run) = <[id := dfin]> (documents w) /\
    outsideDocuments (snd run) = outsideDocuments w /\
    ((fst run = Ok dfin /\
      exists md, md <> [] /\
        dfin = updateProcessingStatus completed None (set_markdownContent md dp))
     \/ (exists e, fst run = Throw e /\
           dfin = updateProcessingStatus failed (Some (message e)) dp)).
Proof.
  intros Hd dp run.
  remember run as result eqn:Hrun. subst run.
  rewrite parseAndConvertDocument_unfold in Hrun.
  munfold. unfold Document.findById, Document.update in Hrun.
  repeat (progress (wstep_in Hrun; rewrite ?Hd in Hrun)). fold dp in Hrun.
  match type of Hrun with
  | context [convert env dp fb ?W] => set (w1 := W) in Hrun
  end.
  destruct (convert_quiet env dp fb w1) as [mid [Hlog Hq]].
  pose proof (convert_outsideLog env dp fb w1) as Hout.
  pose proof (convert_nonempty env dp fb w1) as Hne.
  unfold outsideLog, outsideDocuments in Hout.
  destruct (convert env dp fb w1) as [[md | e] w2]; cbn [fst snd] in *;
    subst w1; autorewrite with world in Hout, Hlog;
    injection Hout as Hdoc Hs Hc Hn1 Hn2 Hn3 Hdt;
    repeat (progress (wstep_in Hrun; rewrite ?Hdoc, ?lookup_insert_eq in Hrun));
    subst result; cbn [fst snd]; autorewrite with world.
  - exists mid. eexists. split; [exact Hq|].
    split; [rewrite Hlog, <- !List.app_assoc; reflexivity|].
    split; [rewrite insert_insert_eq; reflexivity|].
    split; [unfold outsideDocuments; autorewrite with world; congruence|].
    left. split; [reflexivity|]. exists md. split; [eapply Hne; reflexivity | reflexivity].
  - exists (mid ++ [ConsoleError (utf16 "Parse and convert document error:") e]).
    eexists. split; [apply List.Forall_app; split; [exact Hq | repeat constructor]|].
    split; [rewrite Hlog, <- !List.app_assoc; reflexivity|].
    split; [rewrite insert_insert_eq; reflexivity|].
    split; [unfold outsideDocuments; autorewrite with world; congruence|].
    right. exists e. split; reflexivity.
Qed.

Lemma maintains_ext {A} (I : World -> Prop) (m m' : M A) :
  (forall w, m w = m' w) -> maintains I m' -> maintains I m.
Proof. intros E H w Hw. rewrite E. apply H. exact Hw. Qed.

(** Code that only appends quiet events keeps every record as it is. *)
Lemma everyRecord_quiet {A} (P : DocumentSchema.t -> Prop) (m : M A) :
  preserves outsideLog m -> emitsOnly quiet m -> maintains (everyRecord P) m.
Proof.
  intros Hp He w [H1 H2]. specialize (Hp w). destruct (He w) as [evs [El Hq]].
  unfold outsideLog in Hp. injection Hp as Hd _.
  split; [rewrite Hd; exact H1|]. rewrite El. intros b a Hin.
  apply in_app_or in Hin as [Hin | Hin]; [eauto|].
  rewrite List.Forall_forall in Hq. destruct (Hq _ Hin) as [_ Hw]. discriminate.
Qed.

Lemma soundSync_status (status : Status) (d : DocumentSchema.t) :
  status <> completed ->
  forall error, (status = failed \/ error = None) ->
  soundSync d -> soundSync (updateProcessingStatus status error d).
Proof.
  intros Hs error He _. unfold updateProcessingStatus, soundSync.
  destruct (someTruthy error) eqn:E; simpl; split; try congruence.
  intros Hn. destruct He as [He | ->]; [exact He | discriminate].
Qed.

Lemma soundSync_completed (md : jsstring) (d : DocumentSchema.t) :
  md <> [] -> soundSync (updateProcessingStatus completed None (set_markdownContent md d)).
Proof. intros H. split; simpl; congruence. Qed.

Lemma soundSync_softDelete (d : DocumentSchema.t) : soundSync d -> soundSync (softDelete d).
Proof. intros H. exact H. Qed.

Lemma parseAndConvertDocument_sound (env : Env) (id : N) (fb : option File) :
  maintains (everyRecord soundSync) (parseAndConvertDocument env id fb).
Proof.
  eapply maintains_ext; [apply parseAndConvertDocument_unfold|].
  apply maintains_tryCatch.
  - apply maintains_bind; [apply everyRecord_emit; reflexivity|]. intros _.
    apply maintains_bind; [apply everyRecord_findById|]. intros [d|].
    2:{ apply maintains_throw. }
    apply maintains_bind.
    { apply everyRecord_update. intros d0. apply soundSync_status; [discriminate | auto]. }
    intros _. cbv zeta.
    apply (maintains_bind_post _ (fun md => md <> [])).
    + apply everyRecord_quiet; [apply convert_outsideLog | apply convert_quiet].
    + intros w md w1. apply convert_nonempty.
    + intros md Hmd. apply maintains_bind; [|intros; apply maintains_ret].
      apply everyRecord_update. intros d0 _. apply soundSync_completed. exact Hmd.
  - intros e. apply maintains_bind; [apply everyRecord_consoleError|]. intros _.
    apply maintains_bind; [apply everyRecord_findById|]. intros doc.
    apply maintains_bind; [|intros; apply maintains_throw].
    destruct doc as [d|]; [|apply maintains_ret].
    apply everyRecord_update. intros d0. apply soundSync_status; [discriminate | auto].
Qed.

Lemma sync_failed_update_sound (id : N) (e : Error) :
  maintains (everyRecord soundSync)
    (Document.update id (updateProcessingStatus failed (Some (message e)))).
Proof.
  apply everyRecord_update. intros d0. apply soundSync_status; [discriminate | auto].
Qed.

Lemma sync_getFileStream_sound (env : Env) (key : option jsstring) :
  maintains (everyRecord soundSync) (getFileStream env key).
Proof.
  apply everyRecord_quiet; [apply getFileStream_outsideLog | apply getFileStream_quiet].
Qed.

Lemma sync_uploadToS3_sound (env : Env) (file : File) (key : jsstring) :
  maintains (everyRecord soundSync) (uploadToS3 env file key).
Proof.
  unfold uploadToS3. destruct (mockS3 env); [apply maintains_ret|].
  apply maintains_tryCatch.
  - apply maintains_bind; [apply everyRecord_emit; reflexivity|].
    intros _. apply maintains_lift.
  - intros e. apply maintains_bind; [apply everyRecord_consoleError|].
    intros _. apply maintains_throw.
Qed.

Lemma sync_deleteFromS3_sound (env : Env) (key : jsstring) :
  maintains (everyRecord soundSync) (deleteFromS3 env key).
Proof.
  unfold deleteFromS3. destruct (mockS3 env); [apply maintains_ret|].
  apply maintains_tryCatch.
  - apply maintains_bind; [apply everyRecord_emit; reflexivity|].
    intros _. apply maintains_lift.
  - intros e. apply maintains_bind; [apply everyRecord_consoleError|].
    intros _. apply maintains_throw.
Qed.

Lemma sync_new_sound {B} (userId : N) (title format : jsstring)
    (filePath : option jsstring) (mimeType : jsstring) (url : option jsstring)
    (tags : list jsstring) (k : DocumentSchema.t -> M B) :
  (forall d, maintains (everyRecord soundSync) (k d)) ->
  maintains (everyRecord soundSync)
    (document <- Document.new userId title format filePath mimeType url processing tags;;
     document <- Document.save document;;
     k document).
Proof.
  intros Hk.
  apply (maintains_bind_post _ (fun d => soundSync d)).
  - apply everyRecord_new.
  - intros w d w' E. unfold Document.new in E. injection E as <- _.
    split; simpl; congruence.
  - intros d Hd. apply maintains_bind; [apply everyRecord_save; exact Hd | exact Hk].
Qed.

Lemma sync_uploadDocument_sound (env : Env) (file : File) (userId : N)
    (metadata : Metadata) :
  maintains (everyRecord soundSync) (uploadDocument env file userId metadata).
Proof.
  unfold uploadDocument. apply maintains_tryCatch.
  2:{ intros e. apply maintains_bind; [apply everyRecord_consoleError|].
      intros _. apply maintains_throw. }
  cbv zeta. destruct (negb (isValid (validateFile env file))); [apply maintains_throw|].
  apply maintains_bind; [apply sync_uploadToS3_sound|]. intros location.
  refine (sync_new_sound _ _ _ _ _ _ _ _ _). intros d.
  apply maintains_bind.
  - apply maintains_tryCatch.
    + apply maintains_bind; [apply parseAndConvertDocument_sound|].
      intros _. apply maintains_ret.
    + intros e. apply maintains_bind; [apply everyRecord_consoleError|].
      intros _. apply sync_failed_update_sound.
  - intros _. apply maintains_bind; [apply everyRecord_findById|].
    intros [u|]; [apply maintains_ret | apply maintains_throw].
Qed.

Lemma sync_addUrlDocument_sound (env : Env) (url : jsstring) (userId : N)
    (metadata : Metadata) :
  maintains (everyRecord soundSync) (addUrlDocument env url userId metadata).
Proof.
  unfold addUrlDocument. apply maintains_tryCatch.
  2:{ intros e. apply maintains_bind; [apply everyRecord_consoleError|].
      intros _. apply maintains_throw. }
  destruct (negb (validUrl env url)); [apply maintains_throw|].
  refine (sync_new_sound _ _ _ _ _ _ _ _ _). intros d.
  apply maintains_bind.
  - apply maintains_tryCatch.
    + apply maintains_bind; [apply parseAndConvertDocument_sound|].
      intros _. apply maintains_ret.
    + intros e. apply maintains_bind; [apply everyRecord_consoleError|].
      intros _. apply sync_failed_update_sound.
  - intros _. apply maintains_bind; [apply everyRecord_findById|].
    intros [u|]; [apply maintains_ret | apply maintains_throw].
Qed.

Lemma sync_getDocument_sound (documentId userId : N) :
  maintains (everyRecord soundSync) (getDocument documentId userId).
Proof.
  unfold getDocument. apply maintains_tryCatch.
  - apply maintains_bind; [apply everyRecord_findById|]. intros [d|].
    + destruct (_ && _); [apply maintains_ret | apply maintains_throw].
    + apply maintains_throw.
  - intros e. apply maintains_bind; [apply everyRecord_consoleError|].
    intros _. apply maintains_throw.
Qed.

Lemma sync_deleteDocument_sound (env : Env) (documentId userId : N) :
  maintains (everyRecord soundSync) (deleteDocument env documentId userId).
Proof.
  unfold deleteDocument. apply maintains_tryCatch.
  - apply maintains_bind; [apply everyRecord_findById|]. intros [d|].
    + destruct (_ && _); [|apply maintains_throw].
      apply maintains_bind.
      * destruct (filePath d) as [key|]; [|apply maintains_ret].
        destruct (truthy key); [apply sync_deleteFromS3_sound | apply maintains_ret].
      * intros _. apply everyRecord_update. intros d0. apply soundSync_softDelete.
    + apply maintains_throw.
  - intros e. apply maintains_bind; [apply everyRecord_consoleError|].
    intros _. apply maintains_throw.
Qed.

Lemma sync_listUserDocuments_sound (env : Env) (userId : N) (filters : Filters) :
  maintains (everyRecord soundSync) (listUserDocuments env userId filters).
Proof.
  unfold listUserDocuments. apply maintains_tryCatch.
  - intros w H. exact H.
  - intros e. apply maintains_bind; [apply everyRecord_consoleError|].
    intros _. apply maintains_throw.
Qed.

(** *** What the synchronous service writes *)

Lemma quiet_plainWrite (ev : Event) : quiet ev -> plainWrite ev.
Proof. intros [_ H]. destruct ev; try exact Logic.I. discriminate. Qed.

Lemma emitsOnly_update (P : Event -> Prop) (id : N) (paths : t -> t) :
  (forall d, P (DocumentWrite (Some d) (paths d))) ->
  emitsOnly P (Document.update id paths).
Proof.
  intros H w. unfold Document.update. destruct (documents w !! id) as [d|].
  - exists [DocumentWrite (Some d) (paths d)]. simpl. autorewrite with world. auto.
  - exists []. rewrite List.app_nil_r. auto.
Qed.

Lemma emitsOnly_save (P : Event -> Prop) (d : t) :
  P (DocumentWrite None d) -> emitsOnly P (Document.save d).
Proof.
  intros H w. unfold Document.save. destruct (validate d).
  - exists [DocumentWrite None d]. simpl. autorewrite with world. auto.
  - exists []. rewrite List.app_nil_r. auto.
Qed.

Lemma emitsOnly_findById (P : Event -> Prop) (id : N) :
  emitsOnly P (Document.findById id).
Proof. intros w. exists []. rewrite List.app_nil_r. auto. Qed.

Lemma parseAndConvertDocument_missing (env : Env) (id : N) (fb : option File)
    (w : World) :
  documents w !! id = None ->
  exists e,
    parseAndConvertDocument env id fb w =
      (Throw e, set_log (log w ++ [ParseAttempt id;
                                   ConsoleError (utf16 "Parse and convert document error:") e]) w)
    /\ message e = lit "文档不存在".
Proof.
  intros Hd. exists (newError (lit "文档不存在")). split; [|reflexivity].
  rewrite parseAndConvertDocument_unfold.
  munfold. unfold Document.findById, Document.update.
  repeat (progress (wstep; rewrite ?Hd)).
  rewrite <- List.app_assoc. reflexivity.
Qed.

(** An extraction of a record that is not [failed] makes plain writes only. *)
Lemma parseAndConvertDocument_plain (env : Env) (id : N) (fb : option File)
    (w : World) :
  (forall d, documents w !! id = Some d -> processingStatus d <> failed) ->
  emitsAt plainWrite (parseAndConvertDocument env id fb) w.
Proof.
  intros Hs. unfold emitsAt. destruct (documents w !! id) as [d|] eqn:Hd.
  - destruct (parseAndConvertDocument_found env id fb w d Hd)
      as [mid [dfin [Hq [Hlog _]]]].
    eexists. split; [exact Hlog|].
    repeat constructor.
    + simpl. intros [Hf _]. exact (Hs d eq_refl Hf).
    + apply List.Forall_app. split.
      * eapply List.Forall_impl; [|exact Hq]. exact quiet_plainWrite.
      * repeat constructor. simpl. intros [Hf _]. discriminate Hf.
  - destruct (parseAndConvertDocument_missing env id fb w Hd) as [e [E _]].
    rewrite E. eexists. split; [autorewrite with world; reflexivity|].
    repeat constructor.
Qed.

(** Every extraction is exactly one attempt. *)
Lemma parseAndConvertDocument_once (env : Env) (id : N) (fb : option File)
    (w : World) :
  exists evs, log (snd (parseAndConvertDocument env id fb w)) = log w ++ evs /\
              parseAttempts evs = 1%nat.
Proof.
  destruct (documents w !! id) as [d|] eqn:Hd.
  - destruct (parseAndConvertDocument_found env id fb w d Hd)
      as [mid [dfin [Hq [Hlog _]]]].
    eexists. split; [exact Hlog|].
    unfold parseAttempts. cbn [List.filter app isParseAttempt length].
    rewrite List.filter_app. cbn [List.filter isParseAttempt].
    rewrite List.app_nil_r. f_equal.
    rewrite (proj2 (List.length_zero_iff_nil _)); [reflexivity|].
    clear Hlog. induction Hq as [|ev mid [Hp _] _ IH]; [reflexivity|].
    simpl. rewrite Hp. exact IH.
  - destruct (parseAndConvertDocument_missing env id fb w Hd) as [e [E _]].
    rewrite E. eexists. split; [autorewrite with world; reflexivity|]. reflexivity.
Qed.

Lemma sync_uploadToS3_quiet (env : Env) (file : File) (key : jsstring) :
  emitsOnly quiet (uploadToS3 env file key).
Proof.
  unfold uploadToS3. destruct (mockS3 env); [apply emitsOnly_ret|].
  apply emitsOnly_tryCatch.
  - apply emitsOnly_bind; [apply emitsOnly_emit; split; reflexivity|].
    intros _. apply emitsOnly_lift.
  - intros e. apply emitsOnly_bind; [apply emitsOnly_consoleError; split; reflexivity|].
    intros _. apply emitsOnly_throw.
Qed.

Lemma sync_deleteFromS3_quiet (env : Env) (key : jsstring) :
  emitsOnly quiet (deleteFromS3 env key).
Proof.
  unfold deleteFromS3. destruct (mockS3 env); [apply emitsOnly_ret|].
  apply emitsOnly_tryCatch.
  - apply emitsOnly_bind; [apply emitsOnly_emit; split; reflexivity|].
    intros _. apply emitsOnly_lift.
  - intros e. apply emitsOnly_bind; [apply emitsOnly_consoleError; split; reflexivity|].
    intros _. apply emitsOnly_throw.
Qed.

Lemma plain_consoleError (label : string) (e : Error) :
  emitsOnly plainWrite (consoleError label e).
Proof. apply emitsOnly_consoleError. exact Logic.I. Qed.

Lemma plain_failed (id : N) (error : option jsstring) :
  emitsOnly plainWrite (Document.update id (updateProcessingStatus failed error)).
Proof.
  apply emitsOnly_update. intros d [_ H]. revert H.
  unfold updateProcessingStatus. destruct (someTruthy error); discriminate.
Qed.

(** What follows the creation of the record in [uploadDocument] and in
    [addUrlDocument]: the record was stored in [processing]. *)
Lemma sync_created_plain {B} (env : Env) (d : t) (fb : option File)
    (label : string) (k : option t -> M B) (w : World) :
  documents w !! _id d = Some d ->
  processingStatus d = processing ->
  (forall u, emitsOnly plainWrite (k u)) ->
  emitsAt plainWrite
    (tryCatch
       (parseAndConvertDocument env (_id d) fb;;; ret tt)
       (fun parseError =>
          consoleError label parseError;;;
          Document.update (_id d)
            (updateProcessingStatus failed (Some (message parseError))));;;
     u <- Document.findById (_id d);; k u) w.
Proof.
  intros Hd Hs Hk. apply emitsAt_bind.
  - apply emitsAt_tryCatch.
    + apply emitsAt_bind.
      * apply parseAndConvertDocument_plain. intros d0 E.
        rewrite Hd in E. injection E as <-. rewrite Hs. discriminate.
      * intros _ w1 _. apply emitsOnly_ret.
    + intros e w1 _. apply emitsOnly_bind; [apply plain_consoleError|].
      intros _. apply plain_failed.
  - intros _ w1 _. apply emitsOnly_bind; [apply emitsOnly_findById|]. exact Hk.
Qed.

Lemma sync_new_plain {B} (userId : N) (title format : jsstring)
    (filePath : option jsstring) (mimeType : jsstring) (url : option jsstring)
    (tags : list jsstring) (k : DocumentSchema.t -> M B) (w : World) :
  (forall d w1, documents w1 !! _id d = Some d -> processingStatus d = processing ->
                emitsAt plainWrite (k d) w1) ->
  emitsAt plainWrite
    (document <- Document.new userId title format filePath mimeType url processing tags;;
     document <- Document.save document;;
     k document) w.
Proof.
  intros Hk. apply emitsAt_bind.
  - exists []. rewrite List.app_nil_r. auto.
  - intros d w1 E. unfold Document.new in E. injection E as <- _.
    match goal with |- context [Document.save ?d0] => set (d := d0) end.
    apply emitsAt_bind.
    + apply emitsOnly_save. exact Logic.I.
    + intros d' w2 E. unfold Document.save in E.
      destruct (validate d); [|discriminate E]. injection E as <- <-.
      apply Hk; [|reflexivity]. autorewrite with world. apply lookup_insert_eq.
Qed.

Lemma sync_uploadDocument_plain (env : Env) (file : File) (userId : N)
    (metadata : Metadata) :
  emitsOnly plainWrite (uploadDocument env file userId metadata).
Proof.
  intros w. fold (emitsAt plainWrite (uploadDocument env file userId metadata) w).
  unfold uploadDocument. apply emitsAt_tryCatch.
  2:{ intros e w1 _. apply emitsOnly_bind; [apply plain_consoleError|].
      intros _. apply emitsOnly_throw. }
  cbv zeta. destruct (negb (isValid (validateFile env file))); [apply emitsOnly_throw|].
  apply emitsAt_bind.
  { eapply emitsOnly_weaken; [exact quiet_plainWrite | apply sync_uploadToS3_quiet]. }
  intros location w1 _.
  refine (sync_new_plain _ _ _ _ _ _ _ _ _ _). intros d w2 Hd Hs.
  refine (sync_created_plain env d _ _ _ w2 Hd Hs _).
  intros [u|]; [apply emitsOnly_ret | apply emitsOnly_throw].
Qed.

Lemma sync_addUrlDocument_plain (env : Env) (url : jsstring) (userId : N)
    (metadata : Metadata) :
  emitsOnly plainWrite (addUrlDocument env url userId metadata).
Proof.
  intros w. fold (emitsAt plainWrite (addUrlDocument env url userId metadata) w).
  unfold addUrlDocument. apply emitsAt_tryCatch.
  2:{ intros e w1 _. apply emitsOnly_bind; [apply plain_consoleError|].
      intros _. apply emitsOnly_throw. }
  destruct (negb (validUrl env url)); [apply emitsOnly_throw|].
  refine (sync_new_plain _ _ _ _ _ _ _ _ _ _). intros d w2 Hd Hs.
  refine (sync_created_plain env d _ _ _ w2 Hd Hs _).
  intros [u|]; [apply emitsOnly_ret | apply emitsOnly_throw].
Qed.

Lemma sync_getDocument_quiet (documentId userId : N) :
  emitsOnly quiet (getDocument documentId userId).
Proof.
  unfold getDocument. apply emitsOnly_tryCatch.
  - apply emitsOnly_bind; [apply emitsOnly_findById|]. intros [d|].
    + destruct (_ && _); [apply emitsOnly_ret | apply emitsOnly_throw].
    + apply emitsOnly_throw.
  - intros e. apply emitsOnly_bind; [apply emitsOnly_consoleError; split; reflexivity|].
    intros _. apply emitsOnly_throw.
Qed.

Lemma sync_deleteDocument_plain (env : Env) (documentId userId : N) :
  emitsOnly plainWrite (deleteDocument env documentId userId).
Proof.
  unfold deleteDocument. apply emitsOnly_tryCatch.
  - apply emitsOnly_bind; [apply emitsOnly_findById|]. intros [d|].
    + destruct (_ && _); [|apply emitsOnly_throw].
      apply emitsOnly_bind.
      * destruct (filePath d) as [key|]; [|apply emitsOnly_ret].
        destruct (truthy key); [|apply emitsOnly_ret].
        eapply emitsOnly_weaken; [exact quiet_plainWrite | apply sync_deleteFromS3_quiet].
      * intros _. apply emitsOnly_update. intros d0 [H1 H2].
        simpl in H2. congruence.
    + apply emitsOnly_throw.
  - intros e. apply emitsOnly_bind; [apply plain_consoleError|].
    intros _. apply emitsOnly_throw.
Qed.

Lemma sync_listUserDocuments_quiet (env : Env) (userId : N) (filters : Filters) :
  emitsOnly quiet (listUserDocuments env userId filters).
Proof.
  unfold listUserDocuments. apply emitsOnly_tryCatch.
  - intros w. exists []. rewrite List.app_nil_r. auto.
  - intros e. apply emitsOnly_bind; [apply emitsOnly_consoleError; split; reflexivity|].
    intros _. apply emitsOnly_throw.
Qed.

End SyncService.

(** ** The controller over any service *)

Ltac compose lemma_ret lemma_throw lemma_lift lemma_tryCatch lemma_bind :=
  repeat first
    [ solve [eauto]
    | apply lemma_ret | apply lemma_throw | apply lemma_lift
    | apply lemma_tryCatch | apply lemma_bind
    | progress cbv zeta
    | match goal with
      | |- forall _, _ => intro
      | |- _ _ (if ?b then _ else _) => destruct b
      | |- _ _ (match ?x with _ => _ end) => destruct x eqn:?
      | |- _ _ (bind (match ?x with _ => _ end) _) => destruct x eqn:?
      end ].

Section ControllerLift.

Import PipelineSpec DocumentController.

Variable svc : Service.

Section Maintains.

Variable I : World -> Prop.

Hypothesis console_ok : forall label e, maintains I (consoleError label e).
Hypothesis upload_ok : forall f u m, maintains I (svc_uploadDocument svc f u m).
Hypothesis get_ok : forall id u, maintains I (svc_getDocument svc id u).
Hypothesis list_ok : forall u f, maintains I (svc_listUserDocuments svc u f).
Hypothesis delete_ok : forall id u, maintains I (svc_deleteDocument svc id u).
Hypothesis stream_ok : forall k, maintains I (svc_getFileStream svc k).
Hypothesis addUrl_ok :
  forall f, svc_addUrlDocument svc = Some f -> forall url u m, maintains I (f url u m).
Hypothesis parse_ok :
  forall f, svc_parseAndConvertDocument svc = Some f ->
            forall id fb, maintains I (f id fb).

Lemma handle_maintains (req : Request) : maintains I (handle svc req).
Proof.
  assert (summaries_ok : forall ids, maintains I (Summary.distinctDocumentId ids))
    by (intros ids w H; exact H).
  assert (concepts_ok : forall ids, maintains I (Concept.distinctDocumentId ids))
    by (intros ids w H; exact H).
  destruct req; unfold handle, uploadDocument, getDocument, listDocuments,
    deleteDocument, downloadDocument, getDocumentStats, addUrlDocument,
    getMarkdownContent, reprocessDocument, notAFunction;
  compose (@maintains_ret) (@maintains_throw) (@maintains_lift)
          (@maintains_tryCatch) (@maintains_bind).
Qed.

End Maintains.

Section Emits.

Variable P : Event -> Prop.

Hypothesis console_ok : forall label e, emitsOnly P (consoleError label e).
Hypothesis upload_ok : forall f u m, emitsOnly P (svc_uploadDocument svc f u m).
Hypothesis get_ok : forall id u, emitsOnly P (svc_getDocument svc id u).
Hypothesis list_ok : forall u f, emitsOnly P (svc_listUserDocuments svc u f).
Hypothesis delete_ok : forall id u, emitsOnly P (svc_deleteDocument svc id u).
Hypothesis stream_ok : forall k, emitsOnly P (svc_getFileStream svc k).
Hypothesis addUrl_ok :
  forall f, svc_addUrlDocument svc = Some f -> forall url u m, emitsOnly P (f url u m).

Lemma handle_emitsOnly (req : Request) :
  (forall id u, req <> ReprocessDocument id u) -> emitsOnly P (handle svc req).
Proof.
  intros Hreq.
  assert (summaries_ok : forall ids, emitsOnly P (Summary.distinctDocumentId ids))
    by (intros ids w; exists []; rewrite List.app_nil_r; auto).
  assert (concepts_ok : forall ids, emitsOnly P (Concept.distinctDocumentId ids))
    by (intros ids w; exists []; rewrite List.app_nil_r; auto).
  destruct req; try (exfalso; eapply Hreq; reflexivity); clear Hreq;
  unfold handle, uploadDocument, getDocument, listDocuments,
    deleteDocument, downloadDocument, getDocumentStats, addUrlDocument,
    getMarkdownContent, notAFunction;
  compose (@emitsOnly_ret) (@emitsOnly_throw) (@emitsOnly_lift)
          (@emitsOnly_tryCatch) (@emitsOnly_bind).
Qed.

End Emits.

End ControllerLift.

(** ** Reprocessing *)

Section Reprocess.

Import PipelineSpec DocumentSchema DocumentController.

Lemma sync_getDocument_found (w : World) (id : N) (d : t) :
  documents w !! id = Some d -> isDeleted d = false ->
  DocumentServiceSync.getDocument id (userId d) w = (Ok d, w).
Proof.
  intros Hd Hdel. unfold DocumentServiceSync.getDocument, tryCatch, bind, Document.findById.
  rewrite Hd, N.eqb_refl, Hdel. reflexivity.
Qed.

Lemma sync_getDocument_inv (w w1 : World) (id user : N) (d : t) :
  DocumentServiceSync.getDocument id user w = (Ok d, w1) ->
  w1 = w /\ documents w !! id = Some d /\ userId d = user /\ isDeleted d = false.
Proof.
  unfold DocumentServiceSync.getDocument, tryCatch, bind, Document.findById.
  destruct (documents w !! id) as [d0|]; [|discriminate].
  destruct (userId d0 =? user) eqn:Eu; [|discriminate].
  destruct (isDeleted d0) eqn:Ed; [discriminate|].
  cbn [negb andb]. unfold ret. intros E. injection E as <- <-.
  apply N.eqb_eq in Eu. auto.
Qed.

Lemma plain_no_restart {A} (m : M A) (w : World) (evs : list Event) (b a : t) :
  emitsAt plainWrite m w ->
  log (snd (m w)) = log w ++ evs ->
  In (DocumentWrite (Some b) a) evs ->
  ~ (processingStatus b = failed /\ processingStatus a = processing).
Proof.
  intros [evs' [E H]] E' Hin. rewrite E in E'. apply List.app_inv_head in E'. subst evs'.
  rewrite List.Forall_forall in H. exact (H _ Hin).
Qed.

Lemma sync_reprocess_busy (env : Env) (w : World) (id : N) (d : t) :
  documents w !! id = Some d -> isDeleted d = false ->
  processingStatus d = processing ->
  handle (serviceSync env) (ReprocessDocument id (userId d)) w =
    (Ok (mkResponse 400 false (lit "文档正在处理中，请稍后再试") NoData), w).
Proof.
  intros Hd Hdel Hs.
  unfold handle, reprocessDocument. cbn [serviceSync svc_getDocument].
  unfold tryCatch at 1, bind at 1.
  rewrite (sync_getDocument_found w id d Hd Hdel), Hs. reflexivity.
Qed.

Lemma sync_reprocess_run (env : Env) (w : World) (id : N) (d : t) :
  documents w !! id = Some d -> isDeleted d = false ->
  processingStatus d <> processing ->
  let dp := updateProcessingStatus processing None d in
  let run := handle (serviceSync env) (ReprocessDocument id (userId d)) w in
  exists mid tail dfin,
    Forall quiet mid /\ Forall quiet tail /\
    log (snd run) = log w ++ [ParseAttempt id; DocumentWrite (Some d) dp] ++ mid
      ++ [DocumentWrite (Some dp) dfin] ++ tail /\
    documents (snd run) = <[id := dfin]> (documents w) /\
    ((processingStatus dfin = completed /\ markdownContent dfin <> [] /\
      fst run = Ok (mkResponse 200 true (lit "文档重新处理成功") (DocumentData dfin)))
     \/ (processingStatus dfin = failed /\ markdownContent dfin = markdownContent d /\
         exists e, fst run = Ok (mkResponse (notFoundOr500 e) false
                                   (messageOr e (lit "文档重新处理失败")) NoData))).
Proof.
  intros Hd Hdel Hs dp run.
  destruct (parseAndConvertDocument_found env id None w d Hd)
    as [mid [dfin [Hq [Hlog [Hdoc [_ Hres]]]]]]. fold dp in Hlog, Hres.
  assert (run =
    tryCatch
      (result <- DocumentServiceSync.parseAndConvertDocument env id None;;
       ret (mkResponse 200 true (lit "文档重新处理成功") (DocumentData result)))
      (fun error =>
         consoleError "Reprocess document error:" error;;;
         ret (mkResponse (notFoundOr500 error) false
                (messageOr error (lit "文档重新处理失败")) NoData)) w) as Hrun.
  { subst run. unfold handle, reprocessDocument.
    cbn [serviceSync svc_getDocument svc_parseAndConvertDocument].
    unfold tryCatch, bind at 1.
    rewrite (sync_getDocument_found w id d Hd Hdel).
    destruct (processingStatus d); try reflexivity. contradiction. }
  rewrite Hrun. clear Hrun.
  destruct (DocumentServiceSync.parseAndConvertDocument env id None w)
    as [[r | e] w1] eqn:Epac;
    unfold tryCatch, consoleError, emit, bind, ret; rewrite Epac; cbn [fst snd] in *.
  - exists mid, [], dfin.
    destruct Hres as [[Hr [md [Hmd Hfin]]] | [e [He _]]]; [|discriminate He].
    injection Hr as ->.
    split; [assumption|]. split; [constructor|].
    split; [rewrite Hlog; reflexivity|].
    split; [assumption|].
    left. subst dfin. repeat split; assumption.
  - exists mid, [ConsoleError (utf16 "Reprocess document error:") e], dfin.
    autorewrite with world.
    destruct Hres as [[Hr _] | [e' [He Hfin]]]; [discriminate Hr|].
    injection He as <-.
    split; [assumption|]. split; [repeat constructor|].
    split; [rewrite Hlog, <- !List.app_assoc; reflexivity|].
    split; [assumption|].
    right. subst dfin. split; [|split].
    + unfold updateProcessingStatus. destruct (someTruthy (Some _)); reflexivity.
    + unfold dp, updateProcessingStatus. destruct (someTruthy (Some _)); reflexivity.
    + exists e. reflexivity.
Qed.

Lemma sync_handle_plain (env : Env) (req : Request) :
  (forall id u, req <> ReprocessDocument id u) ->
  emitsOnly plainWrite (handle (serviceSync env) req).
Proof.
  apply handle_emitsOnly; cbn [serviceSync svc_uploadDocument svc_getDocument
    svc_listUserDocuments svc_deleteDocument svc_getFileStream svc_addUrlDocument].
  - apply plain_consoleError.
  - intros f u m. apply emitsOnly_bind; [apply sync_uploadDocument_plain|].
    intros r. apply emitsOnly_ret.
  - intros id u. eapply emitsOnly_weaken; [exact quiet_plainWrite|].
    apply sync_getDocument_quiet.
  - intros u f. eapply emitsOnly_weaken; [exact quiet_plainWrite|].
    apply sync_listUserDocuments_quiet.
  - intros id u. apply sync_deleteDocument_plain.
  - intros k. eapply emitsOnly_weaken; [exact quiet_plainWrite|].
    apply getFileStream_quiet.
  - intros f E url u m. injection E as <-. apply sync_addUrlDocument_plain.
Qed.

Lemma sync_handle_sound (env : Env) (req : Request) :
  maintains (everyRecord soundSync) (handle (serviceSync env) req).
Proof.
  apply handle_maintains; cbn [serviceSync svc_uploadDocument svc_getDocument
    svc_listUserDocuments svc_deleteDocument svc_getFileStream svc_addUrlDocument
    svc_parseAndConvertDocument].
  - apply everyRecord_consoleError.
  - intros f u m. apply maintains_bind; [apply sync_uploadDocument_sound|].
    intros r. apply maintains_ret.
  - apply sync_getDocument_sound.
  - apply sync_listUserDocuments_sound.
  - apply sync_deleteDocument_sound.
  - apply sync_getFileStream_sound.
  - intros f E url u m. injection E as <-. apply sync_addUrlDocument_sound.
  - intros f E id fb. injection E as <-. apply parseAndConvertDocument_sound.
Qed.

Lemma parseAttempts_quiet (evs : list Event) :
  Forall quiet evs -> parseAttempts evs = 0%nat.
Proof.
  unfold parseAttempts. induction 1 as [|ev evs [Hp _] _ IH]; [reflexivity|].
  simpl. rewrite Hp. exact IH.
Qed.

Lemma parseAttempts_app (xs ys : list Event) :
  parseAttempts (xs ++ ys) = (parseAttempts xs + parseAttempts ys)%nat.
Proof. unfold parseAttempts. rewrite List.filter_app, List.length_app. reflexivity. Qed.

End Reprocess.

(** ** The asynchronous assembly keeps its invariant *)

Section AsyncInvariant.

Import PipelineSpec DocumentSchema.

Lemma writes_In (w : World) (b : option t) (a : t) :
  In (DocumentWrite b a) (log w) <-> In (DocumentWrite b a) (writes w).
Proof.
  unfold writes. rewrite List.filter_In. split; [intros H; split; [exact H | reflexivity]|].
  intros [H _]. exact H.
Qed.

Lemma writes_quiet (w : World) (ev : Event) :
  isDocumentWrite ev = false -> writes (set_log (log w ++ [ev]) w) = writes w.
Proof.
  intros H. unfold writes. autorewrite with world. rewrite List.filter_app. simpl.
  rewrite H. apply List.app_nil_r.
Qed.

Lemma writes_write (w w0 : World) (b : option t) (a : t) :
  log w0 = log w ++ [DocumentWrite b a] ->
  writes w0 = writes w ++ [DocumentWrite b a].
Proof. intros H. unfold writes. rewrite H, List.filter_app. reflexivity. Qed.

Lemma extractionIds_app (xs ys : list Job) :
  extractionIds (xs ++ ys) = extractionIds xs ++ extractionIds ys.
Proof. unfold extractionIds. apply List.flat_map_app. Qed.

(** The invariant reads the view only, and ids may be drawn. *)
Lemma invAsync_mono (w w' : World) :
  documents w' = documents w ->
  extractionIds (detached w') = extractionIds (detached w) ->
  writes w' = writes w ->
  nextDocumentId w <= nextDocumentId w' ->
  invAsync w -> invAsync w'.
Proof.
  intros Hd Hj Hw Hn [[Hs Hl] [Hid [Hnd Hf]]].
  unfold invAsync, everyRecord. rewrite Hd, Hj.
  split; [split; [exact Hs|]|split; [|split; [exact Hnd|]]].
  - intros b a Hin. apply writes_In in Hin. rewrite Hw in Hin.
    apply writes_In in Hin. eauto.
  - intros id d H. specialize (Hid id d H). lia.
  - intros id H. destruct (Hf id H) as [Hlt Hfr]. split; [lia | exact Hfr].
Qed.

Lemma invAsync_view {A} (m : M A) :
  preserves documentView m -> maintains invAsync m.
Proof.
  intros H w Hw. specialize (H w). unfold documentView in H.
  injection H as H1 H2 H3 H4.
  apply (invAsync_mono w); try assumption. rewrite H2. lia.
Qed.

Lemma view_emit (ev : Event) :
  isDocumentWrite ev = false -> preserves documentView (emit ev).
Proof.
  intros H w. unfold emit, documentView. cbn [snd]. rewrite writes_quiet by exact H.
  autorewrite with world. reflexivity.
Qed.

Lemma view_consoleError (label : string) (e : Error) :
  preserves documentView (consoleError label e).
Proof. apply view_emit. reflexivity. Qed.

Lemma view_spawn_AI (id : N) (md : jsstring) :
  preserves documentView (spawn (JobAI id md)).
Proof.
  intros w. unfold spawn, documentView, writes. cbn [snd]. autorewrite with world.
  rewrite extractionIds_app. cbn. rewrite List.app_nil_r. reflexivity.
Qed.

Lemma view_findById (id : N) : preserves documentView (Document.findById id).
Proof. intros w. reflexivity. Qed.

Lemma preserves_settle {A X} (f : World -> X) (m : M A) :
  preserves f m -> preserves f (settle m).
Proof.
  intros H w. specialize (H w). unfold settle. destruct (m w) as [r w1]. exact H.
Qed.

Lemma view_Summary_new d u content type :
  preserves documentView (Summary.new d u content type).
Proof. intros w. reflexivity. Qed.

Lemma view_Summary_save (s : SummarySchema.t) :
  preserves documentView (Summary.save s).
Proof.
  intros w. unfold Summary.save.
  destruct (negb (SummarySchema.validate s)); [reflexivity|].
  destruct (existsb _ (summaries w)); [reflexivity|].
  unfold documentView. cbn [snd].
  unfold writes. autorewrite with world. rewrite List.filter_app. cbn.
  rewrite List.app_nil_r. reflexivity.
Qed.

Lemma view_Concept_findOne (d : N) (term : jsstring) :
  preserves documentView (Concept.findOne d term).
Proof. intros w. reflexivity. Qed.

Lemma view_Concept_new term definition d u category importance occs :
  preserves documentView (Concept.new term definition d u category importance occs).
Proof. intros w. reflexivity. Qed.

Lemma view_Concept_save (c : ConceptSchema.t) :
  preserves documentView (Concept.save c).
Proof.
  intros w. unfold Concept.save.
  destruct (negb (ConceptSchema.validate c)); [reflexivity|].
  destruct (existsb _ (concepts w)); [reflexivity|].
  unfold documentView, writes. cbn [snd]. autorewrite with world.
  rewrite List.filter_app. cbn. rewrite List.app_nil_r. reflexivity.
Qed.

Lemma view_Concept_saveExisting (c : ConceptSchema.t) :
  preserves documentView (Concept.saveExisting c).
Proof.
  intros w. unfold Concept.saveExisting.
  destruct (negb (ConceptSchema.validate c)); [reflexivity|].
  unfold documentView, writes. cbn [snd]. autorewrite with world.
  rewrite List.filter_app. cbn. rewrite List.app_nil_r. reflexivity.
Qed.

Lemma view_addOccurrences (occs : list OccurrenceData) (c : ConceptSchema.t) :
  preserves documentView (FileExtractService.addOccurrences occs c).
Proof.
  revert c. induction occs as [|o rest IH]; intros c; cbn [FileExtractService.addOccurrences].
  - apply preserves_ret.
  - apply preserves_bind; [apply view_Concept_saveExisting | exact IH].
Qed.

Lemma view_saveConcepts (d u : N) (cs : list ConceptData)
    (saved : list ConceptSchema.t) :
  preserves documentView (FileExtractService.saveConcepts d u cs saved).
Proof.
  revert saved. induction cs as [|c rest IH]; intros saved;
    cbn [FileExtractService.saveConcepts].
  - apply preserves_ret.
  - apply preserves_bind; [apply view_Concept_findOne|]. intros existing.
    apply preserves_bind; [|intros r; apply IH].
    destruct existing as [existing|].
    + cbv zeta. apply preserves_bind; [|intros r; apply view_Concept_saveExisting].
      destruct (cd_occurrences c); [apply view_addOccurrences | apply preserves_ret].
    + apply preserves_bind; [apply view_Concept_new|].
      intros r. apply view_Concept_save.
Qed.

Lemma view_generateAndSaveSummary (env : Env) (d u : N) (md : jsstring) :
  preserves documentView (FileExtractService.generateAndSaveSummary env d u md).
Proof.
  unfold FileExtractService.generateAndSaveSummary. apply preserves_tryCatch.
  - apply preserves_bind; [apply view_emit; reflexivity|]. intros _.
    apply preserves_bind; [apply preserves_lift|]. intros content.
    apply preserves_bind; [apply view_Summary_new|]. intros r.
    apply view_Summary_save.
  - intros e. apply preserves_throw.
Qed.

Lemma view_extractAndSaveConcepts (env : Env) (d u : N) (md : jsstring) :
  preserves documentView (FileExtractService.extractAndSaveConcepts env d u md).
Proof.
  unfold FileExtractService.extractAndSaveConcepts. apply preserves_tryCatch.
  - apply preserves_bind; [apply view_emit; reflexivity|]. intros _.
    apply preserves_bind; [apply preserves_lift|]. intros cs.
    apply view_saveConcepts.
  - intros e. apply preserves_throw.
Qed.

(** An update whose paths keep a record sound, and fresh when it was. *)
Lemma invAsync_update (id : N) (paths : t -> t) :
  (forall d, soundAsync d -> soundAsync (paths d)) ->
  (forall d, fresh d -> fresh (paths d)) ->
  maintains invAsync (Document.update id paths).
Proof.
  intros Hsound Hfresh w [[Hs Hl] [Hid [Hnd Hf]]]. unfold Document.update.
  destruct (documents w !! id) as [d|] eqn:Hd; cbn [snd].
  2:{ exact (conj (conj Hs Hl) (conj Hid (conj Hnd Hf))). }
  unfold invAsync, everyRecord. autorewrite with world.
  split; [split|split; [|split; [exact Hnd|]]].
  - intros id' d' H. destruct (decide (id' = id)) as [->|Hne].
    + rewrite lookup_insert_eq in H. injection H as <-. eauto.
    + rewrite lookup_insert_ne in H by congruence. eauto.
  - intros b a Hin. apply in_app_or in Hin as [Hin | [Hin | []]]; [eauto|].
    injection Hin as _ <-. eauto.
  - intros id' d' H. destruct (decide (id' = id)) as [->|Hne].
    + eauto.
    + rewrite lookup_insert_ne in H by congruence. eauto.
  - intros id' H. destruct (Hf id' H) as [Hlt Hfr]. split; [exact Hlt|].
    intros d' H'. destruct (decide (id' = id)) as [->|Hne].
    + rewrite lookup_insert_eq in H'. injection H' as <-. eauto.
    + rewrite lookup_insert_ne in H' by congruence. eauto.
Qed.

Lemma maintains_settle {A} (I : World -> Prop) (m : M A) :
  maintains I m -> maintains I (settle m).
Proof.
  intros H w Hw. specialize (H w Hw). unfold settle. destruct (m w) as [r w1]. exact H.
Qed.

Lemma invAsync_consoleError (label : string) (e : Error) :
  maintains invAsync (consoleError label e).
Proof. apply invAsync_view, view_consoleError. Qed.

Lemma invAsync_processAIFeatures (env : Env) (id : N) (md : jsstring) :
  maintains invAsync (FileExtractService.processAIFeatures env id md).
Proof.
  unfold FileExtractService.processAIFeatures. apply maintains_tryCatch.
  2:{ intros e. apply maintains_bind; [apply invAsync_consoleError|].
      intros _. apply maintains_throw. }
  apply maintains_bind; [apply invAsync_view, view_findById|]. intros [d|].
  2:{ apply maintains_throw. }
  apply maintains_bind; [apply invAsync_view, view_emit; reflexivity|]. intros _.
  apply maintains_bind; [apply maintains_lift|]. intros restructured.
  apply maintains_bind.
  { apply invAsync_update; intros d0 H; exact H. }
  intros _.
  apply maintains_bind.
  { apply maintains_settle, invAsync_view, view_generateAndSaveSummary. }
  intros summaryResult.
  apply maintains_bind.
  { apply maintains_settle, invAsync_view, view_extractAndSaveConcepts. }
  intros conceptsResult.
  apply maintains_bind.
  - destruct summaryResult; [apply maintains_ret | apply invAsync_consoleError].
  - intros _. destruct conceptsResult; [apply maintains_ret | apply invAsync_consoleError].
Qed.

Lemma fresh_sound (d : t) : fresh d -> soundAsync d.
Proof.
  intros [Hs [He Hm]]. unfold soundAsync. rewrite Hs, He, Hm.
  split; [split|]; intros H; congruence.
Qed.

(** A record created with the next id, together with its extraction. *)
Lemma invAsync_created (w w' : World) (d : t) (buf : Buffer) (mime : jsstring) :
  invAsync w -> fresh d -> _id d = nextDocumentId w ->
  documents w' = <[_id d := d]> (documents w) ->
  nextDocumentId w' = nextDocumentId w + 1 ->
  detached w' = detached w ++ [JobExtract (_id d) buf mime] ->
  writes w' = writes w ++ [DocumentWrite None d] ->
  invAsync w'.
Proof.
  intros [[Hs Hl] [Hid [Hnd Hf]]] Hfr Hnew Hd Hn Hj Hw.
  unfold invAsync, everyRecord. rewrite Hd, Hn, Hj, extractionIds_app.
  cbn [extractionIds flat_map app]. rewrite Hnew.
  split; [split|split; [|split]].
  - intros id d' H. destruct (decide (id = nextDocumentId w)) as [->|Hne].
    + rewrite lookup_insert_eq in H. injection H as <-. apply fresh_sound, Hfr.
    + rewrite lookup_insert_ne in H by congruence. eauto.
  - intros b a Hin. apply writes_In in Hin. rewrite Hw in Hin.
    apply in_app_or in Hin as [Hin | [Hin | []]].
    + apply writes_In in Hin. eauto.
    + injection Hin as _ <-. apply fresh_sound, Hfr.
  - intros id d' H. destruct (decide (id = nextDocumentId w)) as [->|Hne].
    + lia.
    + rewrite lookup_insert_ne in H by congruence. specialize (Hid id d' H). lia.
  - apply NoDup_snoc; [exact Hnd|]. intros Hin. destruct (Hf _ Hin) as [Hlt _]. lia.
  - intros id Hin. apply in_app_or in Hin as [Hin | [<- | []]].
    + destruct (Hf id Hin) as [Hlt Hfr']. split; [lia|].
      intros d' H. rewrite lookup_insert_ne in H by lia. eauto.
    + split; [lia|]. intros d' H. rewrite lookup_insert_eq in H. injection H as <-.
      exact Hfr.
Qed.

Ltac solve_writes :=
  unfold PipelineSpec.writes; autorewrite with world; rewrite ?List.filter_app;
  cbn [List.filter PipelineSpec.isDocumentWrite app]; rewrite ?List.app_nil_r;
  reflexivity.

Lemma invAsync_uploadDocument (env : Env) (file : File) (user : N) (md : Metadata) :
  maintains invAsync (DocumentService.uploadDocument env file user md).
Proof.
  intros w Hinv.
  unfold DocumentService.uploadDocument, DocumentService._validateFile,
    DocumentService._uploadToS3, Document.new, Document.save.
  munfold.
  destruct (maxFileSize env <? size file); [exact Hinv|].
  destruct (lookup DocumentService.supportedFormats (mimetype file)); [|exact Hinv].
  destruct (s3Enabled env); cbn -[lit utf16 app validate invAsync]; [|exact Hinv].
  assert (Hput : invAsync
            (set_log (log w ++ [S3Put (generateFileKey env (originalname file))]) w)).
  { apply (invAsync_mono w); autorewrite with world;
      [reflexivity | reflexivity | solve_writes | lia | exact Hinv]. }
  destruct (s3Upload env (generateFileKey env (originalname file)) (buffer file))
    as [location | e]; cbn -[lit utf16 app validate invAsync]; [|exact Hput].
  match goal with |- context [validate ?d] => destruct (validate d) eqn:V end;
    cbn -[lit utf16 app validate invAsync].
  - match goal with |- context [DocumentWrite None ?d0] => set (d := d0) end.
    apply (invAsync_created w _ d (buffer file) (mimetype file));
      autorewrite with world; try reflexivity; try exact Hinv.
    + repeat split.
    + solve_writes.
  - apply (invAsync_mono w); autorewrite with world;
      [reflexivity | reflexivity | solve_writes | lia | exact Hinv].
Qed.

Lemma async_handle_invariant (env : Env) (req : DocumentController.Request) :
  maintains invAsync (DocumentController.handle (serviceAsync env) req).
Proof.
  apply handle_maintains; cbn [serviceAsync DocumentController.svc_uploadDocument
    DocumentController.svc_getDocument DocumentController.svc_listUserDocuments
    DocumentController.svc_deleteDocument DocumentController.svc_getFileStream
    DocumentController.svc_addUrlDocument
    DocumentController.svc_parseAndConvertDocument].
  - apply invAsync_consoleError.
  - intros f u m. apply maintains_bind; [apply invAsync_uploadDocument|].
    intros r. apply maintains_ret.
  - intros id u. apply invAsync_view. unfold DocumentService.getDocument.
    apply preserves_tryCatch; [|intros e; apply preserves_throw].
    apply preserves_bind; [apply view_findById|]. intros [d|].
    + destruct (_ && _); [apply preserves_ret | apply preserves_throw].
    + apply preserves_throw.
  - intros u f. apply invAsync_view. unfold DocumentService.listUserDocuments.
    apply preserves_tryCatch; [|intros e; apply preserves_throw].
    intros w. reflexivity.
  - intros id u. unfold DocumentService.deleteDocument.
    apply maintains_tryCatch; [|intros e; apply maintains_throw].
    apply maintains_bind; [apply invAsync_view, view_findById|]. intros [d|].
    + destruct (_ && _); [|apply maintains_throw].
      apply invAsync_update; intros d0 H; exact H.
    + apply maintains_throw.
  - intros k. apply invAsync_view. unfold DocumentService.getFileStream.
    apply preserves_tryCatch; [|intros e; apply preserves_throw].
    destruct (negb (s3Enabled env)); [apply preserves_throw|].
    apply preserves_bind; [apply view_emit; reflexivity|].
    intros _. apply preserves_lift.
  - intros f E. discriminate E.
  - intros f E. discriminate E.
Qed.

Lemma pure_extractPdfToMarkdown (env : Env) (buf : Buffer) :
  preserves (fun w => w) (FileExtractService.extractPdfToMarkdown env buf).
Proof.
  unfold FileExtractService.extractPdfToMarkdown.
  apply preserves_tryCatch; [|intros e; apply preserves_throw].
  apply preserves_bind; [apply preserves_lift|]. intros data. apply preserves_ret.
Qed.

Lemma extract_run (env : Env) (id : N) (buf : Buffer) (mime : jsstring) (w : World) :
  let w' := snd (runJob env (JobExtract id buf mime) w) in
  nextDocumentId w' = nextDocumentId w /\
  extractionIds (detached w') = extractionIds (detached w) /\
  match documents w !! id with
  | None => documents w' = documents w /\ writes w' = writes w
  | Some d =>
    exists dfin ws,
      documents w' = <[id := dfin]> (documents w) /\
      writes w' = writes w ++ ws /\
      (fresh d -> soundAsync dfin /\ Forall soundWrite ws)
  end.
Proof.
  intros w'. remember w' as result eqn:Hrun. subst w'.
  unfold runJob, DocumentService.processFileExtraction,
    FileExtractService.extractToMarkdown, Document.findByIdAndUpdate in Hrun.
  match type of Hrun with
  | context [bind (if JS.eqb mime application_pdf then ?a else ?b)] =>
    set (X := if JS.eqb mime application_pdf then a else b) in Hrun
  end.
  assert (HX : forall w0, snd (X w0) = w0).
  { subst X. destruct (JS.eqb mime application_pdf);
      [apply pure_extractPdfToMarkdown|].
    destruct (_ || _); [intros w0; reflexivity|].
    destruct (JS.eqb mime text_plain); intros w0; reflexivity. }
  clearbody X.
  munfold. unfold Document.update in Hrun.
  destruct (documents w !! id) as [d|] eqn:Hd.
  - repeat (progress (wstep_in Hrun; rewrite ?Hd, ?lookup_insert_eq in Hrun)).
    match type of Hrun with context [X ?W] => set (w1 := W) in Hrun end.
    pose proof (HX w1) as Hw1.
    destruct (X w1) as [[md | e] w2]; cbn [snd] in Hw1; subst w2; subst w1;
      repeat (progress (wstep_in Hrun; rewrite ?Hd, ?lookup_insert_eq in Hrun));
      subst result; cbn [snd]; autorewrite with world;
      (split; [reflexivity|]);
      (split; [rewrite ?extractionIds_app; cbn [extractionIds flat_map app];
               rewrite ?List.app_nil_r; reflexivity|]);
      eexists _, _;
      (split; [rewrite ?insert_insert_eq; reflexivity|]);
      (split; [unfold writes; autorewrite with world; rewrite !List.filter_app;
               cbn [List.filter isDocumentWrite]; rewrite <- ?List.app_assoc;
               cbn [app]; reflexivity|]);
      intros [Hs [He Hm]]; unfold soundAsync, soundWrite;
      (split; [|repeat constructor]); cbn; rewrite ?He, ?Hm; intuition congruence.
  - repeat (progress (wstep_in Hrun; rewrite ?Hd in Hrun)).
    match type of Hrun with context [X ?W] => set (w1 := W) in Hrun end.
    pose proof (HX w1) as Hw1.
    destruct (X w1) as [[md | e] w2]; cbn [snd] in Hw1; subst w2; subst w1;
      repeat (progress (wstep_in Hrun; rewrite ?Hd in Hrun));
      subst result; cbn [snd]; autorewrite with world;
      (split; [reflexivity|]);
      (split; [rewrite ?extractionIds_app; cbn [extractionIds flat_map app];
               rewrite ?List.app_nil_r; reflexivity|]);
      (split; [reflexivity|]); solve_writes.
Qed.

Lemma async_job_invariant (env : Env) (j : Job) (before after : list Job) (w : World) :
  detached w = before ++ j :: after ->
  invAsync w ->
  invAsync (snd (runJob env j (set_detached (before ++ after) w))).
Proof.
  intros Hdet Hinv. destruct j as [id buf mime | id md].
  - (* the extraction of document [id] *)
    destruct Hinv as [[Hs Hl] [Hid [Hnd Hf]]].
    rewrite Hdet, extractionIds_app in Hnd, Hf. cbn [extractionIds flat_map app] in Hnd, Hf.
    fold (extractionIds after) in Hnd, Hf.
    pose proof (List.NoDup_remove_1 _ _ _ Hnd) as Hnd'.
    pose proof (List.NoDup_remove_2 _ _ _ Hnd) as Hnotin.
    assert (Hin : In id (extractionIds before ++ id :: extractionIds after))
      by (apply in_or_app; right; left; reflexivity).
    assert (Hsub : forall id', In id' (extractionIds before ++ extractionIds after) ->
                     In id' (extractionIds before ++ id :: extractionIds after)).
    { intros id' H. apply in_app_or in H as [H | H]; apply in_or_app;
        [left | right; right]; exact H. }
    destruct (extract_run env id buf mime (set_detached (before ++ after) w))
      as [Hn [Hj Hcase]].
    autorewrite with world in Hn, Hj, Hcase. rewrite extractionIds_app in Hj.
    unfold invAsync, everyRecord. rewrite Hn, Hj.
    destruct (documents w !! id) as [d|] eqn:Hd.
    + destruct Hcase as [dfin [ws [Hdoc [Hw Hsound]]]].
      destruct (Hsound (proj2 (Hf id Hin) d Hd)) as [Hfin Hws].
      rewrite Hdoc.
      split; [split|split; [|split; [exact Hnd'|]]].
      * intros id' d' H. destruct (decide (id' = id)) as [->|Hne].
        -- rewrite lookup_insert_eq in H. injection H as <-. exact Hfin.
        -- rewrite lookup_insert_ne in H by congruence. eauto.
      * intros b a H. apply writes_In in H. rewrite Hw in H.
        apply in_app_or in H as [H | H].
        -- apply (Hl b a). apply writes_In. exact H.
        -- rewrite List.Forall_forall in Hws. exact (Hws _ H).
      * intros id' d' H. destruct (decide (id' = id)) as [->|Hne].
        -- eauto.
        -- rewrite lookup_insert_ne in H by congruence. eauto.
      * intros id' H. destruct (Hf id' (Hsub id' H)) as [Hlt Hfr]. split; [exact Hlt|].
        intros d' H'. rewrite lookup_insert_ne in H' by (intros ->; exact (Hnotin H)).
        eauto.
    + destruct Hcase as [Hdoc Hw]. rewrite Hdoc.
      split; [split|split; [|split; [exact Hnd'|]]].
      * exact Hs.
      * intros b a H. apply writes_In in H. rewrite Hw in H.
        apply (Hl b a). apply writes_In. exact H.
      * exact Hid.
      * intros id' H. exact (Hf id' (Hsub id' H)).
  - (* the annotation of document [id] *)
    unfold runJob. apply maintains_tryCatch.
    + apply invAsync_processAIFeatures.
    + intros e. apply invAsync_consoleError.
    + apply (invAsync_mono w); autorewrite with world;
        [reflexivity | | reflexivity | lia | exact Hinv].
      rewrite Hdet, !extractionIds_app. reflexivity.
Qed.

Lemma invAsync_empty : invAsync emptyWorld.
Proof.
  split; [split|split; [|split]].
  - intros id d H. unfold emptyWorld in H. cbn [documents] in H.
    rewrite lookup_empty in H. discriminate H.
  - intros b a [].
  - intros id d H. unfold emptyWorld in H. cbn [documents] in H.
    rewrite lookup_empty in H. discriminate H.
  - constructor.
  - intros id [].
Qed.

Lemma async_reachable_invariant (w : World) : reachable stepAsync w -> invAsync w.
Proof.
  induction 1 as [|w w' _ IH Hstep]; [exact invAsync_empty|].
  destruct Hstep as [env req w | env j before after w Hdet].
  - apply async_handle_invariant. exact IH.
  - apply async_job_invariant; assumption.
Qed.

Lemma sync_reachable_invariant (w : World) :
  reachable stepSync w -> everyRecord soundSync w.
Proof.
  induction 1 as [|w w' _ IH Hstep].
  - split; [|intros b a []].
    intros id d H. unfold emptyWorld in H. cbn [documents] in H.
    rewrite lookup_empty in H. discriminate H.
  - destruct Hstep as [env req w]. apply sync_handle_sound. exact IH.
Qed.

Lemma scannedWorld_reachable : reachable stepAsync Demo.scannedWorld.
Proof.
  unfold Demo.scannedWorld.
  apply (reachable_step stepAsync Demo.scannedUploaded).
  - apply (reachable_step stepAsync emptyWorld); [apply reachable_init|].
    apply stepAsync_request.
  - apply stepAsync_job. vm_compute. reflexivity.
Qed.

Lemma reprocessedWorld_reachable : reachable stepSync Demo.reprocessedWorld.
Proof.
  unfold Demo.reprocessedWorld.
  apply (reachable_step stepSync Demo.parsedWorld).
  - apply (reachable_step stepSync emptyWorld); [apply reachable_init|].
    apply stepSync_request.
  - apply stepSync_request.
Qed.

End AsyncInvariant.

(** ** Requests on a document the caller may not read *)

Section AccessControl.

Import PipelineSpec DocumentSchema DocumentController AccessSpec.

Lemma tryCatch_bind_throw {A B} (m : M A) (k : A -> M B) (h : Error -> M B)
    (w w1 : World) (e : Error) :
  m w = (Throw e, w1) -> tryCatch (bind m k) h w = h e w1.
Proof. intros H. unfold tryCatch, bind. rewrite H. reflexivity. Qed.

Lemma tryCatch_bind_ok {A B} (m : M A) (k : A -> M B) (h : Error -> M B)
    (w w1 : World) (a : A) :
  m w = (Ok a, w1) -> tryCatch (bind m k) h w = tryCatch (k a) h w1.
Proof. intros H. unfold tryCatch, bind. rewrite H. reflexivity. Qed.

Lemma guard_denied (w : World) (id user : N) :
  ~ accessible w id user ->
  match documents w !! id with
  | Some d => (userId d =? user) && negb (isDeleted d) = false
  | None => True
  end.
Proof.
  intros H. destruct (documents w !! id) as [d|] eqn:Hd; [|exact Logic.I].
  destruct (userId d =? user) eqn:Eu; [|reflexivity].
  destruct (isDeleted d) eqn:Ed; [reflexivity|].
  exfalso. apply H. exists d. apply N.eqb_eq in Eu. auto.
Qed.

Lemma guard_granted (w : World) (id user : N) (d : t) :
  documents w !! id = Some d -> userId d = user -> isDeleted d = false ->
  (userId d =? user) && negb (isDeleted d) = true.
Proof. intros _ <- ->. rewrite N.eqb_refl. reflexivity. Qed.

Lemma async_getDocument_denied (w : World) (id user : N) :
  ~ accessible w id user ->
  DocumentService.getDocument id user w =
    (Throw (newError (lit "获取文档失败: " ++ message denied)), w).
Proof.
  intros H. apply guard_denied in H.
  unfold DocumentService.getDocument, tryCatch, bind, Document.findById.
  destruct (documents w !! id) as [d|]; [rewrite H|]; reflexivity.
Qed.

Lemma async_deleteDocument_denied (w : World) (id user : N) :
  ~ accessible w id user ->
  DocumentService.deleteDocument id user w =
    (Throw (newError (lit "删除文档失败: " ++ message denied)), w).
Proof.
  intros H. apply guard_denied in H.
  unfold DocumentService.deleteDocument, tryCatch, bind, Document.findById.
  destruct (documents w !! id) as [d|]; [rewrite H|]; reflexivity.
Qed.

Lemma sync_getDocument_denied (w : World) (id user : N) :
  ~ accessible w id user ->
  DocumentServiceSync.getDocument id user w =
    (Throw denied, set_log (log w ++ [ConsoleError (utf16 "Get document error:") denied]) w).
Proof.
  intros H. apply guard_denied in H.
  unfold DocumentServiceSync.getDocument, tryCatch, bind, Document.findById.
  destruct (documents w !! id) as [d|]; [rewrite H|]; reflexivity.
Qed.

Lemma sync_deleteDocument_denied (env : Env) (w : World) (id user : N) :
  ~ accessible w id user ->
  DocumentServiceSync.deleteDocument env id user w =
    (Throw denied,
     set_log (log w ++ [ConsoleError (utf16 "Delete document error:") denied]) w).
Proof.
  intros H. apply guard_denied in H.
  unfold DocumentServiceSync.deleteDocument, tryCatch, bind, Document.findById.
  destruct (documents w !! id) as [d|]; [rewrite H|]; reflexivity.
Qed.

Lemma notFound_denied : notFoundOr500 denied = 404.
Proof. vm_compute. reflexivity. Qed.

Lemma notFound_get : notFoundOr500 (newError (lit "获取文档失败: " ++ message denied)) = 404.
Proof. vm_compute. reflexivity. Qed.

Lemma notFound_delete :
  notFoundOr500 (newError (lit "删除文档失败: " ++ message denied)) = 404.
Proof. vm_compute. reflexivity. Qed.

Lemma foreign_404 (env : Env) (svc : Service) (req : Request)
    (id user : N) (w : World) :
  svc = serviceAsync env \/ svc = serviceSync env ->
  target req = Some (id, user) ->
  ~ accessible w id user ->
  exists res evs,
    handle svc req w = (Ok res, set_log (log w ++ evs) w) /\
    statusCode res = 404 /\ success res = false /\ data res = NoData /\
    Forall (fun ev => isConsoleError ev = true) evs.
Proof.
  intros Hsvc Ht Hno.
  destruct req; try discriminate Ht; injection Ht as -> ->;
    destruct Hsvc as [-> | ->];
    unfold handle, getDocument, deleteDocument, downloadDocument, getMarkdownContent,
      reprocessDocument;
    cbn [serviceAsync serviceSync svc_getDocument svc_deleteDocument].
  all: first
    [ rewrite (tryCatch_bind_throw _ _ _ _ _ _ (async_getDocument_denied w id user Hno))
    | rewrite (tryCatch_bind_throw _ _ _ _ _ _ (async_deleteDocument_denied w id user Hno))
    | rewrite (tryCatch_bind_throw _ _ _ _ _ _ (sync_getDocument_denied w id user Hno))
    | rewrite (tryCatch_bind_throw _ _ _ _ _ _
                 (sync_deleteDocument_denied env w id user Hno)) ].
  all: unfold consoleError, emit, bind, ret; autorewrite with world.
  all: eexists _, _; (split; [rewrite <- ?List.app_assoc; reflexivity|]).
  all: rewrite ?notFound_denied, ?notFound_get, ?notFound_delete.
  all: repeat (split; [reflexivity|]); repeat constructor.
Qed.

(** X1.  A request to read, delete, download, render or reprocess a
    document that is missing, soft-deleted or owned by another user is
    answered 404 without data in both assemblies, and all it does is
    write console messages: no record changes, nothing is sent to object
    storage and no extraction starts. *)
Theorem X1_foreign_document_404 (env : Env) (svc : Service) (req : Request)
    (id user : N) (w : World) :
  svc = serviceAsync env \/ svc = serviceSync env ->
  target req = Some (id, user) ->
  ~ accessible w id user ->
  exists res evs,
    handle svc req w = (Ok res, set_log (log w ++ evs) w) /\
    statusCode res = 404 /\ success res = false /\ data res = NoData /\
    Forall (fun ev => isConsoleError ev = true) evs.
Proof. exact (foreign_404 env svc req id user w). Qed.

Lemma world1_foreign : ~ accessible Demo.world1 1 8.
Proof.
  intros [d [Hd [Hu _]]]. vm_compute in Hd. injection Hd as <-. discriminate Hu.
Qed.

Lemma X1_foreign_document_404_witness :
  ~ accessible Demo.world1 1 8 /\
  exists res evs,
    handle (serviceSync Demo.plainEnv) (GetDocument 1 8) Demo.world1
    = (Ok res, set_log (log Demo.world1 ++ evs) Demo.world1) /\
    statusCode res = 404 /\ success res = false /\ data res = NoData /\
    Forall (fun ev => isConsoleError ev = true) evs.
Proof.
  split; [exact world1_foreign|].
  exact (X1_foreign_document_404 Demo.plainEnv (serviceSync Demo.plainEnv)
           (GetDocument 1 8) 1 8 Demo.world1 (or_intror eq_refl) eq_refl world1_foreign).
Defined.

(** X2.  Soft deletion in the asynchronous assembly.  The owner's delete
    request on a live document is answered 200; the record stays stored
    with only [isDeleted] set; no other record changes; and from then on
    the document is out of everybody's reach: every further request on it,
    a second delete included, is answered 404. *)
Theorem X2_soft_delete (env : Env) (w : World) (id : N) (d : t) :
  documents w !! id = Some d -> isDeleted d = false ->
  let run := handle (serviceAsync env) (DeleteDocument id (userId d)) w in
  fst run = Ok (mkResponse 200 true (lit "文档删除成功") NoData) /\
  documents (snd run) = <[id := set_isDeleted true d]> (documents w) /\
  (forall user, ~ accessible (snd run) id user) /\
  (forall req user, target req = Some (id, user) ->
     exists res w2,
       handle (serviceAsync env) req (snd run) = (Ok res, w2) /\
       statusCode res = 404 /\ documents w2 = documents (snd run)).
Proof.
  intros Hd Hdel run.
  assert (Hrun : run =
    (Ok (mkResponse 200 true (lit "文档删除成功") NoData),
     set_log (log w ++ [DocumentWrite (Some d) (set_isDeleted true d)])
       (set_documents (<[id := set_isDeleted true d]> (documents w)) w))).
  { subst run. unfold handle, deleteDocument. cbn [serviceAsync svc_deleteDocument].
    unfold DocumentService.deleteDocument, Document.findByIdAndUpdate, Document.update,
      Document.findById, tryCatch, bind, ret.
    rewrite Hd, (guard_granted w id (userId d) d Hd eq_refl Hdel), Hd. reflexivity. }
  rewrite Hrun. cbn [fst snd]. autorewrite with world.
  assert (Hno : forall user,
            ~ accessible
                (set_log (log w ++ [DocumentWrite (Some d) (set_isDeleted true d)])
                   (set_documents (<[id := set_isDeleted true d]> (documents w)) w))
                id user).
  { intros user [d' [Hd' [_ Hdel']]]. autorewrite with world in Hd'.
    rewrite lookup_insert_eq in Hd'. injection Hd' as <-. discriminate Hdel'. }
  split; [reflexivity|]. split; [reflexivity|]. split; [exact Hno|].
  intros req user Ht.
  destruct (foreign_404 env (serviceAsync env) req id user _ (or_introl eq_refl) Ht
              (Hno user)) as [res [evs [E [Hs _]]]].
  exists res. eexists. split; [exact E|]. split; [exact Hs|].
  autorewrite with world. reflexivity.
Qed.

Lemma X2_soft_delete_witness :
  let run :=
    handle (serviceAsync Demo.plainEnv) (DeleteDocument 1 (userId Demo.doc1)) Demo.world1 in
  documents Demo.world1 !! 1 = Some Demo.doc1 /\ isDeleted Demo.doc1 = false /\
  fst run = Ok (mkResponse 200 true (lit "文档删除成功") NoData) /\
  documents (snd run) = <[1 := set_isDeleted true Demo.doc1]> (documents Demo.world1).
Proof.
  intros run.
  assert (Hd : documents Demo.world1 !! 1 = Some Demo.doc1) by (vm_compute; reflexivity).
  split; [exact Hd|]. split; [reflexivity|].
  destruct (X2_soft_delete Demo.plainEnv Demo.world1 1 Demo.doc1 Hd eq_refl)
    as [H1 [H2 _]].
  exact (conj H1 H2).
Defined.



End AccessControl.


(** ** Uploads that are refused *)

Section UploadRefused.

Import PipelineSpec DocumentSchema DocumentController AccessSpec.

(** X4.  The upload handler over the asynchronous service.  Without a
    file, or with validation errors, it answers 400 and does nothing.  A
    file over the size limit, a file whose MIME type names no property of
    [supportedFormats] (neither one of its own nor one inherited from
    [Object.prototype]), and any file while S3 is not configured, is
    answered 500 before anything is sent to object storage; and when the
    S3 upload itself fails the answer is 500 as well.  In all these cases
    no record is created and no extraction is queued. *)
Theorem X4_upload_refused (env : Env) (user : N) (title tags : option jsstring)
    (w : World) :
  (handle (serviceAsync env) (UploadDocument false None user title tags) w
   = (Ok (mkResponse 400 false (lit "请选择要上传的文件") NoData), w)) /\
  (forall file,
     handle (serviceAsync env) (UploadDocument true file user title tags) w
     = (Ok (mkResponse 400 false (lit "请求参数验证失败") NoData), w)) /\
  (forall file,
     maxFileSize env < size file \/
     (lookup DocumentService.supportedFormats (mimetype file) = None /\
      inheritedKey (mimetype file) = false) \/
     s3Enabled env = false ->
     exists res e,
       handle (serviceAsync env) (UploadDocument false (Some file) user title tags) w
       = (Ok res,
          set_log (log w ++ [ConsoleError (utf16 "Upload document error:") e]) w) /\
       statusCode res = 500 /\ success res = false) /\
  (forall file e,
     s3Upload env (generateFileKey env (originalname file)) (buffer file) = Throw e ->
     exists res w',
       handle (serviceAsync env) (UploadDocument false (Some file) user title tags) w
       = (Ok res, w') /\
       statusCode res = 500 /\ success res = false /\
       documents w' = documents w /\ detached w' = detached w /\
       nextDocumentId w' = nextDocumentId w).
Proof.
  split; [reflexivity|]. split; [intros file; reflexivity|]. split.
  - intros file H.
    unfold handle, uploadDocument, serviceAsync, svc_uploadDocument.
    unfold DocumentService.uploadDocument, DocumentService._validateFile,
      DocumentService._uploadToS3, Document.new, Document.save.
    munfold.
    destruct (maxFileSize env <? size file) eqn:Esize.
    { eexists _, _. split; [reflexivity|]. split; reflexivity. }
    destruct (lookup DocumentService.supportedFormats (mimetype file)) eqn:Efmt.
    2:{ eexists _, _. split; [reflexivity|]. split; reflexivity. }
    destruct (s3Enabled env) eqn:Es3.
    2:{ eexists _, _. split; [reflexivity|]. split; reflexivity. }
    exfalso. destruct H as [H | [[H _] | H]]; [|discriminate H|discriminate H].
    apply N.ltb_ge in Esize. lia.
  - intros file e He.
    unfold handle, uploadDocument, serviceAsync, svc_uploadDocument.
    unfold DocumentService.uploadDocument, DocumentService._validateFile,
      DocumentService._uploadToS3, Document.new, Document.save.
    munfold. rewrite He.
    destruct (maxFileSize env <? size file);
      [eexists _, _; split; [reflexivity|]; repeat split|].
    destruct (lookup DocumentService.supportedFormats (mimetype file));
      [|eexists _, _; split; [reflexivity|]; repeat split].
    destruct (s3Enabled env);
      eexists _, _; (split; [reflexivity|]); repeat split.
Qed.

Lemma X4_upload_refused_witness :
  maxFileSize Demo.plainEnv < size Sample.hugeFile /\
  exists res e,
    handle (serviceAsync Demo.plainEnv)
      (UploadDocument false (Some Sample.hugeFile) 7 None None) Demo.world1
    = (Ok res,
       set_log (log Demo.world1 ++ [ConsoleError (utf16 "Upload document error:") e])
         Demo.world1) /\
    statusCode res = 500 /\ success res = false.
Proof.
  assert (H : maxFileSize Demo.plainEnv < size Sample.hugeFile) by (vm_compute; reflexivity).
  exact (conj H
           (proj1 (proj2 (proj2 (X4_upload_refused Demo.plainEnv 7 None None Demo.world1)))
              Sample.hugeFile (or_introl H))).
Defined.

End UploadRefused.

(** ** Cleaning and converting the text of a PDF *)

Section PdfConversion.

Import PdfText TextSpec.

Lemma visible_app (a b : jsstring) : visible (a ++ b) = visible a ++ visible b.
Proof. apply List.filter_app. Qed.

Lemma visible_blank (l : jsstring) : blank l -> visible l = [].
Proof.
  induction 1 as [|c l Hc _ IH]; [reflexivity|]. unfold visible in *. simpl.
  rewrite Hc. exact IH.
Qed.

Lemma visible_trimStart (s : jsstring) : visible (trimStart s) = visible s.
Proof.
  induction s as [|c r IH]; [reflexivity|]. cbn [trimStart].
  destruct (is_ws c) eqn:E; [|reflexivity].
  rewrite IH. unfold visible. simpl. rewrite E. reflexivity.
Qed.

Lemma visible_rev (s : jsstring) : visible (rev s) = rev (visible s).
Proof.
  induction s as [|c r IH]; [reflexivity|]. cbn [rev].
  rewrite visible_app, IH. unfold visible. simpl.
  destruct (is_ws c); simpl; [apply List.app_nil_r | reflexivity].
Qed.

Lemma visible_trim (s : jsstring) : visible (trim s) = visible s.
Proof.
  unfold trim, trimEnd.
  rewrite visible_rev, visible_trimStart, visible_rev, List.rev_involutive.
  apply visible_trimStart.
Qed.

Lemma split_nonempty (sep : N) (s : jsstring) : split sep s <> [].
Proof.
  destruct s as [|c r]; [discriminate|]. cbn [split].
  destruct (c =? sep); [discriminate|]. destruct (split sep r); discriminate.
Qed.

(** Splitting at a separator and joining with it gives the string back. *)
Lemma join_split (sep : N) (s : jsstring) : join [sep] (split sep s) = s.
Proof.
  induction s as [|c r IH]; [reflexivity|]. cbn [split].
  pose proof (split_nonempty sep r) as Hne.
  destruct (c =? sep) eqn:E.
  - apply N.eqb_eq in E. subst c.
    destruct (split sep r) as [|h t]; [contradiction|].
    change (join [sep] ([] :: h :: t)) with ([] ++ [sep] ++ join [sep] (h :: t)).
    rewrite IH. reflexivity.
  - destruct (split sep r) as [|h t]; [contradiction|].
    destruct t as [|h' t'].
    + cbn [join] in *. rewrite IH. reflexivity.
    + change (join [sep] ((c :: h) :: h' :: t'))
        with (c :: (h ++ [sep] ++ join [sep] (h' :: t'))).
      change (join [sep] (h :: h' :: t')) with (h ++ [sep] ++ join [sep] (h' :: t')) in IH.
      rewrite IH. reflexivity.
Qed.

Lemma visible_join_map (f : jsstring -> jsstring) (ls : list jsstring) :
  (forall l, visible (f l) = visible l) ->
  visible (join [LF] (List.map f ls)) = visible (join [LF] ls).
Proof.
  intros Hf. induction ls as [|l ls IH]; [reflexivity|].
  destruct ls as [|l' ls'].
  - apply Hf.
  - change (join [LF] (List.map f (l :: l' :: ls')))
      with (f l ++ [LF] ++ join [LF] (List.map f (l' :: ls'))).
    change (join [LF] (l :: l' :: ls')) with (l ++ [LF] ++ join [LF] (l' :: ls')).
    rewrite !visible_app, IH, Hf. reflexivity.
Qed.

Lemma visible_replaceCRLF (s : jsstring) : visible (replaceCRLF s) = visible s.
Proof.
  assert (H : forall n s, (length s <= n)%nat -> visible (replaceCRLF s) = visible s).
  { clear s. induction n as [|n IH]; intros s Hlen.
    - destruct s; [reflexivity | simpl in Hlen; lia].
    - destruct s as [|c r]; [reflexivity|]. simpl in Hlen. cbn [replaceCRLF].
      destruct (c =? 13) eqn:Ec.
      + apply N.eqb_eq in Ec. subst c. destruct r as [|d r']; [reflexivity|].
        destruct (d =? LF) eqn:Ed.
        * apply N.eqb_eq in Ed. subst d. simpl in Hlen.
          change (visible (LF :: replaceCRLF r')) with (visible (replaceCRLF r')).
          change (visible (13 :: LF :: r')) with (visible r').
          apply IH. lia.
        * change (visible (13 :: replaceCRLF (d :: r'))) with (visible (replaceCRLF (d :: r'))).
          change (visible (13 :: d :: r')) with (visible (d :: r')).
          apply IH. lia.
      + unfold visible. cbn [List.filter]. fold (visible (replaceCRLF r)). fold (visible r).
        rewrite (IH r) by lia. reflexivity. }
  apply (H (length s)). lia.
Qed.

Lemma visible_replaceCR (s : jsstring) : visible (replaceCR s) = visible s.
Proof.
  induction s as [|c r IH]; [reflexivity|]. unfold replaceCR, visible in *.
  cbn [List.map List.filter]. rewrite IH.
  destruct (c =? 13) eqn:Ec; [|reflexivity].
  apply N.eqb_eq in Ec. subst c. reflexivity.
Qed.

Lemma afterLastLF_blank (run : jsstring) : blank run -> blank (afterLastLF run).
Proof.
  induction 1 as [|c r Hc Hr IH]; [constructor|]. cbn [afterLastLF].
  destruct (existsb (N.eqb LF) r); [exact IH|].
  destruct (c =? LF); [exact Hr | constructor; assumption].
Qed.

Lemma flushRun_blank (run : jsstring) : blank run -> blank (flushRun run).
Proof.
  intros H. unfold flushRun.
  destruct (2 <=? length (List.filter (N.eqb LF) run))%nat.
  - constructor; [reflexivity|]. constructor; [reflexivity|]. apply afterLastLF_blank, H.
  - constructor; [reflexivity | exact H].
Qed.

Lemma visible_collapse (s : jsstring) :
  (visible (collapseBlankLines None s) = visible s) /\
  (forall run, blank run -> visible (collapseBlankLines (Some run) s) = visible s).
Proof.
  induction s as [|c r [IHn IHs]]; split.
  - reflexivity.
  - intros run Hrun. cbn [collapseBlankLines].
    apply visible_blank, flushRun_blank, blank_rev, Hrun.
  - cbn [collapseBlankLines]. destruct (c =? LF) eqn:E.
    + apply N.eqb_eq in E. subst c. rewrite IHs by constructor. reflexivity.
    + unfold visible. cbn [List.filter]. fold (visible (collapseBlankLines None r)).
      fold (visible r). rewrite IHn. reflexivity.
  - intros run Hrun. cbn [collapseBlankLines]. destruct (is_ws c) eqn:E.
    + rewrite IHs by (constructor; assumption).
      unfold visible. cbn [List.filter]. rewrite E. reflexivity.
    + rewrite visible_app, (visible_blank _ (flushRun_blank _ (proj2 (blank_rev _) Hrun))).
      unfold visible. cbn [List.filter app]. fold (visible (collapseBlankLines None r)).
      fold (visible r). rewrite IHn. reflexivity.
Qed.

(** X5.  The clean-up that opens [convertPdfTextToMarkdown] (the three
    [replace] calls, the split into lines, the trim of each line and the
    join) only touches white space: the code units that are not white
    space come out the same and in the same order. *)
Theorem X5_cleaning_keeps_visible_text (text : jsstring) :
  visible (cleaned text) = visible text.
Proof.
  unfold cleaned.
  rewrite (visible_join_map trim _ visible_trim), join_split.
  rewrite (proj1 (visible_collapse _)), visible_replaceCR.
  apply visible_replaceCRLF.
Qed.

Section Tables.

Variable up low : jsstring -> jsstring.

Lemma lineEmptyAt_defined (lines : list jsstring) (k : nat) :
  (k < length lines)%nat -> exists b, lineEmptyAt lines k = Some b.
Proof.
  intros H. unfold lineEmptyAt.
  destruct (nth_error lines k) as [l|] eqn:E; [eexists; reflexivity|].
  apply List.nth_error_None in E. lia.
Qed.

(** Inside the array [isPotentialTitle] reads no line that is not there. *)
Lemma isPotentialTitle_defined (line : jsstring) (lines : list jsstring) (i : nat) :
  (i < length lines)%nat -> exists b, isPotentialTitle up line lines i = Some b.
Proof.
  intros Hi. unfold isPotentialTitle.
  destruct (negb (truthy (trim line))); [eexists; reflexivity|].
  destruct (100 <? length line)%nat; [eexists; reflexivity|].
  assert (exists p, match i with O => Some true | S k => lineEmptyAt lines k end = Some p)
    as [p ->].
  { destruct i as [|k]; [eexists; reflexivity|]. apply lineEmptyAt_defined. lia. }
  assert (exists n, (if (S i =? length lines)%nat then Some true
                     else lineEmptyAt lines (S i)) = Some n) as [n ->].
  { destruct (S i =? length lines)%nat eqn:E; [eexists; reflexivity|].
    apply Nat.eqb_neq in E. apply lineEmptyAt_defined. lia. }
  eexists. reflexivity.
Qed.

Lemma determineTitleLevel_range (line : jsstring) (lines : list jsstring) (i : nat) :
  (1 <= determineTitleLevel low line lines i <= 3)%nat.
Proof.
  unfold determineTitleLevel.
  repeat match goal with
         | |- context [if ?b then _ else _] => destruct b
         | |- context [match ?x with Some _ => _ | None => _ end] => destruct x
         end; lia.
Qed.

Lemma processLines_spec (lines rest : list jsstring) (i : nat) :
  skipn i lines = rest ->
  exists outs,
    processLines up low lines rest i = Some outs /\ Forall2 rendered rest outs.
Proof.
  revert i. induction rest as [|line rest' IH]; intros i Hskip.
  - exists []. split; [reflexivity | constructor].
  - assert (Hi : (i < length lines)%nat).
    { destruct (Nat.lt_ge_cases i (length lines)) as [H | H]; [exact H|].
      rewrite List.skipn_all2 in Hskip by exact H. discriminate Hskip. }
    assert (Hnext : skipn (S i) lines = rest').
    { clear IH Hi. revert i Hskip. induction lines as [|l ls IHl]; intros i Hskip.
      - destruct i; discriminate Hskip.
      - destruct i as [|i].
        + cbn in Hskip. injection Hskip as _ <-. reflexivity.
        + cbn [skipn] in *. apply IHl. exact Hskip. }
    destruct (IH (S i) Hnext) as [outs [Eouts Hall]].
    cbn [processLines]. rewrite Eouts.
    destruct (negb (truthy line)) eqn:Et.
    + eexists. split; [reflexivity|]. constructor; [|exact Hall].
      left. destruct line; [reflexivity | discriminate Et].
    + destruct (isPotentialTitle_defined line lines i Hi) as [[|] ->].
      * eexists. split; [reflexivity|]. constructor; [|exact Hall].
        right. exists (determineTitleLevel low line lines i).
        split; [apply determineTitleLevel_range | reflexivity].
      * eexists. split; [reflexivity|]. constructor; [left; reflexivity | exact Hall].
Qed.

Lemma In_hash (s : jsstring) : includes s [HASH] = true <-> In HASH s.
Proof. apply includes_unit. Qed.

(** X6.  [convertPdfTextToMarkdown] never throws: inside the loop
    [isPotentialTitle] reads only lines that exist.  For a text that is
    empty or all white space the result is the document information and
    the fixed notice.  For any other text the result is the document
    information, a blank line, and the cleaned lines, as many as there
    were and each one as it was or behind one to three [#] and a space,
    with the default title in front when no [#] occurs in them.  In both
    cases the result holds a [#]. *)
Theorem X6_convertPdfTextToMarkdown (pdfData : PdfData) :
  let docInfo := generateDocumentInfo pdfData in
  let lines := split LF (cleaned (text pdfData)) in
  (blank (text pdfData) ->
   convertPdfTextToMarkdown up low pdfData =
   Some (docInfo ++ lit "

# 文档内容

无法提取文本内容，可能是扫描版PDF或包含大量图片的文档。")) /\
  (~ blank (text pdfData) ->
   exists outs,
     processLines up low lines lines 0 = Some outs /\
     Forall2 rendered lines outs /\
     convertPdfTextToMarkdown up low pdfData =
     Some (docInfo ++ [LF; LF]
           ++ (if includes (join [LF] outs) [HASH] then join [LF] outs
               else lit "# 文档内容

" ++ join [LF] outs))) /\
  (exists md, convertPdfTextToMarkdown up low pdfData = Some md /\ In HASH md).
Proof.
  intros docInfo lines.
  assert (Hblank : blank (text pdfData) ->
    convertPdfTextToMarkdown up low pdfData =
    Some (docInfo ++ lit "

# 文档内容

无法提取文本内容，可能是扫描版PDF或包含大量图片的文档。")).
  { intros H. unfold convertPdfTextToMarkdown.
    rewrite (proj2 (trim_blank _) H). cbn [length Nat.eqb]. rewrite orb_true_r.
    reflexivity. }
  assert (Hfull : ~ blank (text pdfData) ->
    exists outs,
      processLines up low lines lines 0 = Some outs /\
      Forall2 rendered lines outs /\
      convertPdfTextToMarkdown up low pdfData =
      Some (docInfo ++ [LF; LF]
            ++ (if includes (join [LF] outs) [HASH] then join [LF] outs
                else lit "# 文档内容

" ++ join [LF] outs))).
  { intros H.
    destruct (processLines_spec lines lines 0 eq_refl) as [outs [E Hall]].
    exists outs. split; [exact E|]. split; [exact Hall|].
    unfold convertPdfTextToMarkdown.
    assert (Ht : truthy (text pdfData) = true).
    { destruct (text pdfData); [exfalso; apply H; constructor | reflexivity]. }
    assert (Hl : (length (trim (text pdfData)) =? 0)%nat = false).
    { apply Nat.eqb_neq. intros Hz. apply H, trim_blank.
      destruct (trim (text pdfData)); [reflexivity | discriminate Hz]. }
    rewrite Ht, Hl. cbn [negb orb]. cbv zeta.
    fold (cleaned (text pdfData)). fold lines. rewrite E.
    destruct (includes (join [LF] outs) [HASH]); reflexivity. }
  split; [exact Hblank|]. split; [exact Hfull|].
  assert (Hdec : blank (text pdfData) \/ ~ blank (text pdfData)).
  { destruct (trim (text pdfData)) eqn:E.
    - left. apply trim_blank. exact E.
    - right. intros H. apply trim_blank in H. congruence. }
  destruct Hdec as [H | H].
  - eexists. split; [apply Hblank, H|].
    apply in_or_app. right. vm_compute. tauto.
  - destruct (Hfull H) as [outs [_ [_ E]]]. eexists. split; [exact E|].
    apply in_or_app. right. apply in_or_app. right.
    destruct (includes (join [LF] outs) [HASH]) eqn:Ei.
    + apply In_hash. exact Ei.
    + apply in_or_app. left. vm_compute. tauto.
Qed.

End Tables.

Lemma hello_not_blank : ~ blank (lit "Hello").
Proof. intros H. apply trim_blank in H. vm_compute in H. discriminate H. Qed.

Lemma X6_convertPdfTextToMarkdown_witness :
  let pdfData := Demo.pdfOf (lit "Hello") in
  let lines := split LF (cleaned (text pdfData)) in
  ~ blank (text pdfData) /\
  exists outs,
    processLines asciiUpper asciiLower lines lines 0 = Some outs /\
    Forall2 rendered lines outs /\
    convertPdfTextToMarkdown asciiUpper asciiLower pdfData =
    Some (generateDocumentInfo pdfData ++ [LF; LF]
          ++ (if includes (join [LF] outs) [HASH] then join [LF] outs
              else lit "# 文档内容

" ++ join [LF] outs)).
Proof.
  intros pdfData lines. split; [exact hello_not_blank|].
  exact (proj1 (proj2 (X6_convertPdfTextToMarkdown asciiUpper asciiLower pdfData))
           hello_not_blank).
Defined.

End PdfConversion.

(** ** The extraction job of the asynchronous assembly *)

Section Extraction.

Import PipelineSpec DocumentSchema TextSpec.

Lemma fold_left_append {A} (f : A -> jsstring) (l : list A) (acc : jsstring) :
  fold_left (fun markdown x => markdown ++ f x) l acc = acc ++ List.concat (List.map f l).
Proof.
  revert acc. induction l as [|x l IH]; intros acc; cbn [fold_left List.map List.concat].
  - symmetry. apply List.app_nil_r.
  - rewrite IH, List.app_assoc. reflexivity.
Qed.

Lemma fold_left_ext {A B} (f g : A -> B -> A) (l : list B) (a : A) :
  (forall a b, f a b = g a b) -> fold_left f l a = fold_left g l a.
Proof.
  intros H. revert a. induction l as [|x l IH]; intros a; [reflexivity|].
  cbn [fold_left]. rewrite H. apply IH.
Qed.

Lemma renderLine_empty (up : jsstring -> jsstring) (line : jsstring) :
  renderLine up line = [] <-> blank line.
Proof.
  unfold renderLine. rewrite <- truthy_trim.
  destruct (truthy (trim line)) eqn:Et; cbv zeta.
  - split; [|discriminate]. intros H. exfalso.
    destruct (_ && _); [discriminate H|].
    destruct (trim line); [discriminate Et | discriminate H].
  - split; reflexivity.
Qed.

Lemma concat_nil {A} (ls : list (list A)) :
  List.concat ls = [] <-> List.Forall (fun l => l = []) ls.
Proof.
  induction ls as [|l ls IH]; cbn [List.concat].
  - split; [constructor | reflexivity].
  - split.
    + intros H. apply List.app_eq_nil in H as [H1 H2]. constructor; [exact H1|].
      apply IH. exact H2.
    + intros H. apply List.Forall_cons_iff in H as [-> H]. apply IH in H.
      rewrite H. reflexivity.
Qed.

Lemma extractPdfToMarkdown_run (env : Env) (buf : Buffer) (w : World) :
  FileExtractService.extractPdfToMarkdown env buf w = (pdfResult env buf, w).
Proof.
  unfold FileExtractService.extractPdfToMarkdown, pdfResult, tryCatch, bind, lift, ret,
    throw.
  destruct (pdfParse env buf) as [data | e]; [|reflexivity]. cbv zeta.
  rewrite <- (List.app_nil_l (List.concat _)), <- fold_left_append.
  do 2 f_equal. apply fold_left_ext. intros markdown line. unfold renderLine. cbv zeta.
  destruct (truthy (trim line)); [|symmetry; apply List.app_nil_r].
  destruct (_ && _); reflexivity.
Qed.

(** X7.  [extractPdfToMarkdown] changes nothing in the world.  When
    [pdf-parse] fails it throws the error's message behind
    [PDF解析失败: ].  Otherwise it answers, line by line and in order, each
    line that is not blank, trimmed and followed by an empty line, with
    [## ] in front when the line equals its own upper-casing and is
    shorter than 100; so the Markdown is the empty string exactly when
    every line of the text is blank. *)
Theorem X7_extractPdfToMarkdown (env : Env) (buf : Buffer) (w : World) :
  (forall e, pdfParse env buf = Throw e ->
     FileExtractService.extractPdfToMarkdown env buf w =
     (Throw (newError (lit "PDF解析失败: " ++ message e)), w)) /\
  (forall data, pdfParse env buf = Ok data ->
     let lines := split LF (PdfText.text data) in
     let md := List.concat (List.map (renderLine (toUpperCase env)) lines) in
     FileExtractService.extractPdfToMarkdown env buf w = (Ok md, w) /\
     (md = [] <-> List.Forall blank lines)).
Proof.
  split.
  - intros e He. rewrite extractPdfToMarkdown_run. unfold pdfResult. rewrite He.
    reflexivity.
  - intros data Hd lines md. split.
    + rewrite extractPdfToMarkdown_run. unfold pdfResult. rewrite Hd. reflexivity.
    + subst md. rewrite concat_nil, List.Forall_map.
      split; intros H; eapply List.Forall_impl; try exact H;
        intros line Hl; apply (renderLine_empty (toUpperCase env)); exact Hl.
Qed.

Lemma X7_extractPdfToMarkdown_witness :
  let data := Demo.pdfOf [] in
  let lines := split LF (PdfText.text data) in
  let md := List.concat (List.map (renderLine (toUpperCase Demo.scannedEnv)) lines) in
  pdfParse Demo.scannedEnv [] = Ok data /\
  FileExtractService.extractPdfToMarkdown Demo.scannedEnv [] emptyWorld
  = (Ok md, emptyWorld) /\
  (md = [] <-> List.Forall blank lines).
Proof.
  intros data lines md. split; [reflexivity|].
  exact (proj2 (X7_extractPdfToMarkdown Demo.scannedEnv [] emptyWorld) data eq_refl).
Defined.

Lemma content_run (env : Env) (buf : Buffer) (mime : jsstring) (w : World) :
  content env buf mime w = (contentResult env buf mime, w).
Proof.
  unfold content, contentResult.
  destruct (JS.eqb mime application_pdf); [apply extractPdfToMarkdown_run|].
  destruct (_ || _); [reflexivity|].
  destruct (JS.eqb mime text_plain); reflexivity.
Qed.

Lemma extractToMarkdown_content (env : Env) (id : N) (buf : Buffer) (mime : jsstring) :
  FileExtractService.extractToMarkdown env id buf mime =
  tryCatch
    (emit (ParseAttempt id);;;
     markdownContent <- content env buf mime;;
     Document.findByIdAndUpdate id
       (fun d => set_processingStatus completed (set_markdownContent markdownContent d));;;
     spawn (JobAI id markdownContent);;;
     ret markdownContent)
    (fun error =>
       Document.findByIdAndUpdate id
         (fun d => set_processingError (Some (message error))
                     (set_processingStatus failed d));;;
       throw error).
Proof. reflexivity. Qed.

(** X8.  The extraction job on a stored record.  The record is first
    set to [processing].  When the content is obtained (a parsed PDF, or
    the bytes of a [text/plain] file decoded) the record ends [completed]
    with that content and exactly one annotation job is queued, carrying
    the same content.  Otherwise the record ends [failed] with the
    error's message and no annotation job is queued: so it is for a PDF
    that [pdf-parse] rejects, for every Word document (the extraction is
    a placeholder that throws) and for every other MIME type.  No record
    is created and no id is drawn. *)
Theorem X8_extraction_outcome (env : Env) (id : N) (buf : Buffer) (mime : jsstring)
    (w : World) (d : t) :
  documents w !! id = Some d ->
  let w' := snd (runJob env (JobExtract id buf mime) w) in
  let dp := set_processingStatus processing d in
  nextDocumentId w' = nextDocumentId w /\
  match contentResult env buf mime with
  | Ok md =>
    documents w' =
      <[id := set_processingStatus completed (set_markdownContent md dp)]> (documents w) /\
    detached w' = detached w ++ [JobAI id md]
  | Throw e =>
    documents w' =
      <[id := set_processingError (Some (message e)) (set_processingStatus failed dp)]>
        (documents w) /\
    detached w' = detached w
  end /\
  (mime = application_docx \/ mime = application_msword ->
   contentResult env buf mime = Throw (newError (lit "Word文档解析功能待实现"))) /\
  (mime = text_plain -> contentResult env buf mime = Ok (utf8Decode env buf)) /\
  (JS.eqb mime application_pdf = false -> JS.eqb mime application_docx = false ->
   JS.eqb mime application_msword = false -> JS.eqb mime text_plain = false ->
   contentResult env buf mime = Throw (newError (lit "不支持的文件类型: " ++ mime))).
Proof.
  intros Hd w' dp.
  assert (Hrun : w' = snd (runJob env (JobExtract id buf mime) w)) by reflexivity.
  clearbody w'.
  unfold runJob, DocumentService.processFileExtraction in Hrun.
  rewrite extractToMarkdown_content in Hrun.
  unfold Document.findByIdAndUpdate in Hrun.
  munfold. unfold Document.update in Hrun.
  repeat (progress (wstep_in Hrun; rewrite ?Hd, ?lookup_insert_eq in Hrun)).
  rewrite content_run in Hrun.
  split; [|split; [|split; [|split]]].
  - destruct (contentResult env buf mime) as [md | e];
      repeat (progress (wstep_in Hrun; rewrite ?Hd, ?lookup_insert_eq in Hrun));
      subst w'; cbn [snd]; autorewrite with world; reflexivity.
  - destruct (contentResult env buf mime) as [md | e];
      repeat (progress (wstep_in Hrun; rewrite ?Hd, ?lookup_insert_eq in Hrun));
      subst w'; cbn [snd]; autorewrite with world;
      rewrite ?insert_insert_eq; split; reflexivity.
  - intros [-> | ->]; reflexivity.
  - intros ->. reflexivity.
  - intros H1 H2 H3 H4. unfold contentResult. rewrite H1, H2, H3, H4. reflexivity.
Qed.

Lemma X8_extraction_outcome_witness :
  let w' :=
    snd (runJob Demo.plainEnv (JobExtract 1 [] application_docx) Demo.world1) in
  documents Demo.world1 !! 1 = Some Demo.doc1 /\
  contentResult Demo.plainEnv [] application_docx
  = Throw (newError (lit "Word文档解析功能待实现")) /\
  nextDocumentId w' = nextDocumentId Demo.world1.
Proof.
  intros w'.
  assert (Hd : documents Demo.world1 !! 1 = Some Demo.doc1) by (vm_compute; reflexivity).
  destruct (X8_extraction_outcome Demo.plainEnv 1 [] application_docx Demo.world1
              Demo.doc1 Hd) as [Hn [_ [Hword _]]].
  exact (conj Hd (conj (Hword (or_introl eq_refl)) Hn)).
Defined.

End Extraction.

(** ** The synchronous service: extraction during the upload *)

Section SyncExtraction.

Import PipelineSpec DocumentSchema DocumentServiceSync SyncSpec.

Lemma parseAndConvertDocument_by_convert (env : Env) (id : N) (fb : option File)
    (w : World) (d : t) (r : Result jsstring) (w2 : World) :
  documents w !! id = Some d ->
  convert env (updateProcessingStatus processing None d) fb (started id d w) = (r, w2) ->
  let dp := updateProcessingStatus processing None d in
  let run := parseAndConvertDocument env id fb w in
  fst run = match r with Ok _ => Ok (settled d r) | Throw e => Throw e end /\
  documents (snd run) = <[id := settled d r]> (documents w) /\
  outsideDocuments (snd run) = outsideDocuments w /\
  log (snd run) =
    log w2 ++ match r with
              | Ok _ => [DocumentWrite (Some dp) (settled d r)]
              | Throw e =>
                [ConsoleError (utf16 "Parse and convert document error:") e;
                 DocumentWrite (Some dp) (settled d r)]
              end.
Proof.
  intros Hd Hc dp run.
  remember run as result eqn:Hrun. subst run.
  rewrite parseAndConvertDocument_unfold in Hrun.
  munfold. unfold Document.findById, Document.update in Hrun.
  repeat (progress (wstep_in Hrun; rewrite ?Hd in Hrun)). fold dp in Hrun.
  match type of Hrun with
  | context [convert env dp fb ?W] => change W with (started id d w) in Hrun
  end.
  fold dp in Hc. rewrite Hc in Hrun.
  pose proof (convert_outsideLog env dp fb (started id d w)) as Hout.
  rewrite Hc in Hout. cbn [snd] in Hout.
  unfold outsideLog, outsideDocuments, started in Hout.
  autorewrite with world in Hout.
  injection Hout as Hdoc Hs Hcs Hn1 Hn2 Hn3 Hdt.
  destruct r as [md | e];
    repeat (progress (wstep_in Hrun; rewrite ?Hdoc, ?lookup_insert_eq in Hrun));
    subst result; cbn [fst snd settled]; autorewrite with world; fold dp;
    (split; [reflexivity|]);
    (split; [rewrite ?Hdoc, insert_insert_eq; reflexivity|]);
    (split; [unfold outsideDocuments; autorewrite with world; congruence|]);
    rewrite <- ?List.app_assoc; reflexivity.
Qed.

Lemma convert_file (env : Env) (d : t) (file : File) (w : World) :
  convert env d (Some file) w = (formatResult env d (buffer file), w).
Proof.
  unfold convert, formatResult, bind, ret, lift, throw.
  destruct (JS.eqb (originalFormat d) (lit "pdf")).
  - destruct (pdfParse env (buffer file)) as [pdfData | e]; [|reflexivity].
    destruct (PdfText.convertPdfTextToMarkdown _ _ pdfData); reflexivity.
  - destruct (JS.eqb (originalFormat d) (lit "url")); reflexivity.
Qed.

Lemma updateProcessingStatus_failed_twice (m : jsstring) (d : t) :
  updateProcessingStatus failed (Some m) (updateProcessingStatus failed (Some m) d)
  = updateProcessingStatus failed (Some m) d.
Proof. unfold updateProcessingStatus. destruct (someTruthy (Some m)); reflexivity. Qed.

(** What follows the creation of the record [d0] in [uploadDocument] and
    in [addUrlDocument], by the outcome [r] of the conversion. *)
Lemma sync_created_by_convert {B} (env : Env) (d0 : t) (fb : option File)
    (label : string) (k : option t -> M B) (w w2 : World) (r : Result jsstring) :
  documents w !! _id d0 = Some d0 ->
  convert env (updateProcessingStatus processing None d0) fb (started (_id d0) d0 w)
  = (r, w2) ->
  exists w3 tail,
    (tryCatch
       (parseAndConvertDocument env (_id d0) fb;;; ret tt)
       (fun parseError =>
          consoleError label parseError;;;
          Document.update (_id d0)
            (updateProcessingStatus failed (Some (message parseError))));;;
     u <- Document.findById (_id d0);; k u) w
    = k (Some (settled d0 r)) w3 /\
    documents w3 = <[_id d0 := settled d0 r]> (documents w) /\
    outsideDocuments w3 = outsideDocuments w /\
    log w3 = log w2 ++ tail /\
    Forall (fun ev => isParseAttempt ev = false /\ AccessSpec.isS3 ev = false) tail.
Proof.
  intros Hd Hc.
  destruct (parseAndConvertDocument_by_convert env (_id d0) fb w d0 r w2 Hd Hc)
    as [Hfst [Hdoc [Hout Hlog]]].
  unfold bind at 1. unfold tryCatch at 1. unfold bind at 1.
  destruct (parseAndConvertDocument env (_id d0) fb w) as [rp wp].
  cbn [fst snd] in Hfst, Hdoc, Hout, Hlog. subst rp.
  destruct r as [md | e].
  - unfold ret at 1. unfold bind at 1, Document.findById at 1.
    rewrite Hdoc, lookup_insert_eq.
    exists wp. eexists. split; [reflexivity|]. split; [exact Hdoc|].
    split; [exact Hout|]. split; [exact Hlog|]. repeat constructor.
  - unfold consoleError, emit, bind, Document.update, Document.findById.
    autorewrite with world. rewrite Hdoc, lookup_insert_eq.
    autorewrite with world. rewrite lookup_insert_eq.
    cbn [settled]. rewrite updateProcessingStatus_failed_twice.
    eexists _, _. split; [reflexivity|]. autorewrite with world.
    split; [rewrite !insert_insert_eq; reflexivity|].
    split; [unfold outsideDocuments in *; autorewrite with world; exact Hout|].
    split; [rewrite Hlog, <- !List.app_assoc; reflexivity|].
    cbn [app]. repeat constructor.
Qed.

Lemma uploadToS3_outsideLog (env : Env) (file : File) (key : jsstring) :
  preserves outsideLog (uploadToS3 env file key).
Proof.
  intros w. unfold uploadToS3. destruct (mockS3 env); [reflexivity|].
  unfold tryCatch, bind, emit, lift, consoleError, throw.
  destruct (s3Upload env key (buffer file)); reflexivity.
Qed.

Lemma supported_not_url (m f : jsstring) :
  lookup supportedFormats m = Some f -> JS.eqb f (lit "url") = false.
Proof.
  unfold supportedFormats. cbn [lookup].
  repeat (match goal with
          | |- context [if ?b then _ else _] => destruct b
          end; [intros [= <-]; vm_compute; reflexivity|]).
  discriminate.
Qed.

(** The outcome of [uploadDocument]: an error, or the record as the
    extraction left it. *)
Lemma sync_uploadDocument_run (env : Env) (file : File) (user : N) (md : Metadata)
    (w : World) :
  (exists e w1, uploadDocument env file user md w = (Throw e, w1)) \/
  (exists d0 location w3,
     let r := formatResult env (updateProcessingStatus processing None d0) (buffer file) in
     uploadDocument env file user md w
     = (Ok {| document := settled d0 r; location := location |}, w3) /\
     _id d0 = nextDocumentId w /\ userId d0 = user /\
     processingStatus d0 = processing /\ markdownContent d0 = [] /\
     lookup supportedFormats (v_mimeType (validateFile env file))
     = Some (originalFormat d0) /\
     documents w3 = <[_id d0 := settled d0 r]> (documents w) /\
     detached w3 = detached w).
Proof.
  unfold uploadDocument. cbv zeta.
  destruct (negb (isValid (validateFile env file))) eqn:Ev.
  { left. eexists _, _. reflexivity. }
  destruct (format (validateFile env file)) as [f|] eqn:Ef.
  2:{ exfalso. unfold validateFile in Ev, Ef. cbv zeta in Ev, Ef. cbn [format isValid] in *.
      rewrite Ef in Ev. destruct (maxFileSize env <? size file); discriminate Ev. }
  pose proof (uploadToS3_outsideLog env file
                (generateS3Key env user (originalname file) f) w) as Hup.
  destruct (uploadToS3 env file (generateS3Key env user (originalname file) f) w)
    as [[location | e] w1] eqn:Eup; cbn [snd] in Hup.
  2:{ left. rewrite (tryCatch_bind_throw _ _ _ _ _ _ Eup). eexists _, _. reflexivity. }
  rewrite (tryCatch_bind_ok _ _ _ _ _ _ Eup).
  unfold outsideLog, outsideDocuments in Hup. injection Hup as Hdoc _ _ Hn _ _ Hdt.
  match goal with
  | |- context [Document.new ?a ?b ?c ?d ?e ?f0 ?g ?h] =>
    set (d0 := mk (nextDocumentId w1) a (trim b) c d [] None (trim e) (option_map trim f0)
                 g None (List.map trim h) false);
    rewrite (tryCatch_bind_ok (Document.new a b c d e f0 g h) _ _ w1
               (set_nextDocumentId (nextDocumentId w1 + 1) w1) d0 eq_refl)
  end.
  destruct (validate d0) eqn:V.
  2:{ left. rewrite (tryCatch_bind_throw (Document.save d0) _ _ _ _ _
                       ltac:(unfold Document.save; rewrite V; reflexivity)).
      eexists _, _. reflexivity. }
  rewrite (tryCatch_bind_ok (Document.save d0) _ _ _ _ _
             ltac:(unfold Document.save; rewrite V; reflexivity)).
  match goal with
  | |- context [tryCatch _ _ ?W] => set (w2 := W)
  end.
  assert (Hd0 : documents w2 !! _id d0 = Some d0).
  { subst w2. autorewrite with world. apply lookup_insert_eq. }
  destruct (sync_created_by_convert env d0 (Some file)
              "Document parsing error during upload:"
              (fun updatedDocument =>
                 match updatedDocument with
                 | Some updatedDocument =>
                   ret {| document := updatedDocument; location := location |}
                 | None => throw (mkError TypeError (lit "Cannot read properties of null"))
                 end)
              w2 _ _ Hd0 (convert_file env _ file _))
    as [w3 [tail [E [Hdoc3 [Hout3 _]]]]].
  right. exists d0, location, w3. cbv zeta.
  split.
  { unfold tryCatch at 1. cbn [_id] in E |- *. rewrite E. reflexivity. }
  split; [cbn [_id d0]; congruence|]. split; [reflexivity|]. split; [reflexivity|].
  split; [reflexivity|].
  split.
  { unfold validateFile in Ef |- *. cbv zeta in Ef |- *. cbn [format v_mimeType] in *.
    exact Ef. }
  split.
  - rewrite Hdoc3. subst w2. autorewrite with world. rewrite insert_insert_eq, Hdoc.
    reflexivity.
  - unfold outsideDocuments in Hout3. subst w2. autorewrite with world in Hout3.
    injection Hout3 as _ _ _ _ _ H. congruence.
Qed.

(** X9.  The upload handler over the synchronous service.  When it
    answers 201, the body carries the record as the extraction left it,
    under the fixed label [pending]: [completed] with the converted text
    when the file is a PDF that [pdf-parse] reads, and otherwise [failed].
    For a Word, PowerPoint or image file, which the service accepts, the
    record is always [failed] with the message that the format is not
    supported and with no text, and the answer is 201 all the same.  The
    record is stored under the next id and no background task is left. *)
Theorem X9_sync_upload_outcome (env : Env) (file : File) (user : N)
    (title tags : option jsstring) (w : World) (res : DocumentController.Response) :
  let run :=
    DocumentController.handle (serviceSync env)
      (DocumentController.UploadDocument false (Some file) user title tags) w in
  fst run = Ok res ->
  DocumentController.statusCode res = 201 ->
  exists d0,
    let r := formatResult env (updateProcessingStatus processing None d0) (buffer file) in
    DocumentController.data res = DocumentController.UploadData (settled d0 r) pending /\
    _id d0 = nextDocumentId w /\ userId d0 = user /\
    lookup supportedFormats (v_mimeType (validateFile env file))
    = Some (originalFormat d0) /\
    documents (snd run) = <[_id d0 := settled d0 r]> (documents w) /\
    detached (snd run) = detached w /\
    (JS.eqb (originalFormat d0) (lit "pdf") = false ->
     processingStatus (settled d0 r) = failed /\
     processingError (settled d0 r)
     = Some (lit "暂不支持 " ++ originalFormat d0 ++ lit " 格式的解析") /\
     markdownContent (settled d0 r) = []) /\
    (JS.eqb (originalFormat d0) (lit "pdf") = true ->
     forall pdfData md,
       pdfParse env (buffer file) = Ok pdfData ->
       PdfText.convertPdfTextToMarkdown (toUpperCase env) (toLowerCase env) pdfData
       = Some md ->
       processingStatus (settled d0 r) = completed /\
       markdownContent (settled d0 r) = md).
Proof.
  intros run Hres H201.
  assert (Hrun : run =
    tryCatch
      (document <-
         fmapM document
           (uploadDocument env file user
              {| meta_title := title; meta_tags := DocumentController.parseTags tags |});;
       ret (DocumentController.mkResponse 201 true (lit "文档上传成功，正在处理中")
              (DocumentController.UploadData document pending)))
      (fun error =>
         consoleError "Upload document error:" error;;;
         ret (DocumentController.mkResponse 500 false
                (DocumentController.messageOr error (lit "文档上传失败"))
                DocumentController.NoData)) w) by reflexivity.
  clearbody run. subst run.
  destruct (sync_uploadDocument_run env file user
              {| meta_title := title; meta_tags := DocumentController.parseTags tags |} w)
    as [[e [w1 E]] | [d0 [location [w3 [E [Hid [Hu [Hst [Hmd [Hfmt [Hdoc Hdt]]]]]]]]]]].
  - exfalso. unfold tryCatch, fmapM, bind, consoleError, emit, ret in Hres.
    rewrite E in Hres. cbn [fst] in Hres. injection Hres as <-. discriminate H201.
  - cbv zeta in E.
    unfold tryCatch, fmapM, bind, ret in Hres |- *. rewrite E in Hres |- *.
    cbn [fst snd document] in Hres |- *. injection Hres as <-.
    exists d0. cbv zeta. cbn [DocumentController.data].
    split; [reflexivity|]. split; [exact Hid|]. split; [exact Hu|].
    split; [exact Hfmt|]. split; [exact Hdoc|]. split; [exact Hdt|]. split.
    + intros Hpdf. unfold formatResult. cbn [updateProcessingStatus someTruthy].
      change (originalFormat (set_processingError None (set_processingStatus processing d0)))
        with (originalFormat d0).
      rewrite Hpdf, (supported_not_url _ _ Hfmt). cbn [settled message newError].
      unfold updateProcessingStatus. cbn [someTruthy].
      rewrite (truthy_app_l (lit "暂不支持 ") _ eq_refl).
      split; [reflexivity|]. split; [reflexivity|]. exact Hmd.
    + intros Hpdf pdfData md Hparse Hconv. unfold formatResult.
      cbn [updateProcessingStatus someTruthy].
      change (originalFormat (set_processingError None (set_processingStatus processing d0)))
        with (originalFormat d0).
      rewrite Hpdf, Hparse, Hconv. split; reflexivity.
Qed.

Lemma X9_sync_upload_outcome_witness :
  let run :=
    DocumentController.handle (serviceSync Demo.plainEnv)
      (DocumentController.UploadDocument false (Some Sample.docxFile) 7 None None)
      emptyWorld in
  exists res d0,
    fst run = Ok res /\ DocumentController.statusCode res = 201 /\
    _id d0 = 1 /\
    documents (snd run) =
      <[_id d0 := settled d0
                    (formatResult Demo.plainEnv (updateProcessingStatus processing None d0)
                       (buffer Sample.docxFile))]> (documents emptyWorld).
Proof.
  intros run.
  assert (exists res, fst run = Ok res /\ DocumentController.statusCode res = 201)
    as [res [H1 H2]] by (eexists; split; vm_compute; reflexivity).
  destruct (X9_sync_upload_outcome Demo.plainEnv Sample.docxFile 7 None None emptyWorld
              res H1 H2) as [d0 [_ [Hid [_ [_ [Hdoc _]]]]]].
  exists res, d0. exact (conj H1 (conj H2 (conj Hid Hdoc))).
Defined.

Lemma blank_name (name : jsstring) :
  negb (truthy name) || (length (trim name) =? 0)%nat = true <-> blank name.
Proof.
  rewrite <- trim_blank. split.
  - intros H. apply orb_prop in H as [H | H].
    + destruct name; [reflexivity | discriminate H].
    + apply Nat.eqb_eq in H. destruct (trim name); [reflexivity | discriminate H].
  - intros H. rewrite H. apply orb_true_r.
Qed.

(** X10.  For a file whose MIME type (the one given or, if that is
    empty, the one looked up from the name) is not a name inherited from
    [Object.prototype]: [validateFile] of the synchronous service accepts
    the file exactly when its size is within the limit, its MIME type is
    in [supportedFormats], and its name is not blank; each failed check
    leaves its message in [errors], the first with the limit in megabytes.
    A file that it does not accept is answered 500 by the upload handler,
    which then has done nothing but write two console messages with the
    messages joined: nothing is sent to object storage and no record is
    created. *)
Theorem X10_sync_upload_refused (env : Env) (file : File) (user : N)
    (title tags : option jsstring) (w : World) :
  let v := validateFile env file in
  inheritedKey (v_mimeType v) = false ->
  (isValid v = true <->
   size file <= maxFileSize env /\
   (exists f, lookup supportedFormats (v_mimeType v) = Some f) /\
   ~ blank (originalname file)) /\
  (maxFileSize env < size file ->
   In (lit "文件大小超过限制 (" ++ megabytes env (maxFileSize env) ++ lit "MB)")
      (errors v)) /\
  (lookup supportedFormats (v_mimeType v) = None ->
   In (lit "不支持的文件类型: " ++ v_mimeType v) (errors v)) /\
  (blank (originalname file) -> In (lit "文件名不能为空") (errors v)) /\
  (isValid v = false ->
   exists res,
     DocumentController.handle (serviceSync env)
       (DocumentController.UploadDocument false (Some file) user title tags) w
     = (Ok res,
        set_log (log w ++ [ConsoleError (utf16 "Document upload error:")
                             (newError (join (lit ", ") (errors v)));
                           ConsoleError (utf16 "Upload document error:")
                             (newError (join (lit ", ") (errors v)))])
          w) /\
     DocumentController.statusCode res = 500 /\
     DocumentController.success res = false).
Proof.
  intros v _. split; [|split; [|split; [|split]]].
  - subst v. unfold validateFile. cbv zeta. cbn [isValid v_mimeType].
    pose proof (blank_name (originalname file)) as Hb.
    destruct (maxFileSize env <? size file) eqn:Es;
      [apply N.ltb_lt in Es | apply N.ltb_ge in Es];
      (destruct (lookup supportedFormats _) as [f|] eqn:Ef);
      (destruct (negb (truthy (originalname file)) || _) eqn:En);
      cbn [app length Nat.eqb]; split;
      try discriminate;
      try (intros [H1 [[f' H2] H3]]; first [lia | discriminate H2
                                            | exfalso; apply H3, Hb; reflexivity]).
    intros _. split; [exact Es|]. split; [exists f; reflexivity|].
    intros H. apply Hb in H. discriminate H.
  - intros Hs. apply N.ltb_lt in Hs. subst v. unfold validateFile. cbv zeta.
    cbn [errors]. rewrite Hs. apply in_or_app. left. left. reflexivity.
  - intros Hl. subst v. unfold validateFile in *. cbv zeta in *.
    cbn [errors v_mimeType] in *. rewrite Hl.
    apply in_or_app. right. apply in_or_app. left. left. reflexivity.
  - intros Hb. apply blank_name in Hb. subst v. unfold validateFile. cbv zeta.
    cbn [errors]. rewrite Hb.
    apply in_or_app. right. apply in_or_app. right. left. reflexivity.
  - intros Hv.
    unfold DocumentController.handle, DocumentController.uploadDocument.
    cbn [serviceSync DocumentController.svc_uploadDocument].
    unfold fmapM, uploadDocument. cbv zeta. fold v. rewrite Hv. cbn [negb].
    unfold tryCatch, bind, throw, consoleError, emit, ret. autorewrite with world.
    eexists. split; [rewrite <- List.app_assoc; reflexivity|].
    split; reflexivity.
Qed.

Lemma X10_sync_upload_refused_witness :
  inheritedKey (v_mimeType (validateFile Demo.plainEnv Sample.hugeFile)) = false /\
  isValid (validateFile Demo.plainEnv Sample.hugeFile) = false /\
  exists res,
    DocumentController.handle (serviceSync Demo.plainEnv)
      (DocumentController.UploadDocument false (Some Sample.hugeFile) 7 None None)
      emptyWorld
    = (Ok res,
       set_log (log emptyWorld
                ++ [ConsoleError (utf16 "Document upload error:")
                      (newError (join (lit ", ")
                                   (errors (validateFile Demo.plainEnv Sample.hugeFile))));
                    ConsoleError (utf16 "Upload document error:")
                      (newError (join (lit ", ")
                                   (errors (validateFile Demo.plainEnv Sample.hugeFile))))])
         emptyWorld) /\
    DocumentController.statusCode res = 500 /\
    DocumentController.success res = false.
Proof.
  assert (Hk : inheritedKey (v_mimeType (validateFile Demo.plainEnv Sample.hugeFile))
               = false) by (vm_compute; reflexivity).
  assert (Hv : isValid (validateFile Demo.plainEnv Sample.hugeFile) = false)
    by (vm_compute; reflexivity).
  exact (conj Hk (conj Hv
           (proj2 (proj2 (proj2 (proj2
              (X10_sync_upload_refused Demo.plainEnv Sample.hugeFile 7 None None
                 emptyWorld Hk)))) Hv))).
Defined.

(** X11.  Deletion in the synchronous service, for a record whose file
    is in object storage.  The blob is deleted first: when that succeeds
    the record is soft-deleted and the answer is 200; when it fails the
    answer reports the failure and the record is left as it was, not
    deleted. *)
Theorem X11_sync_delete_blob_first (env : Env) (w : World) (id : N) (d : t)
    (key : jsstring) :
  documents w !! id = Some d -> isDeleted d = false ->
  filePath d = Some key -> truthy key = true -> mockS3 env = false ->
  let run :=
    DocumentController.handle (serviceSync env)
      (DocumentController.DeleteDocument id (userId d)) w in
  (forall u, s3DeleteObject env key = Ok u ->
     fst run = Ok (DocumentController.mkResponse 200 true (lit "文档删除成功")
                     DocumentController.NoData) /\
     documents (snd run) = <[id := softDelete d]> (documents w) /\
     log (snd run) = log w ++ [S3Delete key; DocumentWrite (Some d) (softDelete d)]) /\
  (forall e, s3DeleteObject env key = Throw e ->
     exists res,
       fst run = Ok res /\
       DocumentController.success res = false /\
       DocumentController.res_message res = lit "文件删除失败: " ++ message e /\
       documents (snd run) = documents w /\
       In (S3Delete key) (log (snd run))).
Proof.
  intros Hd Hdel Hfp Hkey Hmock run.
  assert (Hg : (userId d =? userId d) && negb (isDeleted d) = true)
    by (rewrite N.eqb_refl, Hdel; reflexivity).
  subst run.
  unfold DocumentController.handle, DocumentController.deleteDocument.
  cbn [serviceSync DocumentController.svc_deleteDocument].
  unfold deleteDocument, deleteFromS3. rewrite Hmock.
  unfold Document.findById, Document.update, consoleError.
  unfold tryCatch, bind, emit, lift, ret, throw.
  rewrite Hd, Hg, Hfp, Hkey. split.
  - intros u Hs3. rewrite Hs3. autorewrite with world. rewrite Hd.
    cbn [fst snd]. autorewrite with world.
    split; [reflexivity|]. split; [reflexivity|].
    rewrite <- List.app_assoc. reflexivity.
  - intros e Hs3. rewrite Hs3. cbn [fst snd]. autorewrite with world.
    eexists. split; [reflexivity|]. split; [reflexivity|].
    split.
    + reflexivity.
    + split; [reflexivity|].
      apply in_or_app. left. apply in_or_app. left. apply in_or_app. left.
      apply in_or_app. right. left. reflexivity.
Qed.

Lemma X11_sync_delete_blob_first_witness :
  let run :=
    DocumentController.handle (serviceSync Demo.plainEnv)
      (DocumentController.DeleteDocument 1 (userId Demo.doc1)) Demo.world1 in
  documents Demo.world1 !! 1 = Some Demo.doc1 /\
  s3DeleteObject Demo.plainEnv (lit "documents/notes.pdf") = Ok tt /\
  fst run = Ok (DocumentController.mkResponse 200 true (lit "文档删除成功")
                  DocumentController.NoData) /\
  documents (snd run) = <[1 := softDelete Demo.doc1]> (documents Demo.world1).
Proof.
  intros run.
  assert (Hd : documents Demo.world1 !! 1 = Some Demo.doc1) by (vm_compute; reflexivity).
  destruct (proj1 (X11_sync_delete_blob_first Demo.plainEnv Demo.world1 1 Demo.doc1
                     (lit "documents/notes.pdf") Hd eq_refl eq_refl eq_refl eq_refl)
              tt eq_refl) as [H1 [H2 _]].
  exact (conj Hd (conj eq_refl (conj H1 H2))).
Defined.

(** The conversion of a stored document reads its blob. *)
Lemma convert_stored (env : Env) (d : t) (w : World) :
  exists evs,
    convert env d None w = (storedResult env d, set_log (log w ++ evs) w) /\
    Forall (fun ev => ev = S3Get (filePath d) \/ AccessSpec.isConsoleError ev = true) evs /\
    (mockS3 env = true -> evs = []) /\
    (mockS3 env = false -> exists rest, evs = S3Get (filePath d) :: rest).
Proof.
  unfold convert, storedResult, fetchResult, getFileStream, streamToBuffer.
  destruct (mockS3 env).
  - exists []. rewrite set_log_same. split.
    + unfold bind, ret, lift. unfold formatResult.
      destruct (JS.eqb (originalFormat d) (lit "pdf")).
      * destruct (pdfParse env (lit "Mock file content")) as [pdfData | e];
          [|reflexivity].
        destruct (PdfText.convertPdfTextToMarkdown _ _ pdfData); reflexivity.
      * destruct (JS.eqb (originalFormat d) (lit "url")); reflexivity.
    + split; [constructor|]. split; [reflexivity | discriminate].
  - unfold consoleError. unfold tryCatch, bind, emit, lift, throw, ret.
    destruct (s3GetObject env (filePath d)) as [[bytes | e] | e]; autorewrite with world.
    + exists [S3Get (filePath d)]. split.
      * unfold formatResult.
        destruct (JS.eqb (originalFormat d) (lit "pdf")).
        -- destruct (pdfParse env bytes) as [pdfData | e]; [|reflexivity].
           destruct (PdfText.convertPdfTextToMarkdown _ _ pdfData); reflexivity.
        -- destruct (JS.eqb (originalFormat d) (lit "url")); reflexivity.
      * split; [repeat constructor|]. split; [discriminate | eexists; reflexivity].
    + exists [S3Get (filePath d)]. split; [reflexivity|].
      split; [repeat constructor|]. split; [discriminate | eexists; reflexivity].
    + eexists. split; [rewrite <- List.app_assoc; reflexivity|].
      split; [constructor; [left; reflexivity | constructor; [right; reflexivity | constructor]]|].
      split; [discriminate | eexists; reflexivity].
Qed.

Lemma sync_addUrlDocument_run (env : Env) (url : jsstring) (user : N) (md : Metadata)
    (w : World) :
  validUrl env url = true ->
  (exists e w1, addUrlDocument env url user md w = (Throw e, w1)) \/
  (exists d0 w3 evs,
     let r := storedResult env (updateProcessingStatus processing None d0) in
     addUrlDocument env url user md w = (Ok (settled d0 r), w3) /\
     _id d0 = nextDocumentId w /\ userId d0 = user /\
     originalFormat d0 = lit "url" /\ filePath d0 = None /\
     DocumentSchema.url d0 = Some (trim url) /\ markdownContent d0 = [] /\
     documents w3 = <[_id d0 := settled d0 r]> (documents w) /\
     detached w3 = detached w /\
     log w3 = log w ++ evs /\
     (mockS3 env = true -> Forall (fun ev => AccessSpec.isS3 ev = false) evs) /\
     (mockS3 env = false -> In (S3Get None) evs)).
Proof.
  intros Hv. unfold addUrlDocument. rewrite Hv. cbn [negb].
  match goal with
  | |- context [Document.new ?a ?b ?c ?d ?e ?f0 ?g ?h] =>
    set (d0 := mk (nextDocumentId w) a (trim b) c d [] None (trim e) (option_map trim f0)
                 g None (List.map trim h) false);
    rewrite (tryCatch_bind_ok (Document.new a b c d e f0 g h) _ _ w
               (set_nextDocumentId (nextDocumentId w + 1) w) d0 eq_refl)
  end.
  destruct (validate d0) eqn:V.
  2:{ left. rewrite (tryCatch_bind_throw (Document.save d0) _ _ _ _ _
                       ltac:(unfold Document.save; rewrite V; reflexivity)).
      eexists _, _. reflexivity. }
  rewrite (tryCatch_bind_ok (Document.save d0) _ _ _ _ _
             ltac:(unfold Document.save; rewrite V; reflexivity)).
  match goal with
  | |- context [tryCatch _ _ ?W] => set (w2 := W)
  end.
  assert (Hd0 : documents w2 !! _id d0 = Some d0).
  { subst w2. autorewrite with world. apply lookup_insert_eq. }
  destruct (convert_stored env (updateProcessingStatus processing None d0)
              (started (_id d0) d0 w2)) as [cevs [Hc [Hcq [Hcm Hcs]]]].
  destruct (sync_created_by_convert env d0 None "URL document processing error:"
              (fun updatedDocument =>
                 match updatedDocument with
                 | Some updatedDocument => ret updatedDocument
                 | None => throw (mkError TypeError (lit "Cannot read properties of null"))
                 end)
              w2 _ _ Hd0 Hc)
    as [w3 [tail [E [Hdoc3 [Hout3 [Hlog3 Htail]]]]]].
  right. exists d0, w3. eexists. cbv zeta.
  split.
  { unfold tryCatch at 1. cbn [_id] in E |- *. rewrite E. reflexivity. }
  split; [reflexivity|]. split; [reflexivity|]. split; [reflexivity|].
  split; [reflexivity|]. split; [reflexivity|]. split; [reflexivity|].
  split.
  { rewrite Hdoc3. subst w2. autorewrite with world. rewrite insert_insert_eq.
    reflexivity. }
  split.
  { unfold outsideDocuments in Hout3. subst w2. autorewrite with world in Hout3.
    injection Hout3 as _ _ _ _ _ H. exact H. }
  split.
  { rewrite Hlog3. unfold started. subst w2. autorewrite with world.
    rewrite <- !List.app_assoc. reflexivity. }
  split.
  - intros Hm. rewrite (Hcm Hm). cbn [app].
    repeat (constructor; [reflexivity|]).
    eapply List.Forall_impl; [|exact Htail]. intros ev [_ H]. exact H.
  - intros Hm. destruct (Hcs Hm) as [rest ->].
    apply in_or_app. right. apply in_or_app. right. apply in_or_app. right.
    apply in_or_app. left. left. reflexivity.
Qed.

(** X12.  Adding a URL document in the synchronous service.  An
    invalid URL is answered 500 with [无效的URL格式] and nothing is stored.
    For a valid URL answered 201, the record has the format [url] and no
    file path, and yet its extraction reads object storage, with no key:
    when S3 is configured a [GetObject] without key is sent, and the
    record ends [completed] with the link stub only if that read
    succeeds; if it fails the record ends [failed] with no text, the
    answer being 201 in both cases. *)
Theorem X12_add_url_document (env : Env) (user : N) (url : jsstring)
    (title tags : option jsstring) (w : World) :
  let run :=
    DocumentController.handle (serviceSync env)
      (DocumentController.AddUrlDocument false user url title tags) w in
  (validUrl env url = false ->
   exists res,
     run = (Ok res,
            set_log (log w ++ [ConsoleError (utf16 "Add URL document error:")
                                 (newError (lit "无效的URL格式"));
                               ConsoleError (utf16 "Add URL document error:")
                                 (newError (lit "无效的URL格式"))]) w) /\
     DocumentController.statusCode res = 500 /\
     DocumentController.res_message res = lit "无效的URL格式") /\
  (validUrl env url = true ->
   forall res,
     fst run = Ok res -> DocumentController.statusCode res = 201 ->
     exists d0,
       let dp := updateProcessingStatus processing None d0 in
       let r := storedResult env dp in
       DocumentController.data res = DocumentController.DocumentData (settled d0 r) /\
       _id d0 = nextDocumentId w /\ userId d0 = user /\
       originalFormat d0 = lit "url" /\ filePath d0 = None /\
       documents (snd run) = <[_id d0 := settled d0 r]> (documents w) /\
       (forall bytes, fetchResult env None = Ok bytes ->
          processingStatus (settled d0 r) = completed /\
          markdownContent (settled d0 r) = urlStub dp) /\
       (forall e, fetchResult env None = Throw e ->
          processingStatus (settled d0 r) = failed /\
          markdownContent (settled d0 r) = []) /\
       (mockS3 env = false -> In (S3Get None) (log (snd run)))).
Proof.
  intros run.
  assert (Hrun : run =
    tryCatch
      (document <-
         addUrlDocument env url user
           {| meta_title := title; meta_tags := DocumentController.parseTags tags |};;
       ret (DocumentController.mkResponse 201 true (lit "URL文档添加成功")
              (DocumentController.DocumentData document)))
      (fun error =>
         consoleError "Add URL document error:" error;;;
         ret (DocumentController.mkResponse 500 false
                (DocumentController.messageOr error (lit "URL文档添加失败"))
                DocumentController.NoData)) w) by reflexivity.
  clearbody run. subst run. split.
  - intros Hv. unfold addUrlDocument. rewrite Hv. cbn [negb].
    unfold consoleError. unfold tryCatch, bind, throw, emit, ret.
    autorewrite with world.
    eexists. split; [rewrite <- List.app_assoc; reflexivity|]. split; reflexivity.
  - intros Hv res Hres H201.
    destruct (sync_addUrlDocument_run env url user
                {| meta_title := title; meta_tags := DocumentController.parseTags tags |}
                w Hv)
      as [[e [w1 E]] | [d0 [w3 [evs [E [Hid [Hu [Hf [Hfp [_ [Hmd [Hdoc [_ [Hlog [_ Hs3]]]]]]]]]]]]]]].
    + exfalso. unfold consoleError in Hres. unfold tryCatch, bind, emit, ret in Hres.
      rewrite E in Hres. cbn [fst] in Hres. injection Hres as <-. discriminate H201.
    + cbv zeta in E. unfold tryCatch, bind, ret in Hres |- *.
      rewrite E in Hres |- *. cbn [fst snd] in Hres |- *. injection Hres as <-.
      exists d0. cbv zeta. cbn [DocumentController.data].
      split; [reflexivity|]. split; [exact Hid|]. split; [exact Hu|].
      split; [exact Hf|]. split; [exact Hfp|]. split; [exact Hdoc|].
      assert (Hfmt : forall bytes,
                formatResult env (updateProcessingStatus processing None d0) bytes
                = Ok (urlStub (updateProcessingStatus processing None d0))).
      { intros bytes. unfold formatResult. cbn [updateProcessingStatus someTruthy].
        change (originalFormat
                  (set_processingError None (set_processingStatus processing d0)))
          with (originalFormat d0).
        rewrite Hf. reflexivity. }
      assert (Hkey : filePath (updateProcessingStatus processing None d0) = None)
        by exact Hfp.
      split; [|split].
      * intros bytes Hb. unfold storedResult. rewrite Hkey, Hb, Hfmt.
        split; reflexivity.
      * intros e Hb. unfold storedResult. rewrite Hkey, Hb. cbn [settled].
        unfold updateProcessingStatus.
        destruct (someTruthy (Some (message e))); split; try reflexivity; exact Hmd.
      * intros Hm. rewrite Hlog. apply in_or_app. right. exact (Hs3 Hm).
Qed.

Lemma X12_add_url_document_witness :
  let run :=
    DocumentController.handle (serviceSync Demo.plainEnv)
      (DocumentController.AddUrlDocument false 7 (lit "https://example.org/a") None None)
      emptyWorld in
  validUrl Demo.plainEnv (lit "https://example.org/a") = true /\
  exists res d0,
    fst run = Ok res /\ DocumentController.statusCode res = 201 /\
    _id d0 = 1 /\ originalFormat d0 = lit "url" /\ filePath d0 = None /\
    In (S3Get None) (log (snd run)).
Proof.
  intros run. split; [reflexivity|].
  assert (exists res, fst run = Ok res /\ DocumentController.statusCode res = 201)
    as [res [H1 H2]] by (eexists; split; vm_compute; reflexivity).
  destruct (proj2 (X12_add_url_document Demo.plainEnv 7 (lit "https://example.org/a")
                     None None emptyWorld) eq_refl res H1 H2)
    as [d0 [_ [Hid [_ [Hf [Hfp [_ [_ [_ Hs3]]]]]]]]].
  exists res, d0.
  exact (conj H1 (conj H2 (conj Hid (conj Hf (conj Hfp (Hs3 eq_refl)))))).
Defined.

End SyncExtraction.

(** ** Reprocessing, in full *)

Section ReprocessOutcome.

Import PipelineSpec DocumentSchema DocumentController SyncSpec.

Lemma convert_stored_exact (env : Env) (d : t) (w : World) :
  convert env d None w
  = (storedResult env d, set_log (log w ++ fetchEvents env (filePath d)) w).
Proof.
  unfold convert, storedResult, fetchResult, fetchEvents,
    DocumentServiceSync.getFileStream, DocumentServiceSync.streamToBuffer.
  destruct (DocumentServiceSync.mockS3 env).
  - rewrite set_log_same. unfold bind, ret, lift. unfold formatResult.
    destruct (JS.eqb (originalFormat d) (lit "pdf")).
    + destruct (pdfParse env (lit "Mock file content")) as [pdfData | e];
        [|reflexivity].
      destruct (PdfText.convertPdfTextToMarkdown _ _ pdfData); reflexivity.
    + destruct (JS.eqb (originalFormat d) (lit "url")); reflexivity.
  - unfold consoleError. unfold tryCatch, bind, emit, lift, throw, ret.
    destruct (s3GetObject env (filePath d)) as [[bytes | e] | e]; autorewrite with world.
    + unfold formatResult.
      destruct (JS.eqb (originalFormat d) (lit "pdf")).
      * destruct (pdfParse env bytes) as [pdfData | e]; [|reflexivity].
        destruct (PdfText.convertPdfTextToMarkdown _ _ pdfData); reflexivity.
      * destruct (JS.eqb (originalFormat d) (lit "url")); reflexivity.
    + reflexivity.
    + rewrite <- List.app_assoc. reflexivity.
Qed.

Lemma fetchEvents_quiet (env : Env) (key : option jsstring) :
  Forall quiet (fetchEvents env key).
Proof.
  unfold fetchEvents. destruct (DocumentServiceSync.mockS3 env); [constructor|].
  destruct (s3GetObject env key); repeat constructor.
Qed.

Lemma filePath_status (status : Status) (error : option jsstring) (d : t) :
  filePath (updateProcessingStatus status error d) = filePath d.
Proof. unfold updateProcessingStatus. destruct (someTruthy error); reflexivity. Qed.

(** The run of a reprocess request on a record that is not in
    [processing]. *)
Lemma sync_reprocess_exact (env : Env) (w : World) (id : N) (d : t) :
  documents w !! id = Some d -> isDeleted d = false ->
  processingStatus d <> processing ->
  let dp := updateProcessingStatus processing None d in
  let r := storedResult env dp in
  let dfin := settled d r in
  let run := handle (serviceSync env) (ReprocessDocument id (userId d)) w in
  documents (snd run) = <[id := dfin]> (documents w) /\
  match r with
  | Ok md =>
    fst run = Ok (mkResponse 200 true (lit "文档重新处理成功") (DocumentData dfin)) /\
    log (snd run) =
      log w ++ [ParseAttempt id; DocumentWrite (Some d) dp]
      ++ fetchEvents env (filePath d) ++ [DocumentWrite (Some dp) dfin]
  | Throw e =>
    fst run = Ok (mkResponse (notFoundOr500 e) false
                    (messageOr e (lit "文档重新处理失败")) NoData) /\
    log (snd run) =
      log w ++ [ParseAttempt id; DocumentWrite (Some d) dp]
      ++ fetchEvents env (filePath d)
      ++ [ConsoleError (utf16 "Parse and convert document error:") e;
          DocumentWrite (Some dp) dfin;
          ConsoleError (utf16 "Reprocess document error:") e]
  end.
Proof.
  intros Hd Hdel Hs dp r dfin run.
  assert (run =
    tryCatch
      (result <- DocumentServiceSync.parseAndConvertDocument env id None;;
       ret (mkResponse 200 true (lit "文档重新处理成功") (DocumentData result)))
      (fun error =>
         consoleError "Reprocess document error:" error;;;
         ret (mkResponse (notFoundOr500 error) false
                (messageOr error (lit "文档重新处理失败")) NoData)) w) as Hrun.
  { subst run. unfold handle, reprocessDocument.
    cbn [serviceSync svc_getDocument svc_parseAndConvertDocument].
    unfold tryCatch, bind at 1.
    rewrite (sync_getDocument_found w id d Hd Hdel).
    destruct (processingStatus d); try reflexivity. contradiction. }
  rewrite Hrun. clear Hrun.
  pose proof (parseAndConvertDocument_by_convert env id None w d r _ Hd
                (convert_stored_exact env dp (started id d w)))
    as [Hfst [Hdoc [_ Hlog]]].
  fold dp in Hlog. fold dfin in Hfst, Hdoc, Hlog.
  unfold dp at 1 in Hlog. rewrite filePath_status in Hlog.
  assert (Hstart : log (started id d w)
                   = log w ++ [ParseAttempt id; DocumentWrite (Some d) dp]).
  { unfold started. cbv zeta. autorewrite with world.
    rewrite <- List.app_assoc. reflexivity. }
  autorewrite with world in Hlog. rewrite Hstart in Hlog.
  destruct (DocumentServiceSync.parseAndConvertDocument env id None w)
    as [[res | e] w1] eqn:Epac;
    unfold tryCatch, consoleError, emit, bind, ret; rewrite Epac;
    cbn [fst snd] in *.
  - split; [exact Hdoc|]. destruct r as [md | e]; [|discriminate Hfst].
    injection Hfst as ->. split; [reflexivity|].
    rewrite Hlog, <- !List.app_assoc. reflexivity.
  - autorewrite with world. split; [exact Hdoc|].
    destruct r as [md | e']; [discriminate Hfst|].
    injection Hfst as ->. split; [reflexivity|].
    rewrite Hlog, <- !List.app_assoc. reflexivity.
Qed.

(** C6.  Reprocessing a record that is in [processing] answers 400 and
    changes nothing.  Reprocessing any other record of the caller runs the
    extraction once, with no retry: the record is set to [processing], its
    bytes are fetched once and converted once, and the record ends
    [completed] with the converted text (answer 200 with the record) or
    [failed] with the error (answer 404 or 500); the log grows by exactly
    these steps, one extraction attempt among them.  And whatever the
    request, a write that takes a stored record from [failed] to
    [processing] is made by a reprocess request of the record's owner on a
    record that is not deleted. *)
Theorem C6_reprocess (env : Env) (w : World) :
  (forall id d,
     documents w !! id = Some d -> isDeleted d = false ->
     let run := handle (serviceSync env) (ReprocessDocument id (userId d)) w in
     (processingStatus d = processing ->
        run = (Ok (mkResponse 400 false (lit "文档正在处理中，请稍后再试") NoData), w)) /\
     (processingStatus d <> processing ->
        let dp := updateProcessingStatus processing None d in
        let r := storedResult env dp in
        let dfin := settled d r in
        documents (snd run) = <[id := dfin]> (documents w) /\
        (exists evs, log (snd run) = log w ++ evs /\ parseAttempts evs = 1%nat) /\
        match r with
        | Ok md =>
          processingStatus dfin = completed /\ markdownContent dfin = md /\
          fst run = Ok (mkResponse 200 true (lit "文档重新处理成功")
                          (DocumentData dfin)) /\
          log (snd run) =
            log w ++ [ParseAttempt id; DocumentWrite (Some d) dp]
            ++ fetchEvents env (filePath d) ++ [DocumentWrite (Some dp) dfin]
        | Throw e =>
          processingStatus dfin = failed /\
          markdownContent dfin = markdownContent d /\
          fst run = Ok (mkResponse (notFoundOr500 e) false
                          (messageOr e (lit "文档重新处理失败")) NoData) /\
          log (snd run) =
            log w ++ [ParseAttempt id; DocumentWrite (Some d) dp]
            ++ fetchEvents env (filePath d)
            ++ [ConsoleError (utf16 "Parse and convert document error:") e;
                DocumentWrite (Some dp) dfin;
                ConsoleError (utf16 "Reprocess document error:") e]
        end)) /\
  (forall req evs before after,
     log (snd (handle (serviceSync env) req w)) = log w ++ evs ->
     In (DocumentWrite (Some before) after) evs ->
     processingStatus before = failed -> processingStatus after = processing ->
     exists id, req = ReprocessDocument id (userId before) /\
                documents w !! id = Some before /\ isDeleted before = false).
Proof.
  split.
  - intros id d Hd Hdel run. split.
    + intros Hs. apply sync_reprocess_busy; assumption.
    + intros Hs dp r dfin.
      pose proof (sync_reprocess_exact env w id d Hd Hdel Hs) as [Hdoc Hrun].
      fold dp r dfin run in Hdoc, Hrun.
      split; [exact Hdoc|].
      pose proof (parseAttempts_quiet _ (fetchEvents_quiet env (filePath d))) as Hq.
      destruct r as [md | e] eqn:Er.
      * destruct Hrun as [Hfst Hlog]. split.
        { eexists. split; [exact Hlog|].
          rewrite !parseAttempts_app, Hq. reflexivity. }
        subst dfin. cbn [settled]. split; [reflexivity|]. split; [reflexivity|].
        split; [exact Hfst | exact Hlog].
      * destruct Hrun as [Hfst Hlog]. split.
        { eexists. split; [exact Hlog|].
          rewrite !parseAttempts_app, Hq. reflexivity. }
        subst dfin. cbn [settled]. split; [|split; [|split; [exact Hfst | exact Hlog]]].
        -- unfold updateProcessingStatus. destruct (someTruthy (Some _)); reflexivity.
        -- unfold updateProcessingStatus.
           destruct (someTruthy (Some _)); reflexivity.
  - intros req evs b a Hlog Hin Hb Ha.
    assert (Hplain : (forall id u, req <> ReprocessDocument id u) -> False).
    { intros Hreq.
      exact (plain_no_restart _ w evs b a (sync_handle_plain env req Hreq w) Hlog Hin
               (conj Hb Ha)). }
    destruct req as [| | | | | | | |id user];
      try (exfalso; apply Hplain; intros; discriminate).
    clear Hplain.
    destruct (DocumentServiceSync.getDocument id user w) as [[d | e] w1] eqn:G.
    + apply sync_getDocument_inv in G as [-> [Hd [<- Hdel]]].
      assert (processingStatus d = processing \/ processingStatus d <> processing)
        as [Hs | Hs] by (destruct (processingStatus d); auto; right; discriminate).
      * rewrite (sync_reprocess_busy env w id d Hd Hdel Hs) in Hlog. cbn [snd] in Hlog.
        rewrite <- (List.app_nil_r (log w)) in Hlog at 1.
        apply List.app_inv_head in Hlog. subst evs. destruct Hin.
      * destruct (sync_reprocess_run env w id d Hd Hdel Hs)
          as [mid [tail [dfin [Hq [Ht [Hlog' _]]]]]].
        rewrite Hlog' in Hlog. apply List.app_inv_head in Hlog. subst evs.
        cbn [app In] in Hin. destruct Hin as [Hin | [Hin | Hin]]; [discriminate Hin| |].
        -- injection Hin as <- _. exists id. auto.
        -- exfalso. apply in_app_or in Hin as [Hin | Hin].
           ++ rewrite List.Forall_forall in Hq. destruct (Hq _ Hin) as [_ Hw]. discriminate.
           ++ cbn [app In] in Hin. destruct Hin as [Hin | Hin].
              ** injection Hin as <- _. discriminate Hb.
              ** rewrite List.Forall_forall in Ht. destruct (Ht _ Hin) as [_ Hw].
                 discriminate.
    + exfalso. refine (plain_no_restart _ w evs b a _ Hlog Hin (conj Hb Ha)).
      unfold handle, reprocessDocument. cbn [serviceSync svc_getDocument].
      apply emitsAt_tryCatch.
      * apply emitsAt_bind.
        -- eapply emitsOnly_weaken; [exact quiet_plainWrite|].
           apply sync_getDocument_quiet.
        -- intros d w2 G'. rewrite G in G'. discriminate G'.
      * intros e' w2 _. apply emitsOnly_bind; [apply plain_consoleError|].
        intros _. apply emitsOnly_ret.
Qed.

Lemma C6_reprocess_witness :
  documents Demo.failedWorld !! 1 = Some Demo.failedDoc /\
  isDeleted Demo.failedDoc = false /\
  processingStatus Demo.failedDoc <> processing /\
  processingStatus
    (settled Demo.failedDoc
       (storedResult Demo.plainEnv
          (updateProcessingStatus processing None Demo.failedDoc))) = completed /\
  documents (snd (handle (serviceSync Demo.plainEnv)
                    (ReprocessDocument 1 (userId Demo.failedDoc)) Demo.failedWorld))
  = <[1 := settled Demo.failedDoc
             (storedResult Demo.plainEnv
                (updateProcessingStatus processing None Demo.failedDoc))]>
      (documents Demo.failedWorld).
Proof.
  assert (Hd : documents Demo.failedWorld !! 1 = Some Demo.failedDoc)
    by (vm_compute; reflexivity).
  assert (Hs : processingStatus Demo.failedDoc <> processing) by discriminate.
  split; [exact Hd|]. split; [reflexivity|]. split; [exact Hs|].
  split; [vm_compute; reflexivity|].
  exact (proj1 (proj2 (proj1 (C6_reprocess Demo.plainEnv Demo.failedWorld) 1
                         Demo.failedDoc Hd eq_refl) Hs)).
Defined.

End ReprocessOutcome.

(** ** Reading a document the caller owns *)

Section Reads.

Import PipelineSpec DocumentSchema DocumentController AccessSpec.

Lemma async_getDocument_found (w : World) (id : N) (d : t) :
  documents w !! id = Some d -> isDeleted d = false ->
  DocumentService.getDocument id (userId d) w = (Ok d, w).
Proof.
  intros Hd Hdel. unfold DocumentService.getDocument, tryCatch, bind, Document.findById.
  rewrite Hd, N.eqb_refl, Hdel. reflexivity.
Qed.

(** X13.  Reads of a live document by its owner, in both assemblies,
    change nothing.  The document request answers 200 with the record.
    The Markdown request answers 200 with the text and the status when
    the text is not empty, and 404 when it is empty, whatever the status
    of the record: a [completed] record with an empty text reads as not
    yet processed. *)
Theorem X13_owner_reads (env : Env) (svc : Service) (w : World) (id : N) (d : t) :
  svc = serviceAsync env \/ svc = serviceSync env ->
  documents w !! id = Some d -> isDeleted d = false ->
  handle svc (GetDocument id (userId d)) w
  = (Ok (mkResponse 200 true [] (DocumentData d)), w) /\
  (markdownContent d <> [] ->
   handle svc (GetMarkdownContent id (userId d)) w
   = (Ok (mkResponse 200 true []
            (MarkdownData (markdownContent d) (processingStatus d))), w)) /\
  (markdownContent d = [] ->
   handle svc (GetMarkdownContent id (userId d)) w
   = (Ok (mkResponse 404 false (lit "文档尚未处理完成或处理失败") NoData), w)).
Proof.
  intros Hsvc Hd Hdel.
  assert (Hget : svc_getDocument svc id (userId d) w = (Ok d, w)).
  { destruct Hsvc as [-> | ->]; cbn [serviceAsync serviceSync svc_getDocument];
      [apply async_getDocument_found | apply sync_getDocument_found]; assumption. }
  unfold handle, getDocument, getMarkdownContent.
  rewrite !(tryCatch_bind_ok _ _ _ _ _ _ Hget).
  split; [reflexivity|]. split; intros Hmd.
  - destruct (markdownContent d); [contradiction | reflexivity].
  - rewrite Hmd. reflexivity.
Qed.

Lemma X13_owner_reads_witness :
  (serviceAsync Demo.scannedEnv = serviceAsync Demo.scannedEnv
   \/ serviceAsync Demo.scannedEnv = serviceSync Demo.scannedEnv) /\
  exists d,
    documents Demo.scannedWorld !! 1 = Some d /\ isDeleted d = false /\
    processingStatus d = completed /\
    handle (serviceAsync Demo.scannedEnv) (GetMarkdownContent 1 (userId d))
      Demo.scannedWorld
    = (Ok (mkResponse 404 false (lit "文档尚未处理完成或处理失败") NoData),
       Demo.scannedWorld).
Proof.
  split; [left; reflexivity|].
  assert (exists d, documents Demo.scannedWorld !! 1 = Some d /\ isDeleted d = false
                    /\ processingStatus d = completed /\ markdownContent d = [])
    as [d [Hd [Hdel [Hst Hmd]]]]
    by (eexists; split; [vm_compute; reflexivity | repeat split]).
  exists d. split; [exact Hd|]. split; [exact Hdel|]. split; [exact Hst|].
  exact (proj2 (proj2 (X13_owner_reads Demo.scannedEnv (serviceAsync Demo.scannedEnv)
                         Demo.scannedWorld 1 d (or_introl eq_refl) Hd Hdel)) Hmd).
Defined.

(** X14.  Download of a live document by its owner never changes a
    record.  Without a file path the answer is 404 and object storage is
    not called.  With one, the asynchronous service answers 500 when S3
    is not configured, and otherwise requests exactly the record's own
    key, answering 200 with the stream that S3 returns. *)
Theorem X14_download (env : Env) (w : World) (id : N) (d : t) :
  documents w !! id = Some d -> isDeleted d = false ->
  let run svc := handle svc (DownloadDocument id (userId d)) w in
  (someTruthy (filePath d) = false ->
   forall svc, svc = serviceAsync env \/ svc = serviceSync env ->
     run svc = (Ok (mkResponse 404 false (lit "文件不存在") NoData), w)) /\
  (someTruthy (filePath d) = true ->
   (s3Enabled env = false ->
    exists res evs,
      run (serviceAsync env) = (Ok res, set_log (log w ++ evs) w) /\
      statusCode res = 500 /\ Forall (fun ev => isConsoleError ev = true) evs) /\
   (s3Enabled env = true ->
    forall stream, s3GetObject env (filePath d) = Ok stream ->
      run (serviceAsync env)
      = (Ok (mkResponse 200 true [] (StreamData stream)),
         set_log (log w ++ [S3Get (filePath d)]) w))).
Proof.
  intros Hd Hdel run. split.
  - intros Hfp svc Hsvc.
    assert (Hget : svc_getDocument svc id (userId d) w = (Ok d, w)).
    { destruct Hsvc as [-> | ->]; cbn [serviceAsync serviceSync svc_getDocument];
        [apply async_getDocument_found | apply sync_getDocument_found]; assumption. }
    subst run. cbv beta. unfold handle, downloadDocument.
    rewrite (tryCatch_bind_ok _ _ _ _ _ _ Hget), Hfp. reflexivity.
  - intros Hfp.
    assert (Hget : svc_getDocument (serviceAsync env) id (userId d) w = (Ok d, w))
      by (apply async_getDocument_found; assumption).
    subst run. cbv beta. unfold handle, downloadDocument.
    rewrite (tryCatch_bind_ok _ _ _ _ _ _ Hget), Hfp. cbn [negb].
    cbn [serviceAsync svc_getFileStream]. unfold DocumentService.getFileStream.
    split.
    + intros Hs3. rewrite Hs3. cbn [negb]. unfold consoleError.
      unfold tryCatch, bind, throw, emit, ret.
      eexists _, _. split; [reflexivity|]. split; [vm_compute; reflexivity|].
      repeat constructor.
    + intros Hs3 stream Hget'. rewrite Hs3. cbn [negb].
      unfold tryCatch, bind, emit, lift, ret. rewrite Hget'. reflexivity.
Qed.

End Reads.

Lemma X14_download_witness :
  documents Demo.world1 !! 1 = Some Demo.doc1 /\
  DocumentSchema.someTruthy (DocumentSchema.filePath Demo.doc1) = true /\
  s3GetObject Demo.plainEnv (DocumentSchema.filePath Demo.doc1) = Ok (Ok []) /\
  DocumentController.handle (serviceAsync Demo.plainEnv)
    (DocumentController.DownloadDocument 1 (DocumentSchema.userId Demo.doc1)) Demo.world1
  = (Ok (DocumentController.mkResponse 200 true []
           (DocumentController.StreamData (Ok []))),
     set_log (log Demo.world1 ++ [S3Get (DocumentSchema.filePath Demo.doc1)]) Demo.world1).
Proof.
  assert (Hd : documents Demo.world1 !! 1 = Some Demo.doc1) by (vm_compute; reflexivity).
  split; [exact Hd|]. split; [reflexivity|]. split; [reflexivity|].
  exact (proj2 (proj2 (X14_download Demo.plainEnv Demo.world1 1 Demo.doc1 Hd eq_refl)
                  eq_refl) eq_refl (Ok []) eq_refl).
Defined.

(** ** Occurrences of a concept *)

Section Occurrences.

Import ConceptSchema.

(** X15.  [addOccurrence] keeps the occurrences of a concept keyed by
    position.  Afterwards the occurrence found at the position is the one
    given; what is found at any other position is what was found before;
    the array grows by one exactly when the position was not there; and
    positions that were distinct stay distinct.  Only the occurrences of
    the concept change. *)
Theorem X15_addOccurrence (pos : Z) (context : jsstring) (confidence : Q) (c : t) :
  let c' := addOccurrence pos context confidence c in
  List.find (fun x => (position x =? pos)%Z) (occurrences c')
  = Some (mkOcc pos context confidence) /\
  (forall q, q <> pos ->
     List.find (fun x => (position x =? q)%Z) (occurrences c')
     = List.find (fun x => (position x =? q)%Z) (occurrences c)) /\
  length (occurrences c')
  = (if existsb (fun x => (position x =? pos)%Z) (occurrences c)
     then length (occurrences c) else S (length (occurrences c))) /\
  (List.NoDup (List.map position (occurrences c)) ->
   List.NoDup (List.map position (occurrences c'))) /\
  c' = set_occurrences (occurrences c') c.
Proof.
  intros c'. subst c'. unfold addOccurrence. cbn [occurrences set_occurrences].
  split; [exact (find_putOccurrence (mkOcc pos context confidence) _)|].
  split; [intros q Hq; exact (find_putOccurrence_other (mkOcc pos context confidence) _ q Hq)|].
  split; [exact (length_putOccurrence (mkOcc pos context confidence) _)|].
  split; [exact (NoDup_putOccurrence (mkOcc pos context confidence) _) | reflexivity].
Qed.

Lemma X15_addOccurrence_witness :
  let c' := addOccurrence 40 (lit "entropy again") (1 # 2) Sample.concept1 in
  (10 <> 40)%Z /\
  List.NoDup (List.map position (occurrences Sample.concept1)) /\
  List.find (fun x => (position x =? 10)%Z) (occurrences c')
  = List.find (fun x => (position x =? 10)%Z) (occurrences Sample.concept1) /\
  List.NoDup (List.map position (occurrences c')).
Proof.
  intros c'.
  assert (Hne : (10 <> 40)%Z) by discriminate.
  assert (Hnd : List.NoDup (List.map position (occurrences Sample.concept1)))
    by (repeat constructor; intros []).
  destruct (X15_addOccurrence 40 (lit "entropy again") (1 # 2) Sample.concept1)
    as [_ [H2 [_ [H4 _]]]].
  exact (conj Hne (conj Hnd (conj (H2 10%Z Hne) (H4 Hnd)))).
Defined.

End Occurrences.

(** ** Permanent deletion *)

Section PermanentDelete.

Import DocumentSchema DocumentServiceExtra.

(** X16.  [permanentDeleteDocument].  For the owner of a stored record,
    soft-deleted or not, the record is removed and every other record is
    left as it is, whether the deletion of the blob succeeds, fails or is
    skipped: an S3 error is logged and does not stop the deletion.  For
    anybody else, and for a missing record, it throws, nothing is sent to
    object storage and no record changes. *)
Theorem X16_permanentDeleteDocument (env : Env) (id user : N) (w : World) :
  let run := permanentDeleteDocument env id user w in
  (forall d, documents w !! id = Some d -> userId d = user ->
     fst run = Ok (lit "文档永久删除成功", id) /\
     documents (snd run) = delete id (documents w) /\
     documents (snd run) !! id = None /\
     (forall id', id' <> id -> documents (snd run) !! id' = documents w !! id')) /\
  ((forall d, documents w !! id = Some d -> userId d <> user) ->
     run = (Throw (newError (lit "永久删除文档失败: " ++ lit "文档不存在或无权访问")), w)).
Proof.
  intros run. subst run. split.
  - intros d Hd Hu.
    assert (Hdocs : documents (snd (permanentDeleteDocument env id user w))
                    = delete id (documents w)
                    /\ fst (permanentDeleteDocument env id user w)
                       = Ok (lit "文档永久删除成功", id)).
    { unfold permanentDeleteDocument, _deleteFromS3, findByIdAndDelete,
        Document.findById, consoleError.
      unfold tryCatch, bind, emit, lift, ret, throw.
      rewrite Hd, Hu, N.eqb_refl.
      destruct (someTruthy (filePath d) && s3Enabled env) eqn:E.
      - apply andb_prop in E as [_ Es3]. rewrite Es3. cbn [negb].
        destruct (s3DeleteObject env _) as [[]|e]; cbn [fst snd];
          autorewrite with world; split; reflexivity.
      - cbn [fst snd]. autorewrite with world. split; reflexivity. }
    destruct Hdocs as [Hdocs Hfst].
    split; [exact Hfst|]. split; [exact Hdocs|]. rewrite Hdocs.
    split; [apply lookup_delete_eq|].
    intros id' Hne. apply lookup_delete_ne. congruence.
  - intros Hno.
    unfold permanentDeleteDocument, Document.findById, tryCatch, bind, throw.
    destruct (documents w !! id) as [d|] eqn:Hd; [|reflexivity].
    destruct (userId d =? user) eqn:E; [|reflexivity].
    apply N.eqb_eq in E. exfalso. exact (Hno d eq_refl E).
Qed.

Lemma X16_permanentDeleteDocument_witness :
  documents Demo.world1 !! 1 = Some Demo.doc1 /\ userId Demo.doc1 = 7 /\
  fst (permanentDeleteDocument Demo.plainEnv 1 7 Demo.world1)
  = Ok (lit "文档永久删除成功", 1) /\
  documents (snd (permanentDeleteDocument Demo.plainEnv 1 7 Demo.world1)) !! 1 = None.
Proof.
  assert (Hd : documents Demo.world1 !! 1 = Some Demo.doc1) by (vm_compute; reflexivity).
  destruct (proj1 (X16_permanentDeleteDocument Demo.plainEnv 1 7 Demo.world1)
              Demo.doc1 Hd eq_refl) as [H1 [_ [H3 _]]].
  exact (conj Hd (conj eq_refl (conj H1 H3))).
Defined.

End PermanentDelete.

(** ** Storing the summary of a document *)

Section SummaryOutcome.

Import SummarySchema FileExtractService.

Lemma existsb_key_none {A} (key : A -> N * jsstring) (k : N * jsstring) (rows : list A) :
  ~ In k (List.map key rows) ->
  existsb (fun r => Summary.key_eqb (key r) k) rows = false.
Proof.
  intros H. apply not_true_iff_false. intros E.
  apply List.existsb_exists in E as [r [Hr Hk]]. apply key_eqb_eq in Hk.
  apply H. apply List.in_map_iff. exists r. auto.
Qed.

(** X17.  [generateAndSaveSummary] sends one request to the model.  When
    the model fails, or answers an empty text or one of more than 10000
    code units, it throws the message behind [摘要生成失败: ] and the
    Summary collection is not touched.  When the model answers a valid
    text and the document has no [ai_generated] summary yet, exactly one
    row is appended: the text, type [ai_generated], version 1, for the
    given document and user. *)
Theorem X17_generateAndSaveSummary (env : Env) (documentId userId : N)
    (md : jsstring) (w : World) :
  let run := generateAndSaveSummary env documentId userId md w in
  (forall e, generateSummary env md = Throw e ->
     fst run = Throw (newError (lit "摘要生成失败: " ++ message e)) /\
     summaries (snd run) = summaries w) /\
  (forall text, generateSummary env md = Ok text ->
     text = [] \/ 10000 < N.of_nat (length text) ->
     fst run = Throw (newError (lit "摘要生成失败: " ++ utf16 "Summary validation failed")) /\
     summaries (snd run) = summaries w) /\
  (forall text, generateSummary env md = Ok text ->
     text <> [] -> N.of_nat (length text) <= 10000 ->
     ~ In (documentId, ai_generated) (List.map key (summaries w)) ->
     let s := mk (nextSummaryId w) documentId userId ai_generated text 1 false in
     fst run = Ok s /\
     summaries (snd run) = summaries w ++ [s] /\
     log (snd run) = log w ++ [AIRequest Summarize; SummaryInsert s]).
Proof.
  intros run. subst run.
  unfold generateAndSaveSummary, Summary.new, Summary.save.
  unfold tryCatch, bind, emit, lift, throw. autorewrite with world.
  split; [|split].
  - intros e He. rewrite He. split; reflexivity.
  - intros text Ht Hbad. rewrite Ht. cbv beta iota.
    assert (V : validate (mk (nextSummaryId w) documentId userId ai_generated text 1 false)
                = false).
    { unfold validate. cbn [type content].
      destruct Hbad as [-> | Hlen]; [reflexivity|].
      apply N.leb_gt in Hlen. rewrite Hlen. apply andb_false_r. }
    rewrite V. split; reflexivity.
  - intros text Ht Hne Hlen Hkey. rewrite Ht. cbv beta iota zeta.
    set (s := mk (nextSummaryId w) documentId userId ai_generated text 1 false).
    assert (V : validate s = true).
    { unfold validate. subst s. cbn [type content].
      apply N.leb_le in Hlen. rewrite Hlen.
      destruct text; [contradiction | reflexivity]. }
    rewrite V. cbn [negb]. autorewrite with world.
    rewrite (existsb_key_none key (key s) (summaries w) Hkey).
    cbn [fst snd]. autorewrite with world.
    split; [reflexivity|]. split; [reflexivity|].
    rewrite <- List.app_assoc. reflexivity.
Qed.

Lemma X17_generateAndSaveSummary_witness :
  let run := generateAndSaveSummary Demo.plainEnv 1 7 (lit "Hello") emptyWorld in
  let s := mk 1 1 7 ai_generated (lit "summary") 1 false in
  generateSummary Demo.plainEnv (lit "Hello") = Ok (lit "summary") /\
  fst run = Ok s /\ summaries (snd run) = [s].
Proof.
  intros run s. split; [reflexivity|].
  destruct (proj2 (proj2 (X17_generateAndSaveSummary Demo.plainEnv 1 7 (lit "Hello")
                            emptyWorld))
              (lit "summary") eq_refl ltac:(discriminate)
              ltac:(vm_compute; discriminate) ltac:(intros []))
    as [H1 [H2 _]].
  exact (conj H1 H2).
Defined.

End SummaryOutcome.

(** ** What no request and no job does to a record *)

Section Stability.

Import PipelineSpec DocumentSchema RecordSpec.

Lemma sameIdentity_refl (d : t) : sameIdentity d d.
Proof. repeat split. Qed.

Lemma sameIdentity_trans (a b c : t) :
  sameIdentity a b -> sameIdentity b c -> sameIdentity a c.
Proof. unfold sameIdentity. intuition congruence. Qed.

Lemma ownKey_stable : stable ownKey.
Proof.
  split.
  - intros w w' Hd Hn H id d Hl. rewrite Hd in Hl. destruct (H id d Hl). split; [auto | lia].
  - intros w w' id d d' Hl [Hid _] Hd Hn H id' d'' Hl'. rewrite Hd in Hl'. rewrite Hn.
    destruct (decide (id' = id)) as [->|Hne].
    + rewrite lookup_insert_eq in Hl'. injection Hl' as <-.
      destruct (H id d Hl). split; [congruence | assumption].
    + rewrite lookup_insert_ne in Hl' by congruence. exact (H id' d'' Hl').
  - intros w w' d Hid Hd Hn H id' d'' Hl'. rewrite Hd in Hl'. rewrite Hn.
    destruct (decide (id' = _id d)) as [->|Hne].
    + rewrite lookup_insert_eq in Hl'. injection Hl' as <-. split; [reflexivity | lia].
    + rewrite lookup_insert_ne in Hl' by congruence.
      destruct (H id' d'' Hl'). split; [assumption | lia].
Qed.

Lemma kept_stable (id0 : N) (d0 : t) : stable (kept id0 d0).
Proof.
  split.
  - intros w w' Hd Hn [Hlt [d' [Hl Hs]]]. split; [lia|]. exists d'. rewrite Hd. auto.
  - intros w w' id d d1 Hl Hs Hd Hn [Hlt [d' [Hl' Hs']]]. split; [lia|]. rewrite Hd.
    destruct (decide (id0 = id)) as [->|Hne].
    + exists d1. rewrite lookup_insert_eq. split; [reflexivity|].
      rewrite Hl in Hl'. injection Hl' as <-. eapply sameIdentity_trans; eassumption.
    + exists d'. rewrite lookup_insert_ne by congruence. auto.
  - intros w w' d Hid Hd Hn [Hlt [d' [Hl' Hs']]]. split; [lia|]. rewrite Hd.
    exists d'. rewrite lookup_insert_ne by lia. auto.
Qed.

Section Generic.

Variable I : World -> Prop.
Hypothesis HI : stable I.

Lemma stable_outsideLog {A} (m : M A) : preserves outsideLog m -> maintains I m.
Proof.
  intros H w Hw. specialize (H w). unfold outsideLog, outsideDocuments in H.
  injection H as Hd _ _ Hn _ _ _.
  apply (stable_frame I HI w); [exact Hd | rewrite Hn; lia | exact Hw].
Qed.

Lemma stable_view {A} (m : M A) : preserves documentView m -> maintains I m.
Proof.
  intros H w Hw. specialize (H w). unfold documentView in H.
  injection H as Hd Hn _ _.
  apply (stable_frame I HI w); [exact Hd | rewrite Hn; lia | exact Hw].
Qed.

Lemma stable_emit (ev : Event) : maintains I (emit ev).
Proof. intros w Hw. apply (stable_frame I HI w); [reflexivity | reflexivity | exact Hw]. Qed.

Lemma stable_consoleError (label : string) (e : Error) :
  maintains I (consoleError label e).
Proof. apply stable_emit. Qed.

Lemma stable_spawn (j : Job) : maintains I (spawn j).
Proof. intros w Hw. apply (stable_frame I HI w); [reflexivity | reflexivity | exact Hw]. Qed.

Lemma stable_findById (id : N) : maintains I (Document.findById id).
Proof. intros w Hw. exact Hw. Qed.

Lemma stable_paths (id : N) (paths : t -> t) :
  keepsIdentity paths -> maintains I (Document.update id paths).
Proof.
  intros Hp w Hw. unfold Document.update.
  destruct (documents w !! id) as [d|] eqn:Hd; [|exact Hw].
  apply (stable_update I HI w _ id d (paths d) Hd (Hp d)); [reflexivity | reflexivity | exact Hw].
Qed.

Lemma stable_new_save {B} (userId : N) (title format : jsstring)
    (filePath : option jsstring) (mimeType : jsstring) (url : option jsstring)
    (status : Status) (tags : list jsstring) (k : t -> M B) :
  (forall d, maintains I (k d)) ->
  maintains I
    (document <- Document.new userId title format filePath mimeType url status tags;;
     document <- Document.save document;;
     k document).
Proof.
  intros Hk w Hw. unfold bind at 1. unfold Document.new. cbv beta iota.
  match goal with |- context [Document.save ?d0] => set (d := d0) end.
  unfold bind at 1. unfold Document.save at 1.
  destruct (validate d).
  - apply Hk.
    apply (stable_create I HI w _ d eq_refl); [reflexivity | reflexivity | exact Hw].
  - apply (stable_frame I HI w); [reflexivity | cbn; lia | exact Hw].
Qed.


Lemma keeps_status (status : Status) (error : option jsstring) :
  keepsIdentity (updateProcessingStatus status error).
Proof.
  intros d. unfold updateProcessingStatus. destruct (someTruthy error); repeat split.
Qed.

Lemma stable_processAIFeatures (env : Env) (id : N) (md : jsstring) :
  maintains I (FileExtractService.processAIFeatures env id md).
Proof.
  unfold FileExtractService.processAIFeatures. apply maintains_tryCatch.
  2:{ intros e. apply maintains_bind; [apply stable_consoleError|].
      intros _. apply maintains_throw. }
  apply maintains_bind; [apply stable_findById|]. intros [d|].
  2:{ apply maintains_throw. }
  apply maintains_bind; [apply stable_emit|]. intros _.
  apply maintains_bind; [apply maintains_lift|]. intros restructured.
  apply maintains_bind.
  { apply stable_paths. intros d0. repeat split. }
  intros _.
  apply maintains_bind.
  { apply maintains_settle, stable_view, view_generateAndSaveSummary. }
  intros summaryResult.
  apply maintains_bind.
  { apply maintains_settle, stable_view, view_extractAndSaveConcepts. }
  intros conceptsResult.
  apply maintains_bind.
  - destruct summaryResult; [apply maintains_ret | apply stable_consoleError].
  - intros _. destruct conceptsResult; [apply maintains_ret | apply stable_consoleError].
Qed.

Lemma stable_extractToMarkdown (env : Env) (id : N) (buf : Buffer) (mime : jsstring) :
  maintains I (FileExtractService.extractToMarkdown env id buf mime).
Proof.
  unfold FileExtractService.extractToMarkdown. apply maintains_tryCatch.
  - apply maintains_bind; [apply stable_emit|]. intros _.
    apply maintains_bind.
    { destruct (JS.eqb mime application_pdf).
      - intros w Hw. rewrite pure_extractPdfToMarkdown. exact Hw.
      - destruct (_ || _); [apply maintains_throw|].
        destruct (JS.eqb mime text_plain); [apply maintains_ret | apply maintains_throw]. }
    intros md.
    apply maintains_bind; [apply stable_paths; intros d0; repeat split|]. intros _.
    apply maintains_bind; [apply stable_spawn|]. intros _. apply maintains_ret.
  - intros e. apply maintains_bind; [|intros _; apply maintains_throw].
    apply stable_paths. intros d0. repeat split.
Qed.

Lemma stable_runJob (env : Env) (j : Job) : maintains I (runJob env j).
Proof.
  destruct j as [id buf mime | id md]; unfold runJob.
  - apply maintains_tryCatch; [|intros e; apply stable_consoleError].
    unfold DocumentService.processFileExtraction. apply maintains_tryCatch.
    + apply maintains_bind; [apply stable_paths; intros d0; repeat split|]. intros _.
      apply maintains_bind; [apply stable_extractToMarkdown|]. intros _.
      apply maintains_ret.
    + intros e. apply maintains_bind; [apply stable_consoleError|]. intros _.
      apply stable_paths. intros d0. repeat split.
  - apply maintains_tryCatch; [|intros e; apply stable_consoleError].
    apply stable_processAIFeatures.
Qed.

Lemma stable_async_handle (env : Env) (req : DocumentController.Request) :
  maintains I (DocumentController.handle (serviceAsync env) req).
Proof.
  apply handle_maintains; cbn [serviceAsync DocumentController.svc_uploadDocument
    DocumentController.svc_getDocument DocumentController.svc_listUserDocuments
    DocumentController.svc_deleteDocument DocumentController.svc_getFileStream
    DocumentController.svc_addUrlDocument
    DocumentController.svc_parseAndConvertDocument].
  - apply stable_consoleError.
  - intros f u m. apply maintains_bind; [|intros r; apply maintains_ret].
    unfold DocumentService.uploadDocument.
    apply maintains_tryCatch; [|intros e; apply maintains_throw].
    apply maintains_bind.
    { unfold DocumentService._validateFile.
      destruct (_ <? _); [apply maintains_throw|].
      destruct (lookup _ _); [apply maintains_ret | apply maintains_throw]. }
    intros _. cbv zeta.
    apply maintains_bind.
    { unfold DocumentService._uploadToS3.
      destruct (negb (s3Enabled env)); [apply maintains_throw|].
      apply maintains_tryCatch; [|intros e; apply maintains_throw].
      apply maintains_bind; [apply stable_emit|]. intros _. apply maintains_lift. }
    intros s3Result.
    refine (stable_new_save _ _ _ _ _ _ _ _ _ _). intros d.
    apply maintains_bind; [apply stable_spawn|]. intros _. apply maintains_ret.
  - intros id u. unfold DocumentService.getDocument.
    apply maintains_tryCatch; [|intros e; apply maintains_throw].
    apply maintains_bind; [apply stable_findById|]. intros [d|].
    + destruct (_ && _); [apply maintains_ret | apply maintains_throw].
    + apply maintains_throw.
  - intros u f. unfold DocumentService.listUserDocuments.
    apply maintains_tryCatch; [|intros e; apply maintains_throw].
    intros w Hw. exact Hw.
  - intros id u. unfold DocumentService.deleteDocument.
    apply maintains_tryCatch; [|intros e; apply maintains_throw].
    apply maintains_bind; [apply stable_findById|]. intros [d|].
    + destruct (_ && _); [|apply maintains_throw].
      apply stable_paths. intros d0. repeat split.
    + apply maintains_throw.
  - intros k. unfold DocumentService.getFileStream.
    apply maintains_tryCatch; [|intros e; apply maintains_throw].
    destruct (negb (s3Enabled env)); [apply maintains_throw|].
    apply maintains_bind; [apply stable_emit|]. intros _. apply maintains_lift.
  - intros f E. discriminate E.
  - intros f E. discriminate E.
Qed.

Lemma stable_parseAndConvertDocument (env : Env) (id : N) (fb : option File) :
  maintains I (DocumentServiceSync.parseAndConvertDocument env id fb).
Proof.
  eapply maintains_ext; [apply parseAndConvertDocument_unfold|].
  apply maintains_tryCatch.
  - apply maintains_bind; [apply stable_emit|]. intros _.
    apply maintains_bind; [apply stable_findById|]. intros [d|].
    2:{ apply maintains_throw. }
    apply maintains_bind; [apply stable_paths, keeps_status|].
    intros _. cbv zeta.
    apply maintains_bind; [apply stable_outsideLog, convert_outsideLog|].
    intros md. apply maintains_bind; [|intros; apply maintains_ret].
    apply stable_paths. intros d0. repeat split.
  - intros e. apply maintains_bind; [apply stable_consoleError|]. intros _.
    apply maintains_bind; [apply stable_findById|]. intros doc.
    apply maintains_bind; [|intros; apply maintains_throw].
    destruct doc as [d|]; [|apply maintains_ret].
    apply stable_paths, keeps_status.
Qed.

Lemma stable_parsed {B} (env : Env) (d : t) (fb : option File) (label : string)
    (k : option t -> M B) :
  (forall u, maintains I (k u)) ->
  maintains I
    (tryCatch
       (DocumentServiceSync.parseAndConvertDocument env (_id d) fb;;; ret tt)
       (fun parseError =>
          consoleError label parseError;;;
          Document.update (_id d)
            (updateProcessingStatus failed (Some (message parseError))));;;
     u <- Document.findById (_id d);; k u).
Proof.
  intros Hk. apply maintains_bind.
  - apply maintains_tryCatch.
    + apply maintains_bind; [apply stable_parseAndConvertDocument|].
      intros _. apply maintains_ret.
    + intros e. apply maintains_bind; [apply stable_consoleError|].
      intros _. apply stable_paths, keeps_status.
  - intros _. apply maintains_bind; [apply stable_findById | exact Hk].
Qed.

Lemma stable_sync_handle (env : Env) (req : DocumentController.Request) :
  maintains I (DocumentController.handle (serviceSync env) req).
Proof.
  apply handle_maintains; cbn [serviceSync DocumentController.svc_uploadDocument
    DocumentController.svc_getDocument DocumentController.svc_listUserDocuments
    DocumentController.svc_deleteDocument DocumentController.svc_getFileStream
    DocumentController.svc_addUrlDocument
    DocumentController.svc_parseAndConvertDocument].
  - apply stable_consoleError.
  - intros f u m. apply maintains_bind; [|intros r; apply maintains_ret].
    unfold DocumentServiceSync.uploadDocument. apply maintains_tryCatch.
    2:{ intros e. apply maintains_bind; [apply stable_consoleError|].
        intros _. apply maintains_throw. }
    cbv zeta.
    destruct (negb (DocumentServiceSync.isValid (DocumentServiceSync.validateFile env f)));
      [apply maintains_throw|].
    apply maintains_bind; [apply stable_outsideLog, uploadToS3_outsideLog|].
    intros location.
    refine (stable_new_save _ _ _ _ _ _ _ _ _ _). intros d.
    refine (stable_parsed env d _ _ _ _).
    intros [r|]; [apply maintains_ret | apply maintains_throw].
  - intros id u. unfold DocumentServiceSync.getDocument. apply maintains_tryCatch.
    + apply maintains_bind; [apply stable_findById|]. intros [d|].
      * destruct (_ && _); [apply maintains_ret | apply maintains_throw].
      * apply maintains_throw.
    + intros e. apply maintains_bind; [apply stable_consoleError|].
      intros _. apply maintains_throw.
  - intros u f. unfold DocumentServiceSync.listUserDocuments. apply maintains_tryCatch.
    + intros w Hw. exact Hw.
    + intros e. apply maintains_bind; [apply stable_consoleError|].
      intros _. apply maintains_throw.
  - intros id u. unfold DocumentServiceSync.deleteDocument. apply maintains_tryCatch.
    + apply maintains_bind; [apply stable_findById|]. intros [d|].
      * destruct (_ && _); [|apply maintains_throw].
        apply maintains_bind.
        -- destruct (filePath d) as [key|]; [|apply maintains_ret].
           destruct (truthy key); [|apply maintains_ret].
           unfold DocumentServiceSync.deleteFromS3.
           destruct (DocumentServiceSync.mockS3 env); [apply maintains_ret|].
           apply maintains_tryCatch.
           ++ apply maintains_bind; [apply stable_emit|]. intros _. apply maintains_lift.
           ++ intros e. apply maintains_bind; [apply stable_consoleError|].
              intros _. apply maintains_throw.
        -- intros _. apply stable_paths. intros d0. repeat split.
      * apply maintains_throw.
    + intros e. apply maintains_bind; [apply stable_consoleError|].
      intros _. apply maintains_throw.
  - intros k. apply stable_outsideLog, getFileStream_outsideLog.
  - intros f E url u m. injection E as <-.
    unfold DocumentServiceSync.addUrlDocument. apply maintains_tryCatch.
    2:{ intros e. apply maintains_bind; [apply stable_consoleError|].
        intros _. apply maintains_throw. }
    destruct (negb (validUrl env url)); [apply maintains_throw|].
    refine (stable_new_save _ _ _ _ _ _ _ _ _ _). intros d.
    refine (stable_parsed env d _ _ _ _).
    intros [r|]; [apply maintains_ret | apply maintains_throw].
  - intros f E id fb. injection E as <-. apply stable_parseAndConvertDocument.
Qed.

Lemma stable_step (w w' : World) : stepAsync w w' \/ stepSync w w' -> I w -> I w'.
Proof.
  intros [Hstep | Hstep] Hw.
  - destruct Hstep as [env req w | env j before after w Hdet].
    + apply stable_async_handle. exact Hw.
    + apply stable_runJob.
      apply (stable_frame I HI w); [reflexivity | reflexivity | exact Hw].
  - destruct Hstep as [env req w]. apply stable_sync_handle. exact Hw.
Qed.

End Generic.

Lemma ownKey_empty : ownKey emptyWorld.
Proof.
  intros id d H. unfold emptyWorld in H. cbn [documents] in H.
  rewrite lookup_empty in H. discriminate H.
Qed.

Lemma ownKey_reachable (step : World -> World -> Prop) (w : World) :
  (forall a b, step a b -> stepAsync a b \/ stepSync a b) ->
  reachable step w -> ownKey w.
Proof.
  intros Hs. induction 1 as [|w w' _ IH Hstep]; [exact ownKey_empty|].
  exact (stable_step ownKey ownKey_stable w w' (Hs _ _ Hstep) IH).
Qed.

Lemma ownKey_reached (w : World) :
  reachable stepAsync w \/ reachable stepSync w -> ownKey w.
Proof.
  intros [H | H]; [apply (ownKey_reachable stepAsync) | apply (ownKey_reachable stepSync)];
    auto.
Qed.

(** X18.  In every world that either assembly reaches, each record is
    stored under its own [_id], and that id is below the id supply: ids are
    never reused, and no stored record answers to another id. *)
Theorem X18_own_key (w : World) (id : N) (d : t) :
  reachable stepAsync w \/ reachable stepSync w ->
  documents w !! id = Some d ->
  _id d = id /\ id < nextDocumentId w.
Proof. intros Hr. apply ownKey_reached. exact Hr. Qed.

(** X19.  No step of either assembly (a served request or a detached job)
    removes a record of a reached world or changes its identity: the
    record is still stored under its id, with the same owner, title,
    format, file key, MIME type, URL and tags. *)
Theorem X19_records_stay (w w' : World) (id : N) (d : t) :
  reachable stepAsync w \/ reachable stepSync w ->
  stepAsync w w' \/ stepSync w w' ->
  documents w !! id = Some d ->
  exists d', documents w' !! id = Some d' /\ sameIdentity d d'.
Proof.
  intros Hr Hstep Hd.
  assert (Hk : kept id d w).
  { split; [exact (proj2 (ownKey_reached w Hr id d Hd))|].
    exists d. split; [exact Hd | apply sameIdentity_refl]. }
  exact (proj2 (stable_step (kept id d) (kept_stable id d) w w' Hstep Hk)).
Qed.

Lemma scannedUploaded_reachable : reachable stepAsync Demo.scannedUploaded.
Proof.
  unfold Demo.scannedUploaded.
  apply (reachable_step stepAsync emptyWorld); [apply reachable_init|].
  apply stepAsync_request.
Qed.

Lemma scannedWorld_step : stepAsync Demo.scannedUploaded Demo.scannedWorld.
Proof. unfold Demo.scannedWorld. apply stepAsync_job. vm_compute. reflexivity. Qed.

Lemma X18_own_key_witness :
  exists d, documents Demo.scannedWorld !! 1 = Some d /\
            _id d = 1 /\ 1 < nextDocumentId Demo.scannedWorld.
Proof.
  destruct (documents Demo.scannedWorld !! 1) as [d|] eqn:Hd;
    [|vm_compute in Hd; discriminate Hd].
  exists d. split; [reflexivity|].
  exact (X18_own_key Demo.scannedWorld 1 d (or_introl scannedWorld_reachable) Hd).
Defined.

Lemma X19_records_stay_witness :
  exists d, documents Demo.scannedUploaded !! 1 = Some d /\
  exists d', documents Demo.scannedWorld !! 1 = Some d' /\ sameIdentity d d'.
Proof.
  destruct (documents Demo.scannedUploaded !! 1) as [d|] eqn:Hd;
    [|vm_compute in Hd; discriminate Hd].
  exists d. split; [reflexivity|].
  exact (X19_records_stay Demo.scannedUploaded Demo.scannedWorld 1 d
           (or_introl scannedUploaded_reachable) (or_introl scannedWorld_step) Hd).
Defined.

End Stability.

(** ** ExerciseRecord *)

Section Statistics.

Import ExerciseRecord.

Lemma count_tallied (answer : Answer) (t : Tally) :
  attempted (count answer t) = attempted t + 1 /\
  correct (count answer t) = correct t + (if isCorrect answer then 1 else 0) /\
  (correct t <= attempted t -> correct (count answer t) <= attempted (count answer t)).
Proof. unfold count. cbn. destruct (isCorrect answer); repeat split; lia. Qed.

Lemma difficulty_fold (answers : list Answer) (b : DifficultyBreakdown) :
  let r :=
    fold_left
      (fun breakdown answer =>
         if atMost (difficulty answer) 2 then
           {| easy := count answer (easy breakdown);
              medium := medium breakdown; hard := hard breakdown |}
         else if atMost (difficulty answer) 3 then
           {| easy := easy breakdown;
              medium := count answer (medium breakdown); hard := hard breakdown |}
         else
           {| easy := easy breakdown; medium := medium breakdown;
              hard := count answer (hard breakdown) |})
      answers b in
  attempted (easy r) + attempted (medium r) + attempted (hard r)
    = attempted (easy b) + attempted (medium b) + attempted (hard b) + totalQuestions answers /\
  correct (easy r) + correct (medium r) + correct (hard r)
    = correct (easy b) + correct (medium b) + correct (hard b) + correctAnswers answers /\
  (correct (easy b) <= attempted (easy b) -> correct (easy r) <= attempted (easy r)) /\
  (correct (medium b) <= attempted (medium b) -> correct (medium r) <= attempted (medium r)) /\
  (correct (hard b) <= attempted (hard b) -> correct (hard r) <= attempted (hard r)).
Proof.
  revert b. unfold totalQuestions, correctAnswers.
  induction answers as [|a rest IH]; intros b.
  - cbn. repeat split; lia.
  - cbn [fold_left]. cbv zeta in IH |- *.
    match goal with |- context [fold_left ?f rest ?b'] => specialize (IH b'); set (r := fold_left f rest b') in * end.
    clearbody r. destruct IH as [H1 [H2 [H3 [H4 H5]]]].
    cbn [length List.filter].
    destruct (atMost (difficulty a) 2); [|destruct (atMost (difficulty a) 3)];
      cbn [easy medium hard] in *;
      destruct (count_tallied a (easy b)) as [E1 [E2 E3]];
      destruct (count_tallied a (medium b)) as [M1 [M2 M3]];
      destruct (count_tallied a (hard b)) as [D1 [D2 D3]];
      destruct (isCorrect a); cbn [length];
      repeat split; try tauto; lia.
Qed.

Lemma type_fold (answers : list Answer) (b : TypeBreakdown) :
  let r :=
    fold_left
      (fun breakdown answer =>
         match questionType answer with
         | multiple_choice =>
           {| of_multiple_choice := count answer (of_multiple_choice breakdown);
              of_true_false := of_true_false breakdown;
              of_short_answer := of_short_answer breakdown |}
         | true_false =>
           {| of_multiple_choice := of_multiple_choice breakdown;
              of_true_false := count answer (of_true_false breakdown);
              of_short_answer := of_short_answer breakdown |}
         | short_answer =>
           {| of_multiple_choice := of_multiple_choice breakdown;
              of_true_false := of_true_false breakdown;
              of_short_answer := count answer (of_short_answer breakdown) |}
         end)
      answers b in
  attempted (of_multiple_choice r) + attempted (of_true_false r) + attempted (of_short_answer r)
    = attempted (of_multiple_choice b) + attempted (of_true_false b)
      + attempted (of_short_answer b) + totalQuestions answers /\
  correct (of_multiple_choice r) + correct (of_true_false r) + correct (of_short_answer r)
    = correct (of_multiple_choice b) + correct (of_true_false b)
      + correct (of_short_answer b) + correctAnswers answers /\
  (correct (of_multiple_choice b) <= attempted (of_multiple_choice b) ->
   correct (of_multiple_choice r) <= attempted (of_multiple_choice r)) /\
  (correct (of_true_false b) <= attempted (of_true_false b) ->
   correct (of_true_false r) <= attempted (of_true_false r)) /\
  (correct (of_short_answer b) <= attempted (of_short_answer b) ->
   correct (of_short_answer r) <= attempted (of_short_answer r)).
Proof.
  revert b. unfold totalQuestions, correctAnswers.
  induction answers as [|a rest IH]; intros b.
  - cbn. repeat split; lia.
  - cbn [fold_left]. cbv zeta in IH |- *.
    match goal with |- context [fold_left ?f rest ?b'] => specialize (IH b'); set (r := fold_left f rest b') in * end.
    clearbody r. destruct IH as [H1 [H2 [H3 [H4 H5]]]].
    cbn [length List.filter].
    destruct (questionType a);
      cbn [of_multiple_choice of_true_false of_short_answer] in *;
      destruct (count_tallied a (of_multiple_choice b)) as [E1 [E2 E3]];
      destruct (count_tallied a (of_true_false b)) as [M1 [M2 M3]];
      destruct (count_tallied a (of_short_answer b)) as [D1 [D2 D3]];
      destruct (isCorrect a); cbn [length];
      repeat split; try tauto; lia.
Qed.

(** X20.  The two breakdowns that an ExerciseRecord computes before it is
    saved each partition the answers: over the three difficulty classes,
    and over the three question types, the [attempted] counters add up to
    [performance.totalQuestions], the [correct] counters add up to
    [performance.correctAnswers], and no class has more correct than
    attempted answers. *)
Theorem X20_breakdowns_partition (answers : list Answer) :
  let d := calculateDifficultyBreakdown answers in
  let t := calculateTypeBreakdown answers in
  attempted (easy d) + attempted (medium d) + attempted (hard d) = totalQuestions answers /\
  correct (easy d) + correct (medium d) + correct (hard d) = correctAnswers answers /\
  attempted (of_multiple_choice t) + attempted (of_true_false t)
    + attempted (of_short_answer t) = totalQuestions answers /\
  correct (of_multiple_choice t) + correct (of_true_false t)
    + correct (of_short_answer t) = correctAnswers answers /\
  Forall (fun c => correct c <= attempted c)
    [easy d; medium d; hard d; of_multiple_choice t; of_true_false t; of_short_answer t].
Proof.
  intros d t.
  destruct (difficulty_fold answers {| easy := zero; medium := zero; hard := zero |})
    as [D1 [D2 [D3 [D4 D5]]]].
  destruct (type_fold answers
              {| of_multiple_choice := zero; of_true_false := zero;
                 of_short_answer := zero |})
    as [T1 [T2 [T3 [T4 T5]]]].
  fold (calculateDifficultyBreakdown answers) in D1, D2, D3, D4, D5.
  fold (calculateTypeBreakdown answers) in T1, T2, T3, T4, T5.
  fold d in D1, D2, D3, D4, D5. fold t in T1, T2, T3, T4, T5.
  cbn [easy medium hard of_multiple_choice of_true_false of_short_answer zero
       attempted correct] in *.
  split; [lia|]. split; [lia|]. split; [lia|]. split; [lia|].
  repeat constructor; [apply D3 | apply D4 | apply D5 | apply T3 | apply T4 | apply T5];
    reflexivity.
Qed.

Lemma Qle_bool_mono (c p q : Q) :
  (p <= q)%Q -> Qle_bool c p = true -> Qle_bool c q = true.
Proof.
  intros H Hc. apply Qle_bool_iff. apply Qle_bool_iff in Hc.
  eapply Qle_trans; eassumption.
Qed.

Lemma Qle_bool_step (c c' p : Q) :
  (c' <= c)%Q -> Qle_bool c p = true -> Qle_bool c' p = true.
Proof.
  intros H Hc. apply Qle_bool_iff. apply Qle_bool_iff in Hc.
  eapply Qle_trans; eassumption.
Qed.

(** X21.  [calculateGrade] is monotone: a higher percentage never gets a
    lower grade.  The grade is ["F"] exactly below 60 and ["A+"] exactly
    from 97. *)
Theorem X21_calculateGrade_monotone (p q : Q) :
  (p <= q)%Q ->
  (gradeRank (calculateGrade p) <= gradeRank (calculateGrade q))%nat /\
  (calculateGrade p = "F"%string <-> (p < 60)%Q) /\
  (calculateGrade q = "A+"%string <-> (97 <= q)%Q).
Proof.
  intros H. split; [|split].
  - unfold calculateGrade.
    repeat match goal with
    | |- (gradeRank (if Qle_bool ?c p then _ else _) <= _)%nat =>
      let E := fresh "E" in
      destruct (Qle_bool c p) eqn:E;
      [rewrite (Qle_bool_mono c p q H E);
       repeat first
         [ progress cbv iota
         | match goal with
           | |- (_ <= gradeRank (if ?b then _ else _))%nat => destruct b
           end ];
       vm_compute; lia |]
    end.
    vm_compute. lia.
  - unfold calculateGrade.
    destruct (Qle_bool 60 p) eqn:E60.
    + assert (H60 : (60 <= p)%Q) by (apply Qle_bool_iff; exact E60).
      split.
      * repeat match goal with
        | |- context [if ?b then _ else _] => destruct b
        end; discriminate.
      * intros Hlt. exfalso. apply (Qlt_not_le _ _ Hlt H60).
    + assert (forall c, (60 <= c)%Q -> Qle_bool c p = false) as Hc.
      { intros c Hle. destruct (Qle_bool c p) eqn:E; [|reflexivity].
        rewrite (Qle_bool_step c 60 p Hle E) in E60. discriminate E60. }
      rewrite !Hc by (unfold Qle; cbn; lia).
      split; [intros _|reflexivity].
      apply Qnot_le_lt. intros Hle. apply Qle_bool_iff in Hle. congruence.
  - unfold calculateGrade. destruct (Qle_bool 97 q) eqn:E.
    + split; [intros _; apply Qle_bool_iff; exact E | reflexivity].
    + split.
      * repeat match goal with
        | |- context [if ?b then _ else _] => destruct b
        end; discriminate.
      * intros Hle. apply Qle_bool_iff in Hle. congruence.
Qed.

Lemma X21_calculateGrade_monotone_witness :
  (89 # 1 <= 925 # 10)%Q /\
  (gradeRank (calculateGrade (89 # 1)) <= gradeRank (calculateGrade (925 # 10)))%nat.
Proof.
  assert (H : (89 # 1 <= 925 # 10)%Q) by (unfold Qle; cbn; lia).
  exact (conj H (proj1 (X21_calculateGrade_monotone (89 # 1) (925 # 10) H))).
Defined.

End Statistics.

(** ** The record invariant *)

Section Told.

Import PipelineSpec InvariantSpec.

Context {A B : Type}.

Lemma throwsOnly_ret E (a : A) : throwsOnly E (ret a).
Proof. intros w e w' H. discriminate H. Qed.

Lemma throwsOnly_throw (E : Error -> Prop) (e : Error) : E e -> throwsOnly E (@throw A e).
Proof. intros He w e' w' H. injection H as <- _. exact He. Qed.

Lemma throwsOnly_lift (E : Error -> Prop) (r : Result A) :
  (forall e, r = Throw e -> E e) -> throwsOnly E (lift r).
Proof. intros Hr w e w' H. injection H as H _. exact (Hr e H). Qed.

Lemma throwsOnly_bind E (m : M A) (k : A -> M B) :
  throwsOnly E m -> (forall a, throwsOnly E (k a)) -> throwsOnly E (bind m k).
Proof.
  intros Hm Hk w e w'. unfold bind. specialize (Hm w).
  destruct (m w) as [[a | e1] w1].
  - apply Hk.
  - intros H. injection H as <- _. exact (Hm e1 w1 eq_refl).
Qed.

(** The continuation may rely on a property of the value. *)
Lemma throwsOnly_bind_post E (Q : A -> Prop) (m : M A) (k : A -> M B) :
  throwsOnly E m ->
  (forall w a w1, m w = (Ok a, w1) -> Q a) ->
  (forall a, Q a -> throwsOnly E (k a)) ->
  throwsOnly E (bind m k).
Proof.
  intros Hm HQ Hk w e w'. unfold bind. specialize (Hm w). specialize (HQ w).
  destruct (m w) as [[a | e1] w1].
  - apply Hk. exact (HQ a w1 eq_refl).
  - intros H. injection H as <- _. exact (Hm e1 w1 eq_refl).
Qed.

Lemma throwsOnly_tryCatch E (m : M A) (h : Error -> M A) :
  throwsOnly E m -> (forall e, E e -> throwsOnly E (h e)) ->
  throwsOnly E (tryCatch m h).
Proof.
  intros Hm Hh w e w'. unfold tryCatch. specialize (Hm w).
  destruct (m w) as [[a | e1] w1].
  - intros H. discriminate H.
  - apply Hh. exact (Hm e1 w1 eq_refl).
Qed.

(** A handler that says why for every error. *)
Lemma throwsOnly_handler E (m : M A) (h : Error -> M A) :
  (forall e, throwsOnly E (h e)) -> throwsOnly E (tryCatch m h).
Proof.
  intros Hh w e w'. unfold tryCatch. destruct (m w) as [[a | e1] w1].
  - intros H. discriminate H.
  - apply Hh.
Qed.

Lemma throwsOnly_ext E (m m' : M A) :
  (forall w, m w = m' w) -> throwsOnly E m' -> throwsOnly E m.
Proof. intros Heq H w e w' Hm. rewrite Heq in Hm. exact (H w e w' Hm). Qed.

(** A handler may rely on what is known of the errors it catches. *)
Lemma maintains_tryCatch_told I E (m : M A) (h : Error -> M A) :
  maintains I m -> throwsOnly E m -> (forall e, E e -> maintains I (h e)) ->
  maintains I (tryCatch m h).
Proof.
  intros Hm Ht Hh w Hw. specialize (Hm w Hw). specialize (Ht w). unfold tryCatch.
  destruct (m w) as [[a | e] w1]; cbn [snd] in *; [exact Hm|].
  apply Hh; [exact (Ht e w1 eq_refl) | exact Hm].
Qed.

End Told.

Section ToldPrimitives.

Import PipelineSpec InvariantSpec DocumentSchema.

Lemma throwsOnly_emit E (ev : Event) : throwsOnly E (emit ev).
Proof. intros w e w' H. discriminate H. Qed.

Lemma throwsOnly_consoleError E (label : string) (e : Error) :
  throwsOnly E (consoleError label e).
Proof. apply throwsOnly_emit. Qed.

Lemma throwsOnly_findById E (id : N) : throwsOnly E (Document.findById id).
Proof. intros w e w' H. discriminate H. Qed.

Lemma throwsOnly_update E (id : N) (paths : t -> t) :
  throwsOnly E (Document.update id paths).
Proof.
  intros w e w'. unfold Document.update. destruct (documents w !! id); discriminate.
Qed.

Lemma told_prefix (prefix rest : jsstring) (kind : ErrorName) :
  truthy prefix = true -> told (mkError kind (prefix ++ rest)).
Proof. intros H. unfold told. cbn [message]. apply truthy_app_l. exact H. Qed.

Lemma told_convert (env : Env) (d : t) (fb : option File) :
  saysWhy env -> throwsOnly told (convert env d fb).
Proof.
  intros [Hpdf Hs3]. unfold convert.
  apply throwsOnly_bind.
  - destruct fb as [file|]; [apply throwsOnly_ret|].
    apply (throwsOnly_bind_post _ (fun stream => forall e, stream = Throw e -> told e)).
    + unfold DocumentServiceSync.getFileStream.
      destruct (DocumentServiceSync.mockS3 env); [apply throwsOnly_ret|].
      apply throwsOnly_handler.
      intros e. apply throwsOnly_bind; [apply throwsOnly_consoleError|].
      intros _. apply throwsOnly_throw. apply told_prefix. reflexivity.
    + intros w stream w1. unfold DocumentServiceSync.getFileStream.
      destruct (DocumentServiceSync.mockS3 env).
      * intros H. injection H as <- _. intros e He. discriminate He.
      * unfold consoleError. unfold tryCatch, bind, emit, lift, throw.
        destruct (s3GetObject env (filePath d)) as [s | e0] eqn:Es; [|discriminate].
        intros H. injection H as <- _. intros e ->. exact (Hs3 _ _ Es).
    + intros stream Hstream. unfold DocumentServiceSync.streamToBuffer.
      apply throwsOnly_lift. exact Hstream.
  - intros bytes. destruct (JS.eqb (originalFormat d) (lit "pdf")).
    + apply throwsOnly_bind; [apply throwsOnly_lift; intros e He; exact (Hpdf _ _ He)|].
      intros pdfData.
      destruct (PdfText.convertPdfTextToMarkdown _ _ pdfData);
        [apply throwsOnly_ret | apply throwsOnly_throw; reflexivity].
    + destruct (JS.eqb (originalFormat d) (lit "url"));
        [apply throwsOnly_ret|].
      apply throwsOnly_throw. apply told_prefix. reflexivity.
Qed.

Lemma told_parseAndConvertDocument (env : Env) (id : N) (fb : option File) :
  saysWhy env ->
  throwsOnly told (DocumentServiceSync.parseAndConvertDocument env id fb).
Proof.
  intros Hwhy. eapply throwsOnly_ext; [apply parseAndConvertDocument_unfold|].
  apply throwsOnly_tryCatch.
  - apply throwsOnly_bind; [apply throwsOnly_emit|]. intros _.
    apply throwsOnly_bind; [apply throwsOnly_findById|]. intros [d|].
    2:{ apply throwsOnly_throw. reflexivity. }
    apply throwsOnly_bind; [apply throwsOnly_update|]. intros _. cbv zeta.
    apply throwsOnly_bind; [apply told_convert; exact Hwhy|]. intros md.
    apply throwsOnly_bind; [apply throwsOnly_update|]. intros _. apply throwsOnly_ret.
  - intros e He. apply throwsOnly_bind; [apply throwsOnly_consoleError|]. intros _.
    apply throwsOnly_bind; [apply throwsOnly_findById|]. intros doc.
    apply throwsOnly_bind; [|intros _; apply throwsOnly_throw; exact He].
    destruct doc; [apply throwsOnly_update | apply throwsOnly_ret].
Qed.

End ToldPrimitives.

(** Invariants of the Document collection and of the writes of the log,
    over the synchronous service. *)

Section SyncRecords.

Import PipelineSpec InvariantSpec DocumentSchema.

Variable env : Env.
Variable I : World -> Prop.

Hypothesis Hwhy : saysWhy env.

Hypothesis I_frame : forall w w',
  documents w' = documents w -> writes w' = writes w -> I w -> I w'.
Hypothesis I_processing : forall id,
  maintains I (Document.update id (updateProcessingStatus processing None)).
Hypothesis I_completed : forall id md,
  md <> [] ->
  maintains I
    (Document.update id
       (fun d => updateProcessingStatus completed None (set_markdownContent md d))).
Hypothesis I_failed : forall id e,
  told e ->
  maintains I (Document.update id (updateProcessingStatus failed (Some (message e)))).
Hypothesis I_softDelete : forall id, maintains I (Document.update id softDelete).
Hypothesis I_save : forall d,
  processingStatus d = processing -> processingError d = None ->
  markdownContent d = [] ->
  maintains I (Document.save d).

Lemma frame_emit (ev : Event) : isDocumentWrite ev = false -> maintains I (emit ev).
Proof.
  intros H w Hw. apply (I_frame w); [reflexivity | | exact Hw].
  unfold emit. cbn [snd]. apply writes_quiet. exact H.
Qed.

Lemma frame_consoleError (label : string) (e : Error) :
  maintains I (consoleError label e).
Proof. apply frame_emit. reflexivity. Qed.

Lemma frame_findById (id : N) : maintains I (Document.findById id).
Proof. intros w Hw. exact Hw. Qed.

Lemma frame_quiet {A} (m : M A) :
  preserves outsideLog m -> emitsOnly quiet m -> maintains I m.
Proof.
  intros Hp He w Hw. specialize (Hp w). destruct (He w) as [evs [El Hq]].
  unfold outsideLog in Hp. injection Hp as Hd _.
  apply (I_frame w); [exact Hd | | exact Hw].
  unfold writes. rewrite El, List.filter_app.
  rewrite <- (List.app_nil_r (List.filter isDocumentWrite (log w))) at 2. f_equal.
  clear El. induction Hq as [|ev evs' [_ Hev] _ IH]; [reflexivity|].
  cbn [List.filter]. rewrite Hev. exact IH.
Qed.

Lemma sync_created {B} (userId : N) (title format : jsstring)
    (filePath : option jsstring) (mimeType : jsstring) (url : option jsstring)
    (tags : list jsstring) (k : t -> M B) :
  (forall d, maintains I (k d)) ->
  maintains I
    (document <- Document.new userId title format filePath mimeType url processing tags;;
     document <- Document.save document;;
     k document).
Proof.
  intros Hk.
  apply (maintains_bind_post _
           (fun d => processingStatus d = processing /\ processingError d = None
                     /\ markdownContent d = [])).
  - intros w Hw. apply (I_frame w); [reflexivity | reflexivity | exact Hw].
  - intros w d w' E. unfold Document.new in E. injection E as <- _.
    split; [reflexivity|]. split; reflexivity.
  - intros d [H1 [H2 H3]]. apply maintains_bind; [apply I_save; assumption | exact Hk].
Qed.

Lemma sync_parseAndConvertDocument (id : N) (fb : option File) :
  maintains I (DocumentServiceSync.parseAndConvertDocument env id fb).
Proof.
  eapply maintains_ext; [apply parseAndConvertDocument_unfold|].
  apply (maintains_tryCatch_told _ told).
  - apply maintains_bind; [apply frame_emit; reflexivity|]. intros _.
    apply maintains_bind; [apply frame_findById|]. intros [d|].
    2:{ apply maintains_throw. }
    apply maintains_bind; [apply I_processing|]. intros _. cbv zeta.
    apply (maintains_bind_post _ (fun md => md <> [])).
    + apply frame_quiet; [apply convert_outsideLog | apply convert_quiet].
    + intros w md w1. apply convert_nonempty.
    + intros md Hmd. apply maintains_bind; [|intros; apply maintains_ret].
      apply I_completed. exact Hmd.
  - eapply throwsOnly_ext.
    + intros w. reflexivity.
    + apply throwsOnly_bind; [apply throwsOnly_emit|]. intros _.
      apply throwsOnly_bind; [apply throwsOnly_findById|]. intros [d|].
      2:{ apply throwsOnly_throw. reflexivity. }
      apply throwsOnly_bind; [apply throwsOnly_update|]. intros _. cbv zeta.
      apply throwsOnly_bind; [apply told_convert; exact Hwhy|]. intros md.
      apply throwsOnly_bind; [apply throwsOnly_update|]. intros _. apply throwsOnly_ret.
  - intros e He. apply maintains_bind; [apply frame_consoleError|]. intros _.
    apply maintains_bind; [apply frame_findById|]. intros doc.
    apply maintains_bind; [|intros; apply maintains_throw].
    destruct doc as [d|]; [|apply maintains_ret].
    apply I_failed. exact He.
Qed.

Lemma sync_parsed {B} (d : t) (fb : option File) (label : string)
    (k : option t -> M B) :
  (forall u, maintains I (k u)) ->
  maintains I
    (tryCatch
       (DocumentServiceSync.parseAndConvertDocument env (_id d) fb;;; ret tt)
       (fun parseError =>
          consoleError label parseError;;;
          Document.update (_id d)
            (updateProcessingStatus failed (Some (message parseError))));;;
     u <- Document.findById (_id d);; k u).
Proof.
  intros Hk. apply maintains_bind.
  - apply (maintains_tryCatch_told _ told).
    + apply maintains_bind; [apply sync_parseAndConvertDocument|].
      intros _. apply maintains_ret.
    + apply throwsOnly_bind; [apply told_parseAndConvertDocument; exact Hwhy|].
      intros _. apply throwsOnly_ret.
    + intros e He. apply maintains_bind; [apply frame_consoleError|].
      intros _. apply I_failed. exact He.
  - intros _. apply maintains_bind; [apply frame_findById | exact Hk].
Qed.

Lemma sync_handle_records (req : DocumentController.Request) :
  maintains I (DocumentController.handle (serviceSync env) req).
Proof.
  apply handle_maintains; cbn [serviceSync DocumentController.svc_uploadDocument
    DocumentController.svc_getDocument DocumentController.svc_listUserDocuments
    DocumentController.svc_deleteDocument DocumentController.svc_getFileStream
    DocumentController.svc_addUrlDocument
    DocumentController.svc_parseAndConvertDocument].
  - apply frame_consoleError.
  - intros f u m. apply maintains_bind; [|intros r; apply maintains_ret].
    unfold DocumentServiceSync.uploadDocument. apply maintains_tryCatch.
    2:{ intros e. apply maintains_bind; [apply frame_consoleError|].
        intros _. apply maintains_throw. }
    cbv zeta.
    destruct (negb (DocumentServiceSync.isValid (DocumentServiceSync.validateFile env f)));
      [apply maintains_throw|].
    apply maintains_bind.
    { apply frame_quiet; [apply uploadToS3_outsideLog | apply sync_uploadToS3_quiet]. }
    intros location.
    refine (sync_created _ _ _ _ _ _ _ _ _). intros d.
    refine (sync_parsed d _ _ _ _).
    intros [r|]; [apply maintains_ret | apply maintains_throw].
  - intros id u. unfold DocumentServiceSync.getDocument. apply maintains_tryCatch.
    + apply maintains_bind; [apply frame_findById|]. intros [d|].
      * destruct (_ && _); [apply maintains_ret | apply maintains_throw].
      * apply maintains_throw.
    + intros e. apply maintains_bind; [apply frame_consoleError|].
      intros _. apply maintains_throw.
  - intros u f. unfold DocumentServiceSync.listUserDocuments. apply maintains_tryCatch.
    + intros w Hw. exact Hw.
    + intros e. apply maintains_bind; [apply frame_consoleError|].
      intros _. apply maintains_throw.
  - intros id u. unfold DocumentServiceSync.deleteDocument. apply maintains_tryCatch.
    + apply maintains_bind; [apply frame_findById|]. intros [d|].
      * destruct (_ && _); [|apply maintains_throw].
        apply maintains_bind.
        -- destruct (filePath d) as [key|]; [|apply maintains_ret].
           destruct (truthy key); [|apply maintains_ret].
           unfold DocumentServiceSync.deleteFromS3.
           destruct (DocumentServiceSync.mockS3 env); [apply maintains_ret|].
           apply maintains_tryCatch.
           ++ apply maintains_bind; [apply frame_emit; reflexivity|].
              intros _. apply maintains_lift.
           ++ intros e. apply maintains_bind; [apply frame_consoleError|].
              intros _. apply maintains_throw.
        -- intros _. apply I_softDelete.
      * apply maintains_throw.
    + intros e. apply maintains_bind; [apply frame_consoleError|].
      intros _. apply maintains_throw.
  - intros k. apply frame_quiet; [apply getFileStream_outsideLog | apply getFileStream_quiet].
  - intros f E url u m. injection E as <-.
    unfold DocumentServiceSync.addUrlDocument. apply maintains_tryCatch.
    2:{ intros e. apply maintains_bind; [apply frame_consoleError|].
        intros _. apply maintains_throw. }
    destruct (negb (validUrl env url)); [apply maintains_throw|].
    refine (sync_created _ _ _ _ _ _ _ _ _). intros d.
    refine (sync_parsed d _ _ _ _).
    intros [r|]; [apply maintains_ret | apply maintains_throw].
  - intros f E id fb. injection E as <-. apply sync_parseAndConvertDocument.
Qed.

End SyncRecords.

Section RecordInvariant.

Import PipelineSpec InvariantSpec DocumentSchema.

Lemma status_updated (status : Status) (error : option jsstring) (d : t) :
  processingStatus (updateProcessingStatus status error d) = status.
Proof. unfold updateProcessingStatus. destruct (someTruthy error); reflexivity. Qed.

Lemma text_updated (status : Status) (error : option jsstring) (d : t) :
  markdownContent (updateProcessingStatus status error d) = markdownContent d.
Proof. unfold updateProcessingStatus. destruct (someTruthy error); reflexivity. Qed.

Lemma id_updated (status : Status) (error : option jsstring) (d : t) :
  _id (updateProcessingStatus status error d) = _id d.
Proof. unfold updateProcessingStatus. destruct (someTruthy error); reflexivity. Qed.

Lemma everyRecord_frame (P : t -> Prop) (w w' : World) :
  documents w' = documents w -> writes w' = writes w ->
  everyRecord P w -> everyRecord P w'.
Proof.
  intros Hd Hw [H1 H2]. split.
  - rewrite Hd. exact H1.
  - intros b a Hin. apply writes_In in Hin. rewrite Hw in Hin.
    apply writes_In in Hin. exact (H2 b a Hin).
Qed.

Lemma everyText_frame (w w' : World) :
  documents w' = documents w -> writes w' = writes w -> everyText w -> everyText w'.
Proof.
  intros Hd Hw H id d Hl Hmd. rewrite Hd in Hl.
  destruct (H id d Hl Hmd) as [b [a [Hin Ha]]]. exists b, a. split; [|exact Ha].
  apply writes_In. rewrite Hw. apply writes_In. exact Hin.
Qed.

(** A write that keeps the text of the record, or completes an
    extraction, keeps every text the text of a completed extraction. *)
Lemma everyText_update (id : N) (paths : t -> t) :
  (forall d, (markdownContent (paths d) = markdownContent d /\ _id (paths d) = _id d)
             \/ processingStatus (paths d) = completed) ->
  maintains everyText (Document.update id paths).
Proof.
  intros Hp w H. unfold Document.update.
  destruct (documents w !! id) as [d|] eqn:Hd; cbn [snd]; [|exact H].
  intros id' d' Hl Hmd. autorewrite with world in Hl.
  unfold textOfCompleted. autorewrite with world.
  destruct (decide (id' = id)) as [->|Hne].
  - rewrite lookup_insert_eq in Hl. injection Hl as <-.
    destruct (Hp d) as [[Hkeep Hid] | Hdone].
    + rewrite Hkeep in Hmd. destruct (H id d Hd Hmd) as [b [a [Hin [Ha1 [Ha2 Ha3]]]]].
      exists b, a. split; [apply in_or_app; left; exact Hin|].
      split; [congruence|]. split; [exact Ha2 | congruence].
    + exists (Some d), (paths d). split; [apply in_or_app; right; left; reflexivity|].
      split; [reflexivity|]. split; [exact Hdone | reflexivity].
  - rewrite lookup_insert_ne in Hl by congruence.
    destruct (H id' d' Hl Hmd) as [b [a [Hin Ha]]].
    exists b, a. split; [apply in_or_app; left; exact Hin | exact Ha].
Qed.

Lemma everyText_save (d : t) :
  markdownContent d = [] -> maintains everyText (Document.save d).
Proof.
  intros Hmd w H. unfold Document.save. destruct (validate d); cbn [snd]; [|exact H].
  intros id' d' Hl Hne. autorewrite with world in Hl.
  unfold textOfCompleted. autorewrite with world.
  destruct (decide (id' = _id d)) as [->|Hid].
  - rewrite lookup_insert_eq in Hl. injection Hl as <-. contradiction.
  - rewrite lookup_insert_ne in Hl by congruence.
    destruct (H id' d' Hl Hne) as [b [a [Hin Ha]]].
    exists b, a. split; [apply in_or_app; left; exact Hin | exact Ha].
Qed.

(** In environments whose errors carry a message, a request to the
    synchronous service leaves no [failed] record without its error. *)
Lemma sync_handle_failedHasError (env : Env) (req : DocumentController.Request) :
  saysWhy env ->
  maintains (everyRecord failedHasError)
    (DocumentController.handle (serviceSync env) req).
Proof.
  intros Hwhy. apply sync_handle_records; [exact Hwhy | apply everyRecord_frame | | | | |].
  - intros id. apply everyRecord_update. intros d _ Hs.
    rewrite status_updated in Hs. discriminate Hs.
  - intros id md _. apply everyRecord_update. intros d _ Hs.
    rewrite status_updated in Hs. discriminate Hs.
  - intros id e He. apply everyRecord_update. intros d _ _.
    unfold updateProcessingStatus. cbn [someTruthy]. unfold told in He. rewrite He.
    discriminate.
  - intros id. apply everyRecord_update. intros d H. exact H.
  - intros d Hs _ _. apply everyRecord_save. intros Hf. congruence.
Qed.

Lemma sync_handle_everyText (env : Env) (req : DocumentController.Request) :
  saysWhy env ->
  maintains everyText (DocumentController.handle (serviceSync env) req).
Proof.
  intros Hwhy. apply sync_handle_records; [exact Hwhy | apply everyText_frame | | | | |].
  - intros id. apply everyText_update. intros d. left.
    split; [apply text_updated | apply id_updated].
  - intros id md _. apply everyText_update. intros d. right. apply status_updated.
  - intros id e _. apply everyText_update. intros d. left.
    split; [apply text_updated | apply id_updated].
  - intros id. apply everyText_update. intros d. left. split; reflexivity.
  - intros d _ _ Hmd. apply everyText_save. exact Hmd.
Qed.

(** *** The asynchronous service *)

Lemma everyRecord_view {A} (P : t -> Prop) (m : M A) :
  preserves documentView m -> maintains (everyRecord P) m.
Proof.
  intros H w Hw. specialize (H w). unfold documentView in H.
  injection H as Hd _ _ Hwr. exact (everyRecord_frame P w _ Hd Hwr Hw).
Qed.

Lemma everyRecord_spawn (P : t -> Prop) (j : Job) : maintains (everyRecord P) (spawn j).
Proof.
  intros w Hw. apply (everyRecord_frame P w); [reflexivity | reflexivity | exact Hw].
Qed.

Lemma async_handle_completedHasText (env : Env) (req : DocumentController.Request) :
  maintains (everyRecord completedHasText)
    (DocumentController.handle (serviceAsync env) req).
Proof.
  apply handle_maintains; cbn [serviceAsync DocumentController.svc_uploadDocument
    DocumentController.svc_getDocument DocumentController.svc_listUserDocuments
    DocumentController.svc_deleteDocument DocumentController.svc_getFileStream
    DocumentController.svc_addUrlDocument
    DocumentController.svc_parseAndConvertDocument].
  - apply everyRecord_consoleError.
  - intros f u m. apply maintains_bind; [|intros r; apply maintains_ret].
    unfold DocumentService.uploadDocument.
    apply maintains_tryCatch; [|intros e; apply maintains_throw].
    apply maintains_bind.
    { unfold DocumentService._validateFile.
      destruct (_ <? _); [apply maintains_throw|].
      destruct (lookup _ _); [apply maintains_ret | apply maintains_throw]. }
    intros _. cbv zeta.
    apply maintains_bind.
    { unfold DocumentService._uploadToS3.
      destruct (negb (s3Enabled env)); [apply maintains_throw|].
      apply maintains_tryCatch; [|intros e; apply maintains_throw].
      apply maintains_bind; [apply everyRecord_emit; reflexivity|].
      intros _. apply maintains_lift. }
    intros s3Result.
    apply (maintains_bind_post _ (fun d => processingStatus d = pending)).
    + apply everyRecord_new.
    + intros w d w' E. unfold Document.new in E. injection E as <- _. reflexivity.
    + intros d Hd. apply maintains_bind.
      * apply everyRecord_save. intros Hs. congruence.
      * intros saved. apply maintains_bind; [apply everyRecord_spawn|].
        intros _. apply maintains_ret.
  - intros id u. unfold DocumentService.getDocument.
    apply maintains_tryCatch; [|intros e; apply maintains_throw].
    apply maintains_bind; [apply everyRecord_findById|]. intros [d|].
    + destruct (_ && _); [apply maintains_ret | apply maintains_throw].
    + apply maintains_throw.
  - intros u f. unfold DocumentService.listUserDocuments.
    apply maintains_tryCatch; [|intros e; apply maintains_throw].
    intros w Hw. exact Hw.
  - intros id u. unfold DocumentService.deleteDocument.
    apply maintains_tryCatch; [|intros e; apply maintains_throw].
    apply maintains_bind; [apply everyRecord_findById|]. intros [d|].
    + destruct (_ && _); [|apply maintains_throw].
      apply everyRecord_update. intros d0 H. exact H.
    + apply maintains_throw.
  - intros k. unfold DocumentService.getFileStream.
    apply maintains_tryCatch; [|intros e; apply maintains_throw].
    destruct (negb (s3Enabled env)); [apply maintains_throw|].
    apply maintains_bind; [apply everyRecord_emit; reflexivity|].
    intros _. apply maintains_lift.
  - intros f E. discriminate E.
  - intros f E. discriminate E.
Qed.

Lemma async_job_completedHasText (env : Env) (j : Job) :
  yieldsText env j -> maintains (everyRecord completedHasText) (runJob env j).
Proof.
  intros Hj. destruct j as [id buf mime | id md]; unfold runJob.
  - apply maintains_tryCatch; [|intros e; apply everyRecord_consoleError].
    unfold DocumentService.processFileExtraction. apply maintains_tryCatch.
    2:{ intros e. apply maintains_bind; [apply everyRecord_consoleError|]. intros _.
        apply everyRecord_update. intros d _ Hs. discriminate Hs. }
    apply maintains_bind.
    { apply everyRecord_update. intros d _ Hs. discriminate Hs. }
    intros _. apply maintains_bind; [|intros _; apply maintains_ret].
    rewrite extractToMarkdown_content. apply maintains_tryCatch.
    2:{ intros e. apply maintains_bind; [|intros _; apply maintains_throw].
        apply everyRecord_update. intros d _ Hs. discriminate Hs. }
    apply maintains_bind; [apply everyRecord_emit; reflexivity|]. intros _.
    apply (maintains_bind_post _ (fun md => md <> [])).
    + intros w Hw. rewrite content_run. exact Hw.
    + intros w md w1 E. rewrite content_run in E. injection E as E _.
      exact (Hj md E).
    + intros md Hmd. apply maintains_bind.
      * apply everyRecord_update. intros d _ _. exact Hmd.
      * intros _. apply maintains_bind; [apply everyRecord_spawn|].
        intros _. apply maintains_ret.
  - apply maintains_tryCatch; [|intros e; apply everyRecord_consoleError].
    unfold FileExtractService.processAIFeatures. apply maintains_tryCatch.
    2:{ intros e. apply maintains_bind; [apply everyRecord_consoleError|].
        intros _. apply maintains_throw. }
    apply maintains_bind; [apply everyRecord_findById|]. intros [d|].
    2:{ apply maintains_throw. }
    apply maintains_bind; [apply everyRecord_emit; reflexivity|]. intros _.
    apply maintains_bind; [apply maintains_lift|]. intros restructured.
    apply maintains_bind.
    { apply everyRecord_update. intros d0 H. exact H. }
    intros _.
    apply maintains_bind.
    { apply maintains_settle, everyRecord_view, view_generateAndSaveSummary. }
    intros summaryResult.
    apply maintains_bind.
    { apply maintains_settle, everyRecord_view, view_extractAndSaveConcepts. }
    intros conceptsResult.
    apply maintains_bind.
    + destruct summaryResult; [apply maintains_ret | apply everyRecord_consoleError].
    + intros _. destruct conceptsResult; [apply maintains_ret | apply everyRecord_consoleError].
Qed.

Lemma reachable_weaken (step step' : World -> World -> Prop) (w : World) :
  (forall a b, step a b -> step' a b) -> reachable step w -> reachable step' w.
Proof.
  intros H. induction 1 as [|a b _ IH Hs]; [apply reachable_init|].
  apply (reachable_step step' a); [exact IH | apply H; exact Hs].
Qed.

Lemma everyRecord_empty (P : t -> Prop) : everyRecord P emptyWorld.
Proof.
  split; [|intros b a []].
  intros id d H. unfold emptyWorld in H. cbn [documents] in H.
  rewrite lookup_empty in H. discriminate H.
Qed.

Lemma async_reachable_completedHasText (w : World) :
  reachable (stepAsyncWhere yieldsText) w -> everyRecord completedHasText w.
Proof.
  induction 1 as [|w w' _ IH Hstep]; [apply everyRecord_empty|].
  destruct Hstep as [env req w | env j before after w Hdet Hj].
  - apply async_handle_completedHasText. exact IH.
  - apply async_job_completedHasText; [exact Hj|].
    apply (everyRecord_frame _ w); [reflexivity | reflexivity | exact IH].
Qed.

Lemma sync_reachable_failedHasError (w : World) :
  reachable (stepSyncWhere saysWhy) w -> everyRecord failedHasError w.
Proof.
  induction 1 as [|w w' _ IH Hstep]; [apply everyRecord_empty|].
  destruct Hstep as [env req w Hwhy].
  apply sync_handle_failedHasError; assumption.
Qed.

Lemma sync_reachable_everyText (w : World) :
  reachable (stepSyncWhere saysWhy) w -> everyText w.
Proof.
  induction 1 as [|w w' _ IH Hstep].
  - intros id d H. unfold emptyWorld in H. cbn [documents] in H.
    rewrite lookup_empty in H. discriminate H.
  - destruct Hstep as [env req w Hwhy]. apply sync_handle_everyText; assumption.
Qed.

Lemma stepAsyncWhere_step (ok : Env -> Job -> Prop) (a b : World) :
  stepAsyncWhere ok a b -> stepAsync a b.
Proof.
  intros [env req w | env j before after w Hdet _];
    [apply stepAsync_request | apply stepAsync_job; exact Hdet].
Qed.

Lemma stepSyncWhere_step (ok : Env -> Prop) (a b : World) :
  stepSyncWhere ok a b -> stepSync a b.
Proof. intros [env req w _]. apply stepSync_request. Qed.

(** C1 (as amended).  In every world that the asynchronous assembly
    reaches through extractions that yield a text, every stored record
    and every record ever written has a non-empty [markdownContent]
    exactly when its status is [completed], and a non-null
    [processingError] exactly when its status is [failed].  In every world
    that the synchronous assembly reaches in environments whose errors
    carry a message, every stored record and every record ever written has
    a non-null [processingError] exactly when its status is [failed], and
    a non-empty [markdownContent] whenever its status is [completed]; and
    the text of a stored record, when it has one, is the text that an
    extraction of this record was completed with, also when the record is
    [processing] or [failed] by now. *)
Theorem C1_record_invariant (w : World) :
  (reachable (stepAsyncWhere yieldsText) w ->
   (forall id d, documents w !! id = Some d ->
      textIffCompleted d /\ errorIffFailed d) /\
   (forall before after, In (DocumentWrite before after) (log w) ->
      textIffCompleted after /\ errorIffFailed after)) /\
  (reachable (stepSyncWhere saysWhy) w ->
   (forall id d, documents w !! id = Some d ->
      errorIffFailed d /\
      (processingStatus d = completed -> markdownContent d <> []) /\
      textOfCompleted w d) /\
   (forall before after, In (DocumentWrite before after) (log w) ->
      errorIffFailed after /\
      (processingStatus after = completed -> markdownContent after <> []))).
Proof.
  split; intros H.
  - pose proof (async_reachable_completedHasText w H) as [T1 T2].
    pose proof (async_reachable_invariant w
                  (reachable_weaken _ _ w (stepAsyncWhere_step yieldsText) H))
      as [[S1 S2] _].
    split.
    + intros id d Hd. destruct (S1 id d Hd) as [He Hm].
      split; [split; [exact Hm | exact (T1 id d Hd)] | exact He].
    + intros b a Hin. destruct (S2 b a Hin) as [He Hm].
      split; [split; [exact Hm | exact (T2 b a Hin)] | exact He].
  - pose proof (sync_reachable_failedHasError w H) as [F1 F2].
    pose proof (sync_reachable_everyText w H) as Ht.
    pose proof (sync_reachable_invariant w
                  (reachable_weaken _ _ w (stepSyncWhere_step saysWhy) H))
      as [S1 S2].
    split.
    + intros id d Hd. destruct (S1 id d Hd) as [He Hm].
      split; [split; [exact He | exact (F1 id d Hd)]|].
      split; [exact Hm | exact (Ht id d Hd)].
    + intros b a Hin. destruct (S2 b a Hin) as [He Hm].
      split; [split; [exact He | exact (F2 b a Hin)] | exact Hm].
Qed.

Lemma saysWhy_demo (pdf : Result PdfText.PdfData) (restructure summary : Result jsstring)
    (concepts : jsstring -> Result (list ConceptData)) :
  (forall e, pdf = Throw e -> told e) ->
  saysWhy (Demo.env pdf restructure summary concepts).
Proof.
  intros H. split.
  - intros bytes e E. apply H. exact E.
  - intros key e E. discriminate E.
Qed.

Lemma extractedWorld_reachable :
  reachable (stepAsyncWhere yieldsText) Sample.extractedWorld.
Proof.
  unfold Sample.extractedWorld.
  apply (reachable_step _ Demo.scannedUploaded).
  - apply (reachable_step _ emptyWorld); [apply reachable_init|].
    apply stepAsyncWhere_request.
  - apply stepAsyncWhere_job; [vm_compute; reflexivity|].
    intros md E. vm_compute in E. injection E as <-. discriminate.
Qed.

Lemma reprocessedWorld_told : reachable (stepSyncWhere saysWhy) Demo.reprocessedWorld.
Proof.
  unfold Demo.reprocessedWorld.
  apply (reachable_step _ Demo.parsedWorld).
  - apply (reachable_step _ emptyWorld); [apply reachable_init|].
    apply stepSyncWhere_request. apply saysWhy_demo. intros e E. discriminate E.
  - apply stepSyncWhere_request. apply saysWhy_demo.
    intros e E. injection E as <-. reflexivity.
Qed.

Lemma C1_record_invariant_witness :
  reachable (stepAsyncWhere yieldsText) Sample.extractedWorld /\
  reachable (stepSyncWhere saysWhy) Demo.reprocessedWorld /\
  (forall id d, documents Sample.extractedWorld !! id = Some d ->
     textIffCompleted d /\ errorIffFailed d) /\
  (forall id d, documents Demo.reprocessedWorld !! id = Some d ->
     errorIffFailed d /\
     (processingStatus d = completed -> markdownContent d <> []) /\
     textOfCompleted Demo.reprocessedWorld d).
Proof.
  split; [exact extractedWorld_reachable|]. split; [exact reprocessedWorld_told|].
  split.
  - exact (proj1 (proj1 (C1_record_invariant Sample.extractedWorld)
                    extractedWorld_reachable)).
  - exact (proj1 (proj2 (C1_record_invariant Demo.reprocessedWorld)
                    reprocessedWorld_told)).
Defined.

(** C1 as stated fails in the synchronous assembly: a reprocessing that
    fails leaves the record [failed] with the [markdownContent] of the
    earlier extraction, so that a text that is not empty does not imply
    the status [completed]. *)
Lemma C1_counterexample :
  exists d,
    reachable (stepSyncWhere saysWhy) Demo.reprocessedWorld /\
    reachable stepSync Demo.reprocessedWorld /\
    documents Demo.reprocessedWorld !! 1 = Some d /\
    processingStatus d = failed /\ markdownContent d <> [] /\
    ~ textIffCompleted d.
Proof.
  eexists. split; [exact reprocessedWorld_told|].
  split; [exact reprocessedWorld_reachable|].
  split; [vm_compute; reflexivity|]. split; [reflexivity|].
  split; [discriminate|].
  intros [H _]. assert (Hc : failed = completed) by (apply H; discriminate).
  discriminate Hc.
Qed.

(** The two ways in which the code departs from the invariant that the
    amended statement leaves aside.  The asynchronous extraction of a PDF
    without text ends [completed] with an empty [markdownContent]. *)
Lemma scanned_completed_without_text :
  exists d, reachable stepAsync Demo.scannedWorld /\
            documents Demo.scannedWorld !! 1 = Some d /\
            processingStatus d = completed /\ markdownContent d = [].
Proof.
  eexists. split; [exact scannedWorld_reachable|].
  split; [vm_compute; reflexivity|]. split; reflexivity.
Qed.

(** An error without a message leaves the record of the synchronous
    assembly [failed] with no [processingError]. *)
Lemma failed_without_error :
  exists d, reachable stepSync Sample.silentWorld /\
            documents Sample.silentWorld !! 1 = Some d /\
            processingStatus d = failed /\ processingError d = None.
Proof.
  eexists. split.
  - unfold Sample.silentWorld.
    apply (reachable_step stepSync emptyWorld); [apply reachable_init|].
    apply stepSync_request.
  - split; [vm_compute; reflexivity|]. split; reflexivity.
Qed.

End RecordInvariant.
